(* ===== verification/_CoqProject ===== *)
-Q . S2P
Prelude.v
Store.v
CircuitBreaker.v
Retry.v
HostAllow.v
StdPath.v
Fs.v
Watch.v
PathSecurity.v
LbBreaker.v
LbBackend.v
LbHealth.v
LbProxy.v
LbServer.v
ModulePath.v
Http.v
TraceContext.v
RtError.v
WebContent.v
AotCache.v
ModuleCache.v
Router.v
Runtime.v
RouterProps.v
AppError.v
KvStore.v
KvLaws.v
KvProps.v
Storage.v
StorageLaws.v
StorageProps.v
SortBy.v
Cron.v
CronProps.v
StateStore.v
StateProps.v
Daemon.v
Instances.v
Logs.v
DaemonProps.v
InstanceProps.v
Cli.v
Json.v
Sql.v
DaemonConfig.v
DaemonApi.v
DaemonLife.v
OpenApi.v
Gateway.v
GatewayProps.v
Script.v
ScriptProps.v
Serve.v
Spans.v
JsEngine.v
Embed.v
Api.v
HttpServer.v
ManifestTypes.v
HostConfig.v
Builders.v
Manifest.v
WasmExec.v
Build.v
GitCache.v
Packages.v
Templates.v
New.v
GithubTemplate.v
StaticCmd.v
Caches.v
Strip.v
Run.v
Cluster.v
Main.v
