(* ===== verification/Prelude.v ===== *)
(** * Verification of mik

    mik is a runtime for WebAssembly HTTP handlers: a server that routes
    requests to WASM modules and JavaScript that orchestrates them, a load
    balancer in front of several servers, a daemon with key-value, object,
    SQL and scheduling services that also supervises server processes, and the
    commands around them. This library is a shallow embedding of the parts of
    [src/src/] that decide what the program does, with the theorems that make
    them correct. Definitions carry the names of the Rust items they translate.

    ** The parts and how they interact

    A connection is accepted by HttpServer.v; its requests enter Serve.v, which
    answers health and metrics itself, adds tracing headers (TraceContext.v)
    and hands the rest to Router.v. That serves static files and schemas
    (WebContent.v), documents of the gateway (Gateway.v, OpenApi.v, over the
    JSON of Json.v), scripts (Script.v), or a module. The module's circuit
    breaker (CircuitBreaker.v, over the keyed store of Store.v) and its
    semaphore decide whether it may run; the loader (ModuleCache.v) sanitises
    the name (PathSecurity.v, ModulePath.v), reads the file and compiles it
    through the artifact cache (AotCache.v); the component runs within the
    limits of WasmExec.v, which asks HostAllow.v about outgoing requests; the
    outcome is recorded in the breaker, and errors become responses (RtError.v).
    Host calls of a script take the same route; JsEngine.v runs the script and
    turns its value into JSON. Spans.v times the request, its script and the
    host calls. Embed.v is the interface for programs that embed the runtime. The configuration of it all comes from the
    manifest (ManifestTypes.v, Manifest.v) through HostConfig.v.

    In front of several servers the load balancer builds (LbServer.v) a proxy
    (LbProxy.v) that selects a backend (LbBackend.v) with its own breaker
    (LbBreaker.v), kept up to date by health checks (LbHealth.v); Run.v starts
    the servers and the load balancer.

    The daemon's services are the key-value store (KvStore.v), the object store
    (Storage.v) and SQL (Sql.v), whose errors are AppError.v. Its scheduler
    (Cron.v) runs jobs against modules, its API (Daemon.v) keeps them in the
    state database (StateStore.v), and Instances.v supervises server processes
    with the log files of Logs.v. DaemonConfig.v says which services it opens
    and where; DaemonApi.v puts its handlers behind their routes, layers and
    extractors, and DaemonLife.v follows the daemon with all of this from one
    start to the next. Cli.v has the commands that work on the same
    database and processes without the daemon, among them the development
    server, which follows the file watcher (Watch.v). The other commands work
    on the files of a project, a tree with a monad of operations (Fs.v):
    Packages.v edits the manifest and fetches dependencies, those from git
    through the cache of GitCache.v, all with Retry.v; Build.v compiles
    and composes, New.v with Templates.v and GithubTemplate.v makes projects,
    StaticCmd.v collects static files, Strip.v strips a component, Caches.v
    cleans the caches. Main.v reads the command line and calls one of them; it
    also reads the command lines that Run.v, Logs.v and Cluster.v (the cluster
    library, for embedding) start the program itself with.

    ** Files and sources (below [src/src/])

    - Prelude.v: results, machine integers, byte strings, automation.
      Store.v: moka's caches, as an interface with laws. StdPath.v: the parts of
      [std::path] used. Fs.v: files and directories, and the error monad over
      them. SortBy.v: stable sorting and ordered maps. Http.v:
      headers and responses. Json.v: serde_json's values.
    - CircuitBreaker.v, Retry.v, HostAllow.v: reliability/ (circuit_breaker/,
      retry.rs, security.rs). PathSecurity.v: runtime/security/.
    - LbBreaker.v, LbBackend.v, LbHealth.v, LbProxy.v, LbServer.v:
      runtime/lb/ (circuit_breaker.rs; backend.rs; health.rs and metrics.rs;
      selection.rs and proxy.rs; the builders, server.rs and mod.rs).
    - Router.v: runtime/request_handler.rs from [handle_request_inner] down,
      cut in two at the execution ([begin], [finish]); [step] interleaves
      requests and drops some. Runtime.v links it to ModuleCache.v
      (runtime/cache.rs), RouterProps.v has its properties. Serve.v:
      [handle_request], endpoints.rs and observability.rs. HttpServer.v:
      runtime/server.rs. Embed.v: runtime/mod.rs; Api.v: its
      [handle_request] and request.rs. Cluster.v: runtime/cluster/.
    - WasmExec.v: runtime/host.rs, host_state.rs and wasm_executor.rs.
      Script.v, ScriptProps.v: runtime/script/ (mod.rs, handler.rs, bindings.rs,
      types.rs); JsEngine.v: its context.rs and runtime.rs. Spans.v:
      runtime/spans.rs and where request_handler.rs and script/mod.rs use it.
      Gateway.v, OpenApi.v,
      GatewayProps.v: runtime/gateway/. ModulePath.v, TraceContext.v, RtError.v
      (error.rs, types.rs), WebContent.v (compression.rs, static_files.rs,
      schema_handler.rs), AotCache.v: the runtime/ files of these names.
    - HostConfig.v, Builders.v: runtime/host_config.rs and builder.rs, and the
      builders of server.rs and lb/. ManifestTypes.v, Manifest.v: manifest/.
    - AppError.v: daemon/http/mod.rs (errors). KvStore.v, KvLaws.v, KvProps.v;
      Storage.v, StorageLaws.v, StorageProps.v; Sql.v: daemon/services/ and the
      handlers of daemon/http/handlers/ of these names.
    - Cron.v, CronProps.v: daemon/cron/. StateStore.v, StateProps.v:
      daemon/state/. Daemon.v, DaemonProps.v: daemon/http/handlers/cron.rs and
      the start-up of daemon/http/mod.rs. Instances.v, InstanceProps.v:
      daemon/http/handlers/instances.rs and the health checks of mod.rs.
      Logs.v: daemon/process/ (log_rotation.rs, lifecycle.rs). Watch.v:
      daemon/watch.rs. DaemonConfig.v: daemon/config.rs, paths.rs and
      services/builder.rs. DaemonApi.v: the router of daemon/http/mod.rs,
      http/types.rs (requests) and metrics.rs (counting of requests);
      DaemonLife.v: [serve] of daemon/http/mod.rs.
    - Run.v: commands/run.rs. Cli.v: commands/daemon.rs, dev.rs and
      daemon/startup.rs. Packages.v, GitCache.v: commands/add.rs, pull.rs and
      registry.rs. Build.v:
      commands/build.rs. New.v, Templates.v, GithubTemplate.v: commands/new/
      (mod.rs and interactive.rs, templates.rs, github.rs). StaticCmd.v,
      Strip.v: commands/static_cmd.rs and strip.rs. Caches.v: commands/cache.rs
      and cache/schema.rs. Main.v: main.rs.

    ** Interfaces

    Components meet through type classes with laws, against which the client is
    proved and which the implementation discharges: [Store]/[StoreLaws] (moka,
    of the breaker and the module cache), [Selection] with its laws
    ([RoundRobin] of the proxy), [ModuleLoader]/[ModuleLoaderLaws] (the loader
    of the router; ModuleCache.v in Runtime.v), [KvBackend]/[KvLaws] and
    [StorageBackend] with its laws (memory and embedded backends). Third-party
    code is a class where several definitions use it: [JobScheduler] (the cron
    crate), [Serde]/[SerdeLaws] (serde_json), [SqlEngine] with [Transactions]
    and [TransactionLaws] (SQLite), [ToolLaws] (the tools [mik build] starts),
    [HeaderNameLaws] (the http crate), [ClapLaws] (clap), [RouterLaws] (axum's
    routing), [JsApi] (rquickjs), [Git]/[GitLaws] (libgit2), [Backon] with its
    laws (the crate backon); each has an instance that shows its laws can
    hold. [Setters] is shared by the builders.

    ** What the theorems show

    - Circuit breaker: which states are reachable ([circuit_invariant]) and one
      probe at a time ([single_probe]); the lemmas [check_request_spec],
      [opens_at_threshold] and [recovery_cycle] have the rest of its behaviour.
      [breaker_refines_machine] is the load balancer's; the lemma
      [retry_sync_spec] is about the retry loop.
    - Requests: requests and host calls together keep the concurrency limits
      and lose no permit ([bulkhead_with_scripts]), and each runs the module it
      names ([everything_runs_its_module]); what the script endpoint answers
      ([script_answers]), what a script comes to in the engine
      ([script_results]; the lemma [served_run] joins the two) and how the
      request was timed ([spans_form_tree]); what every answer carries ([answers_are_traced]); the
      connection limit and the shutdown ([connections_bounded]); the embedding
      interface answers as the server does ([embedding_spec]), and a pool of
      runtimes as that many separate ones ([cluster_spec]). RouterProps.v
      also has what the breaker of tenant modules does instead of what it should.
    - Execution: a component reaches only allowed hosts and stays within its
      limits ([sandbox], [host_allowed_iff]), and its execution ends
      ([execution_ends]), with the two cases in which it is not answered or not
      cut off in time.
    - Containment: [sanitize_file_path_safe], [within_base_contained], and the
      lemma [static_files_contained].
    - The gateway tells the truth: the handlers listed are the modules that run
      ([handlers_listed]), documented paths are routed to the module that
      documents them ([documented_paths_routed]), the documents are well formed
      ([aggregate_valid]). The lemma [traceparent_roundtrip] is about tracing
      headers.
    - Services: both key-value backends refine a map with deadlines and both
      storage backends a map of objects, along any history of requests
      ([kv_refines_map], [storage_refines_map]; the lemma [ttl_bounds] has the
      bounds of TTLs); atomic SQL batches ([batch_atomic]). The lemma
      [reconcile_restores] is about metadata and files.
    - The daemon: what its HTTP interface lets whom do, with which handler and
      on which service ([api_access]); scheduled jobs under any interleaving ([jobs_have_schedules])
      and across restarts ([jobs_survive_restart]); what holds over the life of
      the daemon, requests, executions and restarts together ([daemon_life]); what a health check makes of
      an instance ([health_check_spec]); logs ([logs_keep_latest]).
    - Configuration and commands: which manifests and configurations are
      accepted ([manifest_valid_iff]; the lemma [manifest_configuration]); workers and
      their ports ([workers_spec]); changes of files
      ([debounce_spec]; the lemma [dev_stops_its_servers] is about the
      development server, [commands_exclude_daemon] about commands next to the
      daemon);
      dependencies ([sync_spec], [add_spec]), none of which is fetched with a
      retry ([downloads_never_retried]); the lemma [default_stays] is about
      their commits; what a build packages
      ([build_spec]), a new project contains ([new_project_spec]), the collector
      of static files copies ([static_spec]) and the caches lose
      ([caches_spec]); and which of the command lines the program starts itself
      with it accepts ([spawned_commands]).

    ** Abstractions and bounds

    - The clock is read once per operation and passed as an argument; an atomic
      operation, a moka closure and a lock-protected section are single steps,
      and interleavings of steps are explicit where they matter (requests,
      host calls, executions of jobs, connections).
    - Third-party code (moka, wasmtime, the JavaScript interpreter, reqwest,
      redb's and SQLite's transactions, gzip, mime_guess, percent decoding,
      hashes, TOML, git and OCI clients) is a parameter; what is relied on is a
      named hypothesis or class law, and each is instantiated in a witness. A
      run of a script is the finite tree of its host calls; a component is a
      machine that may run for ever.
    - The operating system (processes, signals, files outside of the modelled
      directories) is an argument of the operation that uses it. redb lets one
      process at a time open the database. The order in which a hash map or a
      directory is walked is a parameter.
    - The file system does not change while a file it describes is cached, nor
      between the checks and the writes of one command.
    - Integers keep their width where it matters: [u32] counters saturate,
      atomics wrap at 64 bits, ports at 16, TTLs wrap or abort. Sizes of the
      artifact directory and counts of files are below 2^64.
    - Fuel: the retry loop runs on [max_retries + 1], which [retry_sync_spec]
      shows is enough; scans of a directory run on the depth of its tree; an
      execution on more steps than its fuel budget, as [execution_ends] shows.
      The conversion of a JavaScript value has the stack as its fuel: a frame for
      each level of the value is enough, and for a circular one no stack is
      ([script_results]).
    - Panics are [None]: the release profile aborts on them.
    - Router.v takes an execution that is answered; the one that hangs is in
      WasmExec.v only.

    ** Not modelled

    The engines themselves (wasmtime, the JavaScript interpreter), the HTTP
    protocol, clap, archives and version control; OTLP export, the audit log,
    histograms and other output. The SQL service in memory does what that of
    sqlite.rs does, on another database. Reading the result of a script runs no
    getters. runtime/module_loader.rs is not compiled into the program. *)

From Stdlib Require Export ZArith Lia.
From Stdlib Require Import String.
From Stdlib Require Export Ascii.
From stdpp Require Export base tactics list strings gmap fin_maps.
From stdpp Require pretty.

#[global] Open Scope Z_scope.
#[global] Set Default Goal Selector "!".

(** ** Fallible code *)

(** Rust's [Result<A, E>]. *)
Inductive result (A E : Type) : Type :=
| Ok (a : A)
| Err (e : E).
Arguments Ok {A E} _.
Arguments Err {A E} _.

Definition is_ok {A E} (r : result A E) : bool :=
  match r with Ok _ => true | Err _ => false end.

(** Rust's [?] operator. *)
Definition res_bind {A B E} (r : result A E) (k : A -> result B E) : result B E :=
  match r with Ok a => k a | Err e => Err e end.

Declare Scope mik_scope.
Delimit Scope mik_scope with mik.
Notation "'let?' x ':=' r 'in' k" := (res_bind r (fun x => k))
  (at level 10, x pattern, r at level 100, k at level 200) : mik_scope.
#[global] Open Scope mik_scope.

(** The state a successful run leaves, without computing it twice *)
Lemma ok_pair {A E} (x : result unit E * A) : is_ok x.1 = true -> x = (Ok tt, x.2).
Proof. by destruct x as [[[]|] ?]. Qed.

(** [Option::ok_or] *)
Definition ok_or {A E} (o : option A) (e : E) : result A E :=
  match o with Some a => Ok a | None => Err e end.

Lemma res_bind_Ok {A B E} (r : result A E) (k : A -> result B E) b :
  res_bind r k = Ok b <-> exists a, r = Ok a /\ k a = Ok b.
Proof. destruct r; simpl; split; intros; naive_solver. Qed.

(** ** Machine integers *)

Definition u32_max : Z := 4294967295.
Definition u64_max : Z := 18446744073709551615.
(** [usize] of the 64-bit targets the project builds for. *)
Definition usize_max : Z := u64_max.

Definition sat_add_u32 (a b : Z) : Z := Z.min (a + b) u32_max.
Definition wrap_u32 (z : Z) : Z := z mod (u32_max + 1).
Definition wrap_u64 (z : Z) : Z := z mod (u64_max + 1).
Definition sat_sub (a b : Z) : Z := Z.max 0 (a - b).

Definition is_u32 (z : Z) : Prop := 0 <= z <= u32_max.
Definition is_u64 (z : Z) : Prop := 0 <= z <= u64_max.

Ltac unfold_ints :=
  unfold is_u32, is_u64, sat_add_u32, wrap_u32, wrap_u64, sat_sub,
    usize_max, u32_max, u64_max in *.
Ltac ints := unfold_ints; lia.

Lemma wrap_u64_small z : is_u64 z -> wrap_u64 z = z.
Proof. intros; unfold_ints; apply Z.mod_small; lia. Qed.
Lemma wrap_u32_small z : is_u32 z -> wrap_u32 z = z.
Proof. intros; unfold_ints; apply Z.mod_small; lia. Qed.
Lemma sat_add_u32_small a b : a + b <= u32_max -> sat_add_u32 a b = a + b.
Proof. unfold sat_add_u32. lia. Qed.
Lemma sat_add_u32_mono a : 1 <= a <= u32_max -> 1 <= sat_add_u32 a 1 <= u32_max.
Proof. unfold sat_add_u32. lia. Qed.

(** Case analysis on the integer comparisons of the goal. *)
Ltac zcase :=
  match goal with
  | |- context [?a <=? ?b] => destruct (Z.leb_spec a b)
  | |- context [?a <? ?b] => destruct (Z.ltb_spec a b)
  | |- context [?a =? ?b] => destruct (Z.eqb_spec a b)
  end.

Ltac zcase_in H :=
  match type of H with
  | context [?a <=? ?b] => destruct (Z.leb_spec a b)
  | context [?a <? ?b] => destruct (Z.ltb_spec a b)
  | context [?a =? ?b] => destruct (Z.eqb_spec a b)
  end.

(** ** Time

    An [Instant] is a number of nanoseconds on the monotonic clock, a
    [Duration] a non-negative number of nanoseconds. [elapsed] saturates at
    zero, as [Instant::elapsed] does. *)
Notation Instant := Z (only parsing).
Notation Duration := Z (only parsing).
Definition from_millis (n : Z) : Duration := n * 1000000.
Definition from_secs (n : Z) : Duration := n * 1000000000.
Definition as_secs (d : Duration) : Z := d / 1000000000.
Definition elapsed (now since : Instant) : Duration := sat_sub now since.

(** ** Byte strings

    Rust's [str] is its UTF-8 bytes: a [string] of 8-bit characters. *)
Module Str.

Definition code (c : ascii) : N := N_of_ascii c.
Definition chr (n : N) : ascii := ascii_of_N n.

Definition NUL : ascii := "000"%char.
Definition SLASH : ascii := "/"%char.
Definition BACKSLASH : ascii := "\"%char.
Definition COLON : ascii := ":"%char.
Definition DOT : ascii := "."%char.

Definition len (s : string) : Z := Z.of_nat (String.length s).
Definition is_empty (s : string) : bool := match s with ""%string => true | _ => false end.

(** [char::is_ascii_*] *)
Definition in_range (lo hi : N) (c : ascii) : bool :=
  (N.leb lo (code c) && N.leb (code c) hi)%bool.
Definition is_upper : ascii -> bool := in_range 65 90.
Definition is_lower : ascii -> bool := in_range 97 122.
Definition is_alpha (c : ascii) : bool := (is_upper c || is_lower c)%bool.
Definition is_digit : ascii -> bool := in_range 48 57.
Definition is_alphanumeric (c : ascii) : bool := (is_alpha c || is_digit c)%bool.
Definition is_hexdigit (c : ascii) : bool :=
  (is_digit c || in_range 65 70 c || in_range 97 102 c)%bool.

Definition lower_char (c : ascii) : ascii := if is_upper c then chr (code c + 32) else c.
Definition upper_char (c : ascii) : ascii := if is_lower c then chr (code c - 32) else c.

Fixpoint map (f : ascii -> ascii) (s : string) : string :=
  match s with
  | EmptyString => EmptyString
  | String c s' => String (f c) (map f s')
  end.

(** [str::to_ascii_lowercase] *)
Definition to_ascii_lowercase : string -> string := map lower_char.
Definition to_ascii_uppercase : string -> string := map upper_char.

(** [str::to_lowercase], as far as comparisons with ASCII strings can observe
    it: U+212A (KELVIN SIGN, bytes E2 84 AA) and U+0130 (bytes C4 B0) are the
    only non-ASCII characters whose lowercase form contains an ASCII
    character ([k], and [i] followed by U+0307); every other non-ASCII
    character stays non-ASCII, and its bytes are kept here. *)
Fixpoint to_lowercase (s : string) : string :=
  match s with
  | EmptyString => EmptyString
  | String c s1 =>
      let keep := String (lower_char c) (to_lowercase s1) in
      match s1 with
      | EmptyString => keep
      | String d s2 =>
          if (Ascii.eqb c "196" && Ascii.eqb d "176")%bool%char
          then String "105" (String "204" (String "135" (to_lowercase s2)))
          else match s2 with
               | EmptyString => keep
               | String e s3 =>
                   if (Ascii.eqb c "226" && Ascii.eqb d "132" && Ascii.eqb e "170")%bool%char
                   then String "107" (to_lowercase s3)
                   else keep
               end
      end
  end.

Fixpoint all (p : ascii -> bool) (s : string) : bool :=
  match s with
  | EmptyString => true
  | String c s' => (p c && all p s')%bool
  end.

Fixpoint any (p : ascii -> bool) (s : string) : bool :=
  match s with
  | EmptyString => false
  | String c s' => (p c || any p s')%bool
  end.

Definition contains_char (c : ascii) (s : string) : bool := any (Ascii.eqb c) s.

(** [str::starts_with] and [str::strip_prefix] *)
Fixpoint strip_prefix (p s : string) : option string :=
  match p with
  | EmptyString => Some s
  | String a p' =>
      match s with
      | EmptyString => None
      | String b s' => if Ascii.eqb a b then strip_prefix p' s' else None
      end
  end.
Definition starts_with (p s : string) : bool :=
  match strip_prefix p s with Some _ => true | None => false end.

(** [str::contains] on a string pattern *)
Fixpoint contains (needle s : string) : bool :=
  (starts_with needle s ||
   match s with
   | EmptyString => false
   | String _ s' => contains needle s'
   end)%bool.

(** [str::strip_suffix] and [str::ends_with] *)
Fixpoint strip_suffix (suf s : string) : option string :=
  if String.eqb s suf then Some EmptyString
  else match s with
       | EmptyString => None
       | String c s' =>
           match strip_suffix suf s' with
           | Some r => Some (String c r)
           | None => None
           end
       end.
Definition ends_with (suf s : string) : bool :=
  match strip_suffix suf s with Some _ => true | None => false end.

(** [str::find] on a character *)
Fixpoint find_char (c : ascii) (s : string) : option Z :=
  match s with
  | EmptyString => None
  | String d s' =>
      if Ascii.eqb c d then Some 0
      else match find_char c s' with Some n => Some (n + 1) | None => None end
  end.

(** [str::split] on a character predicate: always at least one piece. *)
Fixpoint split_pred (p : ascii -> bool) (s : string) : list string :=
  match s with
  | EmptyString => [EmptyString]
  | String c s' =>
      if p c then EmptyString :: split_pred p s'
      else match split_pred p s' with
           | w :: ws => String c w :: ws
           | [] => [String c EmptyString]
           end
  end.
Definition split (c : ascii) : string -> list string := split_pred (Ascii.eqb c).

(** [str::split_once] on a character *)
Fixpoint split_once (c : ascii) (s : string) : option (string * string) :=
  match s with
  | EmptyString => None
  | String d s' =>
      if Ascii.eqb c d then Some (EmptyString, s')
      else match split_once c s' with
           | Some (a, b) => Some (String d a, b)
           | None => None
           end
  end.

(** [\[String\]::join] *)
Fixpoint join (sep : string) (l : list string) : string :=
  match l with
  | [] => EmptyString
  | [x] => x
  | x :: l' => String.append x (String.append sep (join sep l'))
  end.

(** [str::trim_end_matches] on a character *)
Fixpoint trim_end_matches (c : ascii) (s : string) : string :=
  match s with
  | EmptyString => EmptyString
  | String d s' =>
      match trim_end_matches c s' with
      | EmptyString => if Ascii.eqb c d then EmptyString else String d EmptyString
      | r => String d r
      end
  end.

(** [char::is_control] on the UTF-8 encoding: C0 controls, DEL, and the C1
    controls U+0080..U+009F, encoded as C2 80 .. C2 9F. *)
Fixpoint has_control (s : string) : bool :=
  match s with
  | EmptyString => false
  | String c s' =>
      (N.ltb (code c) 32 || N.eqb (code c) 127 ||
       (N.eqb (code c) 194 &&
        match s' with
        | String d _ => in_range 128 159 d
        | EmptyString => false
        end) || has_control s')%bool
  end.

(** [str::replace] for a pattern that is not empty: after a match, [skip]
    characters of it are left to be dropped. *)
Fixpoint replace_from (pat by_ : string) (skip : nat) (s : string) : string :=
  match s with
  | EmptyString => EmptyString
  | String c rest =>
      match skip with
      | S k => replace_from pat by_ k rest
      | O => if starts_with pat s
             then by_ +:+ replace_from pat by_ (String.length pat - 1) rest
             else String c (replace_from pat by_ 0 rest)
      end
  end.
Definition replace (pat by_ s : string) : string := replace_from pat by_ 0 s.

(** Decimal rendering of integers ([{}] on an integer). *)
Definition of_Z (z : Z) : string := pretty.pretty z.

(** *** Lemmas *)

#[global] Arguments String.append : simpl nomatch.
#[global] Arguments String.eqb : simpl never.
#[global] Arguments Ascii.eqb : simpl never.

Lemma app_nil_r s : s +:+ "" = s.
Proof. induction s; simpl; congruence. Qed.

Lemma app_assoc a b c : a +:+ (b +:+ c) = (a +:+ b) +:+ c.
Proof. induction a; simpl; congruence. Qed.

Lemma app_inj_l a b c : a +:+ b = a +:+ c -> b = c.
Proof. induction a; simpl; intros; simplify_eq; auto. Qed.

Lemma length_app a b : String.length (a +:+ b) = (String.length a + String.length b)%nat.
Proof. induction a; simpl; congruence. Qed.

Lemma app_inj_len a b c d :
  String.length a = String.length c -> a +:+ b = c +:+ d -> a = c /\ b = d.
Proof.
  revert c. induction a as [|x a IH]; intros [|y c]; simpl; intros; simplify_eq; auto.
  destruct (IH c) as [-> ->]; auto.
Qed.

Lemma app_inj_r a b c : a +:+ c = b +:+ c -> a = b.
Proof.
  intros H. apply (app_inj_len a c b c); [|done].
  apply (f_equal String.length) in H. rewrite !length_app in H. lia.
Qed.

Lemma strip_prefix_Some p s r : strip_prefix p s = Some r <-> s = p +:+ r.
Proof.
  revert s. induction p as [|a p IH]; intros s; simpl; [naive_solver|].
  destruct s as [|b s]; [naive_solver|].
  destruct (Ascii.eqb_spec a b) as [->|]; [rewrite IH|]; naive_solver.
Qed.

Lemma starts_with_iff p s : starts_with p s = true <-> exists r, s = p +:+ r.
Proof.
  unfold starts_with. destruct (strip_prefix p s) eqn:E.
  - apply strip_prefix_Some in E. naive_solver.
  - split; [done|]. intros [r Hr]. apply strip_prefix_Some in Hr. congruence.
Qed.

Lemma starts_with_app p r : starts_with p (p +:+ r) = true.
Proof. apply starts_with_iff. eauto. Qed.

Lemma replace_skip pat by_ t rest : replace_from pat by_ (String.length t) (t +:+ rest) = replace_from pat by_ 0 rest.
Proof. induction t as [|c t IH]; [by destruct rest|done]. Qed.

Lemma replace_hit pat by_ rest :
  pat <> EmptyString -> replace_from pat by_ 0 (pat +:+ rest) = by_ +:+ replace_from pat by_ 0 rest.
Proof.
  destruct pat as [|c p]; [done|]. intros _. pose proof (starts_with_app (String c p) rest) as Hs.
  change (String c p +:+ rest) with (String c (p +:+ rest)) in Hs |- *. cbn [replace_from]. rewrite Hs.
  f_equal. change (String.length (String c p) - 1)%nat with (String.length p - 0)%nat.
  rewrite Nat.sub_0_r. apply replace_skip.
Qed.

Lemma strip_suffix_Some suf s r : strip_suffix suf s = Some r <-> s = r +:+ suf.
Proof.
  revert r. induction s as [|c s IH]; intros r; simpl.
  - destruct (String.eqb_spec "" suf) as [<-|Hne].
    + destruct r; simpl; naive_solver.
    + split; [done|]. intros H. destruct r; simpl in *; congruence.
  - destruct (String.eqb_spec (String c s) suf) as [<-|Hne].
    + split; [naive_solver|]. intros H.
      destruct r as [|d r]; [done|]. exfalso.
      apply (f_equal String.length) in H. simpl in H. rewrite length_app in H. simpl in H. lia.
    + destruct (strip_suffix suf s) as [r'|] eqn:E.
      * pose proof (proj1 (IH r') eq_refl) as ->. split; [naive_solver|].
        destruct r as [|d r]; simpl; [intros H; by destruct Hne|].
        intros [= -> H]. apply app_inj_r in H. naive_solver.
      * split; [done|]. destruct r as [|d r]; simpl; [intros H; by destruct Hne|].
        intros [= -> H]. apply IH in H. done.
Qed.

Lemma ends_with_iff suf s : ends_with suf s = true <-> exists r, s = r +:+ suf.
Proof.
  unfold ends_with. destruct (strip_suffix suf s) eqn:E.
  - apply strip_suffix_Some in E. naive_solver.
  - split; [done|]. intros [r Hr]. apply strip_suffix_Some in Hr. congruence.
Qed.

Lemma contains_iff n s : contains n s = true <-> exists a b, s = a +:+ n +:+ b.
Proof.
  induction s as [|c s IH]; simpl.
  - rewrite orb_false_r, starts_with_iff. split.
    + intros [r Hr]. exists "", r. done.
    + intros (a & b & H). destruct a; simpl in H; [eauto|done].
  - rewrite orb_true_iff, starts_with_iff, IH. split.
    + intros [[r Hr]|(a & b & ->)]; [exists "", r; done|exists (String c a), b; done].
    + intros ([|d a] & b & H); simpl in H; [eauto|]. injection H as -> ->. eauto.
Qed.

Lemma all_app p a b : all p (a +:+ b) = (all p a && all p b)%bool.
Proof. induction a; simpl; [done|]. rewrite IHa. by rewrite andb_assoc. Qed.
Lemma any_app p a b : any p (a +:+ b) = (any p a || any p b)%bool.
Proof. induction a; simpl; [done|]. rewrite IHa. by rewrite orb_assoc. Qed.

Lemma contains_char_app c a b :
  contains_char c (a +:+ b) = (contains_char c a || contains_char c b)%bool.
Proof. apply any_app. Qed.

Lemma length_map f s : String.length (map f s) = String.length s.
Proof. induction s; simpl; congruence. Qed.

Lemma lower_char_idem c : lower_char (lower_char c) = lower_char c.
Proof. destruct c as [[] [] [] [] [] [] [] []]; reflexivity. Qed.
Lemma to_ascii_lowercase_idem s :
  to_ascii_lowercase (to_ascii_lowercase s) = to_ascii_lowercase s.
Proof.
  induction s; cbn; [done|]. rewrite lower_char_idem. f_equal. exact IHs.
Qed.

Lemma split_pred_nonempty p s : split_pred p s <> [].
Proof. destruct s; simpl; [done|]. destruct (p a); [done|]. by destruct (split_pred p s). Qed.

(** A separator-free prefix is the first piece. *)
Lemma split_pred_app p c a s :
  any p a = false -> p c = true ->
  split_pred p (a +:+ String c s) = a :: split_pred p s.
Proof.
  intros Ha Hc. induction a as [|d a IH]; simpl in *; [by rewrite Hc|].
  apply orb_false_iff in Ha as [Hd Ha]. rewrite Hd, IH; auto.
Qed.
Lemma split_pred_none p s : any p s = false -> split_pred p s = [s].
Proof.
  induction s as [|d a IH]; simpl in *; [done|].
  intros [Hd Ha]%orb_false_iff. rewrite Hd, IH; auto.
Qed.
Lemma split_pred_pieces p s : Forall (fun w => any p w = false) (split_pred p s).
Proof.
  induction s as [|c s IH]; simpl; [by repeat constructor|].
  destruct (p c) eqn:Hc; [by constructor|].
  destruct (split_pred p s); [constructor|]; simpl; [by rewrite Hc|done|].
  inversion IH; subst. constructor; [|done]. simpl. by rewrite Hc.
Qed.

Lemma split_app c a s :
  contains_char c a = false -> split c (a +:+ String c s) = a :: split c s.
Proof. intros. apply split_pred_app; [done|apply Ascii.eqb_refl]. Qed.
Lemma split_sep c a s :
  contains_char c a = false -> split c (a +:+ String c EmptyString +:+ s) = a :: split c s.
Proof. apply split_app. Qed.
Lemma split_none c s : contains_char c s = false -> split c s = [s].
Proof. apply split_pred_none. Qed.

(** Splitting undoes joining separator-free pieces. *)
Lemma split_join c l :
  l <> [] -> Forall (fun w => contains_char c w = false) l ->
  split c (join (String c EmptyString) l) = l.
Proof.
  induction l as [|x l IH]; [done|]. intros _ HF. inversion HF; subst.
  destruct l as [|y l]; [by apply split_none|].
  change (join (String c "") (x :: y :: l))
    with (x +:+ (String c (join (String c "") (y :: l)))).
  rewrite split_app by done. f_equal. by apply IH.
Qed.
Lemma join_split c s : join (String c EmptyString) (split c s) = s.
Proof.
  unfold split. induction s as [|d s IH]; simpl; [done|].
  pose proof (split_pred_nonempty (Ascii.eqb c) s) as Hne.
  destruct (Ascii.eqb_spec c d) as [->|]; simpl.
  - destruct (split_pred (Ascii.eqb d) s); [done|]. by rewrite IH.
  - destruct (split_pred (Ascii.eqb c) s) as [|w [|w' ws]]; [done| |];
      simpl in *; by rewrite IH.
Qed.

Lemma split_once_Some c s a b :
  split_once c s = Some (a, b) <-> s = a +:+ String c b /\ contains_char c a = false.
Proof.
  revert a. induction s as [|d s IH]; intros a; simpl.
  - split; [done|]. intros [H _]. destruct a; done.
  - destruct (Ascii.eqb_spec c d) as [->|Hne].
    + split; [intros [= <- <-]; done|]. destruct a as [|e a]; simpl.
      * intros [[= ->] _]. done.
      * intros [[= -> ->] H]. unfold contains_char in H. simpl in H.
        by rewrite Ascii.eqb_refl in H.
    + destruct (split_once c s) as [[a' b']|] eqn:E.
      * pose proof (proj1 (IH a')) as HIH.
        destruct a as [|e a]; simpl; [split; [done|intros [[= -> ->] _]; done]|].
        unfold contains_char in *; simpl. split.
        -- intros [= -> -> ->]. destruct (IH a) as [[-> ?] _]; [done|]. split; [done|].
           apply orb_false_iff. split; [by apply Ascii.eqb_neq|done].
        -- intros [[= -> Hs] [_ Ha]%orb_false_iff].
           assert (Some (a', b') = Some (a, b)) as [= -> ->] by (by apply IH). done.
      * split; [done|]. destruct a as [|e a]; simpl; [intros [[= -> ->] _]; done|].
        unfold contains_char; simpl. intros [[= -> Hs] [_ Ha]%orb_false_iff].
        assert (@None (string * string) = Some (a, b)) by (by apply IH). done.
Qed.

Lemma split_once_None c s : split_once c s = None <-> contains_char c s = false.
Proof.
  unfold contains_char. induction s as [|d s IH]; simpl; [done|].
  destruct (Ascii.eqb c d); simpl; [done|]. rewrite <- IH.
  destruct (split_once c s) as [[]|]; done.
Qed.

Lemma find_char_None c s : find_char c s = None <-> contains_char c s = false.
Proof.
  unfold contains_char. induction s as [|d s IH]; simpl; [done|].
  destruct (Ascii.eqb c d); simpl; [done|]. rewrite <- IH.
  destruct (find_char c s); done.
Qed.

(** Lowercasing acts on an ASCII character whatever surrounds it. *)
Definition is_ascii (c : ascii) : bool := N.ltb (code c) 128.

Lemma to_lowercase_ascii_head c s :
  is_ascii c = true -> to_lowercase (String c s) = String (lower_char c) (to_lowercase s).
Proof.
  intros Hc. simpl. destruct s as [|d s2]; [done|].
  destruct (Ascii.eqb_spec c "196"%char) as [->|_]; [done|]. simpl.
  destruct s2 as [|e s3]; [done|].
  destruct (Ascii.eqb_spec c "226"%char) as [->|_]; done.
Qed.

Lemma to_lowercase_app_ascii n a c b :
  (String.length a <= n)%nat -> is_ascii c = true ->
  exists x, to_lowercase (a +:+ String c b) = x +:+ String (lower_char c) (to_lowercase b).
Proof.
  revert a. induction n as [|n IH]; intros a Hn Hc.
  { destruct a; [|simpl in Hn; lia]. exists "". by apply to_lowercase_ascii_head. }
  destruct a as [|a0 a]; [exists ""; by apply to_lowercase_ascii_head|].
  assert (forall a', (String.length a' <= String.length a)%nat ->
    exists x, to_lowercase (a' +:+ String c b) = x +:+ String (lower_char c) (to_lowercase b)) as IH'
    by (intros a' Ha'; apply IH; [simpl in Hn; lia|done]).
  destruct (IH' a (le_n _)) as [x Hx].
  assert (exists x, String (lower_char a0) (to_lowercase (a +:+ String c b)) =
                    x +:+ String (lower_char c) (to_lowercase b)) as Hkeep
    by (rewrite Hx; by exists (String (lower_char a0) x)).
  simpl. destruct a as [|a1 a]; simpl.
  - destruct (Ascii.eqb_spec a0 "196"%char), (Ascii.eqb_spec c "176"%char);
      simpl; subst; try discriminate Hc; destruct b as [|b0 b]; try exact Hkeep;
      destruct (Ascii.eqb_spec a0 "226"%char), (Ascii.eqb_spec c "132"%char);
      subst; try discriminate Hc; exact Hkeep.
  - destruct (Ascii.eqb a0 "196" && Ascii.eqb a1 "176")%char.
    { destruct (IH' a) as [y Hy]; [simpl; lia|]. rewrite Hy.
      by exists (String "105" (String "204" (String "135" y))). }
    destruct a as [|a2 a]; simpl.
    + destruct (Ascii.eqb_spec c "170"%char); [subst; discriminate Hc|].
      rewrite andb_false_r. exact Hkeep.
    + destruct (Ascii.eqb a0 "226" && Ascii.eqb a1 "132" && Ascii.eqb a2 "170")%char;
        [|exact Hkeep].
      destruct (IH' a) as [y Hy]; [simpl; lia|]. rewrite Hy. by exists (String "107" y).
Qed.

(** An ASCII word without upper-case letters survives lowercasing. *)
Lemma contains_to_lowercase w a b :
  all (fun c => is_ascii c && Ascii.eqb (lower_char c) c)%bool w = true ->
  contains w (to_lowercase (a +:+ w +:+ b)) = true.
Proof.
  destruct w as [|c w]; [intros _; by destruct (to_lowercase _)|]. simpl all. intros Hw.
  apply andb_true_iff in Hw as [[Hc Hl]%andb_true_iff Hw]. apply Ascii.eqb_eq in Hl.
  apply contains_iff.
  destruct (to_lowercase_app_ascii _ a c (w +:+ b) (le_n _) Hc) as [x Hx].
  exists x, (to_lowercase b). change (String c w +:+ b) with (String c (w +:+ b)).
  rewrite Hx, Hl. simpl. do 2 f_equal. clear Hx. induction w as [|d w IH]; simpl in *; [done|].
  apply andb_true_iff in Hw as [[Hd Hl']%andb_true_iff Hw]. apply Ascii.eqb_eq in Hl'.
  change (to_lowercase (String d (w +:+ b)) = String d (w +:+ to_lowercase b)).
  rewrite to_lowercase_ascii_head by done. by rewrite Hl', IH.
Qed.

End Str.
