(* ===== verification/Store.v ===== *)
(** Store: the interface through which the program uses third-party keyed
    stores.

    The circuit breaker keeps its states in a moka cache and the module loader
    its components in another. moka is not part of the program: its documented
    behaviour as a map from string keys to values is the class [StoreLaws], and
    each of the two components is parameterised by an instance. Evictions by
    moka are environment steps of the client's step relation
    ([CircuitBreaker.step]), not part of this interface. The instance on
    [gmap string V] shows that the laws are satisfiable. *)

From S2P Require Import Prelude.

Class Store (M V : Type) := {
  st_empty : M;
  st_get : string -> M -> option V;
  st_put : string -> V -> M -> M;
  st_remove : string -> M -> M;
  st_entries : M -> list (string * V);
}.
#[global] Hint Mode Store ! - : typeclass_instances.

Class StoreLaws (M V : Type) {S : Store M V} : Prop := {
  st_get_empty : forall k, st_get k (st_empty : M) = None;
  st_get_put_eq : forall k v (m : M), st_get k (st_put k v m) = Some v;
  st_get_put_ne : forall k k' v (m : M), k <> k' -> st_get k' (st_put k v m) = st_get k' m;
  st_get_remove_eq : forall k (m : M), st_get k (st_remove k m) = None;
  st_get_remove_ne : forall k k' (m : M), k <> k' -> st_get k' (st_remove k m) = st_get k' m;
  st_entries_get : forall k v (m : M), In (k, v) (st_entries m) <-> st_get k m = Some v;
  st_entries_nodup : forall (m : M), NoDup (fst <$> st_entries m);
}.

#[export] Instance gmap_store V : Store (gmap string V) V := {|
  st_empty := ∅;
  st_get k m := m !! k;
  st_put k v m := <[k:=v]> m;
  st_remove k m := delete k m;
  st_entries m := map_to_list m;
|}.

#[export] Instance gmap_store_laws V : StoreLaws (gmap string V) V.
Proof.
  split; intros; simpl.
  - apply lookup_empty.
  - apply lookup_insert_eq.
  - by apply lookup_insert_ne.
  - apply lookup_delete_eq.
  - by apply lookup_delete_ne.
  - rewrite <- list_elem_of_In. apply elem_of_map_to_list.
  - apply NoDup_fst_map_to_list.
Qed.

(** Rewriting with the laws. *)
Create HintDb store discriminated.
#[export] Hint Rewrite @st_get_empty @st_get_put_eq @st_get_remove_eq using typeclasses eauto : store.
#[export] Hint Rewrite @st_get_put_ne @st_get_remove_ne using (typeclasses eauto || congruence) : store.

Ltac store := repeat first [ progress autorewrite with store | progress simpl ].

Section Derived.
Context {M V : Type} `{StoreLaws M V}.

Lemma st_get_put k k' v (m : M) :
  st_get k' (st_put k v m) = if decide (k = k') then Some v else st_get k' m.
Proof. case_decide; subst; [apply st_get_put_eq|by apply st_get_put_ne]. Qed.

End Derived.
