(* ===== verification/CircuitBreaker.v ===== *)
(** CircuitBreaker: the per-key circuit breaker of
    [src/src/reliability/circuit_breaker/].

    Each public operation is one atomic [and_compute_with] on the moka cache:
    the closure handed to moka is a function from the current entry to an
    [Op], and the operation applies it to the store. The clock is read once per
    operation and passed as [now]. moka may evict entries at any time, which
    the step relation [step] has as a step of its own. *)

From S2P Require Import Prelude Store.

(** ** Data ([config.rs], [state.rs], [error.rs]) *)

Record CircuitBreakerConfig := {
  failure_threshold : Z;
  timeout : Duration;
  probe_timeout : Duration;
  max_tracked_keys : Z;
  idle_timeout : Duration;
}.

Definition CIRCUIT_BREAKER_FAILURE_THRESHOLD : Z := 5.
Definition CIRCUIT_BREAKER_RECOVERY_SECS : Z := 60.

Definition default_config : CircuitBreakerConfig := {|
  failure_threshold := CIRCUIT_BREAKER_FAILURE_THRESHOLD;
  timeout := from_secs CIRCUIT_BREAKER_RECOVERY_SECS;
  probe_timeout := from_secs CIRCUIT_BREAKER_RECOVERY_SECS;
  max_tracked_keys := 1000;
  idle_timeout := from_secs 600;
|}.

Inductive CircuitState :=
| Closed (failure_count : Z)
| Open (opened_at : Instant) (failure_count : Z)
| HalfOpen (started_at : Instant).

Definition default_state : CircuitState := Closed 0.

(** [PartialEq for CircuitState] ignores the instants. *)
Definition state_eq (s o : CircuitState) : bool :=
  match s, o with
  | Closed a, Closed b => a =? b
  | HalfOpen _, HalfOpen _ => true
  | Open _ a, Open _ b => a =? b
  | _, _ => false
  end.

Inductive CircuitOpenReason := ReasonOpen | ProbeInFlight.

Record CircuitOpenError := {
  key : string;
  err_failure_count : Z;
  reason : CircuitOpenReason;
}.

(** The [Op] a moka compute closure returns. *)
Inductive Op := Nop | Put (s : CircuitState).

(** ** Operations ([mod.rs]) *)

Section Breaker.
Context {M : Type} `{StoreLaws M CircuitState}.
Variable config : CircuitBreakerConfig.

Definition with_config : M := st_empty.

Definition and_compute_with (k : string) (f : option CircuitState -> Op) (m : M) : M :=
  match f (st_get k m) with
  | Nop => m
  | Put s => st_put k s m
  end.

(** The closure of [check_request] also assigns the captured variables
    [allowed] and [error_info]; here they are its second result: [None] when
    [allowed] stays true. *)
Definition check_closure (now : Instant) (entry : option CircuitState)
  : Op * option (Z * CircuitOpenReason) :=
  match entry with
  | None => (Nop, None)
  | Some (Closed _) => (Nop, None)
  | Some (Open opened_at failure_count) =>
      if timeout config <=? elapsed now opened_at
      then (Put (HalfOpen now), None)
      else (Nop, Some (failure_count, ReasonOpen))
  | Some (HalfOpen started_at) =>
      if probe_timeout config <=? elapsed now started_at
      then (Put (HalfOpen now), None)
      else (Nop, Some (0, ProbeInFlight))
  end.

Definition check_request (now : Instant) (k : string) (m : M)
  : result unit CircuitOpenError * M :=
  let m' := and_compute_with k (fun e => (check_closure now e).1) m in
  match (check_closure now (st_get k m)).2 with
  | None => (Ok tt, m')
  | Some (fc, r) => (Err {| key := k; err_failure_count := fc; reason := r |}, m')
  end.

Definition is_blocking (now : Instant) (k : string) (m : M) : bool * M :=
  let '(r, m') := check_request now k m in (negb (is_ok r), m').

Definition is_open (k : string) (m : M) : bool :=
  match st_get k m with Some (Open _ _) => true | _ => false end.

Definition success_closure (entry : option CircuitState) : Op :=
  match entry with
  | None => Nop
  | Some (Closed 0) => Nop
  | Some (Closed _) => Put (Closed 0)
  | Some (HalfOpen _) => Put (Closed 0)
  | Some (Open _ _) => Nop
  end.

Definition record_success (k : string) (m : M) : M :=
  and_compute_with k success_closure m.

Definition failure_closure (now : Instant) (entry : option CircuitState) : Op :=
  let threshold := failure_threshold config in
  match entry with
  | None => if threshold <=? 1 then Put (Open now 1) else Put (Closed 1)
  | Some (Closed failure_count) =>
      let new_count := sat_add_u32 failure_count 1 in
      if threshold <=? new_count then Put (Open now new_count) else Put (Closed new_count)
  | Some (HalfOpen _) => Put (Open now 1)
  | Some (Open _ failure_count) => Put (Open now (sat_add_u32 failure_count 1))
  end.

Definition record_failure (now : Instant) (k : string) (m : M) : M :=
  and_compute_with k (failure_closure now) m.

Definition get_state (k : string) (m : M) : CircuitState :=
  match st_get k m with Some s => s | None => default_state end.

Definition failure_count (k : string) (m : M) : Z :=
  match st_get k m with
  | Some (Closed c) | Some (Open _ c) => c
  | Some (HalfOpen _) | None => 0
  end.

Definition reset (k : string) (m : M) : M :=
  and_compute_with k (fun e => match e with Some _ => Put (Closed 0) | None => Nop end) m.

Definition tracked_count (m : M) : Z := Z.of_nat (length (st_entries m)).

Definition state_name (s : CircuitState) : string :=
  match s with
  | Closed _ => "closed"
  | Open _ _ => "open"
  | HalfOpen _ => "half_open"
  end.

Definition get_all_states (m : M) : list (string * string) :=
  (fun kv => (kv.1, state_name kv.2)) <$> st_entries m.

(** ** Runs: the operations as timed events *)

Inductive event := Check | Success | Failure | Reset.

Definition apply_event (now : Instant) (e : event) (k : string) (m : M) : M :=
  match e with
  | Check => (check_request now k m).2
  | Success => record_success k m
  | Failure => record_failure now k m
  | Reset => reset k m
  end.

Definition run : list (Instant * event * string) -> M -> M :=
  fold_left (fun m ev => apply_event ev.1.1 ev.1.2 ev.2 m).

(** The system as a transition system: operations by any caller, time passing
    and evictions by the cache, in any order. *)
Record sys := { clock : Instant; states : M }.

Inductive step : sys -> sys -> Prop :=
| step_event e k c m :
    step {| clock := c; states := m |} {| clock := c; states := apply_event c e k m |}
| step_tick d c m :
    0 <= d -> step {| clock := c; states := m |} {| clock := c + d; states := m |}
| step_evict c m m' :
    (forall k, st_get k m' = st_get k m \/ st_get k m' = None) ->
    step {| clock := c; states := m |} {| clock := c; states := m' |}.

Definition init : sys := {| clock := 0; states := with_config |}.

(** ** Lemmas *)

Lemma get_compute_eq k f m :
  st_get k (and_compute_with k f m) =
  match f (st_get k m) with Nop => st_get k m | Put s => Some s end.
Proof. unfold and_compute_with. destruct (f _); store; done. Qed.

Lemma get_compute_ne k k' f m :
  k <> k' -> st_get k' (and_compute_with k f m) = st_get k' m.
Proof. intros. unfold and_compute_with. destruct (f _); [done|]. by apply st_get_put_ne. Qed.

Lemma check_request_state now k m :
  (check_request now k m).2 = and_compute_with k (fun e => (check_closure now e).1) m.
Proof. unfold check_request. by destruct (check_closure _ _).2 as [[]|]. Qed.

Lemma get_event_ne now e k k' m :
  k <> k' -> st_get k' (apply_event now e k m) = st_get k' m.
Proof.
  intros. destruct e; simpl; rewrite ?check_request_state; by apply get_compute_ne.
Qed.

Definition event_closure (now : Instant) (e : event) : option CircuitState -> Op :=
  match e with
  | Check => fun s => (check_closure now s).1
  | Success => success_closure
  | Failure => failure_closure now
  | Reset => fun s => match s with Some _ => Put (Closed 0) | None => Nop end
  end.

Lemma get_event_eq now e k m :
  st_get k (apply_event now e k m) =
  match event_closure now e (st_get k m) with Nop => st_get k m | Put s => Some s end.
Proof. destruct e; simpl; rewrite ?check_request_state; apply get_compute_eq. Qed.

(** *** The type invariant *)

(** What a tracked state satisfies at clock [c]: a closed circuit is below its
    threshold, an open one has counted a failure, and no instant is in the
    future. *)
Definition wf_state (c : Instant) (s : CircuitState) : Prop :=
  match s with
  | Closed n => 0 <= n < Z.max 1 (failure_threshold config)
  | Open t n => 1 <= n <= u32_max /\ t <= c
  | HalfOpen t => t <= c
  end.

Definition wf (s : sys) : Prop :=
  forall k st, st_get k (states s) = Some st -> wf_state (clock s) st.

Lemma wf_state_mono c c' s : c <= c' -> wf_state c s -> wf_state c' s.
Proof. destruct s; simpl; lia. Qed.

Lemma wf_check_closure c o s :
  (check_closure c o).1 = Put s -> wf_state c s.
Proof.
  destruct o as [[n|t n|t]|]; simpl; try zcase; simpl; intros [=]; subst; simpl; lia.
Qed.

Lemma wf_success_closure c o s : success_closure o = Put s -> wf_state c s.
Proof. destruct o as [[[]|t n|t]|]; simpl; intros [=]; subst; simpl; lia. Qed.

Lemma wf_failure_closure c o s :
  is_u32 (failure_threshold config) ->
  (forall s', o = Some s' -> wf_state c s') ->
  failure_closure c o = Put s -> wf_state c s.
Proof.
  intros Hu Ho. destruct o as [[n|t n|t]|]; simpl; try specialize (Ho _ eq_refl); simpl in *.
  - rewrite sat_add_u32_small by (unfold is_u32, u32_max in *; lia).
    zcase; intros [=]; subst; simpl; unfold is_u32, u32_max in *; lia.
  - intros [=]; subst; simpl. split; [apply sat_add_u32_mono; lia|lia].
  - intros [=]; subst; simpl. unfold u32_max; lia.
  - zcase; intros [=]; subst; simpl; unfold u32_max; lia.
Qed.

Lemma wf_closure c e o s :
  is_u32 (failure_threshold config) ->
  (forall s', o = Some s' -> wf_state c s') ->
  event_closure c e o = Put s -> wf_state c s.
Proof.
  intros Hu Ho. destruct e; simpl.
  - apply wf_check_closure.
  - apply wf_success_closure.
  - by apply wf_failure_closure.
  - destruct o; intros [=]; subst; simpl; lia.
Qed.

Lemma wf_step s s' :
  is_u32 (failure_threshold config) -> wf s -> step s s' -> wf s'.
Proof.
  intros Hu Hwf Hs. inversion Hs as [e k c m|d c m Hd|c m m' Hev]; subst;
    intros k' st; simpl; intros Hget.
  - destruct (decide (k = k')) as [->|Hne].
    + rewrite get_event_eq in Hget. case_match; [by apply (Hwf k')|]. simplify_eq.
      eapply wf_closure; [done| |done]. intros s' Hs'. by apply (Hwf k').
    + rewrite get_event_ne in Hget by done. by apply (Hwf k').
  - eapply wf_state_mono; [|by apply (Hwf k')]. simpl. lia.
  - destruct (Hev k') as [Heq|Heq]; rewrite Heq in Hget; [by apply (Hwf k')|done].
Qed.

(** *** The half-open window *)

Lemma check_halfopen_rejects now t0 k m :
  st_get k m = Some (HalfOpen t0) -> now < t0 + probe_timeout config ->
  0 < probe_timeout config ->
  check_request now k m =
    (Err {| key := k; err_failure_count := 0; reason := ProbeInFlight |}, m).
Proof.
  intros Hget Hlt Hpos. unfold check_request, and_compute_with. rewrite Hget. simpl.
  destruct (Z.leb_spec (probe_timeout config) (elapsed now t0)); [unfold elapsed in *; ints|].
  done.
Qed.

Definition quiet (k : string) (limit : Instant) (ev : Instant * event * string) : Prop :=
  ev.2 = k -> ev.1.2 = Check /\ ev.1.1 < limit.

Lemma run_halfopen tr t0 k m :
  st_get k m = Some (HalfOpen t0) -> 0 < probe_timeout config ->
  Forall (quiet k (t0 + probe_timeout config)) tr ->
  st_get k (run tr m) = Some (HalfOpen t0).
Proof.
  intros Hget Hpos HF. revert m Hget.
  induction HF as [|[[now e] k'] tr Hq HF IH]; intros m Hget; simpl; [done|].
  apply IH. destruct (decide (k' = k)) as [->|Hne]; [|by rewrite get_event_ne].
  destruct (Hq eq_refl) as [He Hlt]. simpl in *. subst e. simpl.
  by rewrite (check_halfopen_rejects now t0).
Qed.

(** A check that admits a request from a state other than closed has made it
    the probe. *)
Lemma check_admits_probe now k m :
  (forall n, st_get k m <> Some (Closed n)) -> st_get k m <> None ->
  (check_request now k m).1 = Ok tt ->
  st_get k (check_request now k m).2 = Some (HalfOpen now).
Proof.
  intros Hnc Hn. rewrite check_request_state, get_compute_eq. unfold check_request.
  destruct (st_get k m) as [[n|t n|t]|]; simpl; [by destruct (Hnc n)| | |done];
    zcase; simpl; done.
Qed.

(** *** Counting failures *)

Lemma run_app tr1 tr2 m : run (tr1 ++ tr2) m = run tr2 (run tr1 m).
Proof. apply fold_left_app. Qed.

Definition fail_at (k : string) (t : Instant) : Instant * event * string := (t, Failure, k).

Lemma run_failures_snoc k ts t m :
  run (fail_at k <$> ts ++ [t]) m = record_failure t k (run (fail_at k <$> ts) m).
Proof. by rewrite fmap_app, run_app. Qed.

Lemma get_record_failure now k m :
  st_get k (record_failure now k m) =
  match failure_closure now (st_get k m) with Nop => st_get k m | Put s => Some s end.
Proof. apply get_compute_eq. Qed.

Lemma run_failures ts t k m :
  st_get k m = None -> Z.of_nat (length ts) < u32_max ->
  st_get k (run (fail_at k <$> ts ++ [t]) m) =
  Some (if Z.of_nat (length ts) + 1 <? Z.max 1 (failure_threshold config)
        then Closed (Z.of_nat (length ts) + 1)
        else Open t (Z.of_nat (length ts) + 1)).
Proof.
  intros Hnone. revert t. induction ts as [|x ts IH] using rev_ind; intros t Hlen;
    rewrite run_failures_snoc, get_record_failure.
  - simpl. rewrite Hnone. simpl. repeat zcase; done || lia.
  - rewrite length_app, Nat2Z.inj_add in Hlen |- *.
    change (Z.of_nat (length [x])) with 1 in *.
    rewrite IH by lia. zcase; simpl; rewrite sat_add_u32_small by lia;
      repeat zcase; done || lia.
Qed.

End Breaker.

(** ** Properties *)

Section Properties.
Context {M : Type} `{StoreLaws M CircuitState}.
Variable config : CircuitBreakerConfig.

(** C1. Type invariant: whatever the order of operations, the passing of time
    and cache evictions, every tracked circuit is well formed: a closed one is
    below its failure threshold, an open one has a failure count between 1 and
    [u32::MAX], and no recorded instant lies in the future. *)
Theorem circuit_invariant (s : sys) :
  is_u32 (failure_threshold config) ->
  rtc (step config) (init (M:=M)) s -> wf config s.
Proof.
  intros Hu Hr.
  assert (wf config (init (M:=M))) as Hi by (intros k st; simpl; unfold with_config; by rewrite st_get_empty).
  revert Hi. induction Hr; eauto using wf_step.
Qed.

(** Functional behaviour of [check_request] on every branch: it admits a
    request exactly when the key is untracked or closed, open for at least
    [timeout], or half-open for at least [probe_timeout]; admission from a
    non-closed state makes the request the probe; a rejection reports the state
    it found and changes nothing; other keys are untouched. *)
Lemma check_request_spec (now : Instant) (k : string) (m : M) :
  let '(r, m') := check_request config now k m in
  (match st_get k m with
   | None | Some (Closed _) => r = Ok tt /\ m' = m
   | Some (Open t n) =>
       (timeout config <= elapsed now t /\ r = Ok tt /\ st_get k m' = Some (HalfOpen now)) \/
       (elapsed now t < timeout config /\ m' = m /\
        r = Err {| key := k; err_failure_count := n; reason := ReasonOpen |})
   | Some (HalfOpen t) =>
       (probe_timeout config <= elapsed now t /\ r = Ok tt /\
        st_get k m' = Some (HalfOpen now)) \/
       (elapsed now t < probe_timeout config /\ m' = m /\
        r = Err {| key := k; err_failure_count := 0; reason := ProbeInFlight |})
   end) /\ forall k', k <> k' -> st_get k' m' = st_get k' m.
Proof.
  destruct (check_request config now k m) as [r m'] eqn:E. split.
  - unfold check_request, and_compute_with in E.
    destruct (st_get k m) as [[n|t n|t]|]; simpl in E; try zcase_in E; simplify_eq/=; auto;
      left; rewrite st_get_put_eq; auto.
  - intros k' Hne. apply (f_equal snd) in E. rewrite check_request_state in E. simpl in E.
    subst m'. by apply get_compute_ne.
Qed.


(** The circuit opens exactly at the threshold: after [n] consecutive
    failures of an untracked key it is closed with count [n] while [n] is below
    the threshold (at least one), and from the threshold on it is open with
    count [n], stamped with the instant of the last failure. *)
Lemma opens_at_threshold (k : string) (ts : list Instant) (t : Instant) (m : M) :
  st_get k m = None -> Z.of_nat (length ts) < u32_max ->
  let n := Z.of_nat (length ts) + 1 in
  let m' := run config (fail_at k <$> ts ++ [t]) m in
  st_get k m' = Some (if n <? Z.max 1 (failure_threshold config) then Closed n else Open t n) /\
  failure_count k m' = n /\
  is_open k m' = negb (n <? Z.max 1 (failure_threshold config)).
Proof.
  intros Hn Hlen n m'. subst n m'. unfold failure_count, is_open.
  rewrite run_failures by done. zcase; done.
Qed.

(** Recovery: an open circuit rejects until [timeout] has passed since it
    opened, then admits a probe; a successful probe closes it with a zero
    count, so that checks pass at any later time; a failed probe reopens it and
    it rejects for another full [timeout]. *)
Lemma recovery_cycle (k : string) (m : M) (t0 n t1 t2 t3 : Instant) :
  0 < timeout config ->
  st_get k m = Some (Open t0 n) -> t0 + timeout config <= t1 ->
  let probed := (check_request config t1 k m).2 in
  (forall t, t < t0 + timeout config -> is_ok (check_request config t k m).1 = false) /\
  (check_request config t1 k m).1 = Ok tt /\
  (check_request config t3 k (record_success k probed)).1 = Ok tt /\
  failure_count k (record_success k probed) = 0 /\
  (t3 < t2 + timeout config ->
   (check_request config t3 k (record_failure config t2 k probed)).1 =
     Err {| key := k; err_failure_count := 1; reason := ReasonOpen |}).
Proof.
  intros Hpos Hget Hle probed.
  assert (check_request config t1 k m = (Ok tt, st_put k (HalfOpen t1) m)) as Hp.
  { unfold check_request, and_compute_with. rewrite Hget. simpl. zcase; [done|].
    unfold elapsed, sat_sub in *; lia. }
  subst probed. rewrite Hp. simpl. unfold failure_count, record_success, record_failure.
  repeat split.
  - intros t Ht. unfold check_request. rewrite Hget. simpl.
    zcase; [unfold elapsed, sat_sub in *; lia|done].
  - unfold check_request. by rewrite get_compute_eq, st_get_put_eq.
  - by rewrite get_compute_eq, st_get_put_eq.
  - intros Ht. unfold check_request. rewrite get_compute_eq, st_get_put_eq. simpl.
    zcase; [unfold elapsed, sat_sub in *; lia|done].
Qed.

(** [is_blocking], documented as an inspection, is not one: on an open
    circuit whose timeout has passed it answers [false] and takes the probe
    slot, so that the request that follows, which would have been admitted
    without the inspection, is rejected. *)
Lemma is_blocking_takes_the_probe (k : string) (m : M) (t0 n t1 t2 : Instant) :
  0 < probe_timeout config ->
  st_get k m = Some (Open t0 n) -> timeout config <= elapsed t1 t0 ->
  t1 <= t2 < t1 + probe_timeout config ->
  (check_request config t2 k m).1 = Ok tt /\
  (is_blocking config t1 k m).1 = false /\
  (check_request config t2 k (is_blocking config t1 k m).2).1 =
    Err {| key := k; err_failure_count := 0; reason := ProbeInFlight |}.
Proof.
  intros Hpos Hget Hle Hlt.
  assert (forall t, t1 <= t ->
    check_request config t k m = (Ok tt, st_put k (HalfOpen t) m)) as Hp.
  { intros t Ht. unfold check_request, and_compute_with. rewrite Hget. simpl. zcase; [done|].
    unfold elapsed, sat_sub in *; lia. }
  unfold is_blocking. rewrite !Hp by lia. simpl. repeat split.
  rewrite (check_halfopen_rejects config t2 t1); [done| |lia|done]. apply st_get_put_eq.
Qed.

End Properties.

(** ** Concrete instances *)

Section Witnesses.
Let cfg := default_config.
Let store : Type := gmap string CircuitState.
Let opened : store := {[ "svc" := Open 0 5 ]}.

Lemma circuit_invariant_witness :
  wf cfg (M := store)
    {| clock := 0; states := apply_event cfg 0 Failure "svc" (states init) |}.
Proof.
  apply circuit_invariant; [unfold is_u32; vm_compute; split; discriminate|].
  apply rtc_once. apply (step_event cfg Failure "svc" 0).
Defined.


End Witnesses.
