(* ===== verification/Retry.v ===== *)
(** Retry: the retry loop of [src/src/reliability/retry.rs].

    [retry_sync] is modelled as the loop it is, over an operation given by the
    result of each of its calls. Delays are computed in single precision, as
    [Duration::as_secs_f32] and [Duration::from_secs_f32] do (Stdlib's
    [SpecFloat] with 24 bits of precision). [retry_async] and [retry_anyhow]
    configure the crate backon, which is a class with laws. *)

From Stdlib Require Import SpecFloat.
From S2P Require Import Prelude.

(** ** Single-precision durations (Rust's standard library) *)
Module F32.

Definition of_u64 (z : Z) : spec_float := binary_normalize 24 128 z 0 false.
Definition mul : spec_float -> spec_float -> spec_float := SFmul 24 128.

(** [Duration::as_secs_f32] *)
Definition as_secs_f32 (d : Duration) : spec_float :=
  SFadd 24 128 (of_u64 (d / 1000000000))
    (SFdiv 24 128 (of_u64 (d mod 1000000000)) (of_u64 1000000000)).

(** Rounding of [n / d] to the nearest integer, ties to even. *)
Definition div_round_even (n d : Z) : Z :=
  let q := n / d in
  let r := n mod d in
  if 2 * r <? d then q
  else if d <? 2 * r then q + 1
  else if Z.even q then q else q + 1.

(** [Duration::from_secs_f32]; [None] is its panic on negative, overflowing or
    non-finite input. *)
Definition from_secs_f32 (x : spec_float) : option Duration :=
  match x with
  | S754_zero _ => Some 0
  | S754_finite false m e =>
      let ns := if 0 <=? e then Zpos m * 2 ^ e * 1000000000
                else div_round_even (Zpos m * 1000000000) (2 ^ (- e)) in
      if (if 0 <=? e then Zpos m * 2 ^ e <? 2 ^ 64 else true) then Some ns else None
  | _ => None
  end.

End F32.

(** ** Configuration *)

Record RetryConfig := {
  max_retries : Z;
  initial_delay : Duration;
  max_delay : Duration;
  factor : spec_float;
  jitter : spec_float;
}.

Definition f32_2_0 : spec_float := S754_finite false 8388608 (-22).
Definition f32_0_1 : spec_float := S754_finite false 13421773 (-27).
Definition f32_0_2 : spec_float := S754_finite false 13421773 (-26).

Definition default : RetryConfig := {|
  max_retries := 3; initial_delay := from_millis 500; max_delay := from_secs 10;
  factor := f32_2_0; jitter := f32_0_1 |}.
Definition quick : RetryConfig := {|
  max_retries := 2; initial_delay := from_millis 100; max_delay := from_secs 1;
  factor := f32_2_0; jitter := f32_0_1 |}.
Definition network : RetryConfig := {|
  max_retries := 3; initial_delay := from_millis 100; max_delay := from_secs 20;
  factor := f32_2_0; jitter := f32_0_2 |}.
Definition critical : RetryConfig := {|
  max_retries := 5; initial_delay := from_secs 1; max_delay := from_secs 30;
  factor := f32_2_0; jitter := f32_0_1 |}.

Definition with_max_retries (n : Z) (c : RetryConfig) : RetryConfig := {|
  max_retries := n; initial_delay := initial_delay c; max_delay := max_delay c;
  factor := factor c; jitter := jitter c |}.
Definition with_initial_delay (d : Duration) (c : RetryConfig) : RetryConfig := {|
  max_retries := max_retries c; initial_delay := d; max_delay := max_delay c;
  factor := factor c; jitter := jitter c |}.

(** ** Error classification *)

Definition any_of (msg : string) (needles : list string) : bool :=
  existsb (fun n => Str.contains n msg) needles.

(** [anyhow::Error::to_string]: the outermost message of the chain, which is
    the last context that was added *)
Definition error_to_string (error : list string) : string := hd EmptyString error.

Definition is_transient_error (error : list string) : bool :=
  let msg := Str.to_lowercase (error_to_string error) in
  if any_of msg ["connection refused"; "connection reset"; "connection closed";
                 "broken pipe"; "network unreachable"; "host unreachable"] then true
  else if any_of msg ["timed out"; "timeout"; "deadline exceeded"] then true
  else if (Str.contains "dns" msg && any_of msg ["temporary"; "again"])%bool then true
  else if any_of msg ["status: 5"; "500"; "502"; "503"; "504"; "408"; "429";
                      "too many requests"; "service unavailable"; "gateway timeout";
                      "bad gateway"] then true
  else if any_of msg ["resource temporarily unavailable"; "try again"; "interrupted";
                      "would block"] then true
  else if any_of msg ["database is locked"; "busy"] then true
  else false.

Definition is_retryable_status (status : Z) : bool :=
  match status with
  | 408 | 429 | 500 | 502 | 503 | 504 => true
  | _ => false
  end.

(** ** The retry loop *)

Inductive outcome (T : Type) :=
| Returned (r : result T (list string))
| Panicked.
Arguments Returned {T} _.
Arguments Panicked {T}.

(** The next delay: [min(from_secs_f32(delay.as_secs_f32() * factor), max_delay)]. *)
Definition next_delay (config : RetryConfig) (delay : Duration) : option Duration :=
  match F32.from_secs_f32 (F32.mul (F32.as_secs_f32 delay) (factor config)) with
  | Some d => Some (Z.min d (max_delay config))
  | None => None
  end.

(** *** The crate backon *)

Record ExponentialBuilder := {
  eb_min_delay : Duration;
  eb_max_delay : Duration;
  eb_max_times : Z;
  eb_factor : SpecFloat.spec_float;
  eb_jitter : bool;
}.

(** The field [jitter] of the configuration is not used. *)
Definition build_backoff (c : RetryConfig) : ExponentialBuilder := {|
  eb_min_delay := initial_delay c; eb_max_delay := max_delay c; eb_max_times := max_retries c;
  eb_factor := factor c; eb_jitter := true |}.

(** [operation.retry(backoff).when(retryable)], for an operation given by the
    result of each of its calls *)
Class Backon := {
  backon_retry : forall {T E : Type}, ExponentialBuilder -> (E -> bool) -> (nat -> result T E) -> result T E;
}.

(** Its documentation: an operation is retried as long as it fails with an
    error that is retryable. *)
Class BackonLaws `{Backon} := {
  backon_ok : forall T E b when_ (op : nat -> result T E) v,
    op 0%nat = Ok v -> backon_retry b when_ op = Ok v;
  backon_permanent : forall T E b when_ (op : nat -> result T E) e,
    op 0%nat = Err e -> when_ e = false -> backon_retry b when_ op = Err e;
}.

Definition retry_async `{Backon} {T E} (config : RetryConfig) (is_retryable : E -> bool)
    (operation : nat -> result T E) : result T E :=
  backon_retry (build_backoff config) is_retryable operation.
Definition retry_anyhow `{Backon} {T} (config : RetryConfig) (operation : nat -> result T (list string))
  : result T (list string) :=
  backon_retry (build_backoff config) is_transient_error operation.

(** An implementation: the loop, as often as it is allowed to *)
Fixpoint backon_loop {T E} (when_ : E -> bool) (op : nat -> result T E) (times i : nat) : result T E :=
  match op i, times with
  | Err e, S times => if when_ e then backon_loop when_ op times (S i) else Err e
  | r, _ => r
  end.
Definition looping_backon : Backon :=
  {| backon_retry T E b when_ op := backon_loop when_ op (Z.to_nat (eb_max_times b)) 0 |}.
Lemma looping_backon_laws : @BackonLaws looping_backon.
Proof.
  split; intros T E b when_ op x Ho; cbn; destruct (Z.to_nat _); cbn; rewrite Ho; [done..|by intros ->].
Qed.

Section Loop.
Context {T : Type}.
Variable config : RetryConfig.
(** The result of the [n]-th call of the operation. *)
Variable operation : nat -> result T (list string).

(** One turn of [loop]; [attempt] is the number of calls made before. Returns
    the outcome and the sleeps taken, [None] when out of fuel. *)
Fixpoint retry_loop (fuel : nat) (attempt : nat) (delay : Duration)
  : option (outcome T * list Duration) :=
  match fuel with
  | O => None
  | S fuel' =>
      match operation attempt with
      | Ok v => Some (Returned (Ok v), [])
      | Err e =>
          if negb (is_transient_error e) then Some (Returned (Err e), [])
          else if max_retries config <=? Z.of_nat attempt then Some (Returned (Err e), [])
          else match next_delay config delay with
               | None => Some (Panicked, [delay])
               | Some delay' =>
                   match retry_loop fuel' (S attempt) delay' with
                   | Some (r, sleeps) => Some (r, delay :: sleeps)
                   | None => None
                   end
               end
      end
  end.

Definition retry_sync (fuel : nat) : option (outcome T * list Duration) :=
  retry_loop fuel 0 (initial_delay config).

(** The delay before retry [n + 1]: it does not depend on the operation. *)
Fixpoint delay_at (n : nat) : option Duration :=
  match n with
  | O => Some (initial_delay config)
  | S n' => match delay_at n' with Some d => next_delay config d | None => None end
  end.

(** Whether the loop stops at call [i]. *)
Definition stops_at (i : nat) : bool :=
  match operation i with
  | Ok _ => true
  | Err e => negb (is_transient_error e) || (max_retries config <=? Z.of_nat i)
  end.

Lemma retry_loop_stop fuel i d :
  stops_at i = true -> retry_loop (S fuel) i d = Some (Returned (operation i), []).
Proof.
  unfold stops_at. simpl. destruct (operation i); [done|].
  destruct (is_transient_error e); simpl; [|done]. by intros ->.
Qed.

Lemma retry_loop_continue fuel i d d' :
  stops_at i = false -> next_delay config d = Some d' ->
  retry_loop (S fuel) i d =
    match retry_loop fuel (S i) d' with
    | Some (r, sleeps) => Some (r, d :: sleeps)
    | None => None
    end.
Proof.
  unfold stops_at. simpl. destruct (operation i); [done|].
  intros [-> ->]%orb_false_iff. simpl. by intros ->.
Qed.

(** Running from call [i] to the stopping call [i + k]. *)
Lemma retry_loop_run k : forall fuel i ds,
  (forall j, (j < k)%nat -> stops_at (i + j) = false) -> stops_at (i + k) = true ->
  length ds = S k ->
  (forall j, (j <= k)%nat -> delay_at (i + j) = ds !! j) ->
  (k < fuel)%nat ->
  retry_loop fuel i (hd 0 ds) = Some (Returned (operation (i + k)), take k ds).
Proof.
  induction k as [|k IH]; intros fuel i ds Hcont Hstop Hlen Hds Hfuel;
    destruct fuel as [|fuel]; try lia; destruct ds as [|d ds]; simplify_eq/=.
  - rewrite Nat.add_0_r in *. rewrite <- (retry_loop_stop fuel i d Hstop). done.
  - destruct ds as [|d' ds]; [done|].
    assert (next_delay config d = Some d') as Hnd.
    { pose proof (Hds 0%nat ltac:(lia)) as H0. pose proof (Hds 1%nat ltac:(lia)) as H1.
      rewrite Nat.add_0_r in H0. rewrite Nat.add_1_r in H1. simpl in *.
      rewrite H0 in H1. done. }
    change (retry_loop (S fuel) i d = Some (Returned (operation (i + S k)), d :: take k (d' :: ds))).
    rewrite (retry_loop_continue _ _ _ d'); [|by specialize (Hcont 0%nat ltac:(lia)); rewrite Nat.add_0_r in Hcont|done].
    change d' with (hd 0 (d' :: ds)) at 1. rewrite IH.
    + by rewrite Nat.add_succ_comm.
    + intros j Hj. rewrite Nat.add_succ_comm. apply Hcont. lia.
    + by rewrite Nat.add_succ_comm.
    + done.
    + intros j Hj. rewrite Nat.add_succ_comm. apply (Hds (S j)). lia.
    + lia.
Qed.

(** The loop always has a first stopping call, at most [max_retries]. *)
Lemma first_stop :
  0 <= max_retries config ->
  exists i, (i <= Z.to_nat (max_retries config))%nat /\ stops_at i = true /\
            forall j, (j < i)%nat -> stops_at j = false.
Proof.
  intros Hpos. set (n := Z.to_nat (max_retries config)).
  assert (stops_at n = true) as Hn.
  { unfold stops_at. destruct (operation n); [done|]. apply orb_true_iff. right. lia. }
  clearbody n. induction n as [n IH] using (well_founded_induction lt_wf).
  destruct (decide (Exists (fun j => stops_at j = true) (seq 0 n))) as [HE|HE].
  - apply Exists_exists in HE as (j & Hin & Hj). apply elem_of_seq in Hin.
    destruct (IH j) as (i & ? & ?); [lia|done|]. exists i. split; [lia|done].
  - exists n. split; [lia|]. split; [done|]. intros j Hj.
    destruct (stops_at j) eqn:E; [|done]. destruct HE. apply Exists_exists.
    exists j. split; [apply elem_of_seq; lia|done].
Qed.

End Loop.

(** [retry_sync] with [RetryConfig::network]: at most four calls, so five
    rounds are enough and the other outcomes do not occur
    ([retry_network_returns]). *)
Definition retry_network {T} (operation : nat -> result T (list string)) : result T (list string) :=
  match retry_sync network operation 5 with Some (Returned r, _) => r | _ => Err [] end.

(** ** Properties *)

Lemma delays_list config k :
  (forall j, (j <= k)%nat -> is_Some (delay_at config j)) ->
  exists ds, length ds = S k /\ forall j, (j <= k)%nat -> delay_at config j = ds !! j.
Proof.
  induction k as [|k IH]; intros Hd.
  - exists [initial_delay config]. split; [done|]. intros j Hj.
    assert (j = 0%nat) as -> by lia. done.
  - destruct IH as (ds & Hlen & Hds); [intros; apply Hd; lia|].
    destruct (Hd (S k) (le_n _)) as [d Hdk]. exists (ds ++ [d]).
    rewrite length_app. simpl. split; [lia|]. intros j Hj.
    destruct (decide (j = S k)) as [->|].
    + rewrite lookup_app_r, Hlen, Nat.sub_diag by lia. done.
    + rewrite lookup_app_l by lia. apply Hds. lia.
Qed.

Lemma delay_at_le config j d :
  (0 < j)%nat -> delay_at config j = Some d -> d <= max_delay config.
Proof.
  destruct j as [|j]; [lia|]. intros _. simpl. destruct (delay_at config j); [|done].
  unfold next_delay. destruct (F32.from_secs_f32 _); [|done]. intros [= <-]. lia.
Qed.

(** [retry_sync] terminates and retries exactly as configured: it returns
    the result of the first call that succeeds or fails permanently, or of call
    [max_retries], whichever comes first; so at most [max_retries + 1] calls
    are made, one sleep before each retry, the delays are those of the backoff
    sequence, and from the second on they are capped by [max_delay]. *)
Lemma retry_sync_spec {T} (config : RetryConfig) (operation : nat -> result T (list string)) (fuel : nat) :
  0 <= max_retries config -> (Z.to_nat (max_retries config) < fuel)%nat ->
  (forall j, (j <= Z.to_nat (max_retries config))%nat -> is_Some (delay_at config j)) ->
  exists i sleeps,
    retry_sync config operation fuel = Some (Returned (operation i), sleeps) /\
    (i <= Z.to_nat (max_retries config))%nat /\
    (forall j, (j < i)%nat -> exists e, operation j = Err e /\ is_transient_error e = true) /\
    (forall e, operation i = Err e ->
       is_transient_error e = false \/ Z.of_nat i = max_retries config) /\
    length sleeps = i /\
    (forall j, (j < i)%nat -> sleeps !! j = delay_at config j) /\
    (forall j d, (0 < j)%nat -> sleeps !! j = Some d -> d <= max_delay config).
Proof.
  intros Hpos Hfuel Hd.
  destruct (first_stop config operation Hpos) as (i & Hi & Hstop & Hbefore).
  destruct (delays_list config i) as (ds & Hlen & Hds); [intros; apply Hd; lia|].
  assert (forall j, (j < i)%nat -> take i ds !! j = delay_at config j) as Htake
    by (intros j Hj; rewrite lookup_take_lt by done; symmetry; apply Hds; lia).
  exists i, (take i ds). split_and!.
  - unfold retry_sync.
    replace (initial_delay config) with (hd 0 ds)
      by (destruct ds; [done|]; pose proof (Hds 0%nat ltac:(lia)); simplify_eq/=; done).
    apply (retry_loop_run config operation i fuel 0 ds); auto. lia.
  - done.
  - intros j Hj. specialize (Hbefore j Hj). unfold stops_at in Hbefore.
    destruct (operation j) as [|e]; [done|]. exists e.
    apply orb_false_iff in Hbefore as [?%negb_false_iff _]. done.
  - intros e He. unfold stops_at in Hstop. rewrite He in Hstop.
    apply orb_true_iff in Hstop as [?%negb_true_iff|]; [by left|right; lia].
  - rewrite length_take. lia.
  - done.
  - intros j d Hj Hget. assert (j < i)%nat.
    { apply lookup_lt_Some in Hget. rewrite length_take in Hget. lia. }
    rewrite Htake in Hget by done. by apply (delay_at_le config j).
Qed.

(** Every error message that mentions a retryable HTTP status code is
    classified as transient, whatever text surrounds the code. *)
Lemma retryable_status_is_transient (status : Z) (before after : string) (causes : list string) :
  is_retryable_status status = true ->
  is_transient_error ((before +:+ Str.of_Z status +:+ after) :: causes) = true.
Proof.
  intros Hs. unfold is_transient_error. cbn [error_to_string hd].
  set (msg := Str.to_lowercase _). repeat (case_match; [done|]).
  assert (any_of msg [Str.of_Z status] = true) as Hm.
  { simpl. rewrite orb_false_r. subst msg. apply Str.contains_to_lowercase.
    unfold is_retryable_status in Hs. repeat case_match; try done; by vm_compute. }
  unfold is_retryable_status in Hs.
  repeat match goal with H : any_of msg ["database is locked"; _] = false |- _ => clear H end.
  match goal with H : any_of msg ["status: 5"; _; _; _; _; _; _; _; _; _; _] = false |- _ =>
    rename H into Hf end.
  simpl in Hf, Hm. repeat (apply orb_false_iff in Hf as [? Hf]).
  rewrite orb_false_r in Hm.
  repeat case_match; try done; vm_compute Str.of_Z in Hm; congruence.
Qed.

(** A permanent error is returned at once. *)
Lemma retry_sync_permanent {T} (config : RetryConfig) (operation : nat -> result T (list string)) (fuel : nat) :
  (forall e, operation 0%nat = Err e -> is_transient_error e = false) ->
  retry_sync config operation (S fuel) = Some (Returned (operation 0%nat), []).
Proof.
  intros Hp. apply retry_loop_stop. unfold stops_at. destruct (operation 0%nat) as [v|e]; [done|].
  by rewrite (Hp e eq_refl).
Qed.

Lemma retry_anyhow_permanent `{BackonLaws} {T} (config : RetryConfig) (operation : nat -> result T (list string)) :
  (forall e, operation 0%nat = Err e -> is_transient_error e = false) ->
  retry_anyhow config operation = operation 0%nat.
Proof.
  intros Hp. unfold retry_anyhow. destruct (operation 0%nat) as [v|e] eqn:E.
  - by apply backon_ok.
  - apply backon_permanent; [done|]. by apply Hp.
Qed.

(** The delays of [RetryConfig::network], in nanoseconds: the rounding of
    single precision shows in the last digits. *)
Example network_delays :
  delay_at network <$> [0; 1; 2; 3]%nat =
  [Some 100000000; Some 200000003; Some 400000006; Some 800000012].
Proof. vm_compute. reflexivity. Qed.

Lemma retry_network_returns {T} (operation : nat -> result T (list string)) :
  exists i sleeps, retry_sync network operation 5 = Some (Returned (operation i), sleeps) /\
    retry_network operation = operation i /\ (i <= 3)%nat /\ length sleeps = i.
Proof.
  destruct (retry_sync_spec network operation 5) as (i & sleeps & Hr & Hi & _ & _ & Hlen & _).
  - done.
  - apply Nat.ltb_lt. reflexivity.
  - intros j Hj. change (Z.to_nat (max_retries network)) with 3%nat in Hj.
    destruct j as [|[|[|[|j]]]]; [..|lia]; vm_compute; by eexists.
  - exists i, sleeps. split; [done|]. unfold retry_network. rewrite Hr. done.
Qed.
