(* ===== verification/HostAllow.v ===== *)
(** HostAllow: the outgoing-host allowlist of
    [src/src/reliability/security.rs]. *)

From S2P Require Import Prelude.

(** The body of the loop over [allowed_patterns]. *)
Definition pattern_allows (host_lower pattern : string) : bool :=
  if String.eqb pattern "*" then true
  else
    let pattern_lower := Str.to_ascii_lowercase pattern in
    match Str.strip_prefix "*." pattern_lower with
    | Some suffix =>
        let dot_suffix := "." +:+ suffix in
        (Str.ends_with dot_suffix host_lower || String.eqb host_lower suffix)%bool
    | None => String.eqb pattern_lower host_lower
    end.

Fixpoint any_pattern (host_lower : string) (patterns : list string) : bool :=
  match patterns with
  | [] => false
  | p :: ps => if pattern_allows host_lower p then true else any_pattern host_lower ps
  end.

Definition is_http_host_allowed (host : string) (allowed_patterns : list string) : bool :=
  match allowed_patterns with
  | [] => false
  | _ => any_pattern (Str.to_ascii_lowercase host) allowed_patterns
  end.

(** ** Specification *)

(** What one allowlist entry means for a host name, up to ASCII case: [*]
    matches anything, [*.d] matches [d] and every name that ends in [.d], any
    other entry only itself. *)
Inductive matches (host : string) : string -> Prop :=
| match_all : matches host "*"
| match_domain p suffix :
    Str.to_ascii_lowercase p = "*." +:+ suffix ->
    Str.to_ascii_lowercase host = suffix -> matches host p
| match_subdomain p suffix label :
    Str.to_ascii_lowercase p = "*." +:+ suffix ->
    Str.to_ascii_lowercase host = label +:+ "." +:+ suffix -> matches host p
| match_exact p :
    (forall suffix, Str.to_ascii_lowercase p <> "*." +:+ suffix) ->
    Str.to_ascii_lowercase p = Str.to_ascii_lowercase host -> matches host p.

Lemma pattern_allows_iff host p :
  pattern_allows (Str.to_ascii_lowercase host) p = true <-> matches host p.
Proof.
  unfold pattern_allows. destruct (String.eqb_spec p "*") as [->|Hne].
  { split; [constructor|done]. }
  destruct (Str.strip_prefix _ _) as [suffix|] eqn:E.
  - apply Str.strip_prefix_Some in E.
    rewrite orb_true_iff, Str.ends_with_iff, String.eqb_eq. split.
    + intros [[l Hl]|Hs]; [by eapply match_subdomain|by eapply match_domain].
    + intros Hm. revert Hne E. destruct Hm as [|p s Hp Hh|p s l Hp Hh|p Hno Hp]; intros Hne E.
      * done.
      * rewrite E in Hp. apply Str.app_inj_l in Hp. subst s. auto.
      * rewrite E in Hp. apply Str.app_inj_l in Hp. subst s. left. by exists l.
      * by destruct (Hno suffix).
  - assert (forall suffix, Str.to_ascii_lowercase p <> "*." +:+ suffix) as Hno.
    { intros s Hs. apply Str.strip_prefix_Some in Hs. congruence. }
    rewrite String.eqb_eq. split; [by apply match_exact|].
    intros Hm. revert Hne Hno. destruct Hm as [|p s Hp|p s l Hp|]; intros Hne Hno;
      [done|by destruct (Hno s)|by destruct (Hno s)|done].
Qed.

Lemma any_pattern_iff h ps :
  any_pattern h ps = true <-> exists p, p ∈ ps /\ pattern_allows h p = true.
Proof.
  induction ps as [|p ps IH]; simpl; [set_solver|].
  destruct (pattern_allows h p) eqn:E.
  - split; [|done]. intros _. exists p. split; [apply elem_of_cons; by left|done].
  - rewrite IH. setoid_rewrite elem_of_cons. split.
    + intros (q & Hq & Ha). eauto.
    + intros (q & [->|Hq] & Ha); [congruence|eauto].
Qed.

(** A host that is allowed matches an entry. *)
Lemma is_http_host_allowed_matches host patterns :
  is_http_host_allowed host patterns = true <-> exists p, p ∈ patterns /\ matches host p.
Proof.
  assert (is_http_host_allowed host patterns = any_pattern (Str.to_ascii_lowercase host) patterns) as ->
    by (by destruct patterns).
  rewrite any_pattern_iff. by setoid_rewrite pattern_allows_iff.
Qed.

(** ** Properties *)

(** C17. A host is allowed exactly when some entry of the allowlist matches it;
    in particular nothing is allowed by the empty list, and the decision does
    not depend on the letter case of the host. *)
Theorem host_allowed_iff (host : string) (patterns : list string) :
  (is_http_host_allowed host patterns = true <-> exists p, p ∈ patterns /\ matches host p) /\
  is_http_host_allowed (Str.to_ascii_lowercase host) patterns =
    is_http_host_allowed host patterns.
Proof.
  split; [apply is_http_host_allowed_matches|].
  unfold is_http_host_allowed. by rewrite Str.to_ascii_lowercase_idem.
Qed.

(** A name that merely ends in the domain's text is not a subdomain. *)
Example not_a_subdomain :
  is_http_host_allowed "notexample.com" ["*.example.com"; "api.other.org"] = false.
Proof. reflexivity. Qed.
Example subdomain_any_case :
  is_http_host_allowed "API.Example.com" ["*.EXAMPLE.com"] = true.
Proof. reflexivity. Qed.
