(* ===== verification/StdPath.v ===== *)
(** StdPath: the parts of [std::path] the program relies on, for a Unix host.

    A path is its sequence of components, which is what [Path]'s equality,
    [starts_with], [parent] and [file_name] are defined on; [components] parses
    the bytes and [to_str] renders them. Windows prefixes never occur on Unix;
    the constructor is kept because the program matches on it. *)

From S2P Require Import Prelude.

Inductive Component :=
| Prefix (s : string)
| RootDir
| CurDir
| ParentDir
| Normal (s : string).

#[export] Instance Component_eq_dec : EqDecision Component.
Proof. solve_decision. Defined.

#[export] Instance Component_countable : Countable Component.
Proof.
  refine (inj_countable'
    (fun c => match c with
              | Prefix s => (0%N, s) | RootDir => (1%N, EmptyString) | CurDir => (2%N, EmptyString)
              | ParentDir => (3%N, EmptyString) | Normal s => (4%N, s)
              end)
    (fun x => match x with
              | (0%N, s) => Prefix s | (1%N, _) => RootDir | (2%N, _) => CurDir | (3%N, _) => ParentDir
              | (_, s) => Normal s
              end) _).
  by intros [].
Defined.

Notation Path := (list Component) (only parsing).

(** The component of a [/]-separated piece that is not the first one. *)
Definition piece (s : string) : list Component :=
  if String.eqb s "" then []
  else if String.eqb s "." then []
  else if String.eqb s ".." then [ParentDir]
  else [Normal s].

(** [Path::components] *)
Definition components (s : string) : Path :=
  match Str.split Str.SLASH s with
  | [] => []
  | first :: rest =>
      (if String.eqb s "" then []
       else if String.eqb first "" then [RootDir]
       else if String.eqb first "." then [CurDir]
       else piece first) ++ mjoin (piece <$> rest)
  end.

Definition has_root (p : Path) : bool :=
  match p with RootDir :: _ => true | _ => false end.
(** [Path::is_absolute] on Unix *)
Definition is_absolute : Path -> bool := has_root.

(** [PathBuf::push] / [Path::join]: an absolute argument replaces the path; a
    leading [.] of the argument disappears behind a non-empty path. *)
Definition join (p q : Path) : Path :=
  if is_absolute q then q
  else match p with
       | [] => q
       | _ => p ++ match q with CurDir :: q' => q' | _ => q end
       end.

(** [Path::parent] *)
Definition parent (p : Path) : option Path :=
  match last p with
  | Some (Normal _) | Some CurDir | Some ParentDir => Some (take (length p - 1) p)
  | _ => None
  end.

(** [PathBuf::pop] *)
Definition pop (p : Path) : bool * Path :=
  match parent p with Some q => (true, q) | None => (false, p) end.

(** [Path::file_name] *)
Definition file_name (p : Path) : option string :=
  match last p with Some (Normal s) => Some s | _ => None end.

(** [Path::starts_with] *)
Fixpoint starts_with (p base : Path) {struct base} : bool :=
  match base, p with
  | [], _ => true
  | b :: base', c :: p' => (bool_decide (c = b) && starts_with p' base')%bool
  | _ :: _, [] => false
  end.

Definition component_str (c : Component) : string :=
  match c with
  | Prefix s => s
  | RootDir => ""
  | CurDir => "."
  | ParentDir => ".."
  | Normal s => s
  end.

(** [Path::display] / [to_string_lossy] *)
Definition to_str (p : Path) : string :=
  match p with
  | [RootDir] => "/"
  | _ => Str.join "/" (component_str <$> p)
  end.

(** [Path::file_stem] and [Path::extension]: split the file name at its last
    dot, unless the name is [..] or its only dot is the leading one. *)
Definition rsplit_dot (name : string) : option string * option string :=
  if String.eqb name ".." then (Some name, None)
  else match rev (Str.split Str.DOT name) with
       | ext :: w :: ws =>
           let before := Str.join "." (rev (w :: ws)) in
           if String.eqb before "" then (Some name, None) else (Some before, Some ext)
       | _ => (Some name, None)
       end.
Definition file_stem (p : Path) : option string :=
  match file_name p with Some n => (rsplit_dot n).1 | None => None end.
Definition extension (p : Path) : option string :=
  match file_name p with Some n => (rsplit_dot n).2 | None => None end.

(** ** Lemmas *)

Lemma path_starts_with_iff p base : starts_with p base = true <-> exists q, p = base ++ q.
Proof.
  revert p. induction base as [|b base IH]; intros p; simpl; [naive_solver|].
  destruct p as [|c p]; [naive_solver|].
  rewrite andb_true_iff, bool_decide_eq_true, IH. naive_solver.
Qed.

(** A name that is one plain component. *)
Definition plain (s : string) : Prop :=
  s <> "" /\ s <> "." /\ s <> ".." /\ Str.contains_char Str.SLASH s = false.

Lemma piece_cases s :
  Str.contains_char Str.SLASH s = false ->
  piece s = [] \/ piece s = [ParentDir] \/ (piece s = [Normal s] /\ plain s).
Proof.
  intros Hs. unfold piece.
  destruct (String.eqb_spec s ""); [by left|]. destruct (String.eqb_spec s "."); [by left|].
  destruct (String.eqb_spec s ".."); [by right; left|]. right; right. done.
Qed.

Lemma piece_plain s : plain s -> piece s = [Normal s].
Proof.
  intros (H1 & H2 & H3 & _). unfold piece.
  apply String.eqb_neq in H1, H2, H3. by rewrite H1, H2, H3.
Qed.

Lemma components_normal s n :
  Normal n ∈ components s -> plain n /\ n ∈ Str.split Str.SLASH s.
Proof.
  unfold components. pose proof (Str.split_pred_pieces (Ascii.eqb Str.SLASH) s) as HF.
  change (Str.split_pred _ s) with (Str.split Str.SLASH s) in HF.
  destruct (Str.split Str.SLASH s) as [|first rest]; [set_solver|].
  apply Forall_cons in HF as [Hf Hr].
  assert (forall w, Str.contains_char Str.SLASH w = false -> Normal n ∈ piece w -> plain n /\ n = w) as Hp.
  { intros w Hw Hin. destruct (piece_cases w Hw) as [E|[E|[E Hpl]]]; rewrite E in Hin.
    - by apply elem_of_nil in Hin.
    - by apply list_elem_of_singleton in Hin.
    - apply list_elem_of_singleton in Hin. by simplify_eq. }
  rewrite elem_of_app. intros [Hin|Hin].
  - repeat case_match; [set_solver..|]. destruct (Hp first Hf Hin) as [? ->]. set_solver.
  - apply list_elem_of_join in Hin as (l & Hin & Hl). apply list_elem_of_fmap in Hl as (w & -> & Hw).
    rewrite Forall_forall in Hr. destruct (Hp w (Hr w Hw) Hin) as [? ->]. set_solver.
Qed.

Lemma components_no_prefix s p : Prefix p ∉ components s.
Proof.
  unfold components. destruct (Str.split Str.SLASH s) as [|first rest]; [set_solver|].
  assert (forall w, Prefix p ∉ piece w) as Hp by (intros w; unfold piece; repeat case_match; set_solver).
  rewrite elem_of_app. intros [Hin|Hin]; [repeat case_match; set_solver|].
  apply list_elem_of_join in Hin as (l & Hin & Hl). apply list_elem_of_fmap in Hl as (w & -> & _).
  by apply Hp in Hin.
Qed.

(** Rendering plain components and parsing them back is the identity. *)
Lemma components_to_str names :
  names <> [] -> Forall plain names -> components (to_str (Normal <$> names)) = Normal <$> names.
Proof.
  intros Hne HF.
  assert (to_str (Normal <$> names) = Str.join "/" names) as ->.
  { destruct names as [|n names]; [done|]. unfold to_str. simpl.
    rewrite <- list_fmap_compose. unfold compose. simpl. by rewrite list_fmap_id. }
  unfold components. unfold Str.SLASH.
  rewrite Str.split_join; [|done|by eapply Forall_impl; [exact HF|intros ? (_ & _ & _ & ?)]].
  destruct names as [|n names]; [done|]. apply Forall_cons in HF as [Hn HF].
  assert (String.eqb (Str.join "/" (n :: names)) "" = false) as ->.
  { apply String.eqb_neq. destruct Hn as [Hn _]. destruct n; [done|]. by destruct names. }
  destruct Hn as (H1 & H2 & H3 & H4). pose proof (conj H1 (conj H2 (conj H3 H4))) as Hpl.
  apply String.eqb_neq in H1, H2. rewrite H1, H2, piece_plain by done.
  csimpl. f_equal. clear -HF. induction HF as [|m names Hm HF IH]; [done|].
  rewrite !fmap_cons. rewrite <- IH. change (mjoin (piece m :: (piece <$> names))) with (piece m ++ mjoin (piece <$> names)). by rewrite piece_plain.
Qed.

(** ** File names *)

(** A plain name is one component. *)
Lemma components_plain s : plain s -> components s = [Normal s].
Proof.
  intros Hp. exact (components_to_str [s] ltac:(done) (Forall_cons_2 _ _ _ Hp (Forall_nil_2 _))).
Qed.

Lemma split_mid c a b : Str.split c (a +:+ String c b) = Str.split c a ++ Str.split c b.
Proof.
  unfold Str.split. induction a as [|d a IH]; simpl; [by rewrite Ascii.eqb_refl|].
  rewrite IH. destruct (Ascii.eqb c d); [done|].
  pose proof (Str.split_pred_nonempty (Ascii.eqb c) a). by destruct (Str.split_pred (Ascii.eqb c) a).
Qed.

Lemma join_snoc sep l x : l <> [] -> Str.join sep (l ++ [x]) = Str.join sep l +:+ sep +:+ x.
Proof.
  induction l as [|y [|z l] IH]; intros Hl; [done|done|].
  change (y +:+ sep +:+ Str.join sep ((z :: l) ++ [x]) = (y +:+ sep +:+ Str.join sep (z :: l)) +:+ sep +:+ x).
  rewrite IH by done. by rewrite !Str.app_assoc.
Qed.

(** The stem and the extension of a file name. *)
Lemma rsplit_dot_Some s n e :
  rsplit_dot s = (Some n, Some e) <->
  s = n +:+ "." +:+ e /\ n <> "" /\ Str.contains_char Str.DOT e = false /\ s <> "..".
Proof.
  unfold rsplit_dot. destruct (String.eqb_spec s "..") as [->|Hs].
  { split; [done|]. by intros (_ & _ & _ & ?). }
  split.
  - destruct (rev (Str.split Str.DOT s)) as [|ext [|w ws]] eqn:E; try done.
    destruct (String.eqb_spec (Str.join "." (rev (w :: ws))) "") as [|Hne]; [done|]. intros [= <- <-].
    assert (Str.split Str.DOT s = rev (w :: ws) ++ [ext]) as Es
      by (rewrite <- (rev_involutive (Str.split Str.DOT s)), E; done).
    split_and!; [|done| |done].
    + rewrite <- (Str.join_split Str.DOT s), Es. apply join_snoc.
      simpl. by destruct (rev ws).
    + pose proof (Str.split_pred_pieces (Ascii.eqb Str.DOT) s) as Hp.
      change (Forall (fun w => Str.contains_char Str.DOT w = false) (Str.split Str.DOT s)) in Hp.
      rewrite Es in Hp. apply Forall_app in Hp as [_ Hp]. by apply Forall_cons in Hp as [Hp _].
  - intros (-> & Hn & He & _).
    assert (Str.split Str.DOT (n +:+ "." +:+ e) = Str.split Str.DOT n ++ [e]) as ->
      by (rewrite <- (Str.split_none _ _ He); apply split_mid).
    rewrite rev_app_distr. cbn [rev app].
    pose proof (Str.split_pred_nonempty (Ascii.eqb Str.DOT) n) as Hne.
    change (Str.split Str.DOT n <> []) in Hne.
    destruct (rev (Str.split Str.DOT n)) as [|w ws] eqn:E.
    { by apply (f_equal (@rev string)) in E; rewrite rev_involutive in E. }
    cbv zeta. change (rev ws ++ [w]) with (rev (w :: ws)). rewrite <- E, rev_involutive.
    pose proof (Str.join_split Str.DOT n) as Hj. change (String Str.DOT EmptyString) with "." in Hj.
    rewrite Hj. by apply String.eqb_neq in Hn as ->.
Qed.

Lemma file_name_last dir f : file_name (dir ++ [Normal f]) = Some f.
Proof. unfold file_name. by rewrite last_snoc. Qed.

Lemma wasm_ext_spec dir f n :
  file_stem (dir ++ [Normal f]) = Some n /\ extension (dir ++ [Normal f]) = Some "wasm" <->
  f = n +:+ ".wasm" /\ n <> "".
Proof.
  unfold file_stem, extension. rewrite file_name_last.
  pose proof (rsplit_dot_Some f n "wasm") as H.
  destruct (rsplit_dot f) as [a b]. cbn [fst snd]. split.
  - intros [-> ->]. by destruct H as [[? [? _]] _].
  - intros [-> Hn]. assert ((a, b) = (Some n, Some "wasm")) as [= -> ->]; [|done].
    apply H. split_and!; [done|done|done|]. clear. destruct n as [|? [|? n]]; [done|done|].
    simpl. intros [= _ _ E]. by destruct n.
Qed.
