(* ===== verification/Fs.v ===== *)
(** Fs: the files of a project as the commands see them: a tree of files and
    directories, and a monad of operations on it that may fail.

    A path is looked up from the current directory, without its [.]
    components; [..] and symbolic links are not resolved. Whether the system
    lets a file be written is a parameter. *)

From S2P Require Import Prelude StdPath.

Record Fs := {
  files : gmap Path string;
  dirs : gset Path;
}.

(** ** The monad *)

Definition M (A : Type) : Type := Fs -> result A (list string) * Fs.
Definition ret {A} (a : A) : M A := fun fs => (Ok a, fs).
(** [bail!] *)
Definition bail {A} (e : string) : M A := fun fs => (Err [e], fs).
Definition lift {A} (r : result A (list string)) : M A := fun fs => (r, fs).
Definition bind {A B} (m : M A) (k : A -> M B) : M B := fun fs =>
  match m fs with
  | (Ok a, fs) => k a fs
  | (Err e, fs) => (Err e, fs)
  end.
(** [Context::context] *)
Definition context {A} (msg : string) (m : M A) : M A := fun fs =>
  match m fs with
  | (Err e, fs) => (Err (msg :: e), fs)
  | r => r
  end.
(** [let _ = ..] *)
Definition ignore {A} (m : M A) : M unit := fun fs => (Ok tt, (m fs).2).

Declare Scope fs_scope.
Delimit Scope fs_scope with fs.
Notation "'do' x <- m ; k" := (bind m (fun x => k))
  (at level 200, x name, m at level 100, k at level 200) : fs_scope.
Notation "'do' ' p <- m ; k" := (bind m (fun x => match x with p => k end))
  (at level 200, p pattern, m at level 100, k at level 200) : fs_scope.
Notation "m ;; k" := (bind m (fun _ => k)) (at level 100, k at level 200, right associativity) : fs_scope.

Lemma bind_Ok {A B} (m : M A) (k : A -> M B) fs b fs' :
  bind m k fs = (Ok b, fs') <-> exists a fs1, m fs = (Ok a, fs1) /\ k a fs1 = (Ok b, fs').
Proof. unfold bind. destruct (m fs) as [[a|e] fs1]; naive_solver. Qed.

Lemma context_Ok {A} msg (m : M A) fs a fs' : context msg m fs = (Ok a, fs') <-> m fs = (Ok a, fs').
Proof. unfold context. destruct (m fs) as [[x|e] fs1]; naive_solver. Qed.

(** ** Paths and files *)

#[local] Set Default Proof Using "Type".

Section Fs.
(** [std::env::current_dir] *)
Variable cwd : Path.
Variable writable : Path -> bool.

Definition dot (c : Component) : bool := bool_decide (c <> CurDir).

Definition key (p : Path) : Path := filter dot (join cwd p).

Definition is_file (p : Path) (fs : Fs) : bool := bool_decide (is_Some (files fs !! key p)).
Definition is_dir (p : Path) (fs : Fs) : bool := bool_decide (key p ∈ dirs fs).
Definition exists_ (p : Path) (fs : Fs) : bool := (is_file p fs || is_dir p fs)%bool.

Definition ENOENT : string := "No such file or directory".

Definition read (p : Path) : M string := fun fs =>
  (ok_or (files fs !! key p) [ENOENT], fs).

Definition put (p : Path) (data : string) (fs : Fs) : Fs :=
  {| files := <[key p := data]> (files fs); dirs := dirs fs |}.

(** [fs::write], into a directory that exists *)
Definition write (p : Path) (data : string) : M unit := fun fs =>
  match parent (key p) with
  | None => (Err ["Is a directory"], fs)
  | Some d =>
      if negb (bool_decide (d ∈ dirs fs)) then (Err [ENOENT], fs)
      else if is_dir p fs then (Err ["Is a directory"], fs)
      else if writable (key p) then (Ok tt, put p data fs)
      else (Err ["Permission denied"], fs)
  end.

(** [fs::copy]: a file copied onto itself is truncated. *)
Definition copied (src dst : Path) (data : string) : string := if decide (key src = key dst) then EmptyString else data.
Definition copy (src dst : Path) : M unit := bind (read src) (fun data => write dst (copied src dst data)).

(** The directories of a path, itself included. *)
Definition prefixes (p : Path) : list Path := (fun n => take n p) <$> seq 1 (length p).

(** [fs::create_dir_all] *)
Definition create_dir_all (p : Path) : M unit := fun fs =>
  let ps := prefixes (key p) in
  if existsb (fun q => bool_decide (is_Some (files fs !! q))) ps then (Err ["File exists"], fs)
  else if forallb (fun q => (bool_decide (q ∈ dirs fs) || writable q)%bool) ps
  then (Ok tt, {| files := files fs; dirs := list_to_set ps ∪ dirs fs |})
  else (Err ["Permission denied"], fs).

Definition remove_file (p : Path) : M unit := fun fs =>
  if is_file p fs
  then if writable (key p) then (Ok tt, {| files := delete (key p) (files fs); dirs := dirs fs |})
       else (Err ["Permission denied"], fs)
  else (Err [ENOENT], fs).

(** *** Directories *)

(** The name of the entry of a directory that a file or directory lies in *)
Definition entry_of (dir : Path) (p : Path) : option string :=
  if starts_with p dir then match drop (length dir) p with Normal n :: _ => Some n | _ => None end else None.

(** The names in a directory, without an order *)
Definition entries (p : Path) (fs : Fs) : list string :=
  remove_dups (omap (entry_of (key p)) ((map_to_list (files fs)).*1 ++ elements (dirs fs))).

(** [fs::read_dir], in the order the system gives *)
Definition read_dir (order : list string -> list string) (p : Path) : M (list string) := fun fs =>
  if is_dir p fs then (Ok (order (entries p fs)), fs) else (Err [ENOENT], fs).

Definition remove_dir_all (p : Path) : M unit := fun fs =>
  if is_dir p fs
  then (Ok tt, {| files := filter (fun x => starts_with x.1 (key p) = false) (files fs);
                  dirs := filter (fun q => starts_with q (key p) = false) (dirs fs) |})
  else (Err [ENOENT], fs).

Fixpoint each {A} (l : list A) (f : A -> M unit) : M unit :=
  match l with [] => ret tt | x :: l => bind (f x) (fun _ => each l f) end.

(** ** Lemmas *)

Lemma read_Ok p fs b fs' : read p fs = (Ok b, fs') <-> fs' = fs /\ files fs !! key p = Some b.
Proof.
  unfold read, ok_or. destruct (files fs !! key p).
  - split; [by intros [= -> ->]|by intros [-> [= ->]]].
  - split; [done|by intros [_ ?]].
Qed.

Lemma write_Ok p data fs fs' :
  write p data fs = (Ok tt, fs') -> fs' = put p data fs.
Proof. unfold write. repeat case_match; naive_solver. Qed.

Lemma copy_Ok src dst fs fs' :
  copy src dst fs = (Ok tt, fs') -> exists b, files fs !! key src = Some b /\ fs' = put dst (copied src dst b) fs.
Proof.
  unfold copy. intros (b & fs1 & [-> Hb]%read_Ok & Hw)%bind_Ok. exists b. split; [done|]. by apply write_Ok.
Qed.

Lemma copied_ne src dst data : key src <> key dst -> copied src dst data = data.
Proof. intros Hne. unfold copied. by rewrite decide_False. Qed.

Lemma create_dir_all_Ok p fs fs' :
  create_dir_all p fs = (Ok tt, fs') -> files fs' = files fs /\ dirs fs ⊆ dirs fs'.
Proof. unfold create_dir_all. repeat case_match; intros; simplify_eq; set_solver. Qed.

Lemma put_lookup p data fs : files (put p data fs) !! key p = Some data.
Proof. apply lookup_insert_eq. Qed.

Lemma put_lookup_ne p q data fs : key p <> key q -> files (put p data fs) !! key q = files fs !! key q.
Proof. apply lookup_insert_ne. Qed.
End Fs.

(** ** Trees *)

(** A file tree as the system keeps it: what lies in a directory has a name,
    the directories on the way to it are there, and no directory is a file. *)
Record tree_ok (fs : Fs) : Prop := {
  tree_parents : forall q c rest, q <> [] -> q ++ c :: rest ∈ dirs fs \/ is_Some (files fs !! (q ++ c :: rest)) -> q ∈ dirs fs;
  tree_names : forall q c rest, q <> [] -> q ++ c :: rest ∈ dirs fs \/ is_Some (files fs !! (q ++ c :: rest)) ->
    exists n, c = Normal n;
  tree_apart : forall q, q ∈ dirs fs -> files fs !! q = None;
}.

Definition is_normal (c : Component) : bool := match c with Normal _ => true | _ => false end.

Definition tree_check (fs : Fs) : bool :=
  (forallb (fun p => forallb (fun i => bool_decide (take i p ∈ dirs fs)) (seq 1 (length p - 1)) && forallb is_normal (drop 1 p))
     (elements (dirs fs) ++ (map_to_list (files fs)).*1) &&
   forallb (fun p => bool_decide (p ∉ dirs fs)) (map_to_list (files fs)).*1)%bool.

Lemma tree_check_ok fs : tree_check fs = true -> tree_ok fs.
Proof.
  unfold tree_check. intros [Hp Ha]%andb_true_iff. rewrite forallb_forall in Hp, Ha.
  assert (forall p, p ∈ dirs fs \/ is_Some (files fs !! p) -> In p (elements (dirs fs) ++ (map_to_list (files fs)).*1)) as Hin.
  { intros p Hp'. apply list_elem_of_In, elem_of_app. destruct Hp' as [H|[b H]]; [left; by apply elem_of_elements|right].
    apply list_elem_of_fmap. exists (p, b). split; [done|]. by apply elem_of_map_to_list. }
  assert (forall q c rest, q <> [] -> q ++ c :: rest ∈ dirs fs \/ is_Some (files fs !! (q ++ c :: rest)) ->
            q ∈ dirs fs /\ is_normal c = true) as H.
  { intros q c rest Hq H. apply Hin, Hp, andb_true_iff in H as [H1 H2]. rewrite forallb_forall in H1, H2. split.
    - specialize (H1 (length q)). rewrite take_app_length in H1. apply bool_decide_eq_true in H1; [done|].
      apply in_seq. rewrite length_app. destruct q; [done|]. cbn. lia.
    - apply H2. destruct q as [|x q]; [done|]. cbn. rewrite drop_0. apply in_app_iff. right. by left. }
  split.
  - intros q c rest Hq Hc. by eapply H.
  - intros q c rest Hq Hc. destruct (H _ _ _ Hq Hc) as [_ Hn]. destruct c; try done. by eexists.
  - intros q Hq. destruct (files fs !! q) as [b|] eqn:E; [|done]. exfalso.
    assert (In q (map_to_list (files fs)).*1) as Hq'.
    { apply list_elem_of_In, list_elem_of_fmap. exists (q, b). split; [done|]. by apply elem_of_map_to_list. }
    apply Ha, bool_decide_eq_true in Hq'. done.
Qed.

Definition below (q base : Path) : Prop := exists rest, q = base ++ rest.

#[export] Instance below_dec q base : Decision (below q base).
Proof.
  destruct (starts_with q base) eqn:E; [left|right]; [by apply path_starts_with_iff|].
  intros H. apply path_starts_with_iff in H. congruence.
Defined.

Lemma below_app q base rest : below q base -> below (q ++ rest) base.
Proof. intros [r ->]. exists (r ++ rest). by rewrite app_assoc. Qed.

Section Trees.
Variable cwd : Path.

Lemma key_child p n : key cwd (join p [Normal n]) = key cwd p ++ [Normal n].
Proof.
  assert (filter dot [Normal n] = [Normal n]) as Hf by done.
  unfold key, join. destruct p as [|c p]; cbn.
  - destruct cwd as [|d ds]; [done|]. rewrite !filter_app, Hf. by rewrite app_nil_r.
  - destruct (has_root (c :: p)) eqn:Ha; cbn in Ha; [destruct c; try done; by rewrite <- Hf, <- filter_app|].
    destruct cwd as [|d ds]; [destruct c; try done; by rewrite <- Hf, <- filter_app|].
    destruct c; try done; rewrite <- Hf at 2; rewrite <- filter_app; by rewrite <- app_assoc.
Qed.

Lemma entry_of_Some dir p n : entry_of dir p = Some n <-> exists rest, p = dir ++ Normal n :: rest.
Proof.
  unfold entry_of. destruct (starts_with p dir) eqn:E.
  - apply path_starts_with_iff in E as [q ->]. rewrite drop_app_length. split.
    + destruct q as [|[] q]; try done. intros [= ->]. by exists q.
    + intros [rest Hr%app_inv_head]. by rewrite Hr.
  - split; [done|]. intros [rest ->]. assert (starts_with (dir ++ Normal n :: rest) dir = true) by (apply path_starts_with_iff; eauto).
    congruence.
Qed.

Lemma elem_of_fs_entries p fs n :
  n ∈ entries cwd p fs <->
  exists rest, key cwd p ++ Normal n :: rest ∈ dirs fs \/ is_Some (files fs !! (key cwd p ++ Normal n :: rest)).
Proof.
  unfold entries. rewrite elem_of_remove_dups, list_elem_of_omap. split.
  - intros (q & Hq & [rest ->]%entry_of_Some). exists rest.
    apply elem_of_app in Hq as [Hq|Hq]; [right|left; by apply elem_of_elements].
    apply list_elem_of_fmap in Hq as ([q b] & -> & Hq). apply elem_of_map_to_list in Hq. by exists b.
  - intros (rest & Hq). exists (key cwd p ++ Normal n :: rest). split; [|apply entry_of_Some; by exists rest].
    apply elem_of_app. destruct Hq as [Hq|[b Hq]]; [right; by apply elem_of_elements|left].
    apply list_elem_of_fmap. exists (key cwd p ++ Normal n :: rest, b). split; [done|]. by apply elem_of_map_to_list.
Qed.

Lemma NoDup_entries p fs : NoDup (entries cwd p fs).
Proof. apply NoDup_remove_dups. Qed.

(** A chain of directories is no longer than the number of directories. *)
Lemma tree_depth fs base rel : tree_ok fs -> base <> [] -> base ++ rel ∈ dirs fs -> (length rel < size (dirs fs))%nat.
Proof.
  intros Hok Hne Hin. set (chain := (fun i => base ++ take i rel) <$> seq 0 (S (length rel))).
  assert (list_to_set chain ⊆ dirs fs) as Hsub.
  { intros q Hq%elem_of_list_to_set. apply list_elem_of_fmap in Hq as (i & -> & Hi%elem_of_seq).
    destruct (drop i rel) as [|c rest] eqn:Ed.
    - rewrite <- (take_drop i rel) in Hin. rewrite Ed, app_nil_r in Hin. exact Hin.
    - apply (tree_parents _ Hok _ c rest); [by destruct base|]. left. rewrite <- app_assoc, <- Ed, take_drop. exact Hin. }
  assert (NoDup chain) as Hnd.
  { apply NoDup_fmap_2_strong; [|apply NoDup_seq]. intros i j Hi%elem_of_seq Hj%elem_of_seq E%app_inv_head.
    apply (f_equal length) in E. rewrite !length_take in E. lia. }
  apply subseteq_size in Hsub. rewrite size_list_to_set in Hsub by done. unfold chain in Hsub.
  rewrite length_fmap, length_seq in Hsub. lia.
Qed.
End Trees.

(** ** Paths that a text denotes *)

Definition inner (c : Component) : Prop :=
  match c with ParentDir => True | Normal n => plain n | _ => False end.

Definition canonical (p : Path) : Prop :=
  match p with
  | [] => True
  | c :: cs => (c = RootDir \/ c = CurDir \/ inner c) /\ Forall inner cs
  end.

Lemma piece_inner w : Str.contains_char Str.SLASH w = false -> Forall inner (piece w).
Proof.
  intros Hw. destruct (piece_cases w Hw) as [->|[->|[-> Hp]]]; [done|by constructor|by constructor].
Qed.

Lemma pieces_inner ws :
  Forall (fun w => Str.contains_char Str.SLASH w = false) ws -> Forall inner (mjoin (piece <$> ws)).
Proof.
  induction 1 as [|w ws Hw _ IH]; [done|]. csimpl. apply Forall_app_2; [by apply piece_inner|done].
Qed.

Lemma inner_canonical p : Forall inner p -> canonical p.
Proof. destruct 1; [done|]. split; [by right; right|done]. Qed.

Lemma components_canonical s : canonical (components s).
Proof.
  unfold components. pose proof (Str.split_pred_pieces (Ascii.eqb Str.SLASH) s) as HF.
  change (Str.split_pred _ s) with (Str.split Str.SLASH s) in HF.
  destruct (Str.split Str.SLASH s) as [|first rest]; [done|]. apply Forall_cons in HF as [Hf Hr].
  apply pieces_inner in Hr. repeat case_match; try (by apply inner_canonical); try (by split; auto).
  apply inner_canonical. apply Forall_app_2; [by apply piece_inner|done].
Qed.

Lemma inner_no_slash c : inner c -> Str.contains_char Str.SLASH (component_str c) = false.
Proof. destruct c; cbn; [done|done|done|done|]. by intros (_ & _ & _ & ?). Qed.

Lemma inner_piece c : inner c -> piece (component_str c) = [c].
Proof. destruct c; cbn; try done. apply piece_plain. Qed.

Lemma inner_pieces cs : Forall inner cs -> mjoin (piece <$> (component_str <$> cs)) = cs.
Proof.
  induction 1 as [|c cs Hc _ IH]; [done|]. csimpl. by rewrite (inner_piece _ Hc), IH.
Qed.

Lemma inner_str c : inner c -> component_str c <> EmptyString /\ component_str c <> ".".
Proof. destruct c; cbn; try done. by intros (? & ? & _). Qed.

(** Rendering a path and parsing it again. *)
Lemma components_to_str_canonical p : canonical p -> components (to_str p) = p.
Proof.
  intros Hc. destruct p as [|c cs]; [done|]. destruct Hc as [Hc Hcs].
  destruct cs as [|c2 cs].
  - destruct Hc as [->|[->|Hc]]; [done|done|].
    assert (to_str [c] = component_str c) as -> by (destruct c; cbn in Hc |- *; done).
    unfold components. rewrite Str.split_none by (by apply inner_no_slash).
    destruct (inner_str _ Hc) as [He Hd]. apply String.eqb_neq in He, Hd. rewrite He, Hd.
    cbn [fmap list_fmap mjoin list_join]. by rewrite inner_piece, app_nil_r.
  - assert (to_str (c :: c2 :: cs) = Str.join "/" (component_str <$> c :: c2 :: cs)) as ->.
    { unfold to_str. by destruct c. }
    assert (Str.join "/" (component_str <$> c :: c2 :: cs) <> EmptyString) as Hne
      by (rewrite !fmap_cons; cbn [Str.join]; destruct (component_str c); discriminate).
    assert (Forall (fun w => Str.contains_char Str.SLASH w = false) (component_str <$> c :: c2 :: cs)) as Hns.
    { apply Forall_fmap. constructor.
      - destruct Hc as [->|[->|Hc]]; [done|done|]. exact (inner_no_slash _ Hc).
      - eapply Forall_impl; [exact Hcs|exact inner_no_slash]. }
    unfold components. apply String.eqb_neq in Hne. rewrite Hne.
    change "/" with (String Str.SLASH EmptyString). rewrite Str.split_join by done.
    rewrite fmap_cons, (inner_pieces (c2 :: cs) Hcs).
    destruct Hc as [->|[->|Hc]]; [done|done|]. destruct (inner_str _ Hc) as [He Hd].
    apply String.eqb_neq in He, Hd. rewrite He, Hd. by rewrite inner_piece.
Qed.

Lemma canonical_tail p : canonical p -> Forall inner (drop 1 p).
Proof. destruct p as [|c cs]; [done|]. by intros [_ ?]. Qed.

Lemma canonical_join p q : canonical p -> canonical q -> canonical (join p q).
Proof.
  intros Hp Hq. unfold join. destruct (is_absolute q) eqn:Ha; [done|].
  destruct p as [|c cs]; [done|]. destruct Hp as [Hc Hcs].
  assert (Forall inner (match q with CurDir :: q' => q' | _ => q end)) as Hr.
  { destruct q as [|d ds]; [done|]. destruct Hq as [Hd Hds].
    destruct d; try done; by constructor; [destruct Hd as [?|[?|?]]; done|]. }
  split; [done|]. by apply Forall_app_2.
Qed.

Lemma canonical_pop p b q : canonical p -> pop p = (b, q) -> canonical q.
Proof.
  intros Hp. unfold pop. destruct (parent p) as [r|] eqn:E; intros [= <- <-]; [|done].
  unfold parent in E. assert (r = take (length p - 1) p) as -> by (repeat case_match; naive_solver).
  destruct p as [|c cs]; [done|]. destruct Hp as [Hc Hcs]. cbn [length].
  destruct (S (length cs) - 1)%nat; [done|]. cbn [take]. split; [done|]. by apply Forall_take.
Qed.

Lemma canonical_plain n : plain n -> canonical [Normal n].
Proof. intros Hn. split; [by right; right|done]. Qed.
