(* ===== verification/Watch.v ===== *)
(** Watch: the file watcher of [mik dev], of [src/src/daemon/watch.rs]: which
    changes become events, and how events are debounced.

    notify's events are data; the order in which a hash map is walked is a
    parameter. Printing is left out. *)

From stdpp Require Import base gmap list strings.
From S2P Require Import Prelude StdPath.

#[local] Open Scope Z_scope.

(** ** Events *)

Inductive WatchEvent :=
| ModuleChanged (path : string)
| ModuleRemoved (path : string)
| ConfigChanged
| Error (message : string).

(** notify's kinds, without their details. *)
Inductive EventKind := Create | Modify | Remove | Access | Any | Other.

Record Event := {
  kind : EventKind;
  paths : list string;
}.

Definition is_change (k : EventKind) : bool :=
  match k with Create | Modify | Remove => true | _ => false end.

Definition classify (k : EventKind) (modules_dir config_path : Path) (path : string) : option WatchEvent :=
  let p := components path in
  if (bool_decide (p = config_path) || bool_decide (file_name p = Some "mik.toml"))%bool then Some ConfigChanged
  else if (bool_decide (extension p = Some "wasm") && StdPath.starts_with p modules_dir)%bool then
    Some (match k with Remove => ModuleRemoved path | _ => ModuleChanged path end)
  else None.

(** [handle_notify_event]: what is sent to the channel. *)
Definition handle_notify_event (result : result Event string) (modules_dir config_path : Path) : list WatchEvent :=
  match result with
  | Ok event => if is_change (kind event) then omap (classify (kind event) modules_dir config_path) (paths event) else []
  | Err e => [Error e]
  end.

(** ** Debouncing *)

Definition DEFAULT_DEBOUNCE_MS : Z := 300.

Notation Pending := (gmap (list Component) (WatchEvent * Instant)).

Record DebouncedEvents := {
  pending : Pending;
  debounce_duration : Duration;
  config_pending : option Instant;
}.

Definition debounced_new (debounce_ms : Z) : DebouncedEvents :=
  {| pending := ∅; debounce_duration := from_millis debounce_ms; config_pending := None |}.

Definition set_pending (p : Pending) (d : DebouncedEvents) : DebouncedEvents :=
  {| pending := p; debounce_duration := debounce_duration d; config_pending := config_pending d |}.
Definition set_config_pending (t : option Instant) (d : DebouncedEvents) : DebouncedEvents :=
  {| pending := pending d; debounce_duration := debounce_duration d; config_pending := t |}.

Definition record (now : Instant) (event : WatchEvent) (d : DebouncedEvents) : DebouncedEvents :=
  match event with
  | ModuleChanged path | ModuleRemoved path =>
      set_pending (<[components path := (event, now)]> (pending d)) d
  | ConfigChanged => set_config_pending (Some now) d
  | Error _ => set_pending (<[[] := (event, now)]> (pending d)) d
  end.

Definition has_pending (d : DebouncedEvents) : bool :=
  (negb (bool_decide (pending d = ∅)) || match config_pending d with Some _ => true | None => false end)%bool.

Section Debounce.
Variable iter : Pending -> list (list Component * (WatchEvent * Instant)).

(** An event has been stable for the debounce duration. *)
Definition ready_at (now : Instant) (duration : Duration) (time : Instant) : bool := duration <=? elapsed now time.

(** The loop that removes and emits the expired paths *)
Definition take_path (acc : list WatchEvent * Pending) (path : list Component) : list WatchEvent * Pending :=
  match acc.2 !! path with
  | Some (event, _) => (acc.1 ++ [event], delete path acc.2)
  | None => acc
  end.

Definition drain_ready (now : Instant) (d : DebouncedEvents) : list WatchEvent * DebouncedEvents :=
  let '(ready, d) :=
    match config_pending d with
    | Some time => if ready_at now (debounce_duration d) time then ([ConfigChanged], set_config_pending None d) else ([], d)
    | None => ([], d)
    end in
  let expired_paths :=
    (filter (fun e => ready_at now (debounce_duration d) e.2.2 = true) (iter (pending d))).*1 in
  let '(ready, p) := fold_left take_path expired_paths (ready, pending d) in
  (ready, set_pending p d).

(** ** Runs of the watch loop *)

(** An event is taken from the channel, or the events that are ready are
    emitted. *)
Inductive WatchOp := Record_ (event : WatchEvent) | Drain.

Definition watch_step (d : DebouncedEvents) (o : Instant * WatchOp) : DebouncedEvents :=
  match o.2 with
  | Record_ event => record o.1 event d
  | Drain => (drain_ready o.1 d).2
  end.

Definition watch_run (debounce_ms : Z) (ops : list (Instant * WatchOp)) : DebouncedEvents :=
  fold_left watch_step ops (debounced_new debounce_ms).

(** One round of [watch_loop_with_debounce]: what is in the channel, with the
    times at which it is recorded, and what is emitted. *)
Definition watch_round (now : Instant) (received : list (Instant * WatchEvent)) (d : DebouncedEvents)
  : list WatchEvent * DebouncedEvents :=
  drain_ready now (fold_left (fun d e => record e.1 e.2 d) received d).

(** ** What is emitted *)

(** Events are debounced by path, the configuration by itself; errors share
    the empty path. *)
Definition slot (e : WatchEvent) : option (list Component) :=
  match e with
  | ModuleChanged path | ModuleRemoved path => Some (components path)
  | ConfigChanged => None
  | Error _ => Some []
  end.

Definition slot_state (d : DebouncedEvents) (s : option (list Component)) : option (WatchEvent * Instant) :=
  match s with
  | Some path => pending d !! path
  | None => (fun t => (ConfigChanged, t)) <$> config_pending d
  end.

(** Every event is held in its slot. *)
Definition slot_ok (d : DebouncedEvents) : Prop := forall s e t, slot_state d s = Some (e, t) -> slot e = s.

Lemma record_slots now e d s :
  slot_state (record now e d) s = if decide (s = slot e) then Some (e, now) else slot_state d s.
Proof.
  destruct e; destruct s as [k|]; cbn; case_decide as Hd; simplify_eq; try done;
    (apply lookup_insert_eq || (apply lookup_insert_ne; congruence)).
Qed.

Hypothesis iter_elements : forall p, iter p ≡ₚ map_to_list p.

Lemma take_paths (l : list (list Component * (WatchEvent * Instant))) : forall ready p,
  NoDup l.*1 -> (forall x, x ∈ l -> p !! x.1 = Some x.2) ->
  let r := fold_left take_path l.*1 (ready, p) in
  r.1 = ready ++ (fst <$> l.*2) /\ (forall k, r.2 !! k = if decide (k ∈ l.*1) then None else p !! k).
Proof.
  induction l as [|[k [e t]] l IH]; intros ready p Hnd Hin; csimpl.
  - split; [by rewrite app_nil_r|]. done.
  - apply NoDup_cons in Hnd as [Hk Hnd]. csimpl in *.
    assert (take_path (ready, p) k = (ready ++ [e], delete k p)) as ->.
    { unfold take_path. cbn [fst snd]. pose proof (Hin (k, (e, t)) ltac:(left)) as E. cbn in E. by rewrite E. }
    destruct (IH (ready ++ [e]) (delete k p) Hnd) as [H1 H2].
    + intros x Hx. rewrite lookup_delete_ne; [apply Hin; by right|]. intros ->. apply Hk. apply list_elem_of_fmap. by exists x.
    + split; [by rewrite H1, <- app_assoc|]. intros k'. rewrite H2. destruct (decide (k' = k)) as [->|Hne].
      * rewrite lookup_delete_eq. rewrite (decide_True _ _ (list_elem_of_here k l.*1)). by case_decide.
      * rewrite lookup_delete_ne by done. repeat case_decide; set_solver.
Qed.

(** The expired entries *)
Definition expired (now : Instant) (d : DebouncedEvents) : list (list Component * (WatchEvent * Instant)) :=
  filter (fun e => ready_at now (debounce_duration d) e.2.2 = true) (iter (pending d)).

Lemma elem_of_expired now d k e t :
  (k, (e, t)) ∈ expired now d <-> pending d !! k = Some (e, t) /\ ready_at now (debounce_duration d) t = true.
Proof. unfold expired. rewrite list_elem_of_filter, iter_elements, elem_of_map_to_list. cbn. tauto. Qed.

Lemma NoDup_expired now d : NoDup (expired now d).*1.
Proof.
  unfold expired. eapply sublist_NoDup; [|apply fmap_sublist, sublist_filter].
  rewrite iter_elements. apply NoDup_fst_map_to_list.
Qed.

Definition config_ready (now : Instant) (d : DebouncedEvents) : bool :=
  match config_pending d with Some t => ready_at now (debounce_duration d) t | None => false end.

Lemma drain_eq now d :
  let r := drain_ready now d in
  r.1 = (if config_ready now d then [ConfigChanged] else []) ++ (fst <$> (expired now d).*2) /\
  (forall k, pending r.2 !! k = if decide (k ∈ (expired now d).*1) then None else pending d !! k) /\
  config_pending r.2 = (if config_ready now d then None else config_pending d) /\
  debounce_duration r.2 = debounce_duration d.
Proof.
  unfold drain_ready, config_ready, expired.
  set (x := match config_pending d with Some time => _ | None => _ end).
  assert (exists c, x = ((if match config_pending d with Some t => ready_at now (debounce_duration d) t | None => false end
                          then [ConfigChanged] else []), set_config_pending c d) /\
                    c = if match config_pending d with Some t => ready_at now (debounce_duration d) t | None => false end
                        then None else config_pending d) as (c & -> & ->).
  { unfold x. destruct d as [p dd [t|]]; cbn; [destruct (ready_at now dd t)|]; eauto. }
  cbn [set_config_pending pending debounce_duration].
  destruct (take_paths (expired now d) (if match config_pending d with Some t => ready_at now (debounce_duration d) t | None => false end
                          then [ConfigChanged] else []) (pending d)) as [H1 H2].
  - apply NoDup_expired.
  - intros [k [e t]] Hx. by apply elem_of_expired in Hx as [? _].
  - unfold expired in H1, H2. destruct (fold_left take_path _ _) as [ready p]. cbn in *. done.
Qed.

Lemma expired_keys now d k :
  k ∈ (expired now d).*1 <-> exists e t, pending d !! k = Some (e, t) /\ ready_at now (debounce_duration d) t = true.
Proof.
  rewrite list_elem_of_fmap. split.
  - intros ([k' [e t]] & -> & Hx%elem_of_expired). by exists e, t.
  - intros (e & t & Hx%elem_of_expired). by exists (k, (e, t)).
Qed.

Lemma drain_slots now d s :
  slot_state (drain_ready now d).2 s =
     match slot_state d s with
     | Some (e, t) => if ready_at now (debounce_duration d) t then None else Some (e, t)
     | None => None
     end.
Proof.
  destruct (drain_eq now d) as (_ & Hp & Hc & _). destruct s as [k|]; cbn.
  - rewrite Hp. destruct (decide _) as [Hk|Hk]; rewrite expired_keys in Hk.
    + destruct Hk as (e & t & -> & ->). done.
    + destruct (pending d !! k) as [[e t]|]; [|done]. destruct (ready_at _ _ _) eqn:Er; [|done].
      exfalso. apply Hk. by exists e, t.
  - rewrite Hc. unfold config_ready. destruct (config_pending d) as [t|]; [|done]. cbn. by destruct (ready_at _ _ _).
Qed.

Lemma elem_of_drain now d e :
  slot_ok d ->
  e ∈ (drain_ready now d).1 <->
  exists t, slot_state d (slot e) = Some (e, t) /\ ready_at now (debounce_duration d) t = true.
Proof.
  intros Hok. destruct (drain_eq now d) as (-> & _ & _ & _). rewrite elem_of_app, list_elem_of_fmap. split.
  - intros [Hc|(x & -> & Hx)].
    + unfold config_ready in Hc. destruct (config_pending d) as [t|] eqn:Ec; [|by apply not_elem_of_nil in Hc].
      destruct (ready_at _ _ t) eqn:Er; [|by apply not_elem_of_nil in Hc]. apply list_elem_of_singleton in Hc as ->.
      exists t. cbn. by rewrite Ec.
    + apply list_elem_of_fmap in Hx as ([k [e t]] & -> & [Hk Hr]%elem_of_expired). cbn. exists t.
      by rewrite (Hok (Some k) e t Hk).
  - intros (t & Hs & Hr). destruct (slot e) as [k|] eqn:Ek; cbn in Hs.
    + right. exists (e, t). split; [done|]. apply list_elem_of_fmap. exists (k, (e, t)). split; [done|].
      by apply elem_of_expired.
    + left. unfold config_ready. destruct (config_pending d) as [t'|]; [|done]. cbn in Hs. injection Hs as <- <-.
      rewrite Hr. by left.
Qed.

Lemma NoDup_drain now d : slot_ok d -> NoDup (slot <$> (drain_ready now d).1).
Proof.
  intros Hok. destruct (drain_eq now d) as (-> & _ & _ & _).
  assert (slot <$> (fst <$> (expired now d).*2) = Some <$> (expired now d).*1) as E.
  { rewrite <- !list_fmap_compose. apply list_fmap_ext. intros i [k [e t]] Hx%list_elem_of_lookup_2.
    apply elem_of_expired in Hx as [Hk _]. exact (Hok (Some k) e t Hk). }
  rewrite fmap_app, E. apply NoDup_app. split; [by destruct (config_ready now d); repeat constructor; set_solver|].
  split; [|apply (NoDup_fmap_2 _), NoDup_expired].
  intros s Hs (k & -> & _)%list_elem_of_fmap. destruct (config_ready now d); cbn in Hs; set_solver.
Qed.

(** *** The history decides *)

Definition concerns (s : option (list Component)) (o : WatchOp) : bool :=
  match o with Record_ e => bool_decide (slot e = s) | Drain => false end.

(** The last event of slot [s] in the history is [e], recorded at [t], and no
    event was emitted for it since. *)
Definition pending_at (duration : Duration) (ops : list (Instant * WatchOp)) (s : option (list Component))
    (e : WatchEvent) (t : Instant) : Prop :=
  exists before after, ops = before ++ (t, Record_ e) :: after /\ slot e = s /\
    Forall (fun o => concerns s o.2 = false /\ (o.2 = Drain -> ready_at o.1 duration t = false)) after.

Lemma pending_at_snoc duration ops o s e t :
  pending_at duration (ops ++ [o]) s e t <->
  (o = (t, Record_ e) /\ slot e = s) \/
  (pending_at duration ops s e t /\ concerns s o.2 = false /\ (o.2 = Drain -> ready_at o.1 duration t = false)).
Proof.
  split.
  - intros (before & after & E & Hs & Ha). destruct after as [|x after _] using rev_ind.
    + apply app_inj_tail in E as [_ ->]. by left.
    + rewrite app_comm_cons, app_assoc in E. apply app_inj_tail in E as [-> ->].
      apply Forall_app in Ha as [Ha Hx]. apply Forall_cons in Hx as [Hx _]. right. split; [|exact Hx]. by exists before, after.
  - intros [[-> Hs]|[(before & after & -> & Hs & Ha) Hx]].
    + exists ops, []. done.
    + exists before, (after ++ [o]). split; [by rewrite <- app_assoc|]. split; [done|].
      apply Forall_app. split; [done|]. by constructor.
Qed.

Lemma run_duration ms ops : debounce_duration (watch_run ms ops) = from_millis ms.
Proof.
  unfold watch_run. induction ops as [|o ops IH] using rev_ind; [done|]. rewrite fold_left_app. cbn [fold_left].
  unfold watch_step at 1. destruct o as [t [e|]]; cbn [fst snd].
  - by destruct e.
  - destruct (drain_eq t (fold_left watch_step ops (debounced_new ms))) as (_ & _ & _ & E). by rewrite E.
Qed.

Lemma run_slots ms ops s e t :
  slot_state (watch_run ms ops) s = Some (e, t) <-> pending_at (from_millis ms) ops s e t.
Proof.
  revert s e t. unfold watch_run. induction ops as [|o ops IH] using rev_ind; intros s e t.
  - split; [by destruct s|]. intros (before & after & E & _). by destruct before.
  - pose proof (run_duration ms ops) as Hd. unfold watch_run in Hd.
    rewrite fold_left_app, pending_at_snoc, <- IH. cbn [fold_left].
    set (d := fold_left watch_step ops (debounced_new ms)) in *. unfold watch_step. destruct o as [t' [e'|]]; cbn [fst snd].
    + rewrite record_slots. unfold concerns. destruct (decide (s = slot e')) as [->|Hne].
      * rewrite bool_decide_eq_true_2 by done. split; [intros [= <- <-]; by left|].
        intros [[[= -> ->] _]|(_ & ? & _)]; done.
      * rewrite bool_decide_eq_false_2 by done. split; [intros H; right; done|]. intros [[[= <- <-] ?]|[? _]]; done.
    + rewrite drain_slots, Hd. destruct (slot_state d s) as [[e0 t0]|].
      * destruct (ready_at t' _ t0) eqn:Er; split; try done.
        -- intros [[? _]|([= <- <-] & _ & H)]; [done|]. specialize (H eq_refl). congruence.
        -- intros [= <- <-]. by right.
        -- intros [[? _]|[? _]]; done.
      * split; [done|]. intros [[? _]|[? _]]; done.
Qed.

Lemma run_slot_ok ms ops : slot_ok (watch_run ms ops).
Proof. intros s e t H. apply run_slots in H as (? & ? & _ & Hs & _). done. Qed.

(** The first element of a list with a property, and what precedes it. *)
Lemma first_such {A} (P : A -> Prop) `{!forall x, Decision (P x)} (l : list A) :
  Forall (fun x => ~ P x) l \/
  exists mid x rest, l = mid ++ x :: rest /\ P x /\ Forall (fun y => ~ P y) mid.
Proof.
  induction l as [|x l IH]; [by left|]. destruct (decide (P x)) as [Hx|Hx].
  - right. exists [], x, l. done.
  - destruct IH as [IH|(mid & y & rest & -> & Hy & Hm)]; [left; by constructor|].
    right. exists (x :: mid), y, rest. split; [done|]. split; [done|]. by constructor.
Qed.

Definition drains_ready (duration : Duration) (t : Instant) (o : Instant * WatchOp) : Prop :=
  match o.2 with Drain => ready_at o.1 duration t = true | Record_ _ => False end.
#[local] Instance drains_ready_dec duration t o : Decision (drains_ready duration t o).
Proof. unfold drains_ready. destruct o.2; apply _. Defined.

(** ** Properties *)

(** C32. The watcher reports every change once it is stable, and nothing else.
    Emitting at time [now] gives exactly the events that are the last of
    their path (or of the configuration), were recorded at least the debounce
    duration ago, and have not been emitted since; no path twice. And no
    change is lost: an event that is the last of its path and is old enough at
    some time at which ready events are emitted has been emitted by then. *)
Theorem debounce_spec (debounce_ms : Z) (ops : list (Instant * WatchOp)) (now : Instant) :
  let duration := from_millis debounce_ms in
  let ready := (drain_ready now (watch_run debounce_ms ops)).1 in
  (forall e, e ∈ ready <-> exists t, pending_at duration ops (slot e) e t /\ duration <= elapsed now t) /\
  NoDup (slot <$> ready) /\
  (forall before after e t, ops = before ++ (t, Record_ e) :: after ->
     Forall (fun o => concerns (slot e) o.2 = false) after -> duration <= elapsed now t ->
     exists mid rest t', after ++ [(now, Drain)] = mid ++ (t', Drain) :: rest /\
       e ∈ (drain_ready t' (watch_run debounce_ms (before ++ (t, Record_ e) :: mid))).1).
Proof.
  intros duration ready.
  assert (forall ops now e, e ∈ (drain_ready now (watch_run debounce_ms ops)).1 <->
            exists t, pending_at duration ops (slot e) e t /\ duration <= elapsed now t) as Hiff.
  { intros ops' now' e. rewrite elem_of_drain by apply run_slot_ok. rewrite run_duration.
    unfold ready_at. setoid_rewrite Z.leb_le. by setoid_rewrite run_slots. }
  split; [apply Hiff|]. split; [apply NoDup_drain, run_slot_ok|].
  intros before after e t -> Hafter Hnow.
  destruct (first_such (drains_ready duration t) (after ++ [(now, Drain)])) as [Hno|(mid & [t' o] & rest & E & Hp & Hm)].
  { apply Forall_app in Hno as [_ Hno]. apply Forall_cons in Hno as [Hno _]. exfalso. apply Hno. by apply Z.leb_le. }
  unfold drains_ready in Hp. cbn in Hp. destruct o as [|]; [done|]. apply Z.leb_le in Hp.
  exists mid, rest, t'. split; [done|]. apply Hiff. exists t. split; [|done].
  exists before, mid. split; [done|]. split; [done|]. rewrite Forall_forall in Hm. apply Forall_forall. intros x Hx. split.
  - assert (x ∈ after ++ [(now, Drain)]) as [Hin|Hin]%elem_of_app by (rewrite E; apply elem_of_app; by left).
    + rewrite Forall_forall in Hafter. by apply Hafter.
    + by apply list_elem_of_singleton in Hin as ->.
  - intros Ed. specialize (Hm x Hx). unfold drains_ready in Hm. rewrite Ed in Hm. by destruct (ready_at _ _ _).
Qed.
End Debounce.

(** ** Witness *)

Definition foo : WatchEvent := ModuleChanged "/m/foo.wasm".

(** [foo] changes twice, and once more while the loop runs; the configuration
    changes as well. *)
Definition toy_ops : list (Instant * WatchOp) :=
  [(0, Record_ foo); (100000000, Record_ foo); (200000000, Drain); (250000000, Record_ ConfigChanged)].

Lemma debounce_spec_witness :
  foo ∈ (drain_ready map_to_list 400000000 (watch_run map_to_list 300 toy_ops)).1 /\
  (ConfigChanged ∉ (drain_ready map_to_list 400000000 (watch_run map_to_list 300 toy_ops)).1).
Proof.
  destruct (debounce_spec map_to_list ltac:(done) 300 toy_ops 400000000) as (Hiff & _). split.
  - apply Hiff. exists 100000000. split; [|by vm_compute].
    exists [(0, Record_ foo)], [(200000000, Drain); (250000000, Record_ ConfigChanged)].
    split; [done|]. split; [done|]. repeat constructor; by vm_compute.
  - rewrite Hiff. intros (t & (before & after & E & _) & Ht).
    assert ((t, Record_ ConfigChanged) ∈ toy_ops) as Hin by (rewrite E; apply elem_of_app; right; left).
    apply list_elem_of_In in Hin. destruct Hin as [Hx|[Hx|[Hx|[Hx|[]]]]]; try discriminate Hx.
    injection Hx as <-. by vm_compute in Ht.
Defined.
