(* ===== verification/PathSecurity.v ===== *)
(** PathSecurity: path and module-name sanitisation of
    [src/src/runtime/security/]. *)

From S2P Require Import Prelude StdPath.

(** ** Errors ([error.rs]) *)

Inductive PathTraversalError :=
| NullByte
| EmptyPath
| AbsolutePath
| EscapesBaseDirectory
| ReservedWindowsName
| UncPath
| AlternateDataStream.

Inductive ModuleNameError :=
| EmptyName
| NameNullByte
| PathSeparator
| SpecialDirectory
| TooLong
| ControlCharacter.

#[export] Instance PathTraversalError_eq_dec : EqDecision PathTraversalError.
Proof. solve_decision. Defined.

(** ** Windows checks ([path/windows.rs]) *)

Definition WINDOWS_RESERVED_NAMES : list string :=
  ["CON"; "PRN"; "AUX"; "NUL"; "COM1"; "COM2"; "COM3"; "COM4"; "COM5"; "COM6"; "COM7"; "COM8";
   "COM9"; "LPT1"; "LPT2"; "LPT3"; "LPT4"; "LPT5"; "LPT6"; "LPT7"; "LPT8"; "LPT9"].

Definition is_separator (c : ascii) : bool :=
  (Ascii.eqb Str.SLASH c || Ascii.eqb Str.BACKSLASH c)%bool.

(** The stem of a component, upper-cased. The source calls the Unicode
    [to_uppercase]; a non-ASCII character whose upper-case form is pure ASCII
    (U+00DF, U+0131, U+017F, U+FB00..U+FB06) maps to letters among S, I, F, L
    and T with at least one of S, I, F, none of which occurs in a reserved
    name, so ASCII upper-casing decides the same membership. *)
Definition stem_upper (component : string) : string :=
  Str.to_ascii_uppercase (hd component (Str.split Str.DOT component)).

Definition is_reserved (component : string) : bool :=
  existsb (String.eqb (stem_upper component)) WINDOWS_RESERVED_NAMES.

(** The loop over the components. *)
Fixpoint check_reserved (components : list string) : result unit PathTraversalError :=
  match components with
  | [] => Ok tt
  | c :: cs =>
      if Str.is_empty c then check_reserved cs
      else if is_reserved c then Err ReservedWindowsName
      else check_reserved cs
  end.

Definition validate_windows_path (path : string) : result unit PathTraversalError :=
  if (Str.starts_with "\\" path || Str.starts_with "//" path)%bool then Err UncPath
  else
    match Str.find_char Str.COLON path with
    | Some colon_pos =>
        if negb (colon_pos =? 1) then Err AlternateDataStream
        else check_reserved (Str.split_pred is_separator path)
    | None => check_reserved (Str.split_pred is_separator path)
    end.

(** ** File paths ([path/mod.rs]) *)

(** The loop over [path_obj.components()], [normalized] being its mutable
    variable. *)
Fixpoint normalize_loop (cs : list Component) (normalized : Path)
  : result Path PathTraversalError :=
  match cs with
  | [] => Ok normalized
  | Normal part :: cs' =>
      if Str.contains_char Str.NUL part then Err NullByte
      else if Str.starts_with ".." part then Err EscapesBaseDirectory
      else normalize_loop cs' (StdPath.join normalized [Normal part])
  | CurDir :: cs' => normalize_loop cs' normalized
  | ParentDir :: cs' =>
      let '(popped, normalized') := StdPath.pop normalized in
      if negb popped then Err EscapesBaseDirectory
      else normalize_loop cs' normalized'
  | RootDir :: _ | Prefix _ :: _ => Err AbsolutePath
  end.

Definition sanitize_file_path (path : string) : result Path PathTraversalError :=
  if Str.contains_char Str.NUL path then Err NullByte
  else if Str.is_empty path then Err EmptyPath
  else
    let? _ := validate_windows_path path in
    let path_obj := StdPath.components path in
    if StdPath.is_absolute path_obj then Err AbsolutePath
    else
      let? normalized := normalize_loop path_obj [] in
      match normalized with
      | [] => Err EmptyPath
      | _ => Ok normalized
      end.

(** ** Containment in a base directory ([path/base.rs]) *)

Section Base.
(** The file system the process sees: [Path::exists] and
    [Path::canonicalize] ([None] on an I/O error). *)
Variable fs_exists : Path -> bool.
Variable fs_canonicalize : Path -> option Path.

Definition validate_path_within_base (base_dir file_path : Path)
  : result Path PathTraversalError :=
  let full_path := StdPath.join base_dir file_path in
  let? canonical :=
    (if fs_exists full_path
     then ok_or (fs_canonicalize full_path) EscapesBaseDirectory
     else
       let? parent := ok_or (StdPath.parent full_path) EmptyPath in
       let? filename := ok_or (StdPath.file_name full_path) EmptyPath in
       if fs_exists parent
       then let? canonical_parent := ok_or (fs_canonicalize parent) EscapesBaseDirectory in
            Ok (StdPath.join canonical_parent [Normal filename])
       else Ok full_path) in
  let? canonical_base := ok_or (fs_canonicalize base_dir) EscapesBaseDirectory in
  if negb (StdPath.starts_with canonical canonical_base) then Err EscapesBaseDirectory
  else Ok canonical.

End Base.

(** ** Module names ([module.rs]) *)

Definition sanitize_module_name (name : string) : result string ModuleNameError :=
  if Str.is_empty name then Err EmptyName
  else if Str.contains_char Str.NUL name then Err NameNullByte
  else if (Str.contains_char Str.SLASH name || Str.contains_char Str.BACKSLASH name)%bool
  then Err PathSeparator
  else if (String.eqb name "." || String.eqb name "..")%bool then Err SpecialDirectory
  else if 255 <? Str.len name then Err TooLong
  else if Str.has_control name then Err ControlCharacter
  else Ok name.

(** ** Lemmas *)

Lemma check_reserved_Ok cs :
  check_reserved cs = Ok tt <-> Forall (fun c => is_reserved c = false) cs.
Proof.
  induction cs as [|c cs IH]; simpl; [done|]. rewrite Forall_cons, <- IH.
  destruct c as [|a c]; [by change (is_reserved "") with false; simpl; intuition|].
  simpl Str.is_empty. cbv iota. destruct (is_reserved _); intuition congruence.
Qed.

Lemma validate_windows_Ok path :
  validate_windows_path path = Ok tt ->
  Forall (fun c => is_reserved c = false) (Str.split_pred is_separator path).
Proof.
  unfold validate_windows_path. rewrite <- check_reserved_Ok.
  destruct (_ || _)%bool; [done|]. destruct (Str.find_char _ _); [|done].
  by destruct (negb _).
Qed.

(** Splitting on both separators is splitting on [/], then on [\ ]. *)
Lemma split_separators s :
  Str.split_pred is_separator s = mjoin (Str.split Str.BACKSLASH <$> Str.split Str.SLASH s).
Proof.
  unfold Str.split. induction s as [|c s IH]; [done|]. simpl.
  pose proof (Str.split_pred_nonempty (Ascii.eqb Str.SLASH) s) as Hne.
  unfold is_separator at 1. destruct (Ascii.eqb_spec Str.SLASH c) as [<-|Hs]; simpl.
  - by rewrite IH.
  - destruct (Str.split_pred (Ascii.eqb Str.SLASH) s) as [|w ws]; [done|].
    rewrite fmap_cons in *. cbn [mjoin list_join] in *. rewrite IH. simpl.
    pose proof (Str.split_pred_nonempty (Ascii.eqb Str.BACKSLASH) w) as Hne'.
    destruct (Ascii.eqb_spec Str.BACKSLASH c) as [<-|Hb]; [done|].
    destruct (Str.split_pred (Ascii.eqb Str.BACKSLASH) w); done.
Qed.

(** The characters of the pieces are characters of the whole. *)
Lemma split_piece_char c s w :
  w ∈ Str.split Str.SLASH s -> Str.contains_char c s = false -> Str.contains_char c w = false.
Proof.
  unfold Str.split, Str.contains_char. revert w. induction s as [|d s IH]; simpl; intros w Hw Hc.
  - by apply list_elem_of_singleton in Hw as ->.
  - apply orb_false_iff in Hc as [Hd Hc].
    destruct (Ascii.eqb Str.SLASH d).
    + apply elem_of_cons in Hw as [->|Hw]; [done|auto].
    + pose proof (Str.split_pred_nonempty (Ascii.eqb Str.SLASH) s).
      destruct (Str.split_pred _ s) as [|x xs]; [done|].
      apply elem_of_cons in Hw as [->|Hw]; [simpl; rewrite Hd; apply IH|apply IH]; set_solver.
Qed.

(** A file-name component the sanitiser lets through. *)
Definition clean (n : string) : Prop :=
  plain n /\ Str.contains_char Str.NUL n = false /\ Str.starts_with ".." n = false.

Lemma join_normal (p : Path) n : StdPath.join p [Normal n] = p ++ [Normal n].
Proof. by destruct p. Qed.

Lemma pop_normals names n :
  StdPath.pop (Normal <$> names ++ [n]) = (true, Normal <$> names).
Proof.
  unfold pop, parent. rewrite fmap_app. change (Normal <$> [n]) with [Normal n].
  rewrite last_snoc. f_equal. rewrite length_app, Nat.add_sub. apply take_app_length.
Qed.

(** A predicate of all normal components of a list. *)
Definition normals (P : string -> Prop) (cs : list Component) : Prop :=
  forall n, Normal n ∈ cs -> P n.

Lemma normals_cons P c cs : normals P (c :: cs) -> normals P cs.
Proof. intros H n Hn. apply H. by apply elem_of_cons; right. Qed.

(** What the loop returns is made of components it has checked. *)
Lemma normalize_loop_clean P cs : forall names p,
  normals P cs -> Forall P names ->
  normalize_loop cs (Normal <$> names) = Ok p ->
  exists names', p = Normal <$> names' /\
    Forall (fun n => P n \/ n ∈ names) names' /\
    Forall (fun n => n ∈ names \/
              (Str.contains_char Str.NUL n = false /\ Str.starts_with ".." n = false)) names'.
Proof.
  induction cs as [|c cs IH]; intros names p Hcs Hnames; simpl.
  { intros [= <-]. exists names. split_and!; [done|..]; apply Forall_forall; auto. }
  assert (normals P cs) as Hcs' by (by eapply normals_cons).
  destruct c as [s| | | |s]; try done; [by apply IH|..].
  - destruct names as [|n names _] using rev_ind; [done|]. rewrite pop_normals. simpl.
    apply Forall_app in Hnames as [Hnames Hn]. intros Hp.
    destruct (IH names p Hcs' Hnames Hp) as (names' & -> & H1 & H2). exists names'.
    split_and!; [done|eapply Forall_impl; [exact H1|]|eapply Forall_impl; [exact H2|]];
      intros x; cbv beta; rewrite elem_of_app; tauto.
  - destruct (Str.contains_char Str.NUL s) eqn:E1; [done|].
    destruct (Str.starts_with ".." s) eqn:E2; [done|].
    rewrite join_normal. change [Normal s] with (Normal <$> [s]). rewrite <- fmap_app.
    assert (P s) as Hs by (apply Hcs; set_solver).
    intros Hp. destruct (IH (names ++ [s]) p) as (names' & -> & H1 & H2);
      [done|by apply Forall_app; auto|done|].
    exists names'.
    split_and!; [done|eapply Forall_impl; [exact H1|]|eapply Forall_impl; [exact H2|]]; intros x; cbv beta; rewrite elem_of_app, list_elem_of_singleton;
      intuition (subst; auto).
Qed.

(** The checks before the loop. *)
Lemma sanitize_Ok_inv path p :
  sanitize_file_path path = Ok p ->
  Str.contains_char Str.NUL path = false /\ path <> "" /\
  validate_windows_path path = Ok tt /\ is_absolute (components path) = false /\
  normalize_loop (components path) [] = Ok p /\ p <> [].
Proof.
  unfold sanitize_file_path. destruct (Str.contains_char Str.NUL path); [done|].
  destruct path as [|c path]; [done|]. simpl Str.is_empty. cbv iota.
  rewrite res_bind_Ok. intros ([] & Hw & H). destruct (is_absolute _); [done|].
  apply res_bind_Ok in H as (q & Hq & H). destruct q; [done|]. injection H as <-. done.
Qed.

Lemma sanitize_names path p :
  sanitize_file_path path = Ok p ->
  exists names, p = Normal <$> names /\ names <> [] /\
    Forall clean names /\ Forall (fun n => n ∈ Str.split Str.SLASH path) names.
Proof.
  intros (_ & _ & _ & _ & Hloop & Hne)%sanitize_Ok_inv.
  destruct (normalize_loop_clean
    (fun n => plain n /\ n ∈ Str.split Str.SLASH path) (components path) [] p)
    as (names & -> & H1 & H2); [|done|done|].
  { intros n Hn. by apply components_normal. }
  exists names. split_and!; [done| |..].
  - by intros ->.
  - apply Forall_forall. intros n Hn. rewrite Forall_forall in H1, H2.
    specialize (H1 n Hn). specialize (H2 n Hn). unfold clean. set_solver.
  - eapply Forall_impl; [exact H1|]. set_solver.
Qed.

(** *** Depth *)

(** Net depth of a component sequence. *)
Fixpoint balance (cs : list Component) : Z :=
  match cs with
  | [] => 0
  | Normal _ :: cs' => 1 + balance cs'
  | ParentDir :: cs' => -1 + balance cs'
  | _ :: cs' => balance cs'
  end.

(** Starting at depth [d], some prefix of the sequence climbs above it. *)
Definition escapes (d : Z) (cs : list Component) : Prop :=
  exists k, d + balance (take k cs) < 0.

Lemma escapes_cons d c cs :
  0 <= d -> (escapes d (c :: cs) <-> escapes (d + balance [c]) cs).
Proof.
  intros Hd. assert (forall k, balance (take (S k) (c :: cs)) = balance [c] + balance (take k cs)) as Hb
    by (intros k; simpl; destruct c; simpl; lia).
  split; intros [k Hk].
  - destruct k as [|k]; [simpl in Hk; lia|]. exists k. rewrite Hb in Hk. lia.
  - exists (S k). rewrite Hb. lia.
Qed.

Definition relative (c : Component) : Prop :=
  match c with RootDir | Prefix _ => False | _ => True end.

Lemma normalize_loop_depth cs : forall names,
  Forall relative cs ->
  normals (fun n => Str.contains_char Str.NUL n = false /\ Str.starts_with ".." n = false) cs ->
  let d := Z.of_nat (length names) in
  (escapes d cs /\ normalize_loop cs (Normal <$> names) = Err EscapesBaseDirectory) \/
  (~ escapes d cs /\ exists names', normalize_loop cs (Normal <$> names) = Ok (Normal <$> names') /\
     Z.of_nat (length names') = d + balance cs).
Proof.
  induction cs as [|c cs IH]; intros names HF Hn d; simpl.
  { right. split; [intros [k Hk]; rewrite take_nil in Hk; simpl in Hk; lia|].
    exists names. split; [done|lia]. }
  apply Forall_cons in HF as [Hc HF]. pose proof (normals_cons _ _ _ Hn) as Hn'.
  rewrite escapes_cons by lia. subst d. destruct c as [s| | | |s]; try done; simpl balance.
  - rewrite Z.add_0_r. by apply IH.
  - destruct names as [|n names _] using rev_ind.
    + left. split; [|done]. exists 0%nat. simpl. lia.
    + rewrite pop_normals. simpl. rewrite length_app. simpl.
      replace (Z.of_nat (length names + 1) + (-1 + 0)) with (Z.of_nat (length names)) by lia.
      replace (Z.of_nat (length names + 1) + (-1 + balance cs))
        with (Z.of_nat (length names) + balance cs) by lia. by apply IH.
  - destruct (Hn s) as [-> ->]; [set_solver|]. rewrite join_normal.
    change [Normal s] with (Normal <$> [s]). rewrite <- fmap_app.
    specialize (IH (names ++ [s]) HF Hn'). rewrite length_app in IH. simpl in IH.
    replace (Z.of_nat (length names) + (1 + 0)) with (Z.of_nat (length names + 1)) by lia.
    replace (Z.of_nat (length names) + (1 + balance cs))
      with (Z.of_nat (length names + 1) + balance cs) by lia. exact IH.
Qed.

Lemma components_relative s :
  is_absolute (components s) = false -> Forall relative (components s).
Proof.
  unfold components. destruct (Str.split Str.SLASH s) as [|first rest]; [done|]. intros Habs.
  assert (forall w, Forall relative (piece w)) as Hp
    by (intros w; unfold piece; repeat case_match; repeat constructor).
  apply Forall_app. split.
  - destruct (String.eqb s ""); [done|]. destruct (String.eqb first ""); [done|].
    destruct (String.eqb first "."); [by repeat constructor|apply Hp].
  - clear Habs. induction rest as [|w rest IH]; [done|].
    rewrite fmap_cons. apply Forall_app. split; [apply Hp|exact IH].
Qed.

(** Sanitised paths of inputs without [:] and [\ ] pass the Windows checks
    again. *)
Lemma join_no_char c names :
  Ascii.eqb c Str.SLASH = false ->
  Forall (fun n => Str.contains_char c n = false) names ->
  Str.contains_char c (Str.join "/" names) = false.
Proof.
  intros Hc. induction 1 as [|n names Hn HF IH]; [done|]. destruct names as [|m names]; [done|].
  change (Str.join "/" (n :: m :: names)) with (n +:+ "/" +:+ Str.join "/" (m :: names)).
  rewrite !Str.contains_char_app, Hn, IH, orb_false_r. simpl. unfold Str.contains_char. simpl.
  by rewrite orb_false_r.
Qed.

Lemma to_str_names names : names <> [] -> to_str (Normal <$> names) = Str.join "/" names.
Proof.
  intros Hne. assert (component_str <$> (Normal <$> names) = names) as Hid
    by (rewrite <- list_fmap_compose; by apply list_fmap_id).
  unfold to_str. rewrite Hid. by destruct names.
Qed.

Lemma validate_windows_names names :
  names <> [] -> Forall plain names ->
  Forall (fun n => Str.contains_char Str.COLON n = false) names ->
  Forall (fun n => Str.contains_char Str.BACKSLASH n = false) names ->
  Forall (fun n => is_reserved n = false) names ->
  validate_windows_path (Str.join "/" names) = Ok tt.
Proof.
  intros Hne Hpl Hcol Hbs Hres. unfold validate_windows_path.
  assert (Str.contains_char Str.BACKSLASH (Str.join "/" names) = false) as HB
    by (by apply join_no_char).
  assert (Str.starts_with "\\" (Str.join "/" names) = false) as ->.
  { destruct (Str.starts_with _ _) eqn:E; [|done].
    apply Str.starts_with_iff in E as [r Hr]. rewrite Hr in HB. done. }
  assert (Str.starts_with "//" (Str.join "/" names) = false) as ->.
  { destruct (Str.starts_with _ _) eqn:E; [|done]. apply Str.starts_with_iff in E as [r Hr].
    destruct names as [|n names]; [done|]. apply Forall_cons in Hpl as [(Hn & _ & _ & Hs) _].
    destruct n as [|a n]; [done|]. destruct names; simpl in Hr; injection Hr as -> _; done. }
  simpl orb. cbv iota.
  assert (Str.find_char Str.COLON (Str.join "/" names) = None) as ->
    by (by apply Str.find_char_None, join_no_char).
  apply check_reserved_Ok. rewrite split_separators. unfold Str.SLASH.
  rewrite Str.split_join; [|done|by eapply Forall_impl; [exact Hpl|intros ? (_ & _ & _ & ?)]].
  clear -Hbs Hres. induction names as [|n names IH]; [done|].
  apply Forall_cons in Hbs as [Hb Hbs]. apply Forall_cons in Hres as [Hr Hres].
  rewrite fmap_cons. apply Forall_app. split; [|by apply IH].
  rewrite Str.split_none by done. by repeat constructor.
Qed.

Lemma within_base_Ok fs_exists fs_canonicalize base_dir file_path p :
  let full := StdPath.join base_dir file_path in
  validate_path_within_base fs_exists fs_canonicalize base_dir file_path = Ok p ->
  exists base rest, fs_canonicalize base_dir = Some base /\ p = base ++ rest /\
    (fs_exists full = true -> fs_canonicalize full = Some p).
Proof.
  intros full. unfold validate_path_within_base. fold full.
  rewrite res_bind_Ok. intros (c & Hc & H).
  apply res_bind_Ok in H as (base & Hb & H). unfold ok_or in Hb.
  destruct (fs_canonicalize base_dir) as [b|]; [injection Hb as ->|done].
  destruct (StdPath.starts_with c base) eqn:E; [|done]. injection H as ->.
  apply StdPath.path_starts_with_iff in E as [rest ->]. exists base, rest.
  split_and!; [done|done|]. intros Hex. rewrite Hex in Hc. unfold ok_or in Hc.
  destruct (fs_canonicalize full); [by injection Hc as ->|done].
Qed.

(** ** Properties *)

(** C9. Traversal safety: a path the sanitiser accepts is a non-empty sequence
    of plain names, each a piece of the input: none is empty, [.] or [..], none
    starts with [..], none contains [/] or a NUL, and no [\ ]-separated part of
    a name is a reserved Windows device name. Joining it to any directory
    therefore stays below that directory. *)
Theorem sanitize_file_path_safe (path : string) (p : Path) :
  sanitize_file_path path = Ok p ->
  exists names, p = Normal <$> names /\ names <> [] /\
    Forall (fun n => clean n /\ n ∈ Str.split Str.SLASH path /\
                     Forall (fun w => is_reserved w = false) (Str.split Str.BACKSLASH n)) names /\
    forall dir : Path, dir <> [] -> StdPath.join dir p = dir ++ p.
Proof.
  intros Hp. destruct (sanitize_names path p Hp) as (names & -> & Hne & Hcl & Hin).
  exists names. split_and!; [done|done|..].
  - apply sanitize_Ok_inv in Hp as (_ & _ & Hw & _).
    apply validate_windows_Ok in Hw. rewrite split_separators in Hw.
    rewrite Forall_forall in Hcl, Hin |- *. intros n Hn. split_and!; [auto|auto|].
    apply Forall_forall. intros w Hww. rewrite Forall_forall in Hw. apply Hw.
    apply list_elem_of_join. exists (Str.split Str.BACKSLASH n). split; [done|].
    apply list_elem_of_fmap_2, Hin, Hn.
  - intros dir Hdir. destruct names as [|n names]; [done|]. by destruct dir.
Qed.

(** Traversal is decided by depth: for an input that passes the static
    checks and has no component starting with [..] other than [..] itself, the
    sanitiser reports [EscapesBaseDirectory] exactly when some prefix of the
    components climbs above the base, [EmptyPath] exactly when the path comes
    back to the base, and otherwise returns a path as deep as the input. *)
Lemma sanitize_file_path_depth (path : string) :
  Str.contains_char Str.NUL path = false -> path <> "" ->
  validate_windows_path path = Ok tt -> is_absolute (components path) = false ->
  normals (fun n => Str.starts_with ".." n = false) (components path) ->
  let cs := components path in
  (escapes 0 cs /\ sanitize_file_path path = Err EscapesBaseDirectory) \/
  (~ escapes 0 cs /\ balance cs = 0 /\ sanitize_file_path path = Err EmptyPath) \/
  (~ escapes 0 cs /\ exists p, sanitize_file_path path = Ok p /\
     Z.of_nat (length p) = balance cs).
Proof.
  intros Hnul Hne Hw Habs Hdots. cbv zeta.
  destruct (normalize_loop_depth (components path) []) as [[He Hl]|[He (names & Hl & Hlen)]].
  - by apply components_relative.
  - intros n Hn. split; [|by apply Hdots].
    apply components_normal in Hn as [_ Hn]. by eapply split_piece_char.
  - left. split; [exact He|]. unfold sanitize_file_path.
    rewrite Hnul, Hw, Habs. destruct path; [done|]. simpl in Hl. simpl. by rewrite Hl.
  - right. assert (sanitize_file_path path =
      match Normal <$> names with [] => Err EmptyPath | _ => Ok (Normal <$> names) end) as Hs.
    { unfold sanitize_file_path. rewrite Hnul, Hw, Habs. destruct path; [done|].
      simpl in Hl. simpl. by rewrite Hl. }
    simpl in Hlen. destruct names as [|n names].
    + left. split_and!; [exact He|simpl in Hlen; lia|exact Hs].
    + right. split; [exact He|]. exists (Normal <$> n :: names). split; [exact Hs|].
      by rewrite length_fmap.
Qed.

(** Round trip: rendering a sanitised path and sanitising it again gives
    the same path, for inputs without [:] and [\ ]. *)
Lemma sanitize_file_path_idempotent (path : string) (p : Path) :
  Str.contains_char Str.COLON path = false -> Str.contains_char Str.BACKSLASH path = false ->
  sanitize_file_path path = Ok p -> sanitize_file_path (to_str p) = Ok p.
Proof.
  intros Hcol Hbs Hp. pose proof Hp as Hp'.
  destruct (sanitize_names path p Hp) as (names & -> & Hne & Hcl & Hin).
  assert (Forall plain names) as Hpl by (eapply Forall_impl; [exact Hcl|by intros n (? & _)]).
  assert (forall c, Str.contains_char c path = false ->
          Forall (fun n => Str.contains_char c n = false) names) as Hchars.
  { intros c Hc. eapply Forall_impl; [exact Hin|]. intros n Hn. by apply (split_piece_char c path). }
  apply sanitize_Ok_inv in Hp' as (Hnul & _ & Hw & _ & _ & _).
  apply validate_windows_Ok in Hw. rewrite split_separators in Hw.
  unfold sanitize_file_path.
  rewrite components_to_str by done. rewrite to_str_names by done.
  rewrite join_no_char by auto.
  assert (Str.is_empty (Str.join "/" names) = false) as ->.
  { destruct names as [|[|a n] names]; [done|apply Forall_cons in Hpl as [(? & _) _]; done|].
    by destruct names. }
  rewrite validate_windows_names; [|done..|auto|auto|].
  - simpl. assert (is_absolute (Normal <$> names) = false) as -> by (by destruct names).
    destruct (normalize_loop_depth (Normal <$> names) []) as [[[k Hk] _]|[_ (names' & Hl & _)]].
    + clear. induction names; simpl; constructor; done.
    + intros n Hn. apply list_elem_of_fmap in Hn as (m & [= ->] & Hm).
      rewrite Forall_forall in Hcl. apply Hcl in Hm as (_ & ? & ?). done.
    + exfalso. assert (forall l : list string, 0 <= balance (Normal <$> l)) as Hpos
        by (induction l as [|x l IHl]; [done|change (0 <= 1 + balance (Normal <$> l)); lia]).
      rewrite <- fmap_take in Hk. specialize (Hpos (take k names)). simpl in Hk. lia.
    + simpl in Hl. rewrite Hl. simpl.
      assert (names' = names) as ->; [|by destruct names].
      clear -Hl Hcl. assert (forall l a, Forall clean l ->
        normalize_loop (Normal <$> l) (Normal <$> a) = Ok (Normal <$> a ++ l)) as Hrun.
      { induction l as [|n l IH]; intros a HF; [by rewrite app_nil_r|].
        apply Forall_cons in HF as [(_ & H1 & H2) HF]. simpl. rewrite H1, H2, join_normal.
        change [Normal n] with (Normal <$> [n]). rewrite <- fmap_app, IH by done.
        by rewrite <- app_assoc. }
      specialize (Hrun names [] Hcl). simpl in Hrun. rewrite Hrun in Hl.
      injection Hl as Hl. apply list_fmap_eq_inj in Hl; [done|]. by intros ?? [=].
  - clear -Hw Hin Hbs. rewrite Forall_forall in Hw, Hin |- *. intros n Hn. apply Hw.
    apply list_elem_of_join. exists [n]. split; [set_solver|].
    rewrite <- (Str.split_none Str.BACKSLASH n).
    + apply list_elem_of_fmap_2, Hin, Hn.
    + eapply split_piece_char; [apply Hin, Hn|done].
Qed.

(** The check for alternate data streams looks only at the first colon of
    the raw path: a drive-like first component, even one that [..] removes
    again, lets a stream name through, and the sanitised path is one that the
    check itself rejects. *)
Lemma ads_check_is_incomplete :
  sanitize_file_path "a:/../file.txt:stream" = Ok [Normal "file.txt:stream"] /\
  validate_windows_path (to_str [Normal "file.txt:stream"]) = Err AlternateDataStream.
Proof. split; vm_compute; reflexivity. Qed.


(** *** Concrete instances *)

Lemma sanitize_file_path_safe_witness :
  exists names, [Normal "assets"; Normal "a.css"] = Normal <$> names /\ names <> [].
Proof.
  destruct (sanitize_file_path_safe "assets/x/../a.css" [Normal "assets"; Normal "a.css"])
    as (names & H1 & H2 & _); [vm_compute; reflexivity|]. exists names. exact (conj H1 H2).
Defined.

