(* ===== verification/LbBreaker.v ===== *)
(** LbBreaker: the load balancer's per-backend circuit breaker of
    [src/src/runtime/lb/circuit_breaker.rs].

    The breaker is four atomics and a lock; a method is modelled as one step on
    their joint value, with the clock read once. The abstract machine at the
    end of the file is what the breaker promises its clients, and the
    refinement theorem relates the two. *)

From S2P Require Import Prelude.

(** ** Data *)

Definition DEFAULT_FAILURE_THRESHOLD : Z := 5.
Definition DEFAULT_SUCCESS_THRESHOLD : Z := 2.
Definition DEFAULT_TIMEOUT : Duration := from_secs 30.

Record Config := {
  failure_threshold : Z;
  success_threshold : Z;
  timeout : Duration;
}.

Definition config_default : Config := {|
  failure_threshold := DEFAULT_FAILURE_THRESHOLD;
  success_threshold := DEFAULT_SUCCESS_THRESHOLD;
  timeout := DEFAULT_TIMEOUT |}.

Definition config_new (failure_threshold success_threshold : Z) (timeout : Duration) : Config := {|
  failure_threshold := Z.max failure_threshold 1;
  success_threshold := Z.max success_threshold 1;
  timeout := timeout |}.

Inductive State := Closed | Open | HalfOpen.

#[export] Instance State_eq_dec : EqDecision State.
Proof. solve_decision. Defined.

(** [#\[repr(u8)\]] and [From<u8>] *)
Definition state_to_u8 (s : State) : Z :=
  match s with Closed => 0 | Open => 1 | HalfOpen => 2 end.
Definition state_from_u8 (v : Z) : State :=
  match v with 1 => Open | 2 => HalfOpen | _ => Closed end.

#[global] Arguments state_to_u8 : simpl never.
#[global] Arguments state_from_u8 : simpl never.

Lemma u8_roundtrip s : state_from_u8 (state_to_u8 s) = s.
Proof. by destruct s. Qed.

Record CircuitBreaker := {
  config : Config;
  state_u8 : Z;
  failure_count : Z;
  success_count : Z;
  opened_at : option Instant;
}.

Definition new (c : Config) : CircuitBreaker := {|
  config := c; state_u8 := state_to_u8 Closed; failure_count := 0; success_count := 0;
  opened_at := None |}.

(** ** Operations *)

Definition transition_to_open (now : Instant) (cb : CircuitBreaker) : CircuitBreaker := {|
  config := config cb; state_u8 := state_to_u8 Open;
  failure_count := failure_count cb; success_count := 0; opened_at := Some now |}.

Definition transition_to_half_open (cb : CircuitBreaker) : CircuitBreaker := {|
  config := config cb; state_u8 := state_to_u8 HalfOpen;
  failure_count := 0; success_count := 0; opened_at := opened_at cb |}.

Definition transition_to_closed (cb : CircuitBreaker) : CircuitBreaker := {|
  config := config cb; state_u8 := state_to_u8 Closed;
  failure_count := 0; success_count := 0; opened_at := None |}.

Definition set_failure_count (n : Z) (cb : CircuitBreaker) : CircuitBreaker := {|
  config := config cb; state_u8 := state_u8 cb; failure_count := n;
  success_count := success_count cb; opened_at := opened_at cb |}.
Definition set_success_count (n : Z) (cb : CircuitBreaker) : CircuitBreaker := {|
  config := config cb; state_u8 := state_u8 cb; failure_count := failure_count cb;
  success_count := n; opened_at := opened_at cb |}.

(** [state]: observing an open breaker whose timeout has passed half-opens it. *)
Definition state (now : Instant) (cb : CircuitBreaker) : State * CircuitBreaker :=
  let current_state := state_from_u8 (state_u8 cb) in
  match current_state, opened_at cb with
  | Open, Some t =>
      if timeout (config cb) <=? elapsed now t
      then (HalfOpen, transition_to_half_open cb)
      else (current_state, cb)
  | _, _ => (current_state, cb)
  end.

Definition is_available (now : Instant) (cb : CircuitBreaker) : bool * CircuitBreaker :=
  let '(s, cb') := state now cb in (negb (bool_decide (s = Open)), cb').

Definition record_success (now : Instant) (cb : CircuitBreaker) : CircuitBreaker :=
  let '(current_state, cb) := state now cb in
  match current_state with
  | Closed => set_failure_count 0 cb
  | HalfOpen =>
      let successes := success_count cb + 1 in
      let cb := set_success_count (wrap_u32 (success_count cb + 1)) cb in
      if success_threshold (config cb) <=? successes then transition_to_closed cb else cb
  | Open => cb
  end.

Definition record_failure (now : Instant) (cb : CircuitBreaker) : CircuitBreaker :=
  let '(current_state, cb) := state now cb in
  match current_state with
  | Closed =>
      let failures := failure_count cb + 1 in
      let cb := set_failure_count (wrap_u32 (failure_count cb + 1)) cb in
      if failure_threshold (config cb) <=? failures then transition_to_open now cb else cb
  | HalfOpen => transition_to_open now cb
  | Open => cb
  end.

Definition reset (cb : CircuitBreaker) : CircuitBreaker := transition_to_closed cb.

(** [Clone] copies the values of the atomics. *)
Definition clone (cb : CircuitBreaker) : CircuitBreaker := {|
  config := config cb; state_u8 := state_u8 cb; failure_count := failure_count cb;
  success_count := success_count cb; opened_at := opened_at cb |}.

(** ** The abstract machine *)

(** What a client may rely on: a count of failures while closed, the opening
    instant while open, a count of successes while half-open. *)
Inductive AState :=
| AClosed (failures : Z)
| AOpen (since : Instant)
| AHalfOpen (successes : Z).

Definition a_observe (c : Config) (now : Instant) (a : AState) : AState :=
  match a with
  | AOpen since => if timeout c <=? elapsed now since then AHalfOpen 0 else a
  | _ => a
  end.

Definition a_success (c : Config) (now : Instant) (a : AState) : AState :=
  match a_observe c now a with
  | AClosed _ => AClosed 0
  | AHalfOpen n => if success_threshold c <=? n + 1 then AClosed 0 else AHalfOpen (n + 1)
  | AOpen t => AOpen t
  end.

Definition a_failure (c : Config) (now : Instant) (a : AState) : AState :=
  match a_observe c now a with
  | AClosed n => if failure_threshold c <=? n + 1 then AOpen now else AClosed (n + 1)
  | AHalfOpen _ => AOpen now
  | AOpen t => AOpen t
  end.

Definition abs (cb : CircuitBreaker) : AState :=
  match state_from_u8 (state_u8 cb) with
  | Closed => AClosed (failure_count cb)
  | Open => AOpen (default 0 (opened_at cb))
  | HalfOpen => AHalfOpen (success_count cb)
  end.

Inductive op := OpState | OpSuccess | OpFailure | OpReset.

Definition apply (now : Instant) (o : op) (cb : CircuitBreaker) : CircuitBreaker :=
  match o with
  | OpState => (state now cb).2
  | OpSuccess => record_success now cb
  | OpFailure => record_failure now cb
  | OpReset => reset cb
  end.

Definition a_apply (c : Config) (now : Instant) (o : op) (a : AState) : AState :=
  match o with
  | OpState => a_observe c now a
  | OpSuccess => a_success c now a
  | OpFailure => a_failure c now a
  | OpReset => AClosed 0
  end.

Definition run (ops : list (Instant * op)) (cb : CircuitBreaker) : CircuitBreaker :=
  fold_left (fun cb o => apply o.1 o.2 cb) ops cb.
Definition a_run (c : Config) (ops : list (Instant * op)) (a : AState) : AState :=
  fold_left (fun a o => a_apply c o.1 o.2 a) ops a.

(** ** The invariant *)

Definition config_ok (c : Config) : Prop :=
  is_u32 (failure_threshold c) /\ is_u32 (success_threshold c).

Definition inv (cb : CircuitBreaker) : Prop :=
  match state_from_u8 (state_u8 cb) with
  | Closed => 0 <= failure_count cb < Z.max 1 (failure_threshold (config cb))
  | Open => is_Some (opened_at cb)
  | HalfOpen => 0 <= success_count cb < Z.max 1 (success_threshold (config cb))
  end.

Lemma state_spec now cb :
  inv cb ->
  let '(s, cb') := state now cb in
  inv cb' /\ config cb' = config cb /\ state_from_u8 (state_u8 cb') = s /\
  abs cb' = a_observe (config cb) now (abs cb).
Proof.
  unfold state, inv, abs. destruct (state_from_u8 (state_u8 cb)) eqn:E; intros Hinv.
  - by rewrite E.
  - destruct Hinv as [t Ht]. rewrite Ht. simpl. zcase; simpl.
    + rewrite ?u8_roundtrip. split_and!; [lia..|done|done|done].
    + rewrite E, Ht. split_and!; by eauto.
  - by rewrite E.
Qed.

Lemma succ_range n t : is_u32 t -> 0 <= n < Z.max 1 t -> wrap_u32 (n + 1) = n + 1.
Proof. unfold is_u32, u32_max. intros. apply wrap_u32_small. unfold is_u32, u32_max. lia. Qed.

Lemma apply_refines now o cb :
  config_ok (config cb) -> inv cb ->
  inv (apply now o cb) /\ config (apply now o cb) = config cb /\
  abs (apply now o cb) = a_apply (config cb) now o (abs cb).
Proof.
  intros [Hf Hs] Hinv. pose proof (state_spec now cb Hinv) as Hst.
  destruct o; simpl; unfold record_success, record_failure, a_success, a_failure;
    destruct (state now cb) as [s cb'] eqn:E; destruct Hst as (Hi & Hc & Hsu & Ha);
    try rewrite <- Ha.
  - done.
  - unfold inv, abs in *. rewrite <- Hc in *. rewrite Hsu in *. destruct s; simpl.
    + rewrite Hsu. split_and!; [lia..|done|done].
    + rewrite Hsu. by destruct Hi as [t ->].
    + zcase; simpl; [rewrite ?u8_roundtrip; split_and!; [lia..|done|done]|].
      rewrite Hsu, (succ_range _ _ Hs Hi). split_and!; [lia..|done|done].
  - unfold inv, abs in *. rewrite <- Hc in *. rewrite Hsu in *. destruct s; simpl.
    + zcase; simpl; [rewrite ?u8_roundtrip; by split_and!; eauto|].
      rewrite Hsu, (succ_range _ _ Hf Hi). split_and!; [lia..|done|done].
    + rewrite Hsu. by destruct Hi as [t ->].
    + rewrite ?u8_roundtrip. by split_and!; eauto.
  - unfold inv, abs. simpl. rewrite ?u8_roundtrip. split_and!; [lia..|done|done].
Qed.

(** ** Properties *)

Section Properties.
Variable c : Config.
Hypothesis c_ok : config_ok c.

Lemma run_refines ops cb :
  config cb = c -> inv cb ->
  inv (run ops cb) /\ config (run ops cb) = c /\ abs (run ops cb) = a_run c ops (abs cb).
Proof.
  unfold run, a_run. revert cb. induction ops as [|[now o] ops IH]; intros cb Hc Hi; simpl; [done|].
  destruct (apply_refines now o cb) as (Hi' & Hc' & Ha); [by rewrite Hc|done|].
  rewrite Hc in *. rewrite <- Ha. by apply IH.
Qed.


Lemma a_run_failures n t a :
  0 <= a -> a + Z.of_nat n < failure_threshold c ->
  a_run c (replicate n (t, OpFailure)) (AClosed a) = AClosed (a + Z.of_nat n).
Proof.
  revert a. induction n as [|n IH]; intros a Ha Hlt; simpl; [by rewrite Z.add_0_r|].
  unfold a_failure. simpl. zcase; [lia|].
  change (a_run c (replicate n (t, OpFailure)) (AClosed (a + 1)) = AClosed (a + Z.of_nat (S n))).
  rewrite IH by lia. f_equal. lia.
Qed.

Lemma a_run_successes n t a :
  0 <= a -> a + Z.of_nat n < success_threshold c ->
  a_run c (replicate n (t, OpSuccess)) (AHalfOpen a) = AHalfOpen (a + Z.of_nat n).
Proof.
  revert a. induction n as [|n IH]; intros a Ha Hlt; simpl; [by rewrite Z.add_0_r|].
  unfold a_success. simpl. zcase; [lia|].
  change (a_run c (replicate n (t, OpSuccess)) (AHalfOpen (a + 1)) = AHalfOpen (a + Z.of_nat (S n))).
  rewrite IH by lia. f_equal. lia.
Qed.

Lemma a_run_app ops1 ops2 a : a_run c (ops1 ++ ops2) a = a_run c ops2 (a_run c ops1 a).
Proof. apply fold_left_app. Qed.

(** The life cycle of a backend: [failure_threshold] failures in a row open
    the breaker and fewer do not; it stays unavailable for [timeout]; then it
    is half-open and closes after exactly [success_threshold] successes in a
    row, while a single failure opens it again for a full [timeout]. *)
Lemma breaker_life_cycle (n k : nat) (t0 t1 t : Instant) :
  Z.of_nat n + 1 = failure_threshold c -> Z.of_nat k + 1 = success_threshold c ->
  0 < timeout c -> t0 + timeout c <= t1 ->
  let fails := replicate n (t0, OpFailure) in
  let opened := fails ++ [(t0, OpFailure)] in
  let probing := opened ++ [(t1, OpState)] ++ replicate k (t1, OpSuccess) in
  abs (run fails (new c)) = AClosed (Z.of_nat n) /\
  (forall s, s < t0 + timeout c -> (is_available s (run opened (new c))).1 = false) /\
  abs (run probing (new c)) = AHalfOpen (Z.of_nat k) /\
  abs (run (probing ++ [(t1, OpSuccess)]) (new c)) = AClosed 0 /\
  (t < t1 + timeout c ->
   (is_available t (run (probing ++ [(t1, OpFailure)]) (new c))).1 = false).
Proof.
  intros Hn Hk Hpos Hle fails opened probing.
  assert (inv (new c)) as Hnew by (unfold inv; simpl; rewrite ?u8_roundtrip; lia).
  assert (forall ops, abs (run ops (new c)) = a_run c ops (AClosed 0)) as Habs
    by (intros ops; by destruct (run_refines ops (new c) eq_refl Hnew) as (_ & _ & ->)).
  assert (forall ops now since, abs (run ops (new c)) = AOpen since ->
    elapsed now since < timeout c -> (is_available now (run ops (new c))).1 = false) as Hav.
  { intros ops now since Ho Hlt. unfold is_available.
    destruct (run_refines ops (new c) eq_refl Hnew) as (Hi & Hc & _).
    pose proof (state_spec now (run ops (new c)) Hi) as Hst.
    destruct (state now (run ops (new c))) as [s cb']. destruct Hst as (_ & _ & Hs & Hobs).
    rewrite Ho, Hc in Hobs. simpl in Hobs. revert Hobs. zcase; [lia|]. intros Hobs.
    unfold abs in Hobs. rewrite Hs in Hobs. by destruct s. }
  assert (a_run c fails (AClosed 0) = AClosed (Z.of_nat n)) as Hf
    by (unfold fails; rewrite a_run_failures by lia; done).
  assert (a_run c opened (AClosed 0) = AOpen t0) as Ho.
  { unfold opened. rewrite a_run_app, Hf. simpl. unfold a_failure. simpl. zcase; [done|lia]. }
  assert (a_run c probing (AClosed 0) = AHalfOpen (Z.of_nat k)) as Hp.
  { unfold probing. rewrite !a_run_app, Ho. simpl. zcase; [|unfold elapsed, sat_sub in *; lia].
    change (a_run c (replicate k (t1, OpSuccess)) (AHalfOpen 0) = AHalfOpen (Z.of_nat k)).
    by rewrite a_run_successes by lia. }
  split_and!.
  - by rewrite Habs.
  - intros s Hs. apply (Hav opened s t0); [by rewrite Habs|unfold elapsed, sat_sub; lia].
  - by rewrite Habs.
  - rewrite Habs, a_run_app, Hp. simpl. unfold a_success. simpl. zcase; [done|lia].
  - intros Ht. apply (Hav _ t t1); [|unfold elapsed, sat_sub; lia].
    by rewrite Habs, a_run_app, Hp.
Qed.

End Properties.

(** *** Concrete instances *)

