(* ===== verification/LbBackend.v ===== *)
(** LbBackend: the load balancer's backends of
    [src/src/runtime/lb/backend.rs].

    [HttpBackend] and [RuntimeBackend] have the same atomics and the same
    methods on them; those are the record [Counters] and the functions on it.
    The HTTP client (reqwest) and the runtime handler (a trait object) are
    parameters. An atomic [fetch_add]/[fetch_sub] wraps at 64 bits. *)

From S2P Require Import Prelude.
From S2P Require LbBreaker.

(** ** Requests and responses ([runtime/request.rs], as used here) *)

Record Request := {
  method : string;
  path : string;
  req_headers : list (string * string);
  req_body : string;
}.

Record Response := {
  status : Z;
  headers : list (string * string);
  body : string;
}.

(** ** State *)

Definition DEFAULT_MAX_CONNECTIONS : Z := 100.

Inductive BackendState := Healthy | Unhealthy | Unknown | Draining.
Inductive BackendType := TypeHttp | TypeRuntime.

Definition backend_state_str (s : BackendState) : string :=
  match s with
  | Healthy => "healthy"
  | Unhealthy => "unhealthy"
  | Unknown => "unknown"
  | Draining => "draining"
  end.
Definition backend_type_str (t : BackendType) : string :=
  match t with TypeHttp => "http" | TypeRuntime => "runtime" end.

Record Counters := {
  weight : Z;
  max_connections : Z;
  healthy : bool;
  failure_count : Z;
  success_count : Z;
  total_requests : Z;
  active_requests : Z;
  last_check : option Instant;
  last_latency_ms : Z;
  circuit_breaker : option LbBreaker.CircuitBreaker;
}.

Record HttpBackend := {
  address : string;
  hc : Counters;
  last_success : option Instant;
}.

Record RuntimeBackend := {
  handler_id : string;
  rc : Counters;
}.

Inductive Backend := Http (b : HttpBackend) | Runtime (b : RuntimeBackend).

Record BackendHealth := {
  backend_id : string;
  bh_healthy : bool;
  latency_ms : option Z;
  bh_last_check : option Instant;
  bh_active_requests : Z;
  bh_total_requests : Z;
  backend_type : BackendType;
}.

(** ** Operations on the shared part *)

Definition counters_new (weight max_connections : Z) (cb : option LbBreaker.CircuitBreaker)
  : Counters := {|
  weight := weight; max_connections := max_connections; healthy := true;
  failure_count := 0; success_count := 0; total_requests := 0; active_requests := 0;
  last_check := None; last_latency_ms := 0; circuit_breaker := cb |}.

Definition set_breaker (cb : option LbBreaker.CircuitBreaker) (c : Counters) : Counters := {|
  weight := weight c; max_connections := max_connections c; healthy := healthy c;
  failure_count := failure_count c; success_count := success_count c;
  total_requests := total_requests c; active_requests := active_requests c;
  last_check := last_check c; last_latency_ms := last_latency_ms c; circuit_breaker := cb |}.

Definition set_latency (ms : Z) (c : Counters) : Counters := {|
  weight := weight c; max_connections := max_connections c; healthy := healthy c;
  failure_count := failure_count c; success_count := success_count c;
  total_requests := total_requests c; active_requests := active_requests c;
  last_check := last_check c; last_latency_ms := ms; circuit_breaker := circuit_breaker c |}.

Definition set_active (n : Z) (c : Counters) : Counters := {|
  weight := weight c; max_connections := max_connections c; healthy := healthy c;
  failure_count := failure_count c; success_count := success_count c;
  total_requests := total_requests c; active_requests := n;
  last_check := last_check c; last_latency_ms := last_latency_ms c;
  circuit_breaker := circuit_breaker c |}.

Definition c_is_available (now : Instant) (c : Counters) : bool * Counters :=
  if negb (healthy c) then (false, c)
  else match circuit_breaker c with
       | Some cb =>
           let '(a, cb') := LbBreaker.is_available now cb in (a, set_breaker (Some cb') c)
       | None => (true, c)
       end.

Definition c_has_capacity (c : Counters) : bool := active_requests c <? max_connections c.

Definition c_mark_healthy (now : Instant) (c : Counters) : Counters := {|
  weight := weight c; max_connections := max_connections c; healthy := true;
  failure_count := 0; success_count := wrap_u64 (success_count c + 1);
  total_requests := total_requests c; active_requests := active_requests c;
  last_check := Some now; last_latency_ms := last_latency_ms c;
  circuit_breaker := circuit_breaker c |}.

Definition c_mark_unhealthy (now : Instant) (c : Counters) : Counters := {|
  weight := weight c; max_connections := max_connections c; healthy := false;
  failure_count := wrap_u64 (failure_count c + 1); success_count := 0;
  total_requests := total_requests c; active_requests := active_requests c;
  last_check := Some now; last_latency_ms := last_latency_ms c;
  circuit_breaker := circuit_breaker c |}.

Definition c_count_request (c : Counters) : Counters := {|
  weight := weight c; max_connections := max_connections c; healthy := healthy c;
  failure_count := failure_count c; success_count := success_count c;
  total_requests := wrap_u64 (total_requests c + 1); active_requests := active_requests c;
  last_check := last_check c; last_latency_ms := last_latency_ms c;
  circuit_breaker := circuit_breaker c |}.

Definition c_record_success (now : Instant) (c : Counters) : Counters :=
  let c := c_count_request c in
  match circuit_breaker c with
  | Some cb => set_breaker (Some (LbBreaker.record_success now cb)) c
  | None => c
  end.

Definition c_record_failure (now : Instant) (c : Counters) : Counters :=
  let c := c_count_request c in
  match circuit_breaker c with
  | Some cb => set_breaker (Some (LbBreaker.record_failure now cb)) c
  | None => c
  end.

Definition c_start_request (c : Counters) : Counters := set_active (wrap_u64 (active_requests c + 1)) c.
Definition c_end_request (c : Counters) : Counters := set_active (wrap_u64 (active_requests c - 1)) c.

Definition c_health (id : string) (t : BackendType) (c : Counters) : BackendHealth := {|
  backend_id := id;
  bh_healthy := healthy c;
  latency_ms := if 0 <? last_latency_ms c then Some (last_latency_ms c) else None;
  bh_last_check := last_check c;
  bh_active_requests := active_requests c;
  bh_total_requests := total_requests c;
  backend_type := t |}.

(** The custom [Clone] copies the values of the atomics into new atomics. *)
Definition c_clone (c : Counters) : Counters := {|
  weight := weight c; max_connections := max_connections c; healthy := healthy c;
  failure_count := failure_count c; success_count := success_count c;
  total_requests := total_requests c; active_requests := active_requests c;
  last_check := last_check c; last_latency_ms := last_latency_ms c;
  circuit_breaker := LbBreaker.clone <$> circuit_breaker c |}.

(** ** [HttpBackend] *)

Definition with_hc (f : Counters -> Counters) (b : HttpBackend) : HttpBackend :=
  {| address := address b; hc := f (hc b); last_success := last_success b |}.

Definition http_with_options (address : string) (weight max_connections : Z) : HttpBackend := {|
  address := address;
  hc := counters_new (Z.max weight 1) (Z.max max_connections 1) None;
  last_success := None |}.
Definition http_new (address : string) : HttpBackend :=
  http_with_options address 1 DEFAULT_MAX_CONNECTIONS.
Definition http_with_circuit_breaker (address : string) (config : LbBreaker.Config)
  : HttpBackend := {|
  address := address;
  hc := counters_new 1 DEFAULT_MAX_CONNECTIONS (Some (LbBreaker.new config));
  last_success := None |}.

Definition http_is_available (now : Instant) (b : HttpBackend) : bool * HttpBackend :=
  let '(a, c') := c_is_available now (hc b) in (a, with_hc (fun _ => c') b).
Definition http_has_capacity (b : HttpBackend) : bool := c_has_capacity (hc b).
Definition http_start_request : HttpBackend -> HttpBackend := with_hc c_start_request.
Definition http_end_request : HttpBackend -> HttpBackend := with_hc c_end_request.
Definition http_health (b : HttpBackend) : BackendHealth := c_health (address b) TypeHttp (hc b).

Definition url (b : HttpBackend) (path : string) : string := "http://" +:+ address b +:+ path.

Definition http_state (b : HttpBackend) : BackendState :=
  match last_check (hc b) with
  | None => Unknown
  | Some _ => if healthy (hc b) then Healthy else Unhealthy
  end.

Definition http_mark_healthy (now : Instant) (b : HttpBackend) : HttpBackend :=
  {| address := address b; hc := c_mark_healthy now (hc b); last_success := Some now |}.
Definition http_mark_unhealthy (now : Instant) : HttpBackend -> HttpBackend :=
  with_hc (c_mark_unhealthy now).
Definition http_record_success (now : Instant) (b : HttpBackend) : HttpBackend :=
  {| address := address b; hc := c_record_success now (hc b); last_success := Some now |}.
Definition http_record_failure (now : Instant) : HttpBackend -> HttpBackend :=
  with_hc (c_record_failure now).
Definition http_clone (b : HttpBackend) : HttpBackend :=
  {| address := address b; hc := c_clone (hc b); last_success := last_success b |}.

(** ** [RuntimeBackend] *)

Definition with_rc (f : Counters -> Counters) (b : RuntimeBackend) : RuntimeBackend :=
  {| handler_id := handler_id b; rc := f (rc b) |}.

Definition runtime_with_options (handler : string) (weight max_connections : Z)
  : RuntimeBackend := {|
  handler_id := handler;
  rc := counters_new (Z.max weight 1) (Z.max max_connections 1) None |}.
Definition runtime_new (handler : string) : RuntimeBackend :=
  runtime_with_options handler 1 DEFAULT_MAX_CONNECTIONS.

Definition runtime_is_available (now : Instant) (b : RuntimeBackend) : bool * RuntimeBackend :=
  let '(a, c') := c_is_available now (rc b) in (a, with_rc (fun _ => c') b).
Definition runtime_has_capacity (b : RuntimeBackend) : bool := c_has_capacity (rc b).
Definition runtime_mark_healthy (now : Instant) : RuntimeBackend -> RuntimeBackend :=
  with_rc (c_mark_healthy now).
Definition runtime_mark_unhealthy (now : Instant) : RuntimeBackend -> RuntimeBackend :=
  with_rc (c_mark_unhealthy now).
Definition runtime_record_success (now : Instant) : RuntimeBackend -> RuntimeBackend :=
  with_rc (c_record_success now).
Definition runtime_record_failure (now : Instant) : RuntimeBackend -> RuntimeBackend :=
  with_rc (c_record_failure now).
Definition runtime_start_request : RuntimeBackend -> RuntimeBackend := with_rc c_start_request.
Definition runtime_end_request : RuntimeBackend -> RuntimeBackend := with_rc c_end_request.
Definition runtime_health (b : RuntimeBackend) : BackendHealth :=
  c_health (handler_id b) TypeRuntime (rc b).
Definition runtime_clone : RuntimeBackend -> RuntimeBackend := with_rc c_clone.

(** ** [Backend]: dispatch on the variant *)

Definition counters (b : Backend) : Counters :=
  match b with Http h => hc h | Runtime r => rc r end.

Definition id (b : Backend) : string :=
  match b with Http h => address h | Runtime r => handler_id r end.
Definition is_healthy (b : Backend) : bool := healthy (counters b).
Definition is_available (now : Instant) (b : Backend) : bool * Backend :=
  match b with
  | Http h => let '(a, h') := http_is_available now h in (a, Http h')
  | Runtime r => let '(a, r') := runtime_is_available now r in (a, Runtime r')
  end.
Definition has_capacity (b : Backend) : bool :=
  match b with Http h => http_has_capacity h | Runtime r => runtime_has_capacity r end.
Definition mark_healthy (now : Instant) (b : Backend) : Backend :=
  match b with
  | Http h => Http (http_mark_healthy now h)
  | Runtime r => Runtime (runtime_mark_healthy now r)
  end.
Definition mark_unhealthy (now : Instant) (b : Backend) : Backend :=
  match b with
  | Http h => Http (http_mark_unhealthy now h)
  | Runtime r => Runtime (runtime_mark_unhealthy now r)
  end.
Definition record_success (now : Instant) (b : Backend) : Backend :=
  match b with
  | Http h => Http (http_record_success now h)
  | Runtime r => Runtime (runtime_record_success now r)
  end.
Definition record_failure (now : Instant) (b : Backend) : Backend :=
  match b with
  | Http h => Http (http_record_failure now h)
  | Runtime r => Runtime (runtime_record_failure now r)
  end.
Definition start_request (b : Backend) : Backend :=
  match b with
  | Http h => Http (http_start_request h)
  | Runtime r => Runtime (runtime_start_request r)
  end.
Definition end_request (b : Backend) : Backend :=
  match b with
  | Http h => Http (http_end_request h)
  | Runtime r => Runtime (runtime_end_request r)
  end.
Definition health (b : Backend) : BackendHealth :=
  match b with Http h => http_health h | Runtime r => runtime_health r end.
Definition clone (b : Backend) : Backend :=
  match b with
  | Http h => Http (http_clone h)
  | Runtime r => Runtime (runtime_clone r)
  end.

(** ** Forwarding and health checks *)

Definition is_hop_by_hop_header (name : string) : bool :=
  existsb (String.eqb (Str.to_lowercase name))
    ["connection"; "keep-alive"; "proxy-authenticate"; "proxy-authorization"; "te";
     "trailers"; "transfer-encoding"; "upgrade"].

(** What [forward] hands to reqwest, and what reqwest returns: a header value
    that is not visible ASCII has no string form. *)
Record OutRequest := {
  out_method : string;
  out_url : string;
  out_headers : list (string * string);
  out_body : option string;
  out_timeout : Duration;
}.
Record InResponse := {
  in_status : Z;
  in_headers : list (string * option string);
  in_body : result string string;
}.

Definition strip_hop_by_hop {A} : list (string * A) -> list (string * A) :=
  filter (fun h => is_hop_by_hop_header h.1 = false).

Section Client.
(** [str::parse::<reqwest::Method>] and [RequestBuilder::send]. *)
Variable parse_method : string -> option string.
Variable send : OutRequest -> result InResponse string.
(** [RuntimeHandler::handle_request] and [RuntimeHandler::health_check]. *)
Variable handle_request : string -> Request -> result Response string.
Variable handler_health_check : string -> bool.

Definition build_request (b : HttpBackend) (req : Request) (timeout : Duration) : OutRequest := {|
  out_method := default "GET" (parse_method (method req));
  out_url := url b (path req);
  out_headers := strip_hop_by_hop (req_headers req);
  out_body := if Str.is_empty (req_body req) then None else Some (req_body req);
  out_timeout := timeout |}.

Definition as_millis (start finish : Instant) : Z := wrap_u64 (elapsed finish start / 1000000).

Definition http_forward (start finish : Instant) (timeout : Duration) (req : Request)
    (b : HttpBackend) : result Response string * HttpBackend :=
  match send (build_request b req timeout) with
  | Err e => (Err e, b)
  | Ok response =>
      let b := with_hc (set_latency (as_millis start finish)) b in
      let hs := (fun h => (h.1, default EmptyString h.2)) <$> strip_hop_by_hop (in_headers response) in
      match in_body response with
      | Err e => (Err e, b)
      | Ok bytes => (Ok {| status := in_status response; headers := hs; body := bytes |}, b)
      end
  end.

Definition runtime_forward (start finish : Instant) (req : Request) (b : RuntimeBackend)
  : result Response string * RuntimeBackend :=
  (handle_request (handler_id b) req, with_rc (set_latency (as_millis start finish)) b).

Definition forward (start finish : Instant) (timeout : Duration) (req : Request) (b : Backend)
  : result Response string * Backend :=
  match b with
  | Http h => let '(r, h') := http_forward start finish timeout req h in (r, Http h')
  | Runtime r => let '(x, r') := runtime_forward start finish req r in (x, Runtime r')
  end.

(** [HttpBackend::health_check]: any 2xx answer to a GET passes; the client was
    built with the configured timeout. *)
Definition http_health_check (start finish : Instant) (timeout : Duration) (path : string)
    (b : HttpBackend) : bool * HttpBackend :=
  match send {| out_method := "GET"; out_url := url b path; out_headers := [];
                out_body := None; out_timeout := timeout |} with
  | Ok response =>
      let b := with_hc (set_latency (as_millis start finish)) b in
      ((200 <=? in_status response) && (in_status response <? 300), b)%bool
  | Err _ => (false, b)
  end.

Definition runtime_health_check (start finish : Instant) (b : RuntimeBackend)
  : bool * RuntimeBackend :=
  (handler_health_check (handler_id b), with_rc (set_latency (as_millis start finish)) b).

Definition health_check (start finish : Instant) (timeout : Duration) (path : string) (b : Backend)
  : bool * Backend :=
  match b with
  | Http h => let '(a, h') := http_health_check start finish timeout path h in (a, Http h')
  | Runtime r => let '(a, r') := runtime_health_check start finish r in (a, Runtime r')
  end.

End Client.

(** ** Lemmas *)

Lemma c_clone_id c : c_clone c = c.
Proof. destruct c as [? ? ? ? ? ? ? ? ? [[]|]]; done. Qed.

Lemma clone_id b : clone b = b.
Proof.
  destruct b as [[]|[]]; unfold clone, http_clone, runtime_clone, with_rc; simpl; by rewrite c_clone_id.
Qed.

Lemma is_available_counters now b :
  let '(a, b') := is_available now b in
  id b' = id b /\ active_requests (counters b') = active_requests (counters b) /\
  total_requests (counters b') = total_requests (counters b) /\
  max_connections (counters b') = max_connections (counters b) /\
  healthy (counters b') = healthy (counters b).
Proof.
  destruct b as [h|r]; simpl; unfold http_is_available, runtime_is_available, c_is_available;
    (destruct (negb _); [done|]); destruct (circuit_breaker _) as [cb|]; try done;
    destruct (LbBreaker.is_available now cb); done.
Qed.

(** ** Properties *)

(** Forwarding strips exactly the hop-by-hop headers, in both directions
    and in any letter case: the request sent to an HTTP backend carries the
    remaining client headers in order, with the backend's URL and a body only
    if there is one; the response returned carries the backend's remaining
    headers in order, its status and its body. *)
Lemma forward_strips_hop_by_hop parse_method send start finish timeout req b r b' :
  http_forward parse_method send start finish timeout req b = (Ok r, b') ->
  exists resp,
    let out := build_request parse_method b req timeout in
    send out = Ok resp /\
    (forall n v, (n, v) ∈ out_headers out <->
       is_hop_by_hop_header n = false /\ (n, v) ∈ req_headers req) /\
    out_headers out `sublist_of` req_headers req /\
    out_url out = "http://" +:+ address b +:+ path req /\
    (out_body out = None <-> req_body req = EmptyString) /\
    Forall (fun h => is_hop_by_hop_header h.1 = false) (headers r) /\
    (headers r).*1 `sublist_of` (in_headers resp).*1 /\
    status r = in_status resp /\ in_body resp = Ok (body r) /\
    last_latency_ms (hc b') = as_millis start finish.
Proof.
  unfold http_forward. destruct (send _) as [resp|e] eqn:Hsend; [|done].
  destruct (in_body resp) as [bytes|e] eqn:Hbody; [|done]. intros [= <- <-].
  exists resp. cbv zeta. split_and!; try done.
  - intros n v. simpl. unfold strip_hop_by_hop. rewrite list_elem_of_filter. done.
  - simpl. apply sublist_filter.
  - simpl. by destruct (req_body req).
  - simpl. apply Forall_fmap, Forall_forall. intros h Hh. simpl.
    unfold strip_hop_by_hop in Hh. by apply list_elem_of_filter in Hh as [? _].
  - simpl. rewrite <- list_fmap_compose. apply fmap_sublist, sublist_filter.
Qed.
