(* ===== verification/LbHealth.v ===== *)
(** LbHealth: the load balancer's active health checks of
    [src/src/runtime/lb/health.rs] and the backend gauges of
    [src/src/runtime/lb/metrics.rs].

    A cycle of the health-check task clones the shared backends, checks and
    marks the clones one after the other, copies the verdicts to the shared
    backends, and publishes the gauges. Log lines and gauge updates are part of
    a cycle's output. *)

From S2P Require Import Prelude LbBreaker LbBackend.

(** ** Configuration *)

Inductive HealthCheckType := HttpCheck (path : string) | TcpCheck.

Definition check_type_default : HealthCheckType := HttpCheck "/health".

Record HealthCheckConfig := {
  interval : Duration;
  check_timeout : Duration;
  check_type : HealthCheckType;
  unhealthy_threshold : Z;
  healthy_threshold : Z;
}.

Definition health_config_default : HealthCheckConfig := {|
  interval := from_secs 5;
  check_timeout := from_millis 2000;
  check_type := check_type_default;
  unhealthy_threshold := 3;
  healthy_threshold := 2 |}.

Definition with_check_type (t : HealthCheckType) (c : HealthCheckConfig) : HealthCheckConfig := {|
  interval := interval c; check_timeout := check_timeout c; check_type := t;
  unhealthy_threshold := unhealthy_threshold c; healthy_threshold := healthy_threshold c |}.

Definition config_http (path : string) : HealthCheckConfig :=
  with_check_type (HttpCheck path) health_config_default.
Definition config_tcp : HealthCheckConfig := with_check_type TcpCheck health_config_default.
Definition config_path (c : HealthCheckConfig) : string :=
  match check_type c with HttpCheck path => path | TcpCheck => "" end.

(** ** One check *)

(** The HTTP client is represented by the timeout it was built with. *)
Record HealthCheck := {
  config : HealthCheckConfig;
  client : option Duration;
}.

Inductive log :=
| LogRecovered (backend : string) (index : nat)
| LogUnhealthy (backend : string) (index : nat) (failures : Z).

(** What [LbMetrics] hands to the metrics recorder. *)
Inductive metric :=
| SetActiveConnections (backend : string) (connections : Z)
| SetBackendsTotal (count : Z)
| SetBackendsHealthy (count : Z)
| RecordRequest (backend : string) (status : string) (duration : Duration).

(** [LbMetrics::record_success], [record_failure] and
    [update_backend_metrics]. *)
Definition record_success_metric (backend : string) (duration : Duration) : metric :=
  RecordRequest backend "success" duration.
Definition record_failure_metric (backend : string) (duration : Duration) : metric :=
  RecordRequest backend "failure" duration.

Definition update_backend_metrics (backends : list (string * bool * Z)) : list metric :=
  let '(gauges, total, healthy) :=
    fold_left (fun acc b =>
      let '(gauges, total, healthy) := acc in
      let '(address, is_healthy, active) := b in
      (gauges ++ [SetActiveConnections address active], total + 1,
       if (is_healthy : bool) then healthy + 1 else healthy)) backends ([], 0, 0) in
  gauges ++ [SetBackendsTotal total; SetBackendsHealthy healthy].

Section Checks.
(** [reqwest], the embedded runtimes, name resolution and TCP connection. *)
Variable send : OutRequest -> result InResponse string.
Variable handler_health_check : string -> bool.
Variable resolve : string -> result (list string) string.
Variable connect : string -> Duration -> bool.
(** Whether [reqwest::Client::builder().build()] succeeds. *)
Variable client_builds : bool.

Definition health_check_new (config : HealthCheckConfig) : result HealthCheck string :=
  match check_type config with
  | HttpCheck _ =>
      if client_builds
      then Ok {| config := config; client := Some (check_timeout config) |}
      else Err "failed to create HTTP client - check TLS configuration"
  | TcpCheck => Ok {| config := config; client := None |}
  end.

Definition check_tcp_address (hc : HealthCheck) (address : string) : bool :=
  match resolve address with
  | Ok (addr :: _) => connect addr (check_timeout (config hc))
  | Ok [] => false
  | Err _ => false
  end.

Definition check (hc : HealthCheck) (start finish : Instant) (backend : Backend) : bool * Backend :=
  match backend with
  | Http b =>
      match check_type (config hc) with
      | HttpCheck path =>
          match client hc with
          | Some timeout =>
              let '(ok, b') := http_health_check send start finish timeout path b in (ok, Http b')
          | None => (false, backend)
          end
      | TcpCheck => (check_tcp_address hc (address b), backend)
      end
  | Runtime b =>
      let '(ok, b') := runtime_health_check handler_health_check start finish b in (ok, Runtime b')
  end.

(** ** The health-check loop: one cycle *)

(** The body of the loop over the snapshot, for the backend at index [i]. *)
Definition check_one (hc : HealthCheck) (i : nat) (start finish : Instant) (backend : Backend)
  : Backend * list log :=
  let '(is_healthy, backend) := check hc start finish backend in
  let was_healthy := LbBackend.is_healthy backend in
  if is_healthy then
    let backend := mark_healthy finish backend in
    (backend,
     if ((healthy_threshold (config hc) <=? success_count (counters backend)) &&
         negb was_healthy)%bool
     then [LogRecovered (id backend) i] else [])
  else
    let backend := mark_unhealthy finish backend in
    (backend,
     if ((unhealthy_threshold (config hc) <=? failure_count (counters backend)) &&
         was_healthy)%bool
     then [LogUnhealthy (id backend) i (failure_count (counters backend))] else []).

(** [clock i] is the start and the end of the check of backend [i]. *)
Fixpoint check_snapshot (hc : HealthCheck) (clock : nat -> Instant * Instant) (i : nat)
    (snapshot : list Backend) : list Backend * list log :=
  match snapshot with
  | [] => ([], [])
  | b :: bs =>
      let '(b', l) := check_one hc i (clock i).1 (clock i).2 b in
      let '(bs', ls) := check_snapshot hc clock (S i) bs in
      (b' :: bs', l ++ ls)
  end.

(** Copying the verdicts to the shared backends; [i < backends_write.len()]
    guards the indexing. *)
Fixpoint copy_health (now : Instant) (snapshot shared : list Backend) : list Backend :=
  match snapshot, shared with
  | b :: snapshot', s :: shared' =>
      (if LbBackend.is_healthy b then mark_healthy now s else mark_unhealthy now s)
        :: copy_health now snapshot' shared'
  | _, _ => shared
  end.

Definition health_cycle (hc : HealthCheck) (clock : nat -> Instant * Instant) (now : Instant)
    (backends : list Backend) : list Backend * list log * list metric :=
  let snapshot := LbBackend.clone <$> backends in
  let '(snapshot, logs) := check_snapshot hc clock 0 snapshot in
  (copy_health now snapshot backends, logs,
   update_backend_metrics
     ((fun b => (id b, LbBackend.is_healthy b, active_requests (counters b))) <$> snapshot)).

(** ** Lemmas *)

(** The verdict of a check depends on the backend's address only. *)
Definition verdict (hc : HealthCheck) (b : Backend) : bool := (check hc 0 0 b).1.

(** A check changes nothing of a backend but its latency. *)
Definition latency_only (b b' : Backend) : Prop :=
  id b' = id b /\ exists ms, counters b' = set_latency ms (counters b).

Lemma set_latency_self c : set_latency (last_latency_ms c) c = c.
Proof. by destruct c. Qed.

Lemma check_spec hc start finish b :
  (check hc start finish b).1 = verdict hc b /\ latency_only b (check hc start finish b).2.
Proof.
  unfold verdict, latency_only. destruct b as [h|r]; simpl.
  - destruct (check_type (config hc)); [|simpl; eauto using eq_sym, set_latency_self].
    destruct (client hc); [|simpl; eauto using eq_sym, set_latency_self].
    unfold http_health_check. destruct (send _); simpl; eauto using eq_sym, set_latency_self.
  - eauto.
Qed.

Lemma is_healthy_counters b : LbBackend.is_healthy b = healthy (counters b).
Proof. by destruct b. Qed.
Lemma counters_mark_healthy now b : counters (mark_healthy now b) = c_mark_healthy now (counters b).
Proof. by destruct b. Qed.
Lemma counters_mark_unhealthy now b :
  counters (mark_unhealthy now b) = c_mark_unhealthy now (counters b).
Proof. by destruct b. Qed.
Lemma id_mark_healthy now b : id (mark_healthy now b) = id b.
Proof. by destruct b. Qed.
Lemma id_mark_unhealthy now b : id (mark_unhealthy now b) = id b.
Proof. by destruct b. Qed.

Lemma check_one_spec hc i start finish b :
  let b' := (check_one hc i start finish b).1 in
  LbBackend.is_healthy b' = verdict hc b /\ id b' = id b /\
  active_requests (counters b') = active_requests (counters b).
Proof.
  unfold check_one. destruct (check_spec hc start finish b) as [Hv [Hid [ms Hc]]].
  destruct (check hc start finish b) as [ok b1]. simpl in *. rewrite <- Hv.
  destruct ok; simpl; rewrite is_healthy_counters;
    rewrite ?counters_mark_healthy, ?counters_mark_unhealthy,
      ?id_mark_healthy, ?id_mark_unhealthy; simpl; by rewrite Hc.
Qed.

Definition summary (b : Backend) : string * bool * Z :=
  (id b, LbBackend.is_healthy b, active_requests (counters b)).

Lemma check_snapshot_summary hc clock i bs :
  summary <$> (check_snapshot hc clock i bs).1 =
  (fun b => (id b, verdict hc b, active_requests (counters b))) <$> bs.
Proof.
  revert i. induction bs as [|b bs IH]; intros i; simpl; [done|].
  destruct (check_one_spec hc i (clock i).1 (clock i).2 b) as (H1 & H2 & H3).
  destruct (check_one _ _ _ _ _) as [b' l]. specialize (IH (S i)).
  destruct (check_snapshot _ _ _ _) as [bs' ls]. csimpl in *.
  unfold summary at 1. by rewrite H1, H2, H3, IH.
Qed.

(** The fold of the gauges in closed form. *)
Definition gauges (l : list (string * bool * Z)) : list metric :=
  (fun b => SetActiveConnections b.1.1 b.2) <$> l.
Definition count_healthy (l : list (string * bool * Z)) : Z :=
  Z.of_nat (length (filter (fun b => b.1.2 = true) l)).

Lemma update_backend_metrics_spec l :
  update_backend_metrics l =
  gauges l ++ [SetBackendsTotal (Z.of_nat (length l)); SetBackendsHealthy (count_healthy l)].
Proof.
  unfold update_backend_metrics.
  assert (forall g t h,
    fold_left (fun acc b =>
      let '(gauges, total, healthy) := acc in
      let '(address, is_healthy, active) := b in
      (gauges ++ [SetActiveConnections address active], total + 1,
       if (is_healthy : bool) then healthy + 1 else healthy)) l (g, t, h) =
    (g ++ gauges l, t + Z.of_nat (length l), h + count_healthy l)) as ->; [|done].
  unfold gauges, count_healthy. induction l as [|[[a ok] n] l IH]; intros g t h.
  - csimpl. by rewrite app_nil_r, !Z.add_0_r.
  - csimpl. rewrite IH, <- app_assoc. csimpl.
    rewrite filter_cons. destruct ok; case_decide; try done; rewrite ?length_cons;
      rewrite ?Nat2Z.inj_succ; (apply f_equal2; [apply f_equal2; [done|lia]|lia]).
Qed.

(** The effect of a cycle on the shared copy of one backend. *)
Definition marked (now : Instant) (hc : HealthCheck) (b : Backend) : Backend :=
  if verdict hc b then mark_healthy now b else mark_unhealthy now b.

Lemma copy_health_spec now hc snapshot bs :
  summary <$> snapshot = (fun b => (id b, verdict hc b, active_requests (counters b))) <$> bs ->
  copy_health now snapshot bs = marked now hc <$> bs.
Proof.
  revert snapshot. induction bs as [|b bs IH]; intros [|s snapshot]; csimpl; try done.
  intros [= _ Hv _ Hr]. rewrite IH by done. unfold marked. by rewrite Hv.
Qed.

Lemma health_cycle_spec hc clock now bs :
  let '(bs', _, ms) := health_cycle hc clock now bs in
  bs' = marked now hc <$> bs /\
  ms = update_backend_metrics
         ((fun b => (id b, verdict hc b, active_requests (counters b))) <$> bs).
Proof.
  unfold health_cycle.
  assert (LbBackend.clone <$> bs = bs) as -> by (rewrite <- (list_fmap_id bs) at 2; apply list_fmap_ext; intros; apply clone_id).
  pose proof (check_snapshot_summary hc clock 0 bs) as Hs.
  destruct (check_snapshot hc clock 0 bs) as [snap logs]. simpl in Hs.
  split; [by apply copy_health_spec|]. change (fun b => _) with summary at 1. by rewrite Hs.
Qed.

(** ** Properties *)

(** A cycle of health checks decides each backend by its latest check
    alone: it is healthy afterwards exactly when that check passed, its
    consecutive counters step accordingly, and nothing else of the shared
    backend changes, in particular not its latency, its active requests or its
    circuit breaker. The thresholds do not matter: any configuration with the
    same check type and timeout leaves the same backends, so one failed check
    takes a backend out and one passed check brings it back. The gauges report
    every backend and the number of passes. *)
Lemma health_cycle_decides (hc hc' : HealthCheck) (clock : nat -> Instant * Instant)
    (now : Instant) (backends : list Backend) (i : nat) (b : Backend) :
  check_type (config hc') = check_type (config hc) ->
  check_timeout (config hc') = check_timeout (config hc) -> client hc' = client hc ->
  backends !! i = Some b ->
  let '(after, _, ms) := health_cycle hc clock now backends in
  (exists b', after !! i = Some b' /\ id b' = id b /\
     LbBackend.is_healthy b' = verdict hc b /\
     success_count (counters b') =
       (if verdict hc b then wrap_u64 (success_count (counters b) + 1) else 0) /\
     failure_count (counters b') =
       (if verdict hc b then 0 else wrap_u64 (failure_count (counters b) + 1)) /\
     last_latency_ms (counters b') = last_latency_ms (counters b) /\
     active_requests (counters b') = active_requests (counters b) /\
     circuit_breaker (counters b') = circuit_breaker (counters b)) /\
  (health_cycle hc' clock now backends).1.1 = after /\
  SetBackendsTotal (Z.of_nat (length backends)) ∈ ms /\
  SetBackendsHealthy
    (Z.of_nat (length (filter (fun b => verdict hc b = true) backends))) ∈ ms.
Proof.
  intros Ht Hto Hcl Hb.
  assert (forall b, verdict hc' b = verdict hc b) as Hverd.
  { intros [h|r]; [|done]. unfold verdict; simpl. rewrite Ht, Hcl.
    destruct (check_type (config hc)); [done|]. unfold check_tcp_address. by rewrite Hto. }
  pose proof (health_cycle_spec hc clock now backends) as H1.
  pose proof (health_cycle_spec hc' clock now backends) as H2.
  destruct (health_cycle hc clock now backends) as [[after logs] ms].
  destruct (health_cycle hc' clock now backends) as [[after' logs'] ms'].
  destruct H1 as [-> ->]. destruct H2 as [-> _]. split_and!.
  - exists (marked now hc b). rewrite list_lookup_fmap, Hb. split; [done|].
    unfold marked. rewrite is_healthy_counters.
    destruct (verdict hc b); rewrite ?id_mark_healthy, ?id_mark_unhealthy,
      ?counters_mark_healthy, ?counters_mark_unhealthy; done.
  - simpl. apply list_fmap_ext. intros ? x _. unfold marked. by rewrite Hverd.
  - rewrite update_backend_metrics_spec, length_fmap. apply elem_of_app. right. by left.
  - rewrite update_backend_metrics_spec. apply elem_of_app. right.
    assert (count_healthy ((fun b => (id b, verdict hc b, active_requests (counters b))) <$> backends)
      = Z.of_nat (length (filter (fun b => verdict hc b = true) backends))) as ->.
    { unfold count_healthy. f_equal. clear. induction backends as [|x l IH]; [done|].
      csimpl. rewrite !filter_cons. csimpl. case_decide; csimpl; by rewrite IH. }
    right. by left.
Qed.

End Checks.
