(* ===== verification/LbProxy.v ===== *)
(** LbProxy: backend selection and request forwarding, of
    [src/src/runtime/lb/selection.rs] and [proxy.rs].

    The proxy is parameterised by its selection algorithm through the class
    [Selection], the counterpart of the trait of that name; its theorems use
    the class's laws only, and [RoundRobin] is the instance the program
    builds. *)

From S2P Require Import Prelude LbBreaker LbBackend LbHealth.

(** ** Selection ([selection.rs]) *)

Class Selection (S : Type) := select : list nat -> S -> option nat * S.
#[global] Hint Mode Selection ! : typeclass_instances.

(** What the proxy relies on: an index is selected exactly when there is one
    to select, and it is one of those given. *)
Class SelectionLaws (S : Type) `{Selection S} : Prop := {
  select_nil : forall (s : S), (select [] s).1 = None;
  select_mem : forall l (s : S), l <> [] -> exists i, (select l s).1 = Some i /\ i ∈ l;
}.

Inductive LoadBalanceStrategy := StrategyRoundRobin.

Record RoundRobin := {
  current : Z;
  total : Z;
}.

Definition rr_new (total : Z) : RoundRobin := {| current := 0; total := total |}.

Definition next_index (s : RoundRobin) : Z * RoundRobin :=
  if total s =? 0 then (0, s)
  else (current s mod total s,
        {| current := wrap_u64 (current s + 1); total := total s |}).

Definition rr_select (healthy_indices : list nat) (s : RoundRobin) : option nat * RoundRobin :=
  match healthy_indices with
  | [] => (None, s)
  | _ =>
      let '(pos, s') := next_index s in
      let healthy_pos := pos mod Z.of_nat (length healthy_indices) in
      (healthy_indices !! Z.to_nat healthy_pos, s')
  end.

#[export] Instance RoundRobin_Selection : Selection RoundRobin := rr_select.

Definition into_selector (s : LoadBalanceStrategy) (num_backends : Z) : RoundRobin :=
  match s with StrategyRoundRobin => rr_new num_backends end.

#[export] Instance RoundRobin_laws : SelectionLaws RoundRobin.
Proof.
  split; [done|]. intros [|i l] s Hne; [done|].
  unfold select, RoundRobin_Selection, rr_select. destruct (next_index s) as [pos s'].
  cbv zeta. simpl fst.
  destruct (lookup_lt_is_Some_2 (i :: l) (Z.to_nat (pos mod Z.of_nat (length (i :: l)))))
    as [j Hj].
  - pose proof (Z.mod_pos_bound pos (Z.of_nat (length (i :: l)))). simpl length in *. lia.
  - exists j. split; [done|]. by eapply list_elem_of_lookup_2.
Qed.

(** [n] selections in a row from the same candidates. *)
Fixpoint selections (n : nat) (l : list nat) (s : RoundRobin) : list (option nat) :=
  match n with
  | O => []
  | S n' => let '(r, s') := rr_select l s in r :: selections n' l s'
  end.

(** ** The proxy ([proxy.rs]) *)

Inductive SelectResult :=
| Selected (b : Backend)
| NoHealthyBackends
| AllAtCapacity.

Section Proxy.
Context {S : Type} `{SelectionLaws S}.
(** [reqwest] and the embedded runtimes, as in [LbBackend]. *)
Variable parse_method : string -> option string.
Variable send : OutRequest -> result InResponse string.
Variable handler : string -> Request -> result Response string.

Record Proxy := {
  backends : list Backend;
  health_checker : option HealthCheckConfig;
  strategy : S;
  request_timeout : Duration;
}.

Definition health_status (p : Proxy) : list BackendHealth := LbBackend.health <$> backends p.

(** The indices from [i] on whose backend passes [f]. *)
Fixpoint indices_where (f : Backend -> bool) (i : nat) (bs : list Backend) : list nat :=
  match bs with
  | [] => []
  | b :: bs' => if f b then i :: indices_where f (Datatypes.S i) bs' else indices_where f (Datatypes.S i) bs'
  end.

(** [is_available] may half-open a breaker, so that filtering by it also
    updates the backends. *)
Definition scan (now : Instant) (bs : list Backend) : list Backend :=
  (fun b => (LbBackend.is_available now b).2) <$> bs.

Definition available_indices (now : Instant) (bs : list Backend) : list nat :=
  indices_where (fun b => (LbBackend.is_available now b).1) 0 bs.

Definition capacity_indices (now : Instant) (bs : list Backend) : list nat :=
  filter (fun i => match scan now bs !! i with
                   | Some b => has_capacity b
                   | None => false
                   end = true) (available_indices now bs).

(** [None] is the panic of indexing [backends] out of bounds. *)
Definition select_backend (now : Instant) (p : Proxy) : option SelectResult * Proxy :=
  let bs := scan now (backends p) in
  let p' s := {| backends := bs; health_checker := health_checker p; strategy := s;
                 request_timeout := request_timeout p |} in
  match available_indices now (backends p) with
  | [] => (Some NoHealthyBackends, p' (strategy p))
  | _ =>
      match capacity_indices now (backends p) with
      | [] => (Some AllAtCapacity, p' (strategy p))
      | idxs =>
          let '(r, s) := select idxs (strategy p) in
          (match r with
           | None => Some AllAtCapacity
           | Some idx => (fun b => Selected (clone b)) <$> bs !! idx
           end, p' s)
      end
  end.

Definition text_plain (status : Z) (body : string) : Response := {|
  status := status; headers := [("Content-Type", "text/plain")]; body := body |}.

(** [forward] at its three instants: selection, and start and end of the
    backend's work. The last component is the copy of the backend the request
    was accounted on, which goes out of scope when [forward] returns. *)
Definition forward (now start finish : Instant) (req : Request) (p : Proxy)
  : option Response * Proxy * list metric * option Backend :=
  match select_backend now p with
  | (None, p') => (None, p', [], None)
  | (Some NoHealthyBackends, p') =>
      (Some (text_plain 503 "No healthy backends available"), p', [], None)
  | (Some AllAtCapacity, p') =>
      (Some (text_plain 503 "All backends at connection capacity"), p', [], None)
  | (Some (Selected backend), p') =>
      let backend_id := LbBackend.id backend in
      let backend := start_request backend in
      let m1 := SetActiveConnections backend_id (active_requests (counters backend)) in
      let '(result, backend) :=
        LbBackend.forward parse_method send handler start finish (request_timeout p) req backend in
      let backend := end_request backend in
      let m2 := SetActiveConnections backend_id (active_requests (counters backend)) in
      let duration := elapsed finish now in
      match result with
      | Ok response =>
          (Some response, p', [m1; m2; record_success_metric backend_id duration],
           Some (LbBackend.record_success finish backend))
      | Err e =>
          (Some (text_plain 502 ("Backend error: " +:+ e)), p',
           [m1; m2; record_failure_metric backend_id duration],
           Some (LbBackend.record_failure finish backend))
      end
  end.

(** ** Lemmas *)

Lemma indices_where_spec f i bs j :
  j ∈ indices_where f i bs <-> exists b, (i <= j)%nat /\ bs !! (j - i)%nat = Some b /\ f b = true.
Proof.
  revert i. induction bs as [|b bs IH]; intros i; simpl.
  - split; [by intros ?%elem_of_nil|]. intros (b & _ & H1 & _). by rewrite lookup_nil in H1.
  - assert (j ∈ indices_where f (Datatypes.S i) bs <->
      exists b', (i < j)%nat /\ (b :: bs) !! (j - i)%nat = Some b' /\ f b' = true) as Hrest.
    { rewrite IH. split; intros (b' & Hle & Hl & Hf); exists b'; (split; [lia|split; [|done]]).
      - replace (j - i)%nat with (Datatypes.S (j - Datatypes.S i)) by lia. done.
      - replace (j - i)%nat with (Datatypes.S (j - Datatypes.S i)) in Hl by lia. done. }
    destruct (f b) eqn:Hb.
    + rewrite elem_of_cons, Hrest. split.
      * intros [->|(b' & ? & ?)]; [|exists b'; split; [lia|done]].
        exists b. by rewrite Nat.sub_diag.
      * intros (b' & Hle & Hl & Hf). destruct (decide (j = i)) as [->|Hne]; [by left|].
        right. exists b'. split; [lia|done].
    + rewrite Hrest. split.
      * intros (b' & ? & ?). exists b'. split; [lia|done].
      * intros (b' & Hle & Hl & Hf). exists b'. split; [|done].
        destruct (decide (j = i)) as [->|Hne]; [|lia].
        rewrite Nat.sub_diag in Hl. simpl in Hl. congruence.
Qed.

Lemma available_indices_spec now bs j :
  j ∈ available_indices now bs <->
  exists b, bs !! j = Some b /\ (LbBackend.is_available now b).1 = true.
Proof.
  unfold available_indices. rewrite indices_where_spec, Nat.sub_0_r.
  split; [intros (b & _ & ?)|intros (b & ?)]; exists b; [done|split; [lia|done]].
Qed.

Lemma has_capacity_counters b :
  has_capacity b = (active_requests (counters b) <? max_connections (counters b)).
Proof. by destruct b. Qed.

Lemma has_capacity_scan now b : has_capacity (LbBackend.is_available now b).2 = has_capacity b.
Proof.
  rewrite !has_capacity_counters. pose proof (is_available_counters now b) as Ha.
  destruct (LbBackend.is_available now b). simpl. by destruct Ha as (_ & -> & _ & -> & _).
Qed.

Definition selectable (now : Instant) (b : Backend) : bool :=
  ((LbBackend.is_available now b).1 && has_capacity b)%bool.

Lemma capacity_indices_spec now bs j :
  j ∈ capacity_indices now bs <-> exists b, bs !! j = Some b /\ selectable now b = true.
Proof.
  unfold capacity_indices, selectable.
  rewrite list_elem_of_filter, available_indices_spec. unfold scan.
  rewrite list_lookup_fmap. split.
  - intros (Hc & b & Hb & Ha). exists b. rewrite Hb in Hc. simpl in Hc.
    rewrite has_capacity_scan in Hc. by rewrite Ha, Hc.
  - intros (b & Hb & [Ha Hc]%andb_true_iff). rewrite Hb. simpl.
    rewrite has_capacity_scan. eauto.
Qed.

(** Selection on every branch, in terms of the backends. *)
Lemma select_backend_spec now p :
  let '(r, p') := select_backend now p in
  backends p' = scan now (backends p) /\ request_timeout p' = request_timeout p /\
  match r with
  | Some (Selected b) =>
      exists i b0, backends p !! i = Some b0 /\ selectable now b0 = true /\
                   b = (LbBackend.is_available now b0).2
  | Some NoHealthyBackends => Forall (fun b => (LbBackend.is_available now b).1 = false) (backends p)
  | Some AllAtCapacity =>
      (exists b, b ∈ backends p /\ (LbBackend.is_available now b).1 = true) /\
      Forall (fun b => selectable now b = false) (backends p)
  | None => False
  end.
Proof.
  unfold select_backend.
  destruct (available_indices now (backends p)) as [|a av] eqn:Hav.
  { split_and!; [done..|]. apply Forall_forall. intros b Hb.
    apply list_elem_of_lookup in Hb as [i Hi]. apply not_true_is_false. intros Ha.
    apply (not_elem_of_nil i). rewrite <- Hav. apply available_indices_spec. eauto. }
  assert (exists b, b ∈ backends p /\ (LbBackend.is_available now b).1 = true) as Hex.
  { destruct (proj1 (available_indices_spec now (backends p) a)) as (b & Hb & Ha);
      [rewrite Hav; by left|]. exists b. split; [by eapply list_elem_of_lookup_2|done]. }
  destruct (capacity_indices now (backends p)) as [|c cs] eqn:Hcap.
  { split_and!; [done..|]. apply Forall_forall. intros b Hb.
    apply list_elem_of_lookup in Hb as [i Hi]. apply not_true_is_false. intros Hs.
    apply (not_elem_of_nil i). rewrite <- Hcap. apply capacity_indices_spec. eauto. }
  destruct (select_mem (c :: cs) (strategy p)) as (i & Hi & Hin); [done|].
  destruct (select (c :: cs) (strategy p)) as [r s]. simpl in Hi. subst r. simpl.
  rewrite <- Hcap in Hin. apply capacity_indices_spec in Hin as (b0 & Hb0 & Hs).
  unfold scan. rewrite list_lookup_fmap, Hb0. simpl. split_and!; [done..|].
  exists i, b0. by rewrite clone_id.
Qed.

(** Forwarding on every branch. *)
Lemma forward_cases now start finish req p :
  let '(r, p', ms, copy) := forward now start finish req p in
  backends p' = scan now (backends p) /\ request_timeout p' = request_timeout p /\
  ((Forall (fun b => (LbBackend.is_available now b).1 = false) (backends p) /\
    r = Some (text_plain 503 "No healthy backends available") /\ ms = [] /\ copy = None) \/
   ((exists b, b ∈ backends p /\ (LbBackend.is_available now b).1 = true) /\
    Forall (fun b => selectable now b = false) (backends p) /\
    r = Some (text_plain 503 "All backends at connection capacity") /\ ms = [] /\ copy = None) \/
   (exists i b, backends p !! i = Some b /\ selectable now b = true /\ is_Some copy /\
      (r <> None) /\
      let out := LbBackend.forward parse_method send handler start finish (request_timeout p) req
                   (start_request (LbBackend.is_available now b).2) in
      r = Some match out.1 with
               | Ok resp => resp
               | Err e => text_plain 502 ("Backend error: " +:+ e)
               end /\
      ms = [SetActiveConnections (id b) (wrap_u64 (active_requests (counters b) + 1));
            SetActiveConnections (id b)
              (wrap_u64 (wrap_u64 (active_requests (counters b) + 1) - 1));
            RecordRequest (id b) (if is_ok out.1 then "success" else "failure")
              (elapsed finish now)])).
Proof.
  unfold forward. pose proof (select_backend_spec now p) as Hs.
  destruct (select_backend now p) as [[[b| |]|] p']; destruct Hs as (Hb & Ht & Hs).
  - destruct Hs as (i & b0 & Hi & Hsel & ->).
    pose proof (is_available_counters now b0) as Ha.
    destruct (LbBackend.is_available now b0) as [av b1] eqn:Eav.
    destruct Ha as (Hid & Hact & _).
    assert (forall x, id (start_request x) = id x /\
      active_requests (counters (start_request x)) = wrap_u64 (active_requests (counters x) + 1))
      as Hstart by (by intros []).
    assert (forall b2 start, let out := LbBackend.forward parse_method send handler start finish
      (request_timeout p) req b2 in
      active_requests (counters (end_request out.2)) =
        wrap_u64 (active_requests (counters b2) - 1)) as Hfwd.
    { intros [h|rt] st; simpl; [|done]. unfold http_forward.
      destruct (send _); simpl; [|done]. by destruct (in_body _). }
    specialize (Hfwd (start_request b1) start). simpl snd in *.
    destruct (LbBackend.forward _ _ _ _ _ _ _ _) as [res b2] eqn:Ef. simpl in Hfwd.
    destruct (Hstart b1) as [_ Hs1].
    destruct res; rewrite Hid, Hs1, Hact, Hfwd, ?Hs1, ?Hact; (split_and!; [done..|]);
      right; right; exists i, b0; rewrite Eav; simpl; rewrite Ef; eauto 10.
  - split_and!; [done..|]. by left.
  - split_and!; [done..|]. right. left. naive_solver.
  - done.
Qed.

End Proxy.

Arguments Proxy : clear implicits.

(** ** Round robin: the distribution of a whole number of rounds *)

(** One round over [n] backends when the candidates are [l]. *)
Definition share (n : nat) (l : list nat) : list (option nat) :=
  (fun x => l !! (x mod length l)%nat) <$> seq 0 n.

Definition rr_at (n : nat) (l : list nat) (x : nat) : option nat :=
  l !! ((x mod n) mod length l)%nat.

Lemma rr_select_at n l c :
  (0 < n)%nat -> l <> [] -> Z.of_nat c <= u64_max ->
  rr_select l {| current := Z.of_nat c; total := Z.of_nat n |} =
  (rr_at n l c, {| current := wrap_u64 (Z.of_nat c + 1); total := Z.of_nat n |}).
Proof.
  intros Hn Hl Hc. destruct l as [|a l]; [done|]. unfold rr_select, next_index. simpl current.
  simpl total. destruct (Z.eqb_spec (Z.of_nat n) 0); [lia|]. cbv zeta. f_equal.
  unfold rr_at. f_equal. by rewrite <- Nat2Z.inj_mod, <- Nat2Z.inj_mod, Nat2Z.id.
Qed.

Lemma selections_at n l c k :
  (0 < n)%nat -> l <> [] -> Z.of_nat (c + k) <= u64_max + 1 ->
  selections k l {| current := Z.of_nat c; total := Z.of_nat n |} = rr_at n l <$> seq c k.
Proof.
  intros Hn Hl. revert c. induction k as [|k IH]; intros c Hc; [done|].
  change (selections (S k) l ?s) with (let '(r, s') := rr_select l s in r :: selections k l s').
  rewrite rr_select_at by (done || lia). csimpl. f_equal. destruct k as [|k]; [done|].
  rewrite wrap_u64_small by (unfold is_u64, u64_max in *; lia).
  replace (Z.of_nat c + 1) with (Z.of_nat (S c)) by lia. apply IH. lia.
Qed.

Lemma rr_at_period n l x : (0 < n)%nat -> rr_at n l (x + n) = rr_at n l x.
Proof.
  intros. unfold rr_at. replace (x + n)%nat with (x + 1 * n)%nat by lia.
  by rewrite Nat.Div0.mod_add.
Qed.

(** A round may start anywhere. *)
Lemma round_share n l c : (0 < n)%nat -> rr_at n l <$> seq c n ≡ₚ share n l.
Proof.
  intros Hn. induction c as [|c IH].
  - unfold share. apply Permutation_refl'. apply list_fmap_ext. intros i x Hx.
    apply lookup_seq in Hx as [-> Hi]. unfold rr_at. simpl. by rewrite (Nat.mod_small i n).
  - rewrite <- IH. destruct n as [|n]; [lia|].
    replace (seq (S c) (S n)) with (seq (S c) n ++ [(c + S n)%nat])
      by (rewrite seq_S; do 2 f_equal; lia).
    rewrite fmap_app. csimpl. rewrite rr_at_period by lia.
    by rewrite Permutation_app_comm.
Qed.

Lemma rounds_share m n l c :
  (0 < n)%nat -> rr_at n l <$> seq c (m * n) ≡ₚ mjoin (replicate m (share n l)).
Proof.
  intros Hn. revert c. induction m as [|m IH]; intros c; [done|].
  simpl. rewrite seq_app, fmap_app. f_equiv; [by apply round_share|]. apply IH.
Qed.

(** When the candidates divide the round they all get the same number. *)
Lemma share_exact q l : l <> [] -> share (q * length l) l = Some <$> mjoin (replicate q l).
Proof.
  intros Hl. unfold share. assert (0 < length l)%nat as Hpos by (destruct l; simpl; [done|lia]).
  apply list_eq. intros i. rewrite !list_lookup_fmap.
  destruct (decide (i < q * length l)%nat) as [Hi|Hi].
  - rewrite lookup_seq_lt by done. simpl. revert i Hi. induction q as [|q IH]; intros i Hi; [lia|].
    simpl mjoin. destruct (decide (i < length l)%nat).
    + rewrite lookup_app_l, Nat.mod_small by done.
      destruct (lookup_lt_is_Some_2 l i) as [x Hx]; [done|]. by rewrite Hx.
    + rewrite lookup_app_r by lia. rewrite <- IH by (simpl in Hi; lia). f_equal. f_equal.
      replace i with ((i - length l) + 1 * length l)%nat at 1 by lia.
      by rewrite Nat.Div0.mod_add.
  - rewrite lookup_seq_ge by lia. rewrite lookup_ge_None_2; [done|].
    clear -Hi. assert (length (mjoin (replicate q l)) = q * length l)%nat as ->; [|lia].
    clear. induction q as [|q IH]; simpl; [done|]. rewrite length_app. by rewrite IH.
Qed.

Lemma join_replicate_fmap m q l :
  Some <$> mjoin (replicate (m * q) l) =@{list (option nat)}
  mjoin (replicate m (Some <$> mjoin (replicate q l))).
Proof.
  induction m as [|m IH]; [done|].
  change (replicate (S m) ?x) with (x :: replicate m x).
  change (S m * q)%nat with (q + m * q)%nat.
  rewrite replicate_add, join_app, fmap_app, IH. done.
Qed.

(** ** Isolation of the shared backends *)

(** A backend no request has been accounted on. *)
Definition pristine (b : Backend) : Prop :=
  active_requests (counters b) = 0 /\ total_requests (counters b) = 0 /\
  last_latency_ms (counters b) = 0 /\ 1 <= max_connections (counters b) /\
  forall cb, circuit_breaker (counters b) = Some cb -> exists c, cb = LbBreaker.new c.

Lemma pristine_available now b :
  pristine b -> LbBackend.is_available now b = (LbBackend.is_healthy b, b).
Proof.
  intros (_ & _ & _ & _ & Hcb).
  destruct b as [[a c ls]|[h c]]; simpl in *;
    unfold http_is_available, runtime_is_available, c_is_available, LbBackend.is_healthy; simpl;
    destruct c as [w mx [|] fc sc tr ar lc ll [cb|]]; simpl in *; try done;
    by destruct (Hcb cb eq_refl) as [cfg ->].
Qed.

Lemma pristine_capacity b : pristine b -> has_capacity b = true.
Proof. intros (Ha & _ & _ & Hm & _). rewrite has_capacity_counters, Ha. apply Z.ltb_lt. lia. Qed.

Lemma pristine_http_new a : pristine (Http (http_new a)).
Proof. by repeat split. Qed.

Lemma pristine_marked send handler_check resolve connect now hc b :
  pristine b -> pristine (marked send handler_check resolve connect now hc b).
Proof.
  intros (H1 & H2 & H3 & H4 & H5). unfold marked.
  destruct (verdict _ _ _ _ hc b); unfold pristine;
    rewrite ?counters_mark_healthy, ?counters_mark_unhealthy; done.
Qed.

(** What can happen to a proxy: a request is forwarded, or a health cycle
    runs. *)
Inductive proxy_op :=
| OpForward (now start finish : Instant) (req : Request)
| OpHealthCycle (hc : HealthCheck) (clock : nat -> Instant * Instant) (now : Instant).

Section Runs.
Context {S : Type} `{SelectionLaws S}.
Variable parse_method : string -> option string.
Variable send : OutRequest -> result InResponse string.
Variable handler : string -> Request -> result Response string.
Variable handler_check : string -> bool.
Variable resolve : string -> result (list string) string.
Variable connect : string -> Duration -> bool.

Definition proxy_step (p : Proxy S) (o : proxy_op) : Proxy S :=
  match o with
  | OpForward now start finish req => (forward parse_method send handler now start finish req p).1.1.2
  | OpHealthCycle hc clock now =>
      {| backends := (health_cycle send handler_check resolve connect hc clock now (backends p)).1.1;
         health_checker := health_checker p; strategy := strategy p;
         request_timeout := request_timeout p |}
  end.

Definition proxy_run (p : Proxy S) (ops : list proxy_op) : Proxy S := fold_left proxy_step ops p.

Lemma proxy_step_pristine p o :
  Forall pristine (backends p) -> Forall pristine (backends (proxy_step p o)).
Proof.
  intros Hp. destruct o as [now start finish req|hc clock now]; simpl.
  - pose proof (forward_cases parse_method send handler now start finish req p) as Hf.
    destruct (forward _ _ _ _ _ _ _ p) as [[[r p'] ms] cp]. destruct Hf as (Hb & _).
    simpl. rewrite Hb. unfold scan. apply Forall_fmap. eapply Forall_impl; [exact Hp|].
    intros b Hpr. simpl. by rewrite pristine_available.
  - pose proof (health_cycle_spec send handler_check resolve connect hc clock now (backends p)) as Hh.
    destruct (health_cycle _ _ _ _ _ _ _ _) as [[bs l] ms]. destruct Hh as [-> _].
    apply Forall_fmap. eapply Forall_impl; [exact Hp|]. intros b. apply pristine_marked.
Qed.

Lemma proxy_run_pristine p ops :
  Forall pristine (backends p) -> Forall pristine (backends (proxy_run p ops)).
Proof.
  unfold proxy_run. revert p. induction ops as [|o ops IH]; intros p Hp; simpl; [done|].
  by apply IH, proxy_step_pristine.
Qed.
End Runs.

(** ** Properties *)

(** Round robin distributes whole rounds exactly: from any position, [m]
    rounds over [n] backends serve every candidate [m] times its share of one
    round. If the number of candidates divides [n], in particular when all
    backends are candidates, every candidate is served equally often. If it
    does not, the low candidates are favoured for ever: with three backends and
    two candidates the first is served twice as often as the second. *)
Lemma round_robin_distribution (m n : nat) (l : list nat) (c : nat) :
  (0 < n)%nat -> l <> [] -> Z.of_nat (c + m * n) <= u64_max + 1 ->
  let served := selections (m * n) l {| current := Z.of_nat c; total := Z.of_nat n |} in
  served ≡ₚ mjoin (replicate m (share n l)) /\
  (forall q, n = (q * length l)%nat -> served ≡ₚ Some <$> mjoin (replicate (m * q) l)) /\
  (forall a b, n = 3%nat -> l = [a; b] ->
     served ≡ₚ mjoin (replicate m [Some a; Some b; Some a])).
Proof.
  intros Hn Hl Hc served. subst served. rewrite selections_at by done.
  pose proof (rounds_share m n l c Hn) as Hr. split_and!; [done| |].
  - intros q Hq. rewrite Hr, Hq, share_exact by done.
    by rewrite <- join_replicate_fmap.
  - intros a b -> ->. exact Hr.
Qed.

Section ForwardProperty.
Context {S : Type} `{SelectionLaws S}.
Variable parse_method : string -> option string.
Variable send : OutRequest -> result InResponse string.
Variable handler : string -> Request -> result Response string.

(** Forwarding, over any selection that satisfies the interface: it always
    produces a response and never indexes out of bounds. Without a backend that
    is available and below capacity it answers 503 and records nothing;
    otherwise it forwards to such a backend and answers the backend's response,
    or 502 on a transport error, and the metrics it records raise and lower the
    connection gauge and count the request once. The shared backends keep
    their identity, health and all their request counters. *)
Lemma forward_total (now start finish : Instant) (req : Request) (p : Proxy S) :
  let '(r, p', ms, copy) := forward parse_method send handler now start finish req p in
  (exists resp, r = Some resp /\
     ((Forall (fun b => selectable now b = false) (backends p) /\
       status resp = 503 /\ ms = [] /\ copy = None) \/
      (exists i b, backends p !! i = Some b /\ selectable now b = true /\ copy <> None /\
         let out := LbBackend.forward parse_method send handler start finish (request_timeout p)
                      req (start_request (LbBackend.is_available now b).2) in
         (forall x, out.1 = Ok x -> resp = x) /\
         (forall e, out.1 = Err e -> status resp = 502) /\
         exists n1 n2, ms = [SetActiveConnections (id b) n1; SetActiveConnections (id b) n2;
           RecordRequest (id b) (if is_ok out.1 then "success" else "failure")
             (elapsed finish now)]))) /\
  length (backends p') = length (backends p) /\
  forall i b, backends p !! i = Some b ->
    exists b', backends p' !! i = Some b' /\ id b' = id b /\
      healthy (counters b') = healthy (counters b) /\
      active_requests (counters b') = active_requests (counters b) /\
      total_requests (counters b') = total_requests (counters b).
Proof.
  pose proof (forward_cases parse_method send handler now start finish req p) as Hf.
  destruct (forward _ _ _ _ _ _ _ p) as [[[r p'] ms] cp]. destruct Hf as (Hb & _ & Hf).
  split_and!.
  - destruct Hf as [(Hall & -> & -> & ->)|[(_ & Hall & -> & -> & ->)|
      (i & b & Hi & Hs & Hcp & _ & -> & ->)]]; (eexists; split; [done|]).
    + left. split_and!; [|done..]. eapply Forall_impl; [exact Hall|].
      intros b Hav. cbv beta in Hav. unfold selectable. by rewrite Hav.
    + by left.
    + right. exists i, b. cbv zeta. split_and!; [done|done|by destruct Hcp as [? ->]| | |].
      * intros x ->. done.
      * intros e ->. done.
      * by do 2 eexists.
  - rewrite Hb. apply length_fmap.
  - intros i b Hi. rewrite Hb. unfold scan. rewrite list_lookup_fmap, Hi. simpl.
    eexists. split; [done|]. pose proof (is_available_counters now b) as Ha.
    destruct (LbBackend.is_available now b). simpl. naive_solver.
Qed.

Variable handler_check : string -> bool.
Variable resolve : string -> result (list string) string.
Variable connect : string -> Duration -> bool.

(** Requests are accounted on a clone of the backend that [forward] drops,
    so the shared backends never see them: starting from backends as the
    builders create them, after any sequence of forwarded requests and health
    cycles every shared backend still reports no active requests, no total
    requests and no latency, its circuit breaker is still the initial one, a
    backend is available exactly when it is marked healthy, and neither the
    capacity answer nor a breaker ever turns a request away. *)
Lemma accounting_is_lost (p : Proxy S) (ops : list proxy_op)
    (now start finish : Instant) (req : Request) :
  Forall pristine (backends p) ->
  let p' := proxy_run parse_method send handler handler_check resolve connect p ops in
  Forall (fun h => bh_active_requests h = 0 /\ bh_total_requests h = 0 /\ latency_ms h = None)
    (health_status p') /\
  Forall (fun b => (LbBackend.is_available now b).1 = healthy (counters b) /\
                   forall cb, circuit_breaker (counters b) = Some cb ->
                     LbBreaker.state_from_u8 (LbBreaker.state_u8 cb) = LbBreaker.Closed /\
                     LbBreaker.failure_count cb = 0) (backends p') /\
  ((forward parse_method send handler now start finish req p').2 = None <->
   Forall (fun b => healthy (counters b) = false) (backends p')).
Proof.
  intros Hp p'. assert (Forall pristine (backends p')) as Hpr by (by apply proxy_run_pristine).
  assert (forall b, pristine b -> (LbBackend.is_available now b).1 = healthy (counters b)) as Hav
    by (intros b Hb; rewrite pristine_available by done; apply is_healthy_counters).
  split_and!.
  - apply Forall_fmap. eapply Forall_impl; [exact Hpr|]. intros b (H1 & H2 & H3 & _).
    destruct b; simpl in *; by rewrite H1, H2, H3.
  - eapply Forall_impl; [exact Hpr|]. intros b Hb. split; [by apply Hav|].
    destruct Hb as (_ & _ & _ & _ & Hcb). intros cb Hc. by destruct (Hcb cb Hc) as [c ->].
  - pose proof (forward_cases parse_method send handler now start finish req p') as Hf.
    destruct (forward _ _ _ _ _ _ _ p') as [[[r q] ms] cp]. destruct Hf as (_ & _ & Hf).
    assert (forall b, pristine b -> selectable now b = healthy (counters b)) as Hsel.
    { intros b Hb. unfold selectable. rewrite Hav, pristine_capacity by done. apply andb_true_r. }
    rewrite Forall_forall in Hpr. simpl.
    destruct Hf as [(Hall & _ & _ & ->)|[((b & Hb & Ha) & Hall & _)|(i & b & Hi & Hs & Hcp & _)]].
    + split; [intros _|done]. rewrite Forall_forall in Hall |- *.
      intros b Hb. rewrite <- Hav by auto. by apply Hall.
    + rewrite Forall_forall in Hall. specialize (Hall b Hb).
      rewrite Hsel, <- Hav in Hall by auto. congruence.
    + apply list_elem_of_lookup_2 in Hi. split; [intros ->; by destruct Hcp|].
      intros HF. rewrite Forall_forall in HF. rewrite Hsel in Hs by auto.
      rewrite HF in Hs by done. done.
Qed.
End ForwardProperty.

(** *** Concrete instances *)

