(* ===== verification/LbServer.v ===== *)
(** LbServer: how a load balancer is built and served, of
    [src/src/runtime/lb/proxy.rs] (builder), [server.rs] and [mod.rs].

    A builder method that sets one field is a record update; the methods the
    program itself calls in a loop, [backend] of either builder, are
    definitions. *)

From S2P Require Import Prelude LbBreaker LbBackend LbHealth LbProxy.

(** ** Builders ([proxy.rs], [server.rs], [mod.rs]) *)

Record ProxyBuilder := {
  pb_backends : list Backend;
  pb_strategy : LoadBalanceStrategy;
  pb_health_check : option HealthCheckConfig;
  pb_request_timeout : Duration;
  pb_max_connections_per_backend : Z;
  pb_pool_idle_timeout : Duration;
  pb_tcp_keepalive : Duration;
  pb_http2_only : bool;
}.

Definition proxy_builder_new : ProxyBuilder := {|
  pb_backends := [];
  pb_strategy := StrategyRoundRobin;
  pb_health_check := Some health_config_default;
  pb_request_timeout := from_secs 30;
  pb_max_connections_per_backend := 100;
  pb_pool_idle_timeout := from_secs 90;
  pb_tcp_keepalive := from_secs 60;
  pb_http2_only := false |}.

Definition pb_backend (b : Backend) (pb : ProxyBuilder) : ProxyBuilder := {|
  pb_backends := pb_backends pb ++ [b]; pb_strategy := pb_strategy pb;
  pb_health_check := pb_health_check pb; pb_request_timeout := pb_request_timeout pb;
  pb_max_connections_per_backend := pb_max_connections_per_backend pb;
  pb_pool_idle_timeout := pb_pool_idle_timeout pb; pb_tcp_keepalive := pb_tcp_keepalive pb;
  pb_http2_only := pb_http2_only pb |}.

(** What the client builder of [reqwest] is configured with. *)
Record ClientConfig := {
  client_timeout : Duration;
  pool_max_idle_per_host : Z;
  pool_idle_timeout : Duration;
  tcp_keepalive : Duration;
  http2_prior_knowledge : bool;
}.

Record LoadBalancerBuilder (Addr : Type) := {
  addr : Addr;
  lb_backends : list string;
  lb_strategy : LoadBalanceStrategy;
  lb_health_check : option HealthCheckConfig;
  lb_request_timeout : Duration;
  lb_max_connections_per_backend : Z;
  lb_pool_idle_timeout : Duration;
  lb_tcp_keepalive : Duration;
  lb_http2_only : bool;
}.
Arguments addr {Addr}. Arguments lb_backends {Addr}. Arguments lb_strategy {Addr}.
Arguments lb_health_check {Addr}. Arguments lb_request_timeout {Addr}.
Arguments lb_max_connections_per_backend {Addr}. Arguments lb_pool_idle_timeout {Addr}.
Arguments lb_tcp_keepalive {Addr}. Arguments lb_http2_only {Addr}.

(** The [lb] section of the manifest ([manifest/types.rs]). *)
Record LbConfig := {
  enabled : bool;
  health_check_type : string;
  health_check_interval_ms : Z;
  health_check_timeout_ms : Z;
  health_check_path : string;
  cfg_unhealthy_threshold : Z;
  cfg_healthy_threshold : Z;
  request_timeout_secs : Z;
  cfg_max_connections_per_backend : Z;
  cfg_pool_idle_timeout_secs : Z;
  cfg_tcp_keepalive_secs : Z;
  cfg_http2_only : bool;
}.

Record LoadBalancerConfig (Addr : Type) := {
  listen_addr : Addr;
  c_backends : list string;
  c_health_check : HealthCheckConfig;
  c_request_timeout : Duration;
  c_max_connections_per_backend : Z;
  c_pool_idle_timeout_secs : Z;
  c_tcp_keepalive_secs : Z;
  c_http2_only : bool;
}.
Arguments listen_addr {Addr}. Arguments c_backends {Addr}. Arguments c_health_check {Addr}.
Arguments c_request_timeout {Addr}. Arguments c_max_connections_per_backend {Addr}.
Arguments c_pool_idle_timeout_secs {Addr}. Arguments c_tcp_keepalive_secs {Addr}.
Arguments c_http2_only {Addr}.

Record LoadBalancer (Addr : Type) := {
  proxy : Proxy RoundRobin;
  lb_addr : Addr;
  http2_only : bool;
}.
Arguments proxy {Addr}. Arguments lb_addr {Addr}. Arguments http2_only {Addr}.

Section Builders.
(** [std::net::SocketAddr], with the parsed [DEFAULT_LISTEN_ADDR]. *)
Context {Addr : Type}.
Variable default_listen_addr : Addr.
(** Whether [reqwest::ClientBuilder::build] succeeds on a configuration. *)
Variable client_build : ClientConfig -> bool.

Definition proxy_build (pb : ProxyBuilder) : result (Proxy RoundRobin) string :=
  match pb_backends pb with
  | [] => Err "At least one backend must be configured"
  | _ =>
      let client := {|
        client_timeout := pb_request_timeout pb;
        pool_max_idle_per_host := pb_max_connections_per_backend pb;
        pool_idle_timeout := pb_pool_idle_timeout pb;
        tcp_keepalive := pb_tcp_keepalive pb;
        http2_prior_knowledge := pb_http2_only pb |} in
      if negb (client_build client) then Err "Failed to create HTTP client"
      else Ok {|
        backends := pb_backends pb;
        health_checker := pb_health_check pb;
        strategy := into_selector (pb_strategy pb) (Z.of_nat (length (pb_backends pb)));
        request_timeout := pb_request_timeout pb |}
  end.

Definition lb_builder_new : LoadBalancerBuilder Addr := {|
  addr := default_listen_addr;
  lb_backends := [];
  lb_strategy := StrategyRoundRobin;
  lb_health_check := Some health_config_default;
  lb_request_timeout := from_secs 30;
  lb_max_connections_per_backend := 100;
  lb_pool_idle_timeout := from_secs 90;
  lb_tcp_keepalive := from_secs 60;
  lb_http2_only := false |}.

Definition lb_backend (a : string) (b : LoadBalancerBuilder Addr) : LoadBalancerBuilder Addr := {|
  addr := addr b; lb_backends := lb_backends b ++ [a]; lb_strategy := lb_strategy b;
  lb_health_check := lb_health_check b; lb_request_timeout := lb_request_timeout b;
  lb_max_connections_per_backend := lb_max_connections_per_backend b;
  lb_pool_idle_timeout := lb_pool_idle_timeout b; lb_tcp_keepalive := lb_tcp_keepalive b;
  lb_http2_only := lb_http2_only b |}.

Definition lb_build (b : LoadBalancerBuilder Addr) : result (LoadBalancer Addr) string :=
  match lb_backends b with
  | [] => Err "At least one backend must be configured"
  | _ =>
      let backends := (fun a => Http (http_new a)) <$> lb_backends b in
      let proxy_builder := {|
        pb_backends := pb_backends proxy_builder_new;
        pb_strategy := lb_strategy b;
        pb_health_check := lb_health_check b;
        pb_request_timeout := lb_request_timeout b;
        pb_max_connections_per_backend := lb_max_connections_per_backend b;
        pb_pool_idle_timeout := lb_pool_idle_timeout b;
        pb_tcp_keepalive := lb_tcp_keepalive b;
        pb_http2_only := lb_http2_only b |} in
      let proxy_builder := fold_left (fun pb b => pb_backend b pb) backends proxy_builder in
      match proxy_build proxy_builder with
      | Err _ => Err "Failed to build proxy"
      | Ok p => Ok {| proxy := p; lb_addr := addr b; http2_only := lb_http2_only b |}
      end
  end.

Definition lb_config_default : LoadBalancerConfig Addr := {|
  listen_addr := default_listen_addr;
  c_backends := [];
  c_health_check := health_config_default;
  c_request_timeout := from_secs 30;
  c_max_connections_per_backend := 100;
  c_pool_idle_timeout_secs := 90;
  c_tcp_keepalive_secs := 60;
  c_http2_only := false |}.

Definition from_manifest (lb : LbConfig) (listen_addr : Addr) (backends : list string)
  : LoadBalancerConfig Addr :=
  let check_type :=
    if String.eqb (Str.to_lowercase (health_check_type lb)) "tcp" then TcpCheck
    else HttpCheck (health_check_path lb) in
  {| listen_addr := listen_addr;
     c_backends := backends;
     c_health_check := {|
       interval := from_millis (health_check_interval_ms lb);
       check_timeout := from_millis (health_check_timeout_ms lb);
       check_type := check_type;
       unhealthy_threshold := cfg_unhealthy_threshold lb;
       healthy_threshold := cfg_healthy_threshold lb |};
     c_request_timeout := from_secs (request_timeout_secs lb);
     c_max_connections_per_backend := cfg_max_connections_per_backend lb;
     c_pool_idle_timeout_secs := cfg_pool_idle_timeout_secs lb;
     c_tcp_keepalive_secs := cfg_tcp_keepalive_secs lb;
     c_http2_only := cfg_http2_only lb |}.

Definition into_builder (c : LoadBalancerConfig Addr) : LoadBalancerBuilder Addr :=
  fold_left (fun b a => lb_backend a b) (c_backends c) {|
    addr := listen_addr c;
    lb_backends := lb_backends lb_builder_new;
    lb_strategy := lb_strategy lb_builder_new;
    lb_health_check := Some (c_health_check c);
    lb_request_timeout := c_request_timeout c;
    lb_max_connections_per_backend := c_max_connections_per_backend c;
    lb_pool_idle_timeout := from_secs (c_pool_idle_timeout_secs c);
    lb_tcp_keepalive := from_secs (c_tcp_keepalive_secs c);
    lb_http2_only := c_http2_only c |}.

Lemma pb_backends_fold bs pb :
  fold_left (fun pb b => pb_backend b pb) bs pb = {|
    pb_backends := pb_backends pb ++ bs; pb_strategy := pb_strategy pb;
    pb_health_check := pb_health_check pb; pb_request_timeout := pb_request_timeout pb;
    pb_max_connections_per_backend := pb_max_connections_per_backend pb;
    pb_pool_idle_timeout := pb_pool_idle_timeout pb; pb_tcp_keepalive := pb_tcp_keepalive pb;
    pb_http2_only := pb_http2_only pb |}.
Proof.
  revert pb. induction bs as [|b bs IH]; intros pb; simpl.
  - rewrite app_nil_r. by destruct pb.
  - rewrite IH. simpl. by rewrite <- app_assoc.
Qed.

Lemma lb_backends_fold l b :
  fold_left (fun b a => lb_backend a b) l b = {|
    addr := addr b; lb_backends := lb_backends b ++ l; lb_strategy := lb_strategy b;
    lb_health_check := lb_health_check b; lb_request_timeout := lb_request_timeout b;
    lb_max_connections_per_backend := lb_max_connections_per_backend b;
    lb_pool_idle_timeout := lb_pool_idle_timeout b; lb_tcp_keepalive := lb_tcp_keepalive b;
    lb_http2_only := lb_http2_only b |}.
Proof.
  revert b. induction l as [|a l IH]; intros b; simpl.
  - rewrite app_nil_r. by destruct b.
  - rewrite IH. simpl. by rewrite <- app_assoc.
Qed.

End Builders.

(** ** The HTTP front end ([server.rs]) *)

(** A request as hyper delivers it: a header value may not be a string, and
    reading the body may fail. *)
Record HyperRequest := {
  h_method : string;
  h_path_and_query : option string;
  h_headers : list (string * option string);
  h_body : result string string;
}.

Section Server.
Context {S : Type} `{SelectionLaws S}.
Variable parse_method : string -> option string.
Variable send : OutRequest -> result InResponse string.
Variable handler : string -> Request -> result Response string.
(** Whether hyper's response builder accepts a status and headers;
    otherwise the [expect] panics ([None]). *)
Variable response_builds : Z -> list (string * string) -> bool.

Definition from_hyper (req : HyperRequest) (body : string) : Request := {|
  method := h_method req;
  path := default "/" (h_path_and_query req);
  req_headers := (fun h => (h.1, default EmptyString h.2)) <$> h_headers req;
  req_body := body |}.

Definition handle_request (now start finish : Instant) (req : HyperRequest) (p : Proxy S)
  : option Response * Proxy S :=
  match h_body req with
  | Err e =>
      (Some {| status := 400; headers := []; body := "Failed to read body: " +:+ e |}, p)
  | Ok bytes =>
      let '(r, p', _, _) := forward parse_method send handler now start finish (from_hyper req bytes) p in
      (match r with
       | Some response =>
           if response_builds (status response) (headers response) then Some response else None
       | None => None
       end, p')
  end.
End Server.

(** ** Properties *)

(** From the manifest to a running balancer: with at least one backend the
    load balancer is built, its backends are the configured addresses in
    order, fresh, and the round robin goes over all of them; intervals and
    timeouts carry their units, and the check type is TCP exactly when the
    manifest says "tcp" in any letter case. The configured maximum of
    connections does not reach the backends: each is capped at 100. *)
Lemma from_manifest_builds {Addr} (default_addr listen : Addr) (client_build : ClientConfig -> bool)
    (lb : LbConfig) (addrs : list string) :
  (forall c, client_build c = true) ->
  let built := lb_build client_build (into_builder default_addr (from_manifest lb listen addrs)) in
  (addrs = [] -> built = Err "At least one backend must be configured") /\
  (addrs <> [] -> exists b, built = Ok b /\ lb_addr b = listen /\
     id <$> backends (proxy b) = addrs /\ Forall pristine (backends (proxy b)) /\
     Forall (fun x => max_connections (counters x) = DEFAULT_MAX_CONNECTIONS) (backends (proxy b)) /\
     strategy (proxy b) = rr_new (Z.of_nat (length addrs)) /\
     request_timeout (proxy b) = from_secs (request_timeout_secs lb) /\
     exists hc, health_checker (proxy b) = Some hc /\
       interval hc = from_millis (health_check_interval_ms lb) /\
       check_timeout hc = from_millis (health_check_timeout_ms lb) /\
       (check_type hc = TcpCheck <-> Str.to_lowercase (health_check_type lb) = "tcp")).
Proof.
  intros Hc built. subst built. unfold into_builder. rewrite lb_backends_fold.
  unfold lb_build, from_manifest. cbn [lb_backends lb_builder_new c_backends app]. split.
  - by intros ->.
  - intros Hne. destruct addrs as [|a addrs]; [done|]. rewrite pb_backends_fold.
    unfold proxy_build. csimpl. rewrite Hc. csimpl.
    eexists. split_and!; [done|done|..]; csimpl.
    + f_equal. rewrite <- list_fmap_compose. apply list_fmap_id.
    + constructor; [apply pristine_http_new|]. apply Forall_fmap, Forall_forall.
      intros x _. apply pristine_http_new.
    + constructor; [done|]. apply Forall_fmap, Forall_forall. by intros x _.
    + by rewrite length_fmap.
    + done.
    + eexists. split_and!; [done..|]. csimpl.
      destruct (String.eqb_spec (Str.to_lowercase (health_check_type lb)) "tcp"); done.
Qed.
