(* ===== verification/ModulePath.v ===== *)
(** ModulePath: platform and tenant modules, of
    [src/src/runtime/module_path.rs]. *)

From S2P Require Import Prelude StdPath PathSecurity.

(** ** Data and operations *)

Inductive ModulePath :=
| Platform (name : string)
| Tenant (tenant_id name : string).

#[export] Instance ModulePath_eq_dec : EqDecision ModulePath.
Proof. solve_decision. Defined.

Definition from_url_segment (segment : string) : ModulePath :=
  match Str.split_once Str.SLASH segment with
  | Some (first, rest) =>
      if (negb (Str.contains_char Str.SLASH rest) && negb (Str.is_empty first)
          && negb (Str.is_empty rest))%bool
      then Tenant first rest
      else Platform segment
  | None => Platform segment
  end.

Definition cache_key (m : ModulePath) : string :=
  match m with
  | Platform name => name
  | Tenant tenant_id name => "tenant:" +:+ tenant_id +:+ "/" +:+ name
  end.

Definition module_name (m : ModulePath) : string :=
  match m with Platform name | Tenant _ name => name end.

Definition tenant_id (m : ModulePath) : option string :=
  match m with Platform _ => None | Tenant t _ => Some t end.

Definition is_tenant (m : ModulePath) : bool :=
  match m with Platform _ => false | Tenant _ _ => true end.

(** [dir.join(s)] on a string *)
Definition join_str (dir : Path) (s : string) : Path := StdPath.join dir (components s).

Definition wasm_path (modules_dir : Path) (user_modules_dir : option Path) (m : ModulePath)
  : option Path :=
  match m with
  | Platform name => Some (join_str modules_dir (name +:+ ".wasm"))
  | Tenant tenant_id name =>
      (fun dir => join_str (join_str dir tenant_id) (name +:+ ".wasm")) <$> user_modules_dir
  end.

Definition openapi_path (modules_dir : Path) (user_modules_dir : option Path) (m : ModulePath)
  : option Path :=
  match m with
  | Platform name => Some (join_str modules_dir (name +:+ ".openapi.json"))
  | Tenant tenant_id name =>
      (fun dir => join_str (join_str dir tenant_id) (name +:+ ".openapi.json")) <$> user_modules_dir
  end.

Definition handler_name (m : ModulePath) : string :=
  match m with
  | Platform name => name
  | Tenant tenant_id name => tenant_id +:+ "/" +:+ name
  end.

(** [Display] *)
Definition to_string (m : ModulePath) : string :=
  match m with
  | Platform name => name
  | Tenant tenant_id name => tenant_id +:+ "/" +:+ name
  end.

(** ** Sanitised module paths *)

(** The checks [get_or_load_module_path] makes on the parts. *)
Definition sanitized (m : ModulePath) : bool :=
  (is_ok (sanitize_module_name (module_name m)) &&
   match tenant_id m with Some t => is_ok (sanitize_module_name t) | None => true end)%bool.

Lemma sanitize_module_name_Ok name s :
  sanitize_module_name name = Ok s ->
  s = name /\ plain name /\ Str.contains_char Str.NUL name = false /\
  Str.contains_char Str.BACKSLASH name = false.
Proof.
  unfold sanitize_module_name. destruct (Str.is_empty name) eqn:E1; [done|].
  destruct (Str.contains_char Str.NUL name) eqn:E2; [done|].
  destruct (Str.contains_char Str.SLASH name) eqn:E3; [done|].
  destruct (Str.contains_char Str.BACKSLASH name) eqn:E4; [done|].
  simpl. destruct (String.eqb_spec name "."); [done|]. destruct (String.eqb_spec name ".."); [done|].
  simpl. destruct (_ <? _); [done|]. destruct (Str.has_control _); [done|]. intros [= ->].
  split_and!; [done| |done|done]. unfold plain. split_and!; try done. by intros ->.
Qed.

Lemma sanitized_plain m :
  sanitized m = true -> plain (module_name m) /\ forall t, tenant_id m = Some t -> plain t.
Proof.
  unfold sanitized. intros [Hn Ht]%andb_true_iff. split.
  - destruct (sanitize_module_name (module_name m)) eqn:E; [|done].
    by apply sanitize_module_name_Ok in E as (_ & ? & _).
  - intros t Hs. rewrite Hs in Ht. destruct (sanitize_module_name t) eqn:E; [|done].
    by apply sanitize_module_name_Ok in E as (_ & ? & _).
Qed.

(** A plain name stays one component with an extension. *)
Lemma plain_ext s ext :
  plain s -> Str.contains_char Str.SLASH ext = false -> (2 <= String.length ext)%nat ->
  plain (s +:+ ext).
Proof.
  intros (H1 & _ & _ & H4) He Hl.
  assert (3 <= String.length (s +:+ ext))%nat as Hlen
    by (rewrite Str.length_app; destruct s; [done|simpl; lia]).
  unfold plain. split_and!.
  - intros E. by rewrite E in Hlen; simpl in Hlen; lia.
  - intros E. by rewrite E in Hlen; simpl in Hlen; lia.
  - intros E. by rewrite E in Hlen; simpl in Hlen; lia.
  - by rewrite Str.contains_char_app, H4, He.
Qed.

Lemma join_str_plain dir s : plain s -> join_str dir s = dir ++ [Normal s].
Proof. intros Hs. unfold join_str. rewrite components_plain by done. apply join_normal. Qed.

Lemma wasm_path_sanitized modules_dir user_dir m :
  sanitized m = true ->
  wasm_path modules_dir user_dir m =
  match m with
  | Platform name => Some (modules_dir ++ [Normal (name +:+ ".wasm")])
  | Tenant t name => (fun d => d ++ [Normal t; Normal (name +:+ ".wasm")]) <$> user_dir
  end.
Proof.
  intros Hs. destruct (sanitized_plain m Hs) as [Hn Ht].
  destruct m as [name|t name]; simpl in *.
  - by rewrite join_str_plain by (by apply plain_ext; [done|done|simpl; lia]).
  - destruct user_dir as [d|]; [|done]. simpl.
    rewrite !join_str_plain by (by apply plain_ext; [done|done|simpl; lia]) || by apply Ht.
    by rewrite <- app_assoc.
Qed.

Lemma cache_key_inj m m' :
  sanitized m = true -> sanitized m' = true -> cache_key m = cache_key m' -> m = m'.
Proof.
  intros Hs Hs'. destruct (sanitized_plain m Hs) as [Hn Ht]. destruct (sanitized_plain m' Hs') as [Hn' Ht'].
  assert (forall t n, Str.contains_char Str.SLASH ("tenant:" +:+ t +:+ "/" +:+ n) = true) as Hsl.
  { intros t n. rewrite !Str.contains_char_app. simpl. by rewrite orb_true_r. }
  destruct m as [n|t n], m' as [n'|t' n']; simpl in *; intros E.
  + by rewrite E.
  + destruct Hn as (_ & _ & _ & Hn). pose proof (Hsl t' n') as H1. rewrite <- E in H1. congruence.
  + destruct Hn' as (_ & _ & _ & Hn'). pose proof (Hsl t n) as H1. rewrite E in H1. congruence.
  + apply (Str.app_inj_l "tenant:") in E.
    assert (Str.split_once Str.SLASH (t +:+ String "/" n) = Some (t, n)) as H1
      by (apply Str.split_once_Some; split; [done|by destruct (Ht t eq_refl) as (_ & _ & _ & ?)]).
    assert (Str.split_once Str.SLASH (t' +:+ String "/" n') = Some (t', n')) as H2
      by (apply Str.split_once_Some; split; [done|by destruct (Ht' t' eq_refl) as (_ & _ & _ & ?)]).
    rewrite E in H1. congruence.
Qed.

(** ** Properties *)

(** Tenant isolation: for sanitised module paths the cache key determines
    the module, so two modules never share a compiled component; every file
    loaded lies directly in the platform directory or directly in the
    directory of its tenant, and different modules of the same kind are
    different files. *)
Lemma modules_isolated (modules_dir : Path) (user_dir : option Path) (m m' : ModulePath) :
  sanitized m = true -> sanitized m' = true ->
  (cache_key m = cache_key m' -> m = m') /\
  (forall p, wasm_path modules_dir user_dir m = Some p ->
     match tenant_id m with
     | None => StdPath.parent p = Some modules_dir
     | Some t => exists d, user_dir = Some d /\ StdPath.parent p = Some (d ++ [Normal t])
     end /\
     (wasm_path modules_dir user_dir m' = Some p -> is_tenant m = is_tenant m' -> m = m')).
Proof.
  intros Hs Hs'. split.
  - by apply cache_key_inj.
  - intros p. rewrite !wasm_path_sanitized by done. unfold StdPath.parent.
    destruct m as [n|t n]; simpl.
    + intros [= <-]. rewrite last_snoc, length_app, Nat.add_sub, take_app_length. split; [done|].
      destruct m' as [n'|t' n']; [|done]. intros [= E] _. apply app_inj_tail in E as [_ E].
      injection E as E. apply Str.app_inj_r in E. by rewrite E.
    + destruct user_dir as [d|]; [|done]. simpl. intros [= <-].
      change (d ++ [Normal t; Normal (n +:+ ".wasm")])
        with (d ++ [Normal t] ++ [Normal (n +:+ ".wasm")]).
      rewrite app_assoc, last_snoc, length_app, Nat.add_sub, take_app_length. split; [by eauto|].
      destruct m' as [n'|t' n']; [done|]. intros [= E] _.
      rewrite <- app_assoc in E. apply app_inv_head in E. injection E as -> E.
      apply Str.app_inj_r in E. by rewrite E.
Qed.

(** Round trip between a module and the name it is reported under
    ([X-Mik-Handler]): parsing that name as a URL segment gives the module
    back, and every segment is reported under itself. *)
Lemma handler_name_roundtrip (m : ModulePath) (segment : string) :
  (sanitized m = true -> from_url_segment (handler_name m) = m) /\
  handler_name (from_url_segment segment) = segment.
Proof.
  split.
  - intros Hs. destruct (sanitized_plain m Hs) as [Hn Ht]. unfold from_url_segment.
    destruct m as [n|t n]; simpl in *.
    + assert (Str.split_once Str.SLASH n = None) as ->; [|done].
      apply Str.split_once_None. by destruct Hn as (_ & _ & _ & ?).
    + assert (Str.split_once Str.SLASH (t +:+ String "/" n) = Some (t, n)) as ->
        by (apply Str.split_once_Some; split; [done|by destruct (Ht t eq_refl) as (_ & _ & _ & ?)]).
      destruct Hn as (Hn1 & _ & _ & ->). destruct (Ht t eq_refl) as (Ht1 & _).
      simpl. by destruct t, n.
  - unfold from_url_segment. destruct (Str.split_once Str.SLASH segment) as [[a b]|] eqn:E; [|done].
    apply Str.split_once_Some in E as [-> _]. by destruct (_ && _)%bool.
Qed.
