(* ===== verification/Http.v ===== *)
(** Http: the parts of the [http] and [hyper] data types the runtime uses.

    A [HeaderMap] is a list of name and value pairs whose names are lower-case,
    as the crate normalises them; a request header value that is not visible
    ASCII has no string form ([None]). *)

From S2P Require Import Prelude.

(** [HeaderMap::get]: the first value of a name. *)
Fixpoint header_get {A} (name : string) (hs : list (string * A)) : option A :=
  match hs with
  | [] => None
  | (n, v) :: hs' => if String.eqb n name then Some v else header_get name hs'
  end.

(** [HeaderMap::get] followed by [HeaderValue::to_str]. *)
Definition header_str (name : string) (hs : list (string * option string)) : option string :=
  match header_get name hs with Some (Some s) => Some s | _ => None end.

(** [HeaderMap::remove] and [HeaderMap::insert]: the new value replaces every
    old one. *)
Definition header_remove {A} (name : string) : list (string * A) -> list (string * A) :=
  filter (fun h => String.eqb h.1 name = false).
Definition header_insert {A} (name : string) (v : A) (hs : list (string * A)) : list (string * A) :=
  header_remove name hs ++ [(name, v)].

(** A response with a full body. *)
Record Resp := {
  rs_status : Z;
  rs_headers : list (string * string);
  rs_body : string;
}.

Definition resp (status : Z) (headers : list (string * string)) (body : string) : Resp :=
  {| rs_status := status; rs_headers := headers; rs_body := body |}.

Definition add_header (name v : string) (r : Resp) : Resp :=
  {| rs_status := rs_status r; rs_headers := header_insert name v (rs_headers r);
     rs_body := rs_body r |}.

Lemma header_get_app {A} n (a b : list (string * A)) :
  header_get n (a ++ b) = match header_get n a with Some v => Some v | None => header_get n b end.
Proof. induction a as [|[m v] a IH]; simpl; [done|]. by destruct (String.eqb m n). Qed.

Lemma header_get_remove {A} n m (hs : list (string * A)) :
  header_get m (header_remove n hs) = if String.eqb m n then None else header_get m hs.
Proof.
  unfold header_remove. induction hs as [|[k v] hs IH]; [by destruct (String.eqb m n)|].
  rewrite filter_cons. simpl. destruct (String.eqb_spec k n) as [->|Hkn]; case_decide as Hd;
    simpl in *; try done; rewrite IH.
  - destruct (String.eqb_spec m n) as [->|Hmn]; [done|].
    by destruct (String.eqb_spec n m) as [->|].
  - destruct (String.eqb_spec k m) as [->|]; [|done].
    by destruct (String.eqb_spec m n).
Qed.

Lemma header_get_insert {A} n m (v : A) hs :
  header_get m (header_insert n v hs) = if String.eqb m n then Some v else header_get m hs.
Proof.
  unfold header_insert. rewrite header_get_app, header_get_remove. simpl.
  destruct (String.eqb_spec m n) as [->|Hne]; [by rewrite String.eqb_refl|].
  destruct (header_get m hs); [done|]. by destruct (String.eqb_spec n m) as [->|].
Qed.

(** [serde_json]'s rendering of a string: two-character escapes where JSON has
    them, [\u00XX] for the other control characters, the rest as is. *)
Definition hex_digit (n : N) : ascii :=
  if (n <? 10)%N then Str.chr (48 + n) else Str.chr (87 + n).

Definition json_escape_char (c : ascii) : string :=
  let n := Str.code c in
  if (n =? 34)%N then String "\" (String "034" EmptyString)
  else if (n =? 92)%N then "\\"
  else if (n =? 8)%N then "\b"
  else if (n =? 9)%N then "\t"
  else if (n =? 10)%N then "\n"
  else if (n =? 12)%N then "\f"
  else if (n =? 13)%N then "\r"
  else if (n <? 32)%N
  then "\u00" +:+ String (hex_digit (n / 16)) (String (hex_digit (n mod 16)) EmptyString)
  else String c EmptyString.

Fixpoint json_escape (s : string) : string :=
  match s with
  | EmptyString => EmptyString
  | String c s' => json_escape_char c +:+ json_escape s'
  end.

Definition QUOTE : ascii := "034"%char.
Definition json_string (s : string) : string :=
  String QUOTE (json_escape s +:+ String QUOTE EmptyString).
