(* ===== verification/TraceContext.v ===== *)
(** TraceContext: W3C trace context of [src/src/runtime/trace_context.rs]. *)

From S2P Require Import Prelude Http.

(** ** Data *)

Definition TRACE_CONTEXT_VERSION : string := "00".
Definition TRACE_FLAG_SAMPLED : Z := 1.

Record TraceContext := {
  trace_id : string;
  parent_id : string;
  sampled : bool;
}.

(** ** Generation

    A version 4 UUID is its sixteen bytes, the version in the high half of
    byte 6; the random bytes are the arguments. *)

Definition hex_byte (b : N) : string :=
  String (hex_digit (b / 16)) (String (hex_digit (b mod 16)) EmptyString).

Fixpoint hex_bytes (bs : list N) : string :=
  match bs with [] => EmptyString | b :: bs' => hex_byte b +:+ hex_bytes bs' end.

Definition is_uuid_v4 (bs : list N) : Prop :=
  length bs = 16%nat /\ Forall (fun b => (b < 256)%N) bs /\
  exists b, bs !! 6%nat = Some b /\ (b / 16 = 4)%N.

Definition generate_trace_id (uuid : list N) : string := hex_bytes uuid.
Definition generate_span_id (uuid : list N) : string := hex_bytes (take 8 uuid).

Definition new (uuid1 uuid2 : list N) : TraceContext := {|
  trace_id := generate_trace_id uuid1; parent_id := generate_span_id uuid2; sampled := true |}.

Definition new_span (uuid : list N) (c : TraceContext) : TraceContext := {|
  trace_id := trace_id c; parent_id := generate_span_id uuid; sampled := sampled c |}.

(** ** Parsing and rendering *)

Definition is_valid_hex : string -> bool := Str.all Str.is_hexdigit.
Definition is_all_zeros : string -> bool := Str.all (Ascii.eqb "0").

Definition hex_value (c : ascii) : Z :=
  let n := Z.of_N (Str.code c) in
  if Str.is_digit c then n - 48 else if Str.is_upper c then n - 55 else n - 87.

(** [u8::from_str_radix(_, 16)] on hexadecimal digits *)
Definition from_str_radix_16 (s : string) : option Z :=
  let v := (fix go acc s := match s with
                            | EmptyString => acc
                            | String c s' => go (acc * 16 + hex_value c) s'
                            end) 0 s in
  if (is_valid_hex s && (v <=? 255))%bool then Some v else None.

Definition parse (traceparent : string) : option TraceContext :=
  match Str.split "-" traceparent with
  | [version; trace_id; parent_id; trace_flags] =>
      if negb (String.eqb version TRACE_CONTEXT_VERSION) then None
      else if (negb (Str.len trace_id =? 32) || negb (is_valid_hex trace_id)
               || is_all_zeros trace_id)%bool then None
      else if (negb (Str.len parent_id =? 16) || negb (is_valid_hex parent_id)
               || is_all_zeros parent_id)%bool then None
      else if (negb (Str.len trace_flags =? 2) || negb (is_valid_hex trace_flags))%bool then None
      else match from_str_radix_16 trace_flags with
           | None => None
           | Some flags =>
               let sampled := negb (Z.land flags TRACE_FLAG_SAMPLED =? 0) in
               Some {| trace_id := Str.to_lowercase trace_id;
                       parent_id := Str.to_lowercase parent_id; sampled := sampled |}
           end
  | _ => None
  end.

Definition to_traceparent (c : TraceContext) : string :=
  let flags := if sampled c then "01" else "00" in
  TRACE_CONTEXT_VERSION +:+ "-" +:+ trace_id c +:+ "-" +:+ parent_id c +:+ "-" +:+ flags.

Definition extract_trace_context (uuid1 uuid2 : list N) (headers : list (string * option string))
  : TraceContext :=
  match header_str "traceparent" headers with
  | Some value => match parse value with Some ctx => ctx | None => new uuid1 uuid2 end
  | None => new uuid1 uuid2
  end.

(** ** Well-formed contexts *)

Definition is_lower_hex (c : ascii) : bool := (Str.is_digit c || Str.in_range 97 102 c)%bool.

(** An identifier of [n] lower-case hexadecimal digits, not all zero. *)
Definition wf_id (n : Z) (s : string) : Prop :=
  Str.len s = n /\ Str.all is_lower_hex s = true /\ is_all_zeros s = false.

Definition wf (c : TraceContext) : Prop := wf_id 32 (trace_id c) /\ wf_id 16 (parent_id c).

Lemma lower_hex_facts c :
  is_lower_hex c = true ->
  Str.is_hexdigit c = true /\ Str.lower_char c = c /\ Str.is_ascii c = true /\
  Ascii.eqb "-" c = false.
Proof. by destruct c as [[] [] [] [] [] [] [] []]. Qed.

Lemma hexdigit_lower c :
  Str.is_hexdigit c = true ->
  is_lower_hex (Str.lower_char c) = true /\ Str.is_ascii c = true /\
  Ascii.eqb "0" (Str.lower_char c) = Ascii.eqb "0" c /\ Ascii.eqb "-" c = false.
Proof. by destruct c as [[] [] [] [] [] [] [] []]. Qed.

Lemma lowercase_hex s :
  is_valid_hex s = true ->
  Str.all is_lower_hex (Str.to_lowercase s) = true /\
  String.length (Str.to_lowercase s) = String.length s /\
  is_all_zeros (Str.to_lowercase s) = is_all_zeros s.
Proof.
  unfold is_valid_hex, is_all_zeros. induction s as [|c s IH]; intros H; [done|].
  change (Str.all Str.is_hexdigit (String c s)) with
    (Str.is_hexdigit c && Str.all Str.is_hexdigit s)%bool in H.
  apply andb_true_iff in H as [Hc Hs]. apply IH in Hs as (H1 & H2 & H3).
  destruct (hexdigit_lower c Hc) as (Hl & Ha & Hz & _).
  rewrite Str.to_lowercase_ascii_head by done. cbn [Str.all String.length].
  by rewrite Hl, H1, H2, Hz, H3.
Qed.

Lemma lowercase_id s : Str.all is_lower_hex s = true -> Str.to_lowercase s = s.
Proof.
  induction s as [|c s IH]; intros H; [done|]. cbn [Str.all] in H.
  apply andb_true_iff in H as [Hc Hs]. destruct (lower_hex_facts c Hc) as (_ & Hl & Ha & _).
  by rewrite Str.to_lowercase_ascii_head, Hl, IH.
Qed.

Lemma lower_hex_valid s :
  Str.all is_lower_hex s = true -> is_valid_hex s = true /\ Str.contains_char "-" s = false.
Proof.
  unfold is_valid_hex, Str.contains_char. induction s as [|c s IH]; intros H; [done|].
  cbn [Str.all Str.any] in *. apply andb_true_iff in H as [Hc Hs].
  destruct (lower_hex_facts c Hc) as (H1 & _ & _ & H4). destruct (IH Hs) as [H2 H3].
  by rewrite H1, H2, H3, H4.
Qed.

Lemma hex_byte_wf b :
  (b < 256)%N -> String.length (hex_byte b) = 2%nat /\ Str.all is_lower_hex (hex_byte b) = true /\
  ((b / 16 = 4)%N -> is_all_zeros (hex_byte b) = false).
Proof.
  intros Hb. assert (forall d, (d < 16)%N -> is_lower_hex (hex_digit d) = true) as Hd.
  { intros d Hd. assert (In d (List.map N.of_nat (List.seq 0 16))) as Hin.
    { apply in_map_iff. exists (N.to_nat d). split; [lia|]. apply in_seq. lia. }
    revert Hin. clear. simpl. intros H. repeat destruct H as [<-|H]; done. }
  split_and!; [done| |].
  - unfold hex_byte. cbn [Str.all]. rewrite !Hd; [done|apply N.mod_lt; lia|].
    apply N.Div0.div_lt_upper_bound. lia.
  - intros H4. unfold hex_byte, is_all_zeros. cbn [Str.all]. by rewrite H4.
Qed.

Lemma hex_bytes_wf bs :
  Forall (fun b => (b < 256)%N) bs ->
  String.length (hex_bytes bs) = (2 * length bs)%nat /\
  Str.all is_lower_hex (hex_bytes bs) = true /\
  ((exists i b, bs !! i = Some b /\ (b / 16 = 4)%N) -> is_all_zeros (hex_bytes bs) = false).
Proof.
  induction bs as [|b bs IH]; intros HF; [split_and!; [done..|by intros (i & b & H & _)]|].
  apply Forall_cons in HF as [Hb HF]. destruct (IH HF) as (H1 & H2 & H3).
  destruct (hex_byte_wf b Hb) as (B1 & B2 & B3).
  cbn [hex_bytes]. rewrite Str.length_app, Str.all_app, B1, H1, B2, H2.
  split_and!; [simpl; lia|done|]. unfold is_all_zeros in *. rewrite Str.all_app.
  intros ([|i] & b' & Hi & H4); simpl in Hi; [injection Hi as ->; by rewrite B3|].
  rewrite H3 by eauto. apply andb_false_r.
Qed.

Lemma wf_new uuid1 uuid2 : is_uuid_v4 uuid1 -> is_uuid_v4 uuid2 -> wf (new uuid1 uuid2).
Proof.
  intros (L1 & F1 & b1 & I1 & V1) (L2 & F2 & b2 & I2 & V2). unfold wf, wf_id, Str.len. simpl.
  unfold generate_trace_id, generate_span_id.
  destruct (hex_bytes_wf uuid1 F1) as (A1 & A2 & A3).
  destruct (hex_bytes_wf (take 8 uuid2)) as (B1 & B2 & B3); [by apply Forall_take|].
  rewrite A1, B1, L1, length_take, L2. split_and!; [done|done|by eauto|done|done|].
  apply B3. exists 6%nat, b2. split; [|done]. by rewrite lookup_take_lt by lia.
Qed.

Lemma wf_parse s c : parse s = Some c -> wf c.
Proof.
  unfold parse. destruct (Str.split _ s) as [|v [|t [|p [|f [|]]]]]; try done.
  destruct (negb (String.eqb v _)); [done|].
  destruct (Z.eqb_spec (Str.len t) 32) as [Ht|]; [|done]. destruct (is_valid_hex t) eqn:Et; [|done].
  destruct (is_all_zeros t) eqn:Zt; [done|].
  destruct (Z.eqb_spec (Str.len p) 16) as [Hp|]; [|done]. destruct (is_valid_hex p) eqn:Ep; [|done].
  destruct (is_all_zeros p) eqn:Zp; [done|]. simpl.
  destruct (_ || _)%bool; [done|]. destruct (from_str_radix_16 f); [|done]. intros [= <-].
  destruct (lowercase_hex t Et) as (T1 & T2 & T3). destruct (lowercase_hex p Ep) as (P1 & P2 & P3).
  unfold wf, wf_id, Str.len in *. simpl. rewrite T2, P2, T3, P3. done.
Qed.

Lemma parse_to_traceparent c : wf c -> parse (to_traceparent c) = Some c.
Proof.
  intros [(T1 & T2 & T3) (P1 & P2 & P3)]. unfold parse, to_traceparent.
  destruct (lower_hex_valid _ T2) as [TV TD]. destruct (lower_hex_valid _ P2) as [PV PD].
  cbv zeta. rewrite !Str.split_sep, Str.split_none by (done || by destruct (sampled c)).
  rewrite T1, TV, T3, P1, PV, P3, (lowercase_id _ T2), (lowercase_id _ P2).
  by destruct c as [t p []].
Qed.

(** ** Properties *)

(** Round trip: a context that was parsed, generated or derived as a new
    span is well formed (32 and 16 lower-case hexadecimal digits, neither all
    zero), and rendering it and parsing the header again gives the same
    context. In particular the header the server sends back always parses, so
    a trace is continued under its identifier across any number of hops. *)
Lemma traceparent_roundtrip (uuid1 uuid2 uuid3 : list N) (headers : list (string * option string)) :
  is_uuid_v4 uuid1 -> is_uuid_v4 uuid2 -> is_uuid_v4 uuid3 ->
  let c := extract_trace_context uuid1 uuid2 headers in
  let child := new_span uuid3 c in
  wf c /\ parse (to_traceparent c) = Some c /\
  parse (to_traceparent child) = Some child /\ trace_id child = trace_id c /\
  (forall value, header_str "traceparent" headers = Some value -> parse value <> None ->
     parse value = Some c) /\
  extract_trace_context uuid3 uuid3 [("traceparent", Some (to_traceparent child))] = child.
Proof.
  intros U1 U2 U3 c child.
  assert (wf c) as Hwf.
  { unfold c, extract_trace_context. destruct (header_str _ headers) as [v|]; [|by apply wf_new].
    destruct (parse v) eqn:E; [by eapply wf_parse|by apply wf_new]. }
  assert (wf child) as Hwf'.
  { split; [exact (proj1 Hwf)|exact (proj2 (wf_new uuid3 uuid3 U3 U3))]. }
  split_and!; [done|by apply parse_to_traceparent..|done| |].
  - intros value Hv Hp. unfold c, extract_trace_context. rewrite Hv.
    by destruct (parse value).
  - unfold extract_trace_context, header_str. cbn [header_get]. change (String.eqb "traceparent" "traceparent") with true.
    cbv iota. by rewrite parse_to_traceparent.
Qed.

