(* ===== verification/RtError.v ===== *)
(** RtError: runtime errors and their HTTP and log renderings, of
    [src/src/runtime/error.rs], [types.rs] and the error helpers of
    [request_handler.rs]. *)

From S2P Require Import Prelude Http.

(** ** Data *)

(** An [io::Error] is its message, a [wasmtime::Error] its chain of
    messages, outermost first. *)
Inductive Error :=
| ModuleNotFound (name : string)
| ModuleLoadFailed (name reason : string)
| ExecutionTimeout (name : string) (timeout_secs : Z)
| CircuitBreakerOpen (name : string)
| MemoryLimitExceeded (module : string) (limit_bytes : Z)
| RateLimitExceeded (reason : string)
| PathTraversal (path : string)
| ScriptError (name reason : string)
| ScriptNotFound (name : string)
| Config (msg : string)
| Io (context source : string)
| Wasmtime (msg : string) (sources : list string)
| HttpError (msg : string)
| InvalidRequest (msg : string).

Inductive ErrorCategory :=
| CatModuleLoad | CatInvalidRequest | CatInstantiation | CatExecution | CatStaticFile
| CatTimeout | CatScript | CatReliability | CatInternal.

#[export] Instance ErrorCategory_eq_dec : EqDecision ErrorCategory.
Proof. solve_decision. Defined.

Definition category_str (c : ErrorCategory) : string :=
  match c with
  | CatModuleLoad => "module_load"
  | CatInvalidRequest => "invalid_request"
  | CatInstantiation => "instantiation"
  | CatExecution => "execution"
  | CatStaticFile => "static_file"
  | CatTimeout => "timeout"
  | CatScript => "script"
  | CatReliability => "reliability"
  | CatInternal => "internal"
  end.

(** ** Rendering *)

Section Display.
(** [Debug] of a path. *)
Variable debug_path : string -> string.

(** The [#\[error(...)\]] formats. *)
Definition display (e : Error) : string :=
  match e with
  | ModuleNotFound name => "module not found: " +:+ name
  | ModuleLoadFailed name reason => "failed to load module '" +:+ name +:+ "': " +:+ reason
  | ExecutionTimeout name secs => "module '" +:+ name +:+ "' timed out after " +:+ Str.of_Z secs +:+ "s"
  | CircuitBreakerOpen name => "circuit breaker open for module '" +:+ name +:+ "'"
  | MemoryLimitExceeded m limit =>
      "module '" +:+ m +:+ "' exceeded memory limit of " +:+ Str.of_Z limit +:+ " bytes"
  | RateLimitExceeded reason => "rate limit exceeded: " +:+ reason
  | PathTraversal path => "path traversal blocked: " +:+ debug_path path
  | ScriptError name reason => "script '" +:+ name +:+ "' failed: " +:+ reason
  | ScriptNotFound name => "script not found: " +:+ name
  | Config msg => "configuration error: " +:+ msg
  | Io context source => "IO error in " +:+ context +:+ ": " +:+ source
  | Wasmtime msg _ => "wasmtime error: " +:+ msg
  | HttpError msg => "HTTP error: " +:+ msg
  | InvalidRequest msg => "invalid request: " +:+ msg
  end.

(** The messages met by walking [source()] from the error. *)
Definition chain (e : Error) : list string :=
  display e :: match e with
               | Io _ source => [source]
               | Wasmtime msg sources => msg :: sources
               | _ => []
               end.

Definition status_code (e : Error) : Z :=
  match e with
  | ModuleNotFound _ | ScriptNotFound _ => 404
  | PathTraversal _ | InvalidRequest _ => 400
  | CircuitBreakerOpen _ => 503
  | RateLimitExceeded _ => 429
  | ExecutionTimeout _ _ => 504
  | MemoryLimitExceeded _ _ => 507
  | ModuleLoadFailed _ _ | ScriptError _ _ | Config _ | Io _ _ | Wasmtime _ _ | HttpError _ => 500
  end.

(** [From<&Error> for ErrorCategory] *)
Definition category_of (e : Error) : ErrorCategory :=
  match e with
  | ModuleNotFound _ | ModuleLoadFailed _ _ => CatModuleLoad
  | ExecutionTimeout _ _ => CatTimeout
  | PathTraversal _ | InvalidRequest _ => CatInvalidRequest
  | ScriptNotFound _ | ScriptError _ _ => CatScript
  | CircuitBreakerOpen _ | RateLimitExceeded _ => CatReliability
  | MemoryLimitExceeded _ _ => CatExecution
  | _ => CatInternal
  end.

(** One message of [categorize_error]'s walk. *)
Definition categorize_msg (msg : string) : option ErrorCategory :=
  if Str.contains "timed out" msg then Some CatTimeout
  else if (Str.contains "Module not found" msg || Str.contains "Failed to load" msg)%bool
  then Some CatModuleLoad
  else if (Str.contains "Not found" msg || Str.contains "Invalid" msg)%bool
  then Some CatInvalidRequest
  else if Str.contains "Failed to instantiate" msg then Some CatInstantiation
  else if Str.contains "Handler call failed" msg then Some CatExecution
  else if Str.contains "static file" msg then Some CatStaticFile
  else None.

Fixpoint categorize_error (msgs : list string) : ErrorCategory :=
  match msgs with
  | [] => CatInternal
  | m :: ms => match categorize_msg m with Some c => c | None => categorize_error ms end
  end.

Definition not_found (message : string) : Resp := resp 404 [] message.

Definition error_response (e : Error) : Resp :=
  resp (status_code e) [("content-type", "application/json")]
    ("{" +:+ json_string "error" +:+ ":" +:+ json_string (display e) +:+ "," +:+
     json_string "status" +:+ ":" +:+ Str.of_Z (status_code e) +:+ "}").

(** ** Lemmas *)

Lemma categorize_none msg :
  categorize_msg msg = None ->
  Str.contains "timed out" msg = false /\ Str.contains "Module not found" msg = false /\
  Str.contains "Failed to load" msg = false /\ Str.contains "Not found" msg = false /\
  Str.contains "Invalid" msg = false /\ Str.contains "Failed to instantiate" msg = false /\
  Str.contains "Handler call failed" msg = false /\ Str.contains "static file" msg = false.
Proof. unfold categorize_msg. by repeat destruct (Str.contains _ msg). Qed.

End Display.

(** A needle does not start inside a prefix whose suffixes are not prefixes of
    it, and vice versa: a decidable sufficient condition for prepending a fixed
    text to create no new occurrence. *)
Fixpoint overlaps (needle pre : string) : bool :=
  match pre with
  | EmptyString => false
  | String _ pre' =>
      (Str.starts_with pre needle || Str.starts_with needle pre || overlaps needle pre')%bool
  end.

Lemma starts_with_app_false needle a b :
  Str.starts_with a needle = false -> Str.starts_with needle a = false ->
  Str.starts_with needle (a +:+ b) = false.
Proof.
  revert a. induction needle as [|n needle IH]; intros [|x a]; try done.
  unfold Str.starts_with in *. change (String x a +:+ b) with (String x (a +:+ b)).
  cbn [Str.strip_prefix]. rewrite (Ascii.eqb_sym x n).
  destruct (Ascii.eqb_spec n x) as [->|]; [|done]. apply IH.
Qed.

Lemma contains_prepend needle pre s :
  overlaps needle pre = false ->
  Str.contains needle (pre +:+ s) = Str.contains needle s.
Proof.
  induction pre as [|c pre IH]; intros H; [done|]. cbn [overlaps] in H.
  apply orb_false_iff in H as [[H1 H2]%orb_false_iff H3].
  change (String c pre +:+ s) with (String c (pre +:+ s)). cbn [Str.contains].
  change (String c (pre +:+ s)) with (String c pre +:+ s).
  by rewrite starts_with_app_false, IH.
Qed.

(** ** Properties *)

(** A failure to find a module is logged under the wrong category: for
    every module whose name does not itself contain one of the phrases
    [categorize_error] looks for, it answers [internal], where the typed
    classification and its own comment say [module_load], because the phrases
    are capitalised and the messages are not. Timeouts are classified the same
    way by both, and every error response carries the status of the typed
    error. *)
Lemma categories_disagree (debug_path : string -> string) (name : string) (secs : Z) (e : Error) :
  (categorize_msg name = None ->
   categorize_error (chain debug_path (ModuleNotFound name)) = CatInternal /\
   category_of (ModuleNotFound name) = CatModuleLoad) /\
  categorize_error (chain debug_path (ExecutionTimeout name secs)) =
    category_of (ExecutionTimeout name secs) /\
  rs_status (error_response debug_path e) = status_code e /\
  400 <= status_code e < 600.
Proof.
  split_and!.
  - intros Hn. split; [|done]. destruct (categorize_none _ Hn) as (H1 & H2 & H3 & H4 & H5 & H6 & H7 & H8).
    unfold chain, display. cbn [categorize_error].
    unfold categorize_msg. rewrite !contains_prepend by (vm_compute; reflexivity).
    by rewrite H1, H2, H3, H4, H5, H6, H7, H8.
  - unfold chain, display. cbn [categorize_error]. unfold categorize_msg.
    assert (Str.contains "timed out"
      ("module '" +:+ name +:+ "' timed out after " +:+ Str.of_Z secs +:+ "s") = true) as ->; [|done].
    apply Str.contains_iff. exists ("module '" +:+ name +:+ "' "), (" after " +:+ Str.of_Z secs +:+ "s").
    by rewrite <- !Str.app_assoc.
  - done.
  - by destruct e.
  - by destruct e.
Qed.
