(* ===== verification/WebContent.v ===== *)
(** WebContent: response compression, static files and schema files, of
    [src/src/runtime/compression.rs], [static_files.rs] and
    [schema_handler.rs]. *)

From S2P Require Import Prelude StdPath PathSecurity ModulePath Http RtError.

(** ** Compression *)

Definition GZIP_MIN_SIZE : Z := 1024.

Definition is_compressible_content_type (content_type : string) : bool :=
  (Str.starts_with "text/" content_type || Str.contains "json" content_type
   || Str.contains "xml" content_type || Str.contains "javascript" content_type
   || String.eqb content_type "image/svg+xml")%bool.

Definition accepts_gzip (headers : list (string * option string)) : bool :=
  match header_str "accept-encoding" headers with
  | Some s => Str.contains "gzip" s
  | None => false
  end.

Section Compression.
(** [flate2]'s gzip encoder; [None] on a write error. *)
Variable gzip : string -> option string.

Definition maybe_compress_body (body content_type : string) (client_accepts_gzip : bool)
  : string * option string :=
  if negb client_accepts_gzip then (body, None)
  else if Str.len body <? GZIP_MIN_SIZE then (body, None)
  else if negb (is_compressible_content_type content_type) then (body, None)
  else match gzip body with
       | None => (body, None)
       | Some compressed =>
           if Str.len body <=? Str.len compressed then (body, None)
           else (compressed, Some "gzip")
       end.

(** A response header value is a string here: the runtime builds its own
    headers from strings. The size hint of a full body is its length, and
    polling it yields the whole body as one data frame. *)
Definition maybe_compress_response (r : Resp) (client_accepts_gzip : bool) : Resp :=
  if negb client_accepts_gzip then r
  else
    let content_type := default EmptyString (header_get "content-type" (rs_headers r)) in
    if Str.len (rs_body r) <? GZIP_MIN_SIZE then r
    else if negb (is_compressible_content_type content_type) then r
    else
      let '(compressed_bytes, encoding) := maybe_compress_body (rs_body r) content_type true in
      match encoding with
      | None => r
      | Some _ =>
          resp (rs_status r)
            (filter (fun h => String.eqb h.1 "content-length" = false) (rs_headers r)
             ++ [("content-encoding", "gzip");
                 ("content-length", Str.of_Z (Str.len compressed_bytes))])
            compressed_bytes
      end.

End Compression.

(** ** Static files *)

Definition STATIC_PREFIX : string := "/static/".
Definition STATIC_CACHE_CONTROL : string := "public, max-age=3600".

Inductive ReadError := ReadNotFound | ReadOther.

(** [guess_content_type], on the essence of the guessed MIME type. *)
Definition with_charset : list string :=
  ["text/html"; "text/css"; "text/javascript"; "application/javascript"; "application/json";
   "text/plain"; "text/xml"; "application/xml"].
Definition without_charset : list string :=
  ["image/png"; "image/jpeg"; "image/gif"; "image/svg+xml"; "image/webp"; "image/x-icon";
   "application/pdf"; "application/wasm"].

Definition guess_content_type (mime : option string) : string :=
  match mime with
  | None => "application/octet-stream"
  | Some mime_str =>
      if existsb (String.eqb mime_str) with_charset then mime_str +:+ "; charset=utf-8"
      else if existsb (String.eqb mime_str) without_charset then mime_str
      else if (Str.starts_with "text/" mime_str || Str.contains "json" mime_str
               || Str.contains "xml" mime_str)%bool
      then mime_str +:+ "; charset=utf-8"
      else mime_str
  end.

Section Files.
(** The file system as the process sees it, and [mime_guess]. *)
Variable fs_is_dir : Path -> bool.
Variable fs_exists : Path -> bool.
Variable fs_canonicalize : Path -> option Path.
Variable fs_read : Path -> result string ReadError.
Variable mime_of : Path -> option string.

Definition serve_static_file (static_dir : Path) (path : string) : Resp :=
  let file_path := default path (Str.strip_prefix STATIC_PREFIX path) in
  match sanitize_file_path file_path with
  | Err _ => resp 400 [] "Invalid path"
  | Ok sanitized_path =>
      let check_path := StdPath.join static_dir sanitized_path in
      let target_path :=
        if fs_is_dir check_path then join_str sanitized_path "index.html" else sanitized_path in
      match validate_path_within_base fs_exists fs_canonicalize static_dir target_path with
      | Err _ => resp 400 [] "Invalid path"
      | Ok full_path =>
          match fs_read full_path with
          | Ok contents =>
              resp 200 [("content-type", guess_content_type (mime_of full_path));
                        ("cache-control", STATIC_CACHE_CONTROL)] contents
          | Err ReadNotFound => RtError.not_found "File not found"
          | Err ReadOther => resp 500 [] "Internal server error"
          end
      end
  end.

(** ** Schema files ([schema_handler.rs]) *)

Definition get_schema_path (modules_dir : Path) (module_name : string) : Path :=
  join_str modules_dir (module_name +:+ ".openapi.json").

Definition serve_static_schema (schema_path : Path) : Resp :=
  match fs_read schema_path with
  | Ok content =>
      resp 200 [("content-type", "application/json"); ("x-schema-source", "static")] content
  | Err _ =>
      resp 404 [("content-type", "application/json"); ("x-schema-source", "static")]
        ("{" +:+ json_string "error" +:+ ":" +:+ json_string "Schema not available" +:+ "}")
  end.

End Files.

(** ** Properties *)

(** Compression is transparent and never grows a response: either the
    response is unchanged, or the client accepts gzip, the body has at least
    1024 bytes and a compressible type, decompressing the new body gives the
    old one, the new body is strictly shorter, the status is the same, exactly
    one content length is sent and it is that of the new body, and every other
    header is kept in order with the encoding added. *)
Lemma compression_transparent (gzip : string -> option string) (gunzip : string -> option string)
    (r : Resp) (accepts : bool) :
  (forall b c, gzip b = Some c -> gunzip c = Some b) ->
  let r' := maybe_compress_response gzip r accepts in
  rs_status r' = rs_status r /\ Str.len (rs_body r') <= Str.len (rs_body r) /\
  (r' = r \/
   (accepts = true /\ GZIP_MIN_SIZE <= Str.len (rs_body r) /\
    is_compressible_content_type (default EmptyString (header_get "content-type" (rs_headers r))) = true /\
    gunzip (rs_body r') = Some (rs_body r) /\ Str.len (rs_body r') < Str.len (rs_body r) /\
    header_get "content-length" (rs_headers r') = Some (Str.of_Z (Str.len (rs_body r'))) /\
    header_remove "content-length" (rs_headers r') =
      header_remove "content-length" (rs_headers r) ++ [("content-encoding", "gzip")])).
Proof.
  intros Hgz. unfold maybe_compress_response, maybe_compress_body.
  destruct accepts; [|split_and!; [done|apply Z.le_refl|by left]]. cbn [negb]. cbv zeta.
  destruct (Z.ltb_spec (Str.len (rs_body r)) GZIP_MIN_SIZE) as [|Hlen]; [split_and!; [done|apply Z.le_refl|by left]|].
  destruct (is_compressible_content_type _) eqn:Hct; [|split_and!; [done|apply Z.le_refl|by left]]. cbn [negb].
  destruct (gzip (rs_body r)) as [c|] eqn:Hc; [|split_and!; [done|apply Z.le_refl|by left]].
  destruct (Z.leb_spec (Str.len (rs_body r)) (Str.len c)) as [|Hlt]; [split_and!; [done|apply Z.le_refl|by left]|].
  cbn [rs_status rs_body rs_headers resp]. split_and!; [done|lia|]. right.
  fold (header_remove (A:=string) "content-length" (rs_headers r)).
  split_and!; [done|done|done|by apply Hgz|done| |].
  - by rewrite header_get_app, header_get_remove.
  - unfold header_remove. rewrite filter_app, list_filter_filter_l by done. done.
Qed.

(** Static files stay inside the static directory, whatever the request
    path and the symbolic links on disk: the answer is 200, 400, 404 or 500; a
    200 carries the contents of a file below the canonical static directory
    that the request's sanitised path (or its [index.html]) resolves to, and
    depends on no file outside it; a path the sanitiser rejects is answered 400
    without touching the file system. *)
Lemma static_files_contained (fs_is_dir fs_exists : Path -> bool)
    (fs_canonicalize : Path -> option Path) (fs_read : Path -> result string ReadError)
    (mime_of : Path -> option string) (static_dir : Path) (path : string) :
  let r := serve_static_file fs_is_dir fs_exists fs_canonicalize fs_read mime_of static_dir path in
  rs_status r ∈ [200; 400; 404; 500] /\
  (rs_status r = 200 -> exists base rest,
     fs_canonicalize static_dir = Some base /\ fs_read (base ++ rest) = Ok (rs_body r)) /\
  (forall fs_read',
     (forall base rest, fs_canonicalize static_dir = Some base ->
        fs_read' (base ++ rest) = fs_read (base ++ rest)) ->
     serve_static_file fs_is_dir fs_exists fs_canonicalize fs_read' mime_of static_dir path = r) /\
  (forall e, sanitize_file_path (default path (Str.strip_prefix STATIC_PREFIX path)) = Err e ->
     r = resp 400 [] "Invalid path").
Proof.
  intros r. subst r. unfold serve_static_file.
  assert (forall s l, existsb (Z.eqb s) l = true -> s ∈ l) as Hin.
  { intros s l H. apply existsb_exists in H as (x & Hx & He). apply Z.eqb_eq in He as ->.
    by apply list_elem_of_In. }
  destruct (sanitize_file_path _) as [sp|e]; [|split_and!; try done; by apply Hin].
  destruct (validate_path_within_base _ _ _ _) as [full|e] eqn:Hv;
    [|split_and!; try done; by apply Hin].
  apply within_base_Ok in Hv as (base & rest & Hb & -> & _).
  split_and!; try done.
  - destruct (fs_read _) as [c|[]]; by apply Hin.
  - intros H. exists base, rest. split; [done|]. by destruct (fs_read (base ++ rest)) as [c|[]].
  - intros fs_read' Heq. by rewrite Heq.
Qed.

(** *** Concrete instances *)

