(* ===== verification/AotCache.v ===== *)
(** AotCache: the content-addressed cache of compiled components, of
    [src/src/runtime/aot_cache.rs].

    The cache directory is a finite map from file names to files. Deleting a
    file may fail ([removable] is [false]); the other file operations succeed.
    Sizes are mathematical integers: the directory is assumed to hold less
    than 2^64 bytes. *)

From S2P Require Import Prelude StdPath.
From stdpp Require Import sorting.
#[local] Open Scope Z_scope.

(** ** Data *)

Record AotCacheConfig := {
  max_size_bytes : Z;
  bypass : bool;
}.

Definition config_default : AotCacheConfig :=
  {| max_size_bytes := 1024 * 1024 * 1024; bypass := false |}.

Record File := {
  content : string;
  accessed : Z;
}.
Definition size (f : File) : Z := Str.len (content f).

Notation Dir := (gmap string File) (only parsing).

Record CacheEntry := {
  e_path : string;
  e_size : Z;
  e_accessed : Z;
}.

Record CacheStats := {
  entry_count : Z;
  total_size_bytes : Z;
  stat_max_size_bytes : Z;
}.
Definition stats_default : CacheStats :=
  {| entry_count := 0; total_size_bytes := 0; stat_max_size_bytes := 0 |}.

Record CleanupStats := {
  entries_removed : Z;
  bytes_freed : Z;
  current_size_bytes : Z;
}.
Definition cleanup_default : CleanupStats :=
  {| entries_removed := 0; bytes_freed := 0; current_size_bytes := 0 |}.

(** ** Operations *)

(** [path.extension().is_some_and(|e| e == "aot")] *)
Definition is_aot (name : string) : bool :=
  match (rsplit_dot name).2 with Some e => String.eqb e "aot" | None => false end.

Section Cache.
(** [compute_key]: the truncated BLAKE3 hash in hexadecimal. *)
Variable compute_key : string -> string.
(** Whether [fs::remove_file] succeeds on a file. *)
Variable removable : string -> bool.
Variable config : AotCacheConfig.

Definition aot_name (wasm : string) : string := compute_key wasm +:+ ".aot".

Definition get (wasm : string) (d : Dir) : option string :=
  if bypass config then None
  else match d !! aot_name wasm with Some _ => Some (aot_name wasm) | None => None end.

(** The artifacts of a directory, in the order [read_dir] lists them. *)
Definition artifacts (d : Dir) : list CacheEntry :=
  (fun kf => {| e_path := kf.1; e_size := size kf.2; e_accessed := accessed kf.2 |}) <$>
    filter (fun kf => is_aot kf.1 = true) (map_to_list d).

Definition sum_sizes (es : list CacheEntry) : Z := foldr (fun e n => e_size e + n) 0 es.

Definition stats (d : Dir) : CacheStats :=
  if bypass config then stats_default
  else {| entry_count := Z.of_nat (length (artifacts d));
          total_size_bytes := sum_sizes (artifacts d);
          stat_max_size_bytes := max_size_bytes config |}.

Definition older (a b : CacheEntry) : Prop := e_accessed a <= e_accessed b.
#[local] Instance older_dec : RelDecision older := fun a b => decide (e_accessed a <= e_accessed b).

(** The [while] loop of [cleanup]: the head of [entries] is dropped whether
    or not its file could be removed. *)
Fixpoint evict (entries : list CacheEntry) (d : Dir) (removed freed current_size : Z)
  : CleanupStats * Dir :=
  let done := ({| entries_removed := removed; bytes_freed := freed;
                  current_size_bytes := current_size |}, d) in
  match entries with
  | [] => done
  | entry :: entries' =>
      if max_size_bytes config <? current_size then
        if removable (e_path entry)
        then evict entries' (delete (e_path entry) d) (removed + 1) (freed + e_size entry)
               (current_size - e_size entry)
        else evict entries' d removed freed current_size
      else done
  end.

Definition cleanup (d : Dir) : CleanupStats * Dir :=
  if bypass config then (cleanup_default, d)
  else
    let entries := merge_sort older (artifacts d) in
    evict entries d 0 0 (sum_sizes entries).

Definition maybe_cleanup (d : Dir) : Dir :=
  if max_size_bytes config <? total_size_bytes (stats d) then (cleanup d).2 else d.

(** Writing the temporary file and renaming it over the artifact leaves the
    artifact only. *)
Definition put (now : Z) (wasm compiled : string) (d : Dir) : result string string * Dir :=
  if bypass config then (Err "Cannot store in cache when bypass is enabled", d)
  else
    let temp_path := compute_key wasm +:+ ".aot.tmp" in
    let d := <[temp_path := {| content := compiled; accessed := now |}]> d in
    let d := <[aot_name wasm := {| content := compiled; accessed := now |}]> (delete temp_path d) in
    (Ok (aot_name wasm), maybe_cleanup d).

Definition remove (wasm : string) (d : Dir) : result bool string * Dir :=
  if bypass config then (Ok false, d)
  else match d !! aot_name wasm with
       | Some _ =>
           if removable (aot_name wasm) then (Ok true, delete (aot_name wasm) d)
           else (Err "Failed to remove cache file", d)
       | None => (Ok false, d)
       end.

(** [clear]: the loop over the artifacts. *)
Definition clear (d : Dir) : CleanupStats * Dir :=
  if bypass config then (cleanup_default, d)
  else
    let gone := filter (fun e => removable (e_path e) = true) (artifacts d) in
    ({| entries_removed := Z.of_nat (length gone); bytes_freed := sum_sizes gone;
        current_size_bytes := 0 |},
     foldr (fun e d => delete (e_path e) d) d gone).

(** ** Lemmas *)

Definition entry_of (k : string) (f : File) : CacheEntry :=
  {| e_path := k; e_size := size f; e_accessed := accessed f |}.

Lemma elem_of_artifacts d e :
  e ∈ artifacts d <-> exists f, d !! e_path e = Some f /\ is_aot (e_path e) = true /\ e = entry_of (e_path e) f.
Proof.
  unfold artifacts. rewrite list_elem_of_fmap. split.
  - intros ([k f] & -> & Hk). apply list_elem_of_filter in Hk as [Ha Hk].
    apply elem_of_map_to_list in Hk. by exists f.
  - intros (f & Hf & Ha & He). exists (e_path e, f). split; [exact He|].
    apply list_elem_of_filter. split; [done|]. by apply elem_of_map_to_list.
Qed.

Lemma NoDup_artifacts d : NoDup (e_path <$> artifacts d).
Proof.
  unfold artifacts. rewrite <- list_fmap_compose.
  change (NoDup (fst <$> filter (fun kf : string * File => is_aot kf.1 = true) (map_to_list d))).
  eapply sublist_NoDup; [apply (NoDup_fst_map_to_list d)|].
  apply fmap_sublist, sublist_filter.
Qed.

Lemma sum_sizes_app a b : sum_sizes (a ++ b) = sum_sizes a + sum_sizes b.
Proof. induction a as [|x a IH]; simpl; [done|]. rewrite IH. lia. Qed.

Lemma sum_sizes_perm a b : a ≡ₚ b -> sum_sizes a = sum_sizes b.
Proof. induction 1; simpl; lia. Qed.

Definition goners (es : list CacheEntry) : list CacheEntry :=
  filter (fun e => removable (e_path e) = true) es.

Definition delete_entries (es : list CacheEntry) (d : Dir) : Dir :=
  foldr (fun e d => delete (e_path e) d) d es.

Lemma lookup_delete_entries es d k :
  delete_entries es d !! k = if decide (k ∈ (e_path <$> es)) then None else d !! k.
Proof.
  induction es as [|e es IH]; csimpl; [done|].
  destruct (decide (e_path e = k)) as [->|Hne].
  - rewrite lookup_delete_eq. rewrite decide_True by (by left). done.
  - rewrite lookup_delete_ne, IH by done.
    destruct (decide (k ∈ (e_path <$> es))); [rewrite decide_True by (by right)|rewrite decide_False]; try done.
    intros [?|?]%elem_of_cons; done.
Qed.

Lemma delete_entries_delete es k d :
  delete_entries es (delete k d) = delete k (delete_entries es d).
Proof. induction es as [|e es IH]; simpl; [done|]. by rewrite IH, delete_delete. Qed.

(** The loop removes the removable files of a prefix of its list, long enough
    to get below the limit or else the whole list, and counts them. *)
Lemma evict_spec es d removed freed cur :
  exists es1 es2, es = es1 ++ es2 /\
    let gone := goners es1 in
    evict es d removed freed cur =
      ({| entries_removed := removed + Z.of_nat (length gone);
          bytes_freed := freed + sum_sizes gone;
          current_size_bytes := cur - sum_sizes gone |}, delete_entries gone d) /\
    (es2 = [] \/ cur - sum_sizes gone <= max_size_bytes config) /\
    (forall a x b, es1 = a ++ x :: b -> max_size_bytes config < cur - sum_sizes (goners a)).
Proof.
  revert d removed freed cur. induction es as [|e es IH]; intros d removed freed cur.
  - exists [], []. simpl. split_and!; [done| |by left|by intros []]. by rewrite !Z.add_0_r, Z.sub_0_r.
  - cbn [evict]. destruct (Z.ltb_spec (max_size_bytes config) cur) as [Hc|Hc].
    + destruct (removable (e_path e)) eqn:Hr.
      * destruct (IH (delete (e_path e) d) (removed + 1) (freed + e_size e) (cur - e_size e))
          as (es1 & es2 & -> & Hev & Hend & Hmin).
        exists (e :: es1), es2. split; [done|]. unfold goners in *. rewrite filter_cons, decide_True by done.
        cbv zeta in *. rewrite Hev. cbn [length sum_sizes foldr delete_entries].
        fold (sum_sizes (filter (fun e => removable (e_path e) = true) es1)).
        split_and!; [|destruct Hend; [by left|right; lia]|].
        { f_equal; [f_equal; lia|]. apply delete_entries_delete. }
        intros [|y a] x b; simpl; intros [= -> Hes]; [lia|]. apply Hmin in Hes.
        rewrite filter_cons, decide_True by done. simpl. unfold sum_sizes in *. lia.
      * destruct (IH d removed freed cur) as (es1 & es2 & -> & Hev & Hend & Hmin).
        exists (e :: es1), es2. unfold goners in *. rewrite filter_cons, decide_False by congruence.
        split_and!; [done|exact Hev|exact Hend|].
        intros [|y a] x b; simpl; intros [= -> Hes]; [lia|]. apply Hmin in Hes.
        rewrite filter_cons, decide_False by congruence. done.
    + exists [], (e :: es). simpl. split_and!; [done| |right; lia|by intros []].
      by rewrite !Z.add_0_r, Z.sub_0_r.
Qed.

(** What remains after some artifacts are deleted. *)
Lemma artifacts_delete_entries d gone :
  gone ⊆+ artifacts d ->
  artifacts d ≡ₚ gone ++ artifacts (delete_entries gone d).
Proof.
  intros Hsub. apply submseteq_Permutation in Hsub as [rest Hrest]. rewrite Hrest. f_equiv.
  pose proof (NoDup_artifacts d) as Hnd. rewrite Hrest, fmap_app in Hnd.
  apply NoDup_app in Hnd as (_ & Hdisj & Hnd).
  apply NoDup_Permutation; [by eapply NoDup_fmap_1|eapply NoDup_fmap_1, NoDup_artifacts|].
  intros e. rewrite elem_of_artifacts, lookup_delete_entries. split.
  - intros He. assert (e ∈ artifacts d) as Hea by (rewrite Hrest; apply elem_of_app; by right).
    apply elem_of_artifacts in Hea. rewrite decide_False; [done|].
    intros Hg. apply (Hdisj _ Hg). by apply list_elem_of_fmap_2.
  - intros (f & Hf & Ha & He). destruct (decide _) as [|Hn]; [done|].
    assert (e ∈ artifacts d) as Hea by (apply elem_of_artifacts; eauto).
    rewrite Hrest in Hea. apply elem_of_app in Hea as [Hg|]; [|done].
    destruct Hn. by apply list_elem_of_fmap_2.
Qed.

#[local] Instance older_total : Total older.
Proof. intros a b. unfold older. lia. Qed.
#[local] Instance older_trans : Transitive older.
Proof. intros a b c. unfold older. lia. Qed.

(** A cleanup splits the artifacts, oldest first, at the point where it
    stops. *)
Lemma cleanup_split d :
  bypass config = false ->
  exists es1 es2, es1 ++ es2 ≡ₚ artifacts d /\ StronglySorted older (es1 ++ es2) /\
    let gone := goners es1 in
    let d' := delete_entries gone d in
    cleanup d = ({| entries_removed := Z.of_nat (length gone); bytes_freed := sum_sizes gone;
                    current_size_bytes := sum_sizes (artifacts d') |}, d') /\
    artifacts d ≡ₚ gone ++ artifacts d' /\
    (es2 = [] \/ sum_sizes (artifacts d') <= max_size_bytes config) /\
    (forall a x b, es1 = a ++ x :: b ->
       max_size_bytes config < sum_sizes (artifacts d) - sum_sizes (goners a)).
Proof.
  intros Hb. unfold cleanup. rewrite Hb. cbv zeta.
  destruct (evict_spec (merge_sort older (artifacts d)) d 0 0
    (sum_sizes (merge_sort older (artifacts d)))) as (es1 & es2 & Hes & Hev & Hend & Hmin).
  pose proof (merge_sort_Permutation older (artifacts d)) as Hp.
  pose proof (StronglySorted_merge_sort older (artifacts d)) as Hs.
  rewrite (sum_sizes_perm _ _ Hp) in *. rewrite Hes in Hp, Hs.
  assert (artifacts d ≡ₚ goners es1 ++ artifacts (delete_entries (goners es1) d)) as Hart.
  { apply artifacts_delete_entries. rewrite <- Hp. unfold goners.
    trans es1; [apply sublist_submseteq, sublist_filter|by apply submseteq_inserts_r]. }
  exists es1, es2. cbv zeta in *. rewrite Hev.
  pose proof (sum_sizes_perm _ _ Hart) as Hsum. rewrite sum_sizes_app in Hsum.
  split_and!; [exact Hp|exact Hs| |exact Hart| |exact Hmin].
  - f_equal. f_equal; lia.
  - destruct Hend; [by left|right; lia].
Qed.

End Cache.

(** ** Properties *)

(** Eviction: the loop ends, deletes only removable artifacts, reports
    exactly the number and bytes it deleted and the size that remains, stops
    at or below the limit unless nothing removable is left, deletes nothing if
    the cache was within its limit, and is least-recently-used: whatever it
    deleted had been accessed no later than every removable artifact it
    kept. *)
Lemma cleanup_lru (removable : string -> bool) (config : AotCacheConfig) (d : gmap string File) :
  bypass config = false ->
  let '(st, d') := cleanup removable config d in
  let total x := sum_sizes (artifacts x) in
  (forall k, d' !! k = d !! k \/
     (d' !! k = None /\ is_aot k = true /\ removable k = true)) /\
  bytes_freed st + total d' = total d /\ current_size_bytes st = total d' /\
  entries_removed st + Z.of_nat (length (artifacts d')) = Z.of_nat (length (artifacts d)) /\
  (total d' <= max_size_bytes config \/
   forall k f, d' !! k = Some f -> is_aot k = true -> removable k = false) /\
  (total d <= max_size_bytes config -> d' = d) /\
  (forall k f k' f', d !! k = Some f -> d' !! k = None ->
     d' !! k' = Some f' -> is_aot k' = true -> removable k' = true ->
     accessed f <= accessed f').
Proof.
  intros Hb. destruct (cleanup_split removable config d Hb) as (es1 & es2 & Hp & Hs & Hcl & Hart & Hend & Hmin).
  cbv zeta in Hcl, Hart, Hend. rewrite Hcl. clear Hcl.
  set (gone := goners removable es1) in *. set (d' := delete_entries gone d) in *.
  assert (forall e, e ∈ gone -> e ∈ es1 /\ removable (e_path e) = true) as Hgone
    by (intros e [? ?]%list_elem_of_filter; done).
  assert (forall k, k ∈ (e_path <$> gone) -> is_aot k = true /\ removable k = true) as Hk.
  { intros k (e & -> & He)%list_elem_of_fmap. destruct (Hgone e He) as [H1 H2].
    assert (e ∈ artifacts d) as Ha by (rewrite <- Hp; apply elem_of_app; by left).
    apply elem_of_artifacts in Ha as (_ & _ & Ha & _). done. }
  (* A kept removable artifact is in the part of the list not reached. *)
  assert (forall k f, d' !! k = Some f -> is_aot k = true -> removable k = true ->
    entry_of k f ∈ es2) as Hkept.
  { intros k f Hf Ha Hr. unfold d' in Hf. rewrite lookup_delete_entries in Hf.
    destruct (decide _) as [|Hn]; [done|].
    assert (entry_of k f ∈ es1 ++ es2) as [He|]%elem_of_app; [|exfalso|done].
    - rewrite Hp. apply elem_of_artifacts. by exists f.
    - apply Hn. apply list_elem_of_fmap. exists (entry_of k f). split; [done|].
      apply list_elem_of_filter. done. }
  split_and!.
  - intros k. unfold d'. rewrite lookup_delete_entries.
    destruct (decide _) as [Hin|]; [right|by left]. split; [done|by apply Hk].
  - rewrite (sum_sizes_perm _ _ Hart), sum_sizes_app. simpl. lia.
  - done.
  - rewrite Hart, length_app. simpl. lia.
  - destruct Hend as [->|]; [right|by left]. intros k f Hf Ha.
    apply not_true_is_false. intros Hr. by apply (Hkept k f) in Hf; [apply elem_of_nil in Hf|..].
  - intros Hle. assert (es1 = []) as ->; [|done]. destruct es1 as [|x es1]; [done|].
    specialize (Hmin [] x es1 eq_refl). simpl in Hmin. lia.
  - intros k f k' f' Hf Hno Hf' Ha' Hr'. unfold d' in Hno. rewrite lookup_delete_entries in Hno.
    destruct (decide _) as [Hin|]; [|congruence].
    apply list_elem_of_fmap in Hin as (e & -> & He). destruct (Hgone e He) as [He1 _].
    assert (e ∈ artifacts d) as Hea by (rewrite <- Hp; apply elem_of_app; by left).
    apply elem_of_artifacts in Hea as (g & Hg & _ & Heq). assert (g = f) as -> by congruence.
    specialize (Hkept k' f' Hf' Ha' Hr'). rewrite Heq in He1.
    exact (StronglySorted_app_1_elem_of _ _ _ _ _ Hs He1 Hkept).
Qed.

Lemma goners_all es : goners (fun _ => true) es = es.
Proof.
  induction es as [|x l IH]; [done|]. unfold goners in *. by rewrite filter_cons, IH.
Qed.

(** The newest artifact survives a cleanup it fits into. *)
Lemma newest_survives (config : AotCacheConfig) (d1 : gmap string File) name f0 :
  bypass config = false -> d1 !! name = Some f0 -> is_aot name = true ->
  size f0 <= max_size_bytes config ->
  (forall k f, d1 !! k = Some f -> is_aot k = true -> k <> name -> accessed f < accessed f0) ->
  (cleanup (fun _ => true) config d1).2 !! name = Some f0 /\
  sum_sizes (artifacts (cleanup (fun _ => true) config d1).2) <= max_size_bytes config.
Proof.
  intros Hb Hd1 Haot Hsz Hold.
  destruct (cleanup_split (fun _ => true) config d1 Hb) as (es1 & es2 & Hp & Hs & Hcl & Hart & Hend & Hmin).
  cbv zeta in Hcl, Hart, Hend. rewrite Hcl. cbn [snd].
  rewrite goners_all in *.
  assert (entry_of name f0 ∈ es1 ++ es2) as Hin by (rewrite Hp; apply elem_of_artifacts; by exists f0).
  assert (forall e, e ∈ es1 ++ es2 -> older (entry_of name f0) e -> e = entry_of name f0) as Hlast.
  { intros e He Hold'. rewrite Hp in He. apply elem_of_artifacts in He as (f & Hf & Ha & He).
    destruct (decide (e_path e = name)) as [Heq|Hne]; [rewrite Heq in *; congruence|].
    specialize (Hold _ _ Hf Ha Hne). rewrite He in Hold'. unfold older in Hold'. simpl in *. lia. }
  assert (entry_of name f0 ∉ es1) as Hnin.
  { intros Hin1. apply list_elem_of_split in Hin1 as (a & b & ->).
    specialize (Hmin a _ b eq_refl).
    rewrite goners_all, <- (sum_sizes_perm _ _ Hp), <- app_assoc, sum_sizes_app in Hmin.
    assert (b ++ es2 = []) as Hempty.
    { destruct (b ++ es2) as [|x l] eqn:E; [done|]. exfalso.
      pose proof (NoDup_artifacts d1) as Hnd. rewrite <- Hp in Hnd.
      rewrite <- app_assoc in Hs, Hnd. cbn [app] in Hs, Hnd. rewrite E in Hs, Hnd.
      apply StronglySorted_app_1_r in Hs.
      apply StronglySorted_inv in Hs as [_ HF]. apply Forall_cons in HF as [HF _].
      rewrite fmap_app, !fmap_cons in Hnd. apply NoDup_app in Hnd as (_ & _ & Hnd).
      apply NoDup_cons in Hnd as [Hnd _]. apply Hnd.
      assert (x = entry_of name f0) as ->; [|by left].
      apply Hlast; [|exact HF]. rewrite <- app_assoc. cbn [app]. rewrite E.
      apply elem_of_app. right. right. by left. }
    cbn [app] in Hmin. rewrite Hempty in Hmin. simpl in Hmin. lia. }
  assert (delete_entries es1 d1 !! name = Some f0) as Hkeep.
  { rewrite lookup_delete_entries, decide_False; [done|]. intros (e & He & Hin1)%list_elem_of_fmap.
    apply Hnin. assert (e ∈ artifacts d1) as Hea by (rewrite <- Hp; apply elem_of_app; by left).
    apply elem_of_artifacts in Hea as (f & Hf & _ & Heq). rewrite <- He, Hd1 in Hf.
    injection Hf as <-. rewrite Heq, <- He in Hin1. done. }
  split; [done|]. destruct Hend as [->|]; [|done].
  rewrite app_nil_r in Hin. done.
Qed.

(** *** Concrete instances *)

Section Witnesses.
Let cfg := {| max_size_bytes := 5; bypass := false |}.
Let dir : gmap string File :=
  {[ "a.aot" := {| content := "xxx"; accessed := 1 |};
     "b.aot" := {| content := "yyy"; accessed := 2 |};
     "notes" := {| content := "zzzzzzzz"; accessed := 0 |} ]}.

End Witnesses.
