(* ===== verification/ModuleCache.v ===== *)
(** ModuleCache: loading and caching of components, of
    [src/src/runtime/cache.rs].

    Wasmtime and the file system are parameters; the component cache (moka) is
    a keyed store; the AOT cache is the one of [AotCache]. Both loaders share
    the compilation step and differ in how they name the module, as in the
    source. *)

From S2P Require Import Prelude Store StdPath PathSecurity ModulePath Http RtError AotCache.

(** The messages of the sanitiser's errors ([security/error.rs]). *)
Definition module_name_error_str (e : ModuleNameError) : string :=
  match e with
  | EmptyName => "Module name is empty"
  | NameNullByte => "Module name contains null bytes"
  | PathSeparator => "Module name contains path separators"
  | SpecialDirectory => "Module name cannot be '.' or '..'"
  | TooLong => "Module name is too long (max 255 characters)"
  | ControlCharacter => "Module name contains control characters"
  end.

(** An [anyhow::Error]: a typed error, or messages of contexts and foreign
    errors, outermost first. *)
Inductive LoadError :=
| Typed (e : Error)
| Messages (msgs : list string).

Section Loader.
Context {Comp K : Type}.

Record CachedComponent := {
  component : Comp;
  size_bytes : Z;
}.

Context `{StoreLaws K CachedComponent}.

(** Wasmtime: compilation, and (de)serialisation of compiled components. *)
Variable from_binary : string -> result Comp string.
Variable serialize : Comp -> result string string.
Variable deserialize : string -> result Comp string.
(** BLAKE3, and deletion in the cache directory. *)
Variable compute_key : string -> string.
Variable removable : string -> bool.
Variable aot_config : AotCacheConfig.
(** The file system: existence (or an I/O error), length, contents. *)
Variable fs_try_exists : Path -> result bool string.
Variable fs_len : Path -> option Z.
Variable fs_read : Path -> result string string.

Variable modules_dir : Path.
Variable user_modules_dir : option Path.

Record LState := {
  cache : K;
  aot : gmap string File;
}.

(** The closure given to [spawn_blocking]. *)
Definition compile_or_cached (now : Z) (wasm_bytes : string) (d : gmap string File)
  : result Comp string * gmap string File :=
  let compile (d : gmap string File) :=
    match from_binary wasm_bytes with
    | Err e => (Err e, d)
    | Ok component =>
        if bypass aot_config then (Ok component, d)
        else match serialize component with
             | Ok serialized =>
                 (Ok component, (put compute_key removable aot_config now wasm_bytes serialized d).2)
             | Err _ => (Ok component, d)
             end
    end in
  match AotCache.get compute_key aot_config wasm_bytes d with
  | Some cached_path =>
      match deserialize (default EmptyString (content <$> d !! cached_path)) with
      | Ok component => (Ok component, d)
      | Err _ => compile (AotCache.remove compute_key removable aot_config wasm_bytes d).2
      end
  | None => compile d
  end.

(** From the resolved file to the cached component. *)
Definition load_from (now : Z) (cache_key : string) (path : Path) (missing : Error) (s : LState)
  : result Comp LoadError * LState :=
  match fs_try_exists path with
  | Err e => (Err (Messages [e]), s)
  | Ok false => (Err (Typed missing), s)
  | Ok true =>
      let file_size := default 0 (fs_len path) in
      match fs_read path with
      | Err e => (Err (Messages ["Failed to read " +:+ to_str path; e]), s)
      | Ok wasm_bytes =>
          let '(r, d) := compile_or_cached now wasm_bytes (aot s) in
          match r with
          | Err e =>
              (Err (Messages ["Failed to load " +:+ to_str path; e]), {| cache := cache s; aot := d |})
          | Ok component =>
              (Ok component,
               {| cache := st_put cache_key {| component := component; size_bytes := file_size |} (cache s);
                  aot := d |})
          end
      end
  end.

Definition get_or_load (now : Z) (name : string) (s : LState) : result Comp LoadError * LState :=
  match sanitize_module_name name with
  | Err e =>
      (Err (Typed (InvalidRequest
         ("Invalid module name '" +:+ name +:+ "': " +:+ module_name_error_str e))), s)
  | Ok sanitized_name =>
      match st_get sanitized_name (cache s) with
      | Some cached => (Ok (component cached), s)
      | None =>
          load_from now sanitized_name (join_str modules_dir (sanitized_name +:+ ".wasm"))
            (ModuleNotFound sanitized_name) s
      end
  end.

Definition get_or_load_module_path (now : Z) (m : ModulePath) (s : LState)
  : result Comp LoadError * LState :=
  match sanitize_module_name (module_name m) with
  | Err e =>
      (Err (Typed (InvalidRequest
         ("Invalid module name '" +:+ module_name m +:+ "': " +:+ module_name_error_str e))), s)
  | Ok _ =>
      match match tenant_id m with
            | Some t => match sanitize_module_name t with
                        | Err e => Some (InvalidRequest
                            ("Invalid tenant ID '" +:+ t +:+ "': " +:+ module_name_error_str e))
                        | Ok _ => None
                        end
            | None => None
            end with
      | Some e => (Err (Typed e), s)
      | None =>
          let key := cache_key m in
          match st_get key (cache s) with
          | Some cached => (Ok (component cached), s)
          | None =>
              match wasm_path modules_dir user_modules_dir m with
              | None =>
                  (Err (Typed (if is_tenant m
                     then InvalidRequest "Tenant modules not configured (user_modules directory not set)"
                     else ModuleNotFound (module_name m))), s)
              | Some wasm_path => load_from now key wasm_path (ModuleNotFound (to_string m)) s
              end
          end
      end
  end.

(** ** The contents of the caches *)

(** Every artifact of the AOT cache is the compilation of some input with its
    key. *)
Definition aot_ok (d : gmap string File) : Prop :=
  forall wasm f, d !! aot_name compute_key wasm = Some f ->
    exists c, from_binary wasm = Ok c /\ serialize c = Ok (content f).

(** Every cached component is the compilation of its module's file. *)
Definition cache_ok (s : LState) : Prop :=
  aot_ok (aot s) /\
  forall m cached, sanitized m = true -> st_get (cache_key m) (cache s) = Some cached ->
    exists p wasm, wasm_path modules_dir user_modules_dir m = Some p /\
      fs_read p = Ok wasm /\ from_binary wasm = Ok (component cached).

End Loader.

Arguments CachedComponent : clear implicits.
Arguments LState : clear implicits.

(** ** Lemmas *)

Section Lemmas.
Context {Comp K : Type} `{StoreLaws K (CachedComponent Comp)}.
Variable from_binary : string -> result Comp string.
Variable serialize : Comp -> result string string.
Variable deserialize : string -> result Comp string.
Variable compute_key : string -> string.
Variable removable : string -> bool.
Variable aot_config : AotCacheConfig.
(** Wasmtime reads back what it wrote; truncated hashes do not collide; keys
    are hexadecimal. *)
Hypothesis deserialize_serialize :
  forall c bytes c', serialize c = Ok bytes -> deserialize bytes = Ok c' -> c' = c.
Hypothesis compute_key_inj : forall a b, compute_key a = compute_key b -> a = b.
Hypothesis compute_key_nodot : forall a, Str.contains_char Str.DOT (compute_key a) = false.

Local Notation aot_ok := (aot_ok from_binary serialize compute_key).

Lemma aot_ok_sub d d' :
  (forall k, d' !! k = d !! k \/ d' !! k = None) -> aot_ok d -> aot_ok d'.
Proof.
  intros Hsub Hok wasm f Hf. apply (Hok wasm f).
  destruct (Hsub (aot_name compute_key wasm)); congruence.
Qed.

Lemma cleanup_sub (d : gmap string File) :
  forall k, (cleanup removable aot_config d).2 !! k = d !! k \/
            (cleanup removable aot_config d).2 !! k = None.
Proof.
  intros k. destruct (bypass aot_config) eqn:Hb.
  - left. unfold cleanup. by rewrite Hb.
  - destruct (cleanup_split removable aot_config d Hb) as (es1 & es2 & _ & _ & -> & _).
    simpl. rewrite lookup_delete_entries. case_decide; auto.
Qed.

Lemma tmp_not_aot a b : compute_key a +:+ ".aot.tmp" <> aot_name compute_key b.
Proof.
  unfold aot_name. intros E.
  assert (Str.split Str.DOT (compute_key a +:+ ".aot.tmp") = [compute_key a; "aot"; "tmp"]) as H1.
  { change ".aot.tmp" with (String Str.DOT "aot.tmp"). rewrite Str.split_app by done. done. }
  assert (Str.split Str.DOT (compute_key b +:+ ".aot") = [compute_key b; "aot"]) as H2.
  { change ".aot" with (String Str.DOT "aot"). rewrite Str.split_app by done. done. }
  rewrite E in H1. congruence.
Qed.

Lemma put_ok now wasm c bytes (d : gmap string File) :
  from_binary wasm = Ok c -> serialize c = Ok bytes -> aot_ok d ->
  aot_ok (put compute_key removable aot_config now wasm bytes d).2.
Proof.
  intros Hc Hs Hok. unfold put. destruct (bypass aot_config); [done|]. simpl.
  set (d1 := <[aot_name compute_key wasm:=_]> _).
  assert (aot_ok d1) as Hd1.
  { intros w f Hf. unfold d1 in Hf.
    destruct (decide (aot_name compute_key w = aot_name compute_key wasm)) as [E|Hne].
    - unfold aot_name in E. apply Str.app_inj_r, compute_key_inj in E as ->.
      rewrite lookup_insert_eq in Hf. injection Hf as <-. eauto.
    - rewrite lookup_insert_ne in Hf by done.
      pose proof (tmp_not_aot wasm w) as Ht.
      rewrite lookup_delete_ne, lookup_insert_ne in Hf by done. by apply Hok. }
  unfold maybe_cleanup. destruct (_ <? _); [|done]. eapply aot_ok_sub; [apply cleanup_sub|done].
Qed.

(** The AOT cache is transparent: with it or without it the component is the
    compilation of the bytes. *)
Lemma compile_or_cached_ok now wasm (d : gmap string File) :
  aot_ok d ->
  let '(r, d') := compile_or_cached from_binary serialize deserialize compute_key removable
                    aot_config now wasm d in
  r = from_binary wasm /\ aot_ok d'.
Proof.
  intros Hok. unfold compile_or_cached.
  assert (forall d, aot_ok d ->
    let '(r, d') :=
      match from_binary wasm with
      | Err e => (Err e, d)
      | Ok component =>
          if bypass aot_config then (Ok component, d)
          else match serialize component with
               | Ok serialized =>
                   (Ok component, (put compute_key removable aot_config now wasm serialized d).2)
               | Err _ => (Ok component, d)
               end
      end in r = from_binary wasm /\ aot_ok d') as Hcompile.
  { intros d0 Hd0. destruct (from_binary wasm) as [c|e] eqn:Hc; [|done].
    destruct (bypass aot_config); [done|]. destruct (serialize c) as [b|] eqn:Hs; [|done].
    split; [done|]. by eapply put_ok. }
  cbv zeta. destruct (AotCache.get _ _ _ _) as [p|] eqn:Hg; [|by apply Hcompile].
  unfold AotCache.get in Hg. destruct (bypass aot_config) eqn:Hb; [done|].
  destruct (d !! aot_name compute_key wasm) as [f|] eqn:Hf; [|done]. injection Hg as <-.
  rewrite Hf. simpl default. destruct (Hok _ _ Hf) as (c & Hc & Hs).
  destruct (deserialize (content f)) as [c'|e] eqn:Hd.
  - split; [|done]. by rewrite Hc, (deserialize_serialize _ _ _ Hs Hd).
  - apply Hcompile. eapply aot_ok_sub; [|exact Hok]. intros k. unfold AotCache.remove.
    rewrite Hb, Hf. destruct (removable _); simpl; [|by left].
    destruct (decide (k = aot_name compute_key wasm)) as [->|Hne];
      [right; apply lookup_delete_eq|left; by apply lookup_delete_ne].
Qed.

End Lemmas.

(** ** Properties *)

Section Properties.
Context {Comp K : Type} `{StoreLaws K (CachedComponent Comp)}.
Variable from_binary : string -> result Comp string.
Variable serialize : Comp -> result string string.
Variable deserialize : string -> result Comp string.
Variable compute_key : string -> string.
Variable removable : string -> bool.
Variable aot_config : AotCacheConfig.
Variable fs_try_exists : Path -> result bool string.
Variable fs_len : Path -> option Z.
Variable fs_read : Path -> result string string.
Variable modules_dir : Path.
Variable user_modules_dir : option Path.
Hypothesis deserialize_serialize :
  forall c bytes c', serialize c = Ok bytes -> deserialize bytes = Ok c' -> c' = c.
Hypothesis compute_key_inj : forall a b, compute_key a = compute_key b -> a = b.
Hypothesis compute_key_nodot : forall a, Str.contains_char Str.DOT (compute_key a) = false.

Local Notation caches_ok := (cache_ok from_binary serialize compute_key fs_read modules_dir user_modules_dir).
Local Notation load_from := (load_from from_binary serialize deserialize compute_key removable
  aot_config fs_try_exists fs_len fs_read).

(** The file of a module was read and compiled to a component. *)
Definition compiled_from (m : ModulePath) (c : Comp) : Prop :=
  exists p wasm, wasm_path modules_dir user_modules_dir m = Some p /\
    fs_read p = Ok wasm /\ from_binary wasm = Ok c.

Lemma load_from_ok now m p missing (s : LState K) :
  sanitized m = true -> wasm_path modules_dir user_modules_dir m = Some p -> caches_ok s ->
  let '(r, s') := load_from now (cache_key m) p missing s in
  caches_ok s' /\ forall c, r = Ok c -> compiled_from m c.
Proof.
  intros Hs Hp [Haot Hcache]. unfold load_from.
  destruct (fs_try_exists p) as [[]|]; try by repeat split.
  destruct (fs_read p) as [wasm|] eqn:Hr; [|by repeat split].
  pose proof (compile_or_cached_ok from_binary serialize deserialize compute_key removable
    aot_config deserialize_serialize compute_key_inj compute_key_nodot now wasm (aot s) Haot) as Hcc.
  destruct (compile_or_cached _ _ _ _ _ _ _ _ _) as [r d]. destruct Hcc as [-> Hd].
  destruct (from_binary wasm) as [c|e] eqn:Hc; [|by repeat split].
  assert (compiled_from m c) as Hcf by (exists p, wasm; done).
  split; [|by intros c' [= <-]]. split; [done|]. intros m' cached Hs' Hget. simpl in Hget.
  rewrite st_get_put in Hget. case_decide as Hk; [|by apply Hcache].
  apply cache_key_inj in Hk as <-; [|done..]. injection Hget as <-. exact Hcf.
Qed.

Lemma path_loader_ok now m (s : LState K) : caches_ok s ->
  let '(r, s') := get_or_load_module_path from_binary serialize deserialize compute_key
     removable aot_config fs_try_exists fs_len fs_read modules_dir user_modules_dir now m s in
  caches_ok s' /\ forall c, r = Ok c -> sanitized m = true /\ compiled_from m c.
Proof.
  intros Hok.
  unfold get_or_load_module_path. destruct (sanitize_module_name (module_name m)) as [n|e] eqn:En;
    [|by split].
  assert (sanitized m = match tenant_id m with
    | Some t => is_ok (sanitize_module_name t) | None => true end) as Hs
    by (unfold sanitized; by rewrite En).
  destruct (match tenant_id m with Some t => _ | None => None end) as [e|] eqn:Et; [by split|].
  assert (sanitized m = true) as Hsan.
  { rewrite Hs. clear -Et. destruct m as [|t n']; [done|]. simpl in *. destruct (sanitize_module_name t); done. }
  destruct (st_get (cache_key m) (cache s)) as [cached|] eqn:Eg.
  - split; [done|]. intros c [= <-]. split; [done|]. by apply (proj2 Hok) in Eg.
  - destruct (wasm_path _ _ m) as [p|] eqn:Ep; [|by split].
    pose proof (load_from_ok now m p (ModuleNotFound (to_string m)) s Hsan Ep Hok) as Hl.
    destruct (load_from _ _ _ _ _) as [r s']. destruct Hl as [? Hl]. split; [done|auto].
Qed.

Lemma name_loader_ok now name (s : LState K) : caches_ok s ->
  let '(r, s') := get_or_load from_binary serialize deserialize compute_key removable
     aot_config fs_try_exists fs_len fs_read modules_dir now name s in
  caches_ok s' /\ forall c, r = Ok c ->
    sanitized (Platform name) = true /\ compiled_from (Platform name) c.
Proof.
  intros Hok.
  unfold get_or_load. destruct (sanitize_module_name name) as [n|e] eqn:En; [|by split].
  assert (sanitized (Platform name) = true) as Hsan by (unfold sanitized; simpl; by rewrite En).
  apply sanitize_module_name_Ok in En as (-> & _).
  destruct (st_get name (cache s)) as [cached|] eqn:Eg.
  - split; [done|]. intros c [= <-]. split; [done|]. by apply (proj2 Hok (Platform name)) in Eg.
  - pose proof (load_from_ok now (Platform name) _ (ModuleNotFound name) s Hsan eq_refl Hok) as Hl.
    simpl in Hl. destruct (load_from _ _ _ _ _) as [r s']. destruct Hl as [? Hl]. split; [done|auto].
Qed.

(** The module loader is correct and confined. From consistent caches, both
    loaders leave them consistent, and a component they return is the
    compilation of the file of the very module asked for: the cached and the
    ahead-of-time compiled paths return what a fresh compilation would, names
    that fail sanitisation load nothing, and a tenant's request never yields
    another tenant's or a platform module's component. *)
Lemma loader_correct (now : Z) (m : ModulePath) (name : string) (s : LState K) :
  caches_ok s ->
  let '(r, s') := get_or_load_module_path from_binary serialize deserialize compute_key removable
     aot_config fs_try_exists fs_len fs_read modules_dir user_modules_dir now m s in
  let '(r2, s2) := get_or_load from_binary serialize deserialize compute_key removable
     aot_config fs_try_exists fs_len fs_read modules_dir now name s in
  caches_ok s' /\ caches_ok s2 /\
  (forall c, r = Ok c -> sanitized m = true /\ compiled_from m c) /\
  (forall c, r2 = Ok c -> sanitized (Platform name) = true /\ compiled_from (Platform name) c).
Proof.
  intros Hok. pose proof (path_loader_ok now m s Hok). pose proof (name_loader_ok now name s Hok).
  destruct (get_or_load_module_path _ _ _ _ _ _ _ _ _ _ _ _ _ _) as [r s'].
  destruct (get_or_load _ _ _ _ _ _ _ _ _ _ _ _ _) as [r2 s2]. naive_solver.
Qed.

End Properties.

(** *** Concrete instances *)

(** A collision-free key without dots: the characters in hexadecimal. *)
Fixpoint hex_key (s : string) : string :=
  match s with
  | EmptyString => EmptyString
  | String c s' =>
      String (hex_digit (Str.code c / 16)) (String (hex_digit (Str.code c mod 16)) (hex_key s'))
  end.

Lemma hex_key_inj a b : hex_key a = hex_key b -> a = b.
Proof.
  set (unhex := fun x y : ascii =>
    let v c := if (Str.code c <? 97)%N then (Str.code c - 48)%N else (Str.code c - 87)%N in
    Str.chr (v x * 16 + v y)).
  assert (forall c, unhex (hex_digit (Str.code c / 16)) (hex_digit (Str.code c mod 16)) = c) as Hu
    by (intros [[] [] [] [] [] [] [] []]; reflexivity).
  revert b. induction a as [|c a IH]; intros [|d b]; try done. cbn [hex_key].
  intros [= H1 H2 H3]. apply IH in H3 as ->. f_equal. by rewrite <- (Hu c), <- (Hu d), H1, H2.
Qed.

Lemma hex_key_nodot a : Str.contains_char Str.DOT (hex_key a) = false.
Proof.
  unfold Str.contains_char. induction a as [|c a IH]; [done|]. cbn [hex_key Str.any].
  rewrite IH. by destruct c as [[] [] [] [] [] [] [] []].
Qed.

