(* ===== verification/Router.v ===== *)
(** Router: routing and execution of requests, of
    [src/src/runtime/request_handler.rs].

    A module request has two halves: [begin] routes it, passes the circuit
    breaker and the module's semaphore and loads the component; [finish] reads
    the body, runs the component and records the outcome. Between the two
    halves other requests run, which the transition system [step] makes
    explicit. Loading is used through the interface [ModuleLoader]; the
    gateway (Gateway.v) and the execution of a component (WasmExec.v) are
    parameters, and a script request is left to Script.v. *)

From S2P Require Import Prelude Store CircuitBreaker PathSecurity ModulePath Http RtError WebContent ModuleCache.

(** ** The loader interface *)

Class ModuleLoader (L Comp : Type) := {
  load_name : Z -> string -> L -> result Comp LoadError * L;
  load_path : Z -> ModulePath -> L -> result Comp LoadError * L;
}.

(** A component is only ever loaded for a sanitised name. *)
Class ModuleLoaderLaws (L Comp : Type) `{ModuleLoader L Comp} : Prop := {
  load_name_sanitized : forall now name l,
    is_ok (load_name now name l).1 = true -> sanitized (Platform name) = true;
  load_path_sanitized : forall now m l,
    is_ok (load_path now m l).1 = true -> sanitized m = true;
}.

(** ** Constants and requests *)

Definition MAX_PATH_LENGTH : Z := 4096.
Definition CIRCUIT_BREAKER_RETRY_AFTER_SECS : string := "30".
Definition MODULE_OVERLOAD_RETRY_AFTER_SECS : string := "5".
Definition RUN_PREFIX : string := "/run/".
Definition TENANT_PREFIX : string := "/tenant/".
Definition OPENAPI_PREFIX : string := "/openapi/".
Definition SCRIPT_PREFIX : string := "/script/".
Definition MIK_API_PREFIX : string := "/_mik/".
Definition HEALTH_PATH : string := "/health".
Definition METRICS_PATH : string := "/metrics".

(** A request as hyper delivers it; reading the body may fail with a chain of
    error messages. *)
Record HReq := {
  method : string;
  path : string;
  query : option string;
  req_headers : list (string * option string);
  req_body : result string (list string);
}.

(** The request handed to a component. *)
Record ExecReq := {
  x_method : string;
  x_path : string;
  x_query : option string;
  x_headers : list (string * option string);
  x_body : string;
}.

(** ** Validation *)

Definition validate_path_length (path : string) : option Resp :=
  if MAX_PATH_LENGTH <? Str.len path
  then Some (resp 414 [("content-type", "application/json")]
    ("{" +:+ json_string "error" +:+ ":" +:+ json_string "URI too long" +:+ "," +:+
     json_string "length" +:+ ":" +:+ Str.of_Z (Str.len path) +:+ "," +:+
     json_string "max" +:+ ":" +:+ Str.of_Z MAX_PATH_LENGTH +:+ "}"))
  else None.

(** [str::parse::<usize>]: an optional [+] and decimal digits in range. *)
Definition parse_usize (s : string) : option Z :=
  let digits := match s with String "+" r => r | _ => s end in
  let v := (fix go acc s := match s with
                            | EmptyString => acc
                            | String c s' => go (acc * 10 + (Z.of_N (Str.code c) - 48)) s'
                            end) 0 digits in
  if (negb (Str.is_empty digits) && Str.all Str.is_digit digits && (v <=? usize_max))%bool
  then Some v else None.

Definition validate_content_length (headers : list (string * option string)) (max_body : Z)
  : option Resp :=
  match header_str "content-length" headers with
  | Some len_str =>
      match parse_usize len_str with
      | Some len =>
          if max_body <? len
          then Some (resp 413 [("content-type", "application/json")]
            ("{" +:+ json_string "error" +:+ ":" +:+ json_string "Request body too large" +:+ "," +:+
             json_string "size" +:+ ":" +:+ Str.of_Z len +:+ "," +:+
             json_string "max" +:+ ":" +:+ Str.of_Z max_body +:+ "}"))
          else None
      | None => None
      end
  | None => None
  end.

(** [Limited] fails the collection with [length limit exceeded]; the source
    recognises it anywhere in the chain. *)
Definition collect_request_body (body : result string (list string)) (max_body : Z)
  : result (result string Resp) (list string) :=
  let collected :=
    match body with
    | Ok bytes => if max_body <? Str.len bytes then Err ["length limit exceeded"] else Ok bytes
    | Err e => Err e
    end in
  match collected with
  | Ok bytes => Ok (Ok bytes)
  | Err chain =>
      if existsb (Str.contains "length limit") chain
      then Ok (Err (resp 413 [("content-type", "application/json")]
        ("{" +:+ json_string "error" +:+ ":" +:+ json_string "Request body too large" +:+ "," +:+
         json_string "max" +:+ ":" +:+ Str.of_Z max_body +:+ "}")))
      else Err ["Failed to read request body: " +:+ hd EmptyString chain]
  end.

(** ** Route parsing *)

Section Routes.
(** [percent_decode_str(_).decode_utf8_lossy()] *)
Variable percent_decode : string -> string.

Definition decode (s : string) : string :=
  if Str.contains_char "%" s then percent_decode s else s.

Definition parse_module_route (run_path : string) : string * string :=
  if Str.is_empty run_path then (EmptyString, "/")
  else match Str.split_once Str.SLASH run_path with
       | Some (module_part, rest) => (decode module_part, decode (String Str.SLASH rest))
       | None => (decode run_path, "/")
       end.

Definition parse_module_path_route (run_path : string) : option (ModulePath * string) :=
  if Str.is_empty run_path then None
  else
    let segments := filter (fun s => Str.is_empty s = false) (Str.split Str.SLASH run_path) in
    match segments with
    | [] => None
    | s0 :: s1 :: rest =>
        let handler_path :=
          match rest with [] => "/" | _ => String Str.SLASH (Str.join "/" rest) end in
        Some (Tenant (decode s0) (decode s1), handler_path)
    | [s0] => Some (Platform (decode s0), "/")
    end.

End Routes.

(** ** The runtime *)

Section Router.
Context {M L Comp : Type} `{StoreLaws M CircuitState} `{ModuleLoaderLaws L Comp}.
Variable percent_decode : string -> string.
(** [PathAndQuery::from_str]: path and query, or an error message. *)
Variable parse_path_and_query : string -> result (string * option string) string.
(** [HeaderValue::from_str] accepts the string. *)
Variable header_value_ok : string -> bool.
Variable gzip : string -> option string.
Variable execute : Comp -> ExecReq -> result Resp (list string).
Variable debug_path : string -> string.

Record RConfig := {
  cb_config : CircuitBreakerConfig;
  max_per_module_requests : Z;
  max_body_size_bytes : Z;
  single_component : option Comp;
  single_component_name : option string;
  tenants_configured : bool;
  static_files : option (string -> Resp);
  gateway : string -> result Resp (list string);
  schema : string -> Resp;
}.
Variable config : RConfig.

Record RState := {
  circuit_breaker : M;
  module_semaphores : gmap string Z;
  loader : L;
}.

Definition set_circuit (m : M) (s : RState) : RState := {|
  circuit_breaker := m; module_semaphores := module_semaphores s; loader := loader s |}.
Definition set_semaphores (x : gmap string Z) (s : RState) : RState := {|
  circuit_breaker := circuit_breaker s; module_semaphores := x; loader := loader s |}.
Definition set_loader (l : L) (s : RState) : RState := {|
  circuit_breaker := circuit_breaker s; module_semaphores := module_semaphores s; loader := l |}.

(** [get_module_semaphore] creates a semaphore on first use; its value is the
    number of permits left. *)
Definition get_module_semaphore (key : string) (s : RState) : Z :=
  default (max_per_module_requests config) (module_semaphores s !! key).

Definition try_acquire (key : string) (s : RState) : bool * RState :=
  let n := get_module_semaphore key s in
  if 0 <? n then (true, set_semaphores (<[key := n - 1]> (module_semaphores s)) s)
  else (false, set_semaphores (<[key := n]> (module_semaphores s)) s).

(** Dropping an [OwnedSemaphorePermit]. *)
Definition release (permit : option string) (s : RState) : RState :=
  match permit with
  | Some key => set_semaphores (<[key := get_module_semaphore key s + 1]> (module_semaphores s)) s
  | None => s
  end.

Definition error_response (e : Error) : Resp := RtError.error_response debug_path e.

(** A request waiting for its body and its component. *)
Record Pending := {
  component : Comp;
  handler_path : string;
  module : option string;
  permit : option string;
  request : HReq;
}.

Inductive Resolution :=
| Success (component : Comp) (handler_path : string) (module : option string) (permit : option string)
| Respond (r : Resp).

(** [resolve_multi_module] and [resolve_multi_module_path] differ in the key of
    the circuit breaker and the semaphore, in the name that is reported and in
    the loader. *)
Definition resolve_with (now : Instant) (key name : string)
    (load : L -> result Comp LoadError * L) (handler_path : string) (s : RState)
  : Resolution * RState :=
  let '(checked, m) := check_request (cb_config config) now key (circuit_breaker s) in
  let s := set_circuit m s in
  match checked with
  | Err _ =>
      (Respond (add_header "retry-after" CIRCUIT_BREAKER_RETRY_AFTER_SECS
                  (error_response (CircuitBreakerOpen name))), s)
  | Ok _ =>
      let '(acquired, s) := try_acquire key s in
      if negb acquired then
        (Respond (add_header "retry-after" MODULE_OVERLOAD_RETRY_AFTER_SECS
                    (error_response (RateLimitExceeded
                       ("Module '" +:+ name +:+ "' overloaded (max " +:+
                        Str.of_Z (max_per_module_requests config) +:+ " concurrent)")))), s)
      else
        let '(r, l) := load (loader s) in
        let s := set_loader l s in
        match r with
        | Ok comp => (Success comp handler_path (Some name) (Some key), s)
        | Err _ =>
            let s := set_circuit (record_failure (cb_config config) now key (circuit_breaker s)) s in
            (Respond (error_response (ModuleNotFound name)), release (Some key) s)
        end
  end.

Definition resolve_multi_module (now : Instant) (module handler_path : string) (s : RState)
  : Resolution * RState :=
  resolve_with now module module (load_name now module) handler_path s.

Definition resolve_multi_module_path (now : Instant) (m : ModulePath) (handler_path : string)
    (s : RState) : Resolution * RState :=
  resolve_with now (cache_key m) (handler_name m) (load_path now m) handler_path s.

Definition resolve_module (now : Instant) (path : string) (s : RState) : Resolution * RState :=
  match Str.strip_prefix RUN_PREFIX path with
  | None =>
      (Respond (not_found
        "Not found. Platform modules: /run/<module>/, Tenant modules: /tenant/<tenant-id>/<module>/"), s)
  | Some run_path =>
      let '(module, handler_path) := parse_module_route percent_decode run_path in
      if Str.is_empty module then (Respond (not_found "No module specified. Use /run/<module>/"), s)
      else match single_component config, single_component_name config with
           | Some comp, Some expected_name =>
               if String.eqb module expected_name
               then (Success comp handler_path (Some module) None, s)
               else (Respond (error_response (ModuleNotFound module)), s)
           | _, _ => resolve_multi_module now module handler_path s
           end
  end.

Definition resolve_tenant_module (now : Instant) (path : string) (s : RState)
  : Resolution * RState :=
  match Str.strip_prefix TENANT_PREFIX path with
  | None =>
      (Respond (not_found "Not found. Tenant modules: /tenant/<tenant-id>/<module>/"), s)
  | Some tenant_path =>
      if negb (tenants_configured config)
      then (Respond (error_response (InvalidRequest "Tenant modules not configured")), s)
      else match parse_module_path_route percent_decode tenant_path with
           | None =>
               (Respond (not_found "Invalid tenant path. Use /tenant/<tenant-id>/<module>/"), s)
           | Some (module_path, handler_path) =>
               if negb (is_tenant module_path)
               then (Respond (not_found "Invalid tenant path. Use /tenant/<tenant-id>/<module>/"), s)
               else resolve_multi_module_path now module_path handler_path s
           end
  end.

(** [handle_request_inner] up to the loaded component. [Script] stands for the
    requests the script engine answers. *)
Inductive Begun :=
| Answered (r : result Resp (list string))
| Script
| Running (p : Pending).

Definition begin (now : Instant) (req : HReq) (s : RState) : Begun * RState :=
  let gz := accepts_gzip (req_headers req) in
  let compressed r := maybe_compress_response gzip r gz in
  match validate_path_length (path req) with
  | Some r => (Answered (Ok r), s)
  | None =>
  match validate_content_length (req_headers req) (max_body_size_bytes config) with
  | Some r => (Answered (Ok r), s)
  | None =>
  if Str.starts_with STATIC_PREFIX (path req) then
    match static_files config with
    | Some serve => (Answered (Ok (compressed (serve (path req)))), s)
    | None => (Answered (Ok (not_found "Static file serving not enabled")), s)
    end
  else if Str.starts_with MIK_API_PREFIX (path req) then
    (Answered match gateway config (path req) with
              | Ok r => Ok (compressed r)
              | Err e => Err e
              end, s)
  else match Str.strip_prefix OPENAPI_PREFIX (path req) with
  | Some rest =>
      let module_name := Str.trim_end_matches Str.SLASH rest in
      if Str.is_empty module_name
      then (Answered (Ok (not_found "No module specified. Use /openapi/<module>")), s)
      else (Answered (Ok (schema config module_name)), s)
  | None =>
  if Str.starts_with SCRIPT_PREFIX (path req) then (Script, s)
  else
    let '(resolution, s) :=
      if Str.starts_with TENANT_PREFIX (path req)
      then resolve_tenant_module now (path req) s
      else resolve_module now (path req) s in
    match resolution with
    | Respond r => (Answered (Ok r), s)
    | Success comp handler_path module permit =>
        (Running {| component := comp; handler_path := handler_path; module := module;
                    permit := permit; request := req |}, s)
    end
  end end end.

(** [rewrite_request_path] *)
Definition rewrite_request_path (req : HReq) (new_path : string) (body : string)
  : result ExecReq (list string) :=
  match parse_path_and_query new_path with
  | Ok (p, q) =>
      Ok {| x_method := method req; x_path := p; x_query := q;
            x_headers := req_headers req; x_body := body |}
  | Err e => Err [e]
  end.

Definition record_outcome (now : Instant) (module : option string) (ok : bool) (s : RState)
  : RState :=
  match module with
  | Some name =>
      set_circuit (if ok then record_success name (circuit_breaker s)
                   else record_failure (cb_config config) now name (circuit_breaker s)) s
  | None => s
  end.

(** The rest of [handle_request_inner]; the permit is dropped on every path. *)
Definition finish (now : Instant) (duration_ms : Z) (p : Pending) (s : RState)
  : result Resp (list string) * RState :=
  let done r s := (r, release (permit p) s) in
  match parse_path_and_query (handler_path p) with
  | Err e => done (Err [e]) s
  | Ok _ =>
      match collect_request_body (req_body (request p)) (max_body_size_bytes config) with
      | Err e => done (Err e) s
      | Ok (Err r) => done (Ok r) s
      | Ok (Ok body_bytes) =>
          match rewrite_request_path (request p) (handler_path p) body_bytes with
          | Err e => done (Err e) s
          | Ok xreq =>
              let result := execute (component p) xreq in
              let s := record_outcome now (module p) (is_ok result) s in
              match result with
              | Err e => done (Err e) s
              | Ok r =>
                  let r := add_header "x-mik-duration-ms" (Str.of_Z duration_ms) r in
                  let r := match module p with
                           | Some name => if header_value_ok name
                                          then add_header "x-mik-handler" name r else r
                           | None => r
                           end in
                  done (Ok (maybe_compress_response gzip r (accepts_gzip (req_headers (request p))))) s
              end
          end
      end
  end.

(** One request from start to end, alone. *)
Definition handle_request_inner (now1 now2 : Instant) (duration_ms : Z) (req : HReq) (s : RState)
  : option (result Resp (list string)) * RState :=
  match begin now1 req s with
  | (Answered r, s) => (Some r, s)
  | (Script, s) => (None, s)
  | (Running p, s) => let '(r, s) := finish now2 duration_ms p s in (Some r, s)
  end.

(** ** Concurrent requests *)

Record sys := {
  rstate : RState;
  inflight : list Pending;
}.

Inductive step : sys -> sys -> Prop :=
| step_answer now req s s' r fl :
    begin now req s = (Answered r, s') ->
    step {| rstate := s; inflight := fl |} {| rstate := s'; inflight := fl |}
| step_start now req s s' p fl :
    begin now req s = (Running p, s') ->
    step {| rstate := s; inflight := fl |} {| rstate := s'; inflight := p :: fl |}
| step_finish now ms p fl1 fl2 s :
    step {| rstate := s; inflight := fl1 ++ p :: fl2 |}
         {| rstate := (finish now ms p s).2; inflight := fl1 ++ fl2 |}
(* The client went away: the future is dropped, and the permit with it. *)
| step_cancel p fl1 fl2 s :
    step {| rstate := s; inflight := fl1 ++ p :: fl2 |}
         {| rstate := release (permit p) s; inflight := fl1 ++ fl2 |}.

Definition init (m : M) (l : L) : sys := {|
  rstate := {| circuit_breaker := m; module_semaphores := ∅; loader := l |};
  inflight := [] |}.

(** ** Lemmas: permits *)

Lemma permits_set_circuit k m s :
  get_module_semaphore k (set_circuit m s) = get_module_semaphore k s.
Proof. done. Qed.
Lemma permits_set_loader k l s :
  get_module_semaphore k (set_loader l s) = get_module_semaphore k s.
Proof. done. Qed.

Lemma permits_insert k key n s :
  get_module_semaphore k (set_semaphores (<[key:=n]> (module_semaphores s)) s) =
  if decide (k = key) then n else get_module_semaphore k s.
Proof.
  unfold get_module_semaphore. simpl. case_decide as Hk; subst.
  - by rewrite lookup_insert_eq.
  - by rewrite lookup_insert_ne.
Qed.

Lemma permits_release k pm s :
  get_module_semaphore k (release pm s) =
  get_module_semaphore k s + (if decide (pm = Some k) then 1 else 0).
Proof.
  destruct pm as [key|]; cbn [release]; [|case_decide; [done|lia]].
  rewrite permits_insert. repeat case_decide; subst; try congruence; lia.
Qed.

Lemma try_acquire_permits key s :
  let '(ok, s') := try_acquire key s in
  ok = (0 <? get_module_semaphore key s) /\
  circuit_breaker s' = circuit_breaker s /\ loader s' = loader s /\
  forall k, get_module_semaphore k s' =
    get_module_semaphore k s - (if ok then if decide (k = key) then 1 else 0 else 0).
Proof.
  unfold try_acquire. zcase; (split_and!; [done..|]); intros k; rewrite permits_insert;
    case_decide; subst; lia.
Qed.

(** What resolving a module does to the permits. *)
Definition permits_effect (r : Resolution) (s s' : RState) : Prop :=
  match r with
  | Respond _ | Success _ _ _ None =>
      forall k, get_module_semaphore k s' = get_module_semaphore k s
  | Success _ _ _ (Some key) =>
      0 < get_module_semaphore key s /\
      forall k, get_module_semaphore k s' =
        get_module_semaphore k s - (if decide (k = key) then 1 else 0)
  end.

Lemma resolve_with_permits now key name load hp s :
  let '(r, s') := resolve_with now key name load hp s in permits_effect r s s'.
Proof.
  unfold resolve_with. destruct (check_request _ now key _) as [[[]|e] m]; [|done].
  pose proof (try_acquire_permits key (set_circuit m s)) as Ha.
  destruct (try_acquire key (set_circuit m s)) as [ok s1]. destruct Ha as (-> & _ & _ & Hp).
  rewrite permits_set_circuit in *. zcase; simpl negb; cbv iota.
  - destruct (load (loader s1)) as [[comp|e] l]; cbn [permits_effect].
    + split; [done|]. intros k. by rewrite permits_set_loader, Hp.
    + intros k. rewrite permits_release, permits_set_circuit, permits_set_loader, Hp,
        permits_set_circuit. repeat case_decide; try congruence; lia.
  - simpl. intros k. rewrite Hp, permits_set_circuit. lia.
Qed.

Lemma begin_permits now req s :
  let '(b, s') := begin now req s in
  match b with
  | Running p => permits_effect (Success (component p) (handler_path p) (module p) (permit p)) s s'
  | _ => forall k, get_module_semaphore k s' = get_module_semaphore k s
  end.
Proof.
  unfold begin. destruct (validate_path_length _); [done|].
  destruct (validate_content_length _ _); [done|].
  destruct (Str.starts_with STATIC_PREFIX _); [by destruct (static_files config)|].
  destruct (Str.starts_with MIK_API_PREFIX _); [done|].
  destruct (Str.strip_prefix OPENAPI_PREFIX _); [by destruct (Str.is_empty _)|].
  destruct (Str.starts_with SCRIPT_PREFIX _); [done|].
  assert (let '(r, s') := if Str.starts_with TENANT_PREFIX (path req)
    then resolve_tenant_module now (path req) s else resolve_module now (path req) s in
    permits_effect r s s') as Hr.
  { destruct (Str.starts_with TENANT_PREFIX _).
    - unfold resolve_tenant_module. destruct (Str.strip_prefix _ _); [|done].
      destruct (negb _); [done|]. destruct (parse_module_path_route _ _) as [[m hp]|]; [|done].
      destruct (negb _); [done|]. apply resolve_with_permits.
    - unfold resolve_module. destruct (Str.strip_prefix _ _); [|done].
      destruct (parse_module_route _ _) as [m hp]. destruct (Str.is_empty m); [done|].
      destruct (single_component config), (single_component_name config);
        try apply resolve_with_permits. by destruct (String.eqb m _). }
  destruct (if Str.starts_with TENANT_PREFIX _ then _ else _) as [[c hp m pm|r] s']; done.
Qed.

Lemma finish_permits now ms p s k :
  get_module_semaphore k (finish now ms p s).2 = get_module_semaphore k (release (permit p) s).
Proof.
  rewrite !permits_release. unfold finish.
  destruct (parse_path_and_query _) as [[]|]; [|by rewrite <- permits_release].
  destruct (collect_request_body _ _) as [[b|r]|]; [|by rewrite <- permits_release..].
  destruct (rewrite_request_path _ _ _); [|by rewrite <- permits_release].
  destruct (execute _ _); simpl snd; rewrite permits_release; by destruct (module p).
Qed.

(** The permits of a key and the requests holding one. *)
Definition holding (k : string) (fl : list Pending) : Z :=
  Z.of_nat (length (filter (fun p => permit p = Some k) fl)).

Definition bulkhead (y : sys) : Prop :=
  forall k, 0 <= get_module_semaphore k (rstate y) /\
    get_module_semaphore k (rstate y) + holding k (inflight y) = max_per_module_requests config.

Lemma holding_cons k p fl :
  holding k (p :: fl) = (if decide (permit p = Some k) then 1 else 0) + holding k fl.
Proof. unfold holding. rewrite filter_cons. case_decide; rewrite ?length_cons; lia. Qed.

Lemma holding_mid k p fl1 fl2 :
  holding k (fl1 ++ p :: fl2) = (if decide (permit p = Some k) then 1 else 0) + holding k (fl1 ++ fl2).
Proof.
  rewrite <- holding_cons. unfold holding. f_equal. apply Permutation_length.
  by rewrite <- Permutation_middle.
Qed.

Lemma bulkhead_step y y' : bulkhead y -> step y y' -> bulkhead y'.
Proof.
  intros Hb Hs k. destruct (Hb k) as [Hnn Heq].
  inversion Hs as [now req s s' r fl E|now req s s' p fl E|now ms p fl1 fl2 s|p fl1 fl2 s];
    subst; simpl in *.
  - pose proof (begin_permits now req s) as Hp. rewrite E in Hp. by rewrite Hp.
  - pose proof (begin_permits now req s) as Hp. rewrite E in Hp. rewrite holding_cons.
    unfold permits_effect in Hp. destruct (permit p) as [key|].
    + destruct Hp as [Hpos Hp]. rewrite Hp. repeat case_decide; subst; try congruence; lia.
    + rewrite Hp. case_decide; [done|lia].
  - rewrite finish_permits, permits_release. rewrite holding_mid in Heq. case_decide; lia.
  - rewrite permits_release. rewrite holding_mid in Heq. case_decide; lia.
Qed.

End Router.
