(* ===== verification/Runtime.v ===== *)
(** * The runtime: the router on the real module loader

    Router.v is proved against the interface [ModuleLoader]; here the loader of
    ModuleCache.v implements it, and the two are linked: what a request runs is
    the module its URL names. *)

From stdpp Require Import base gmap list strings relations.
From S2P Require Import Prelude Store StdPath CircuitBreaker PathSecurity ModulePath Http RtError.
From S2P Require Import WebContent AotCache ModuleCache Router.

#[local] Open Scope Z_scope.

Section Runtime.
Context {Comp K M : Type} `{HK : StoreLaws K (CachedComponent Comp)} `{HM : StoreLaws M CircuitState}.

(** *** The loader's environment *)
Variable from_binary : string -> result Comp string.
Variable serialize : Comp -> result string string.
Variable deserialize : string -> result Comp string.
Variable compute_key : string -> string.
Variable removable : string -> bool.
Variable aot_config : AotCacheConfig.
Variable fs_try_exists : Path -> result bool string.
Variable fs_len : Path -> option Z.
Variable fs_read : Path -> result string string.
Variable modules_dir : Path.
Variable user_modules_dir : option Path.

Notation Loader := (LState K).

#[local] Instance module_cache_loader : ModuleLoader Loader Comp := {|
  load_name := get_or_load from_binary serialize deserialize compute_key removable
    aot_config fs_try_exists fs_len fs_read modules_dir;
  load_path := get_or_load_module_path from_binary serialize deserialize compute_key removable
    aot_config fs_try_exists fs_len fs_read modules_dir user_modules_dir |}.

#[local] Instance module_cache_loader_laws : ModuleLoaderLaws Loader Comp.
Proof.
  split; intros now m l; cbn [load_name load_path module_cache_loader].
  - unfold get_or_load, sanitized. cbn [module_name tenant_id].
    by destruct (sanitize_module_name m).
  - unfold get_or_load_module_path, sanitized.
    destruct (sanitize_module_name (module_name m)); [|done].
    destruct (tenant_id m) as [t|]; [|done]. by destruct (sanitize_module_name t).
Qed.

Hypothesis deserialize_serialize :
  forall c bytes c', serialize c = Ok bytes -> deserialize bytes = Ok c' -> c' = c.
Hypothesis compute_key_inj : forall a b, compute_key a = compute_key b -> a = b.
Hypothesis compute_key_nodot : forall a, Str.contains_char Str.DOT (compute_key a) = false.

(** *** The router's environment *)
Variable percent_decode : string -> string.
Variable parse_path_and_query : string -> result (string * option string) string.
Variable header_value_ok : string -> bool.
Variable gzip : string -> option string.
Variable execute : Comp -> ExecReq -> result Resp (list string).
Variable debug_path : string -> string.
Variable config : RConfig (Comp := Comp).

Notation caches_ok := (cache_ok from_binary serialize compute_key fs_read modules_dir user_modules_dir).
Notation compiled := (compiled_from from_binary fs_read modules_dir user_modules_dir).
Notation State := (RState (M := M) (L := Loader)).

(** The module a path names: a tenant's below [/tenant/], a platform module
    below [/run/]. *)
Definition named_module (p : string) : option (ModulePath * string) :=
  if Str.starts_with TENANT_PREFIX p
  then Str.strip_prefix TENANT_PREFIX p ≫= parse_module_path_route percent_decode
  else (fun r => let '(name, hp) := parse_module_route percent_decode r in (Platform name, hp))
         <$> Str.strip_prefix RUN_PREFIX p.

(** The component of a request in flight was compiled from the file of the
    module its path names, for the handler path that follows. *)
Definition runs_its_module (p : Pending (Comp := Comp)) : Prop :=
  exists m, named_module (path (request p)) = Some (m, handler_path p) /\
    sanitized m = true /\ compiled m (component p) /\ module p = Some (handler_name m).

(** One resolution with a loader that keeps the caches consistent. *)
Lemma resolve_with_ok (Q : Comp -> Prop) now key name load hp (s s' : State) r :
  (forall l, caches_ok l -> caches_ok (load l).2 /\ forall c, (load l).1 = Ok c -> Q c) ->
  caches_ok (loader s) -> resolve_with debug_path config now key name load hp s = (r, s') ->
  caches_ok (loader s') /\
  forall c hp' mo pe, r = Success c hp' mo pe -> Q c /\ hp' = hp /\ mo = Some name.
Proof.
  intros Hload Hok. unfold resolve_with.
  destruct (check_request _ _ _ _) as [[[]|e] m1]; [|by intros [= <- <-]].
  unfold try_acquire. zcase; cbn [negb]; [|by intros [= <- <-]].
  cbn [loader set_semaphores set_circuit]. pose proof (Hload (loader s) Hok) as [Hl Hq].
  destruct (load (loader s)) as [[c|e] l]; intros [= <- <-]; cbn [loader set_loader]; [|done].
  split; [done|]. intros c' hp' mo pe [= <- <- <- _]. split_and!; [by apply Hq|done|done].
Qed.

Hypothesis multi_module : single_component config = None.

Lemma resolve_path_ok now m hp (s s' : State) r : caches_ok (loader s) ->
  resolve_multi_module_path debug_path config now m hp s = (r, s') ->
  caches_ok (loader s') /\ forall c hp' mo pe, r = Success c hp' mo pe ->
    (sanitized m = true /\ compiled m c) /\ hp' = hp /\ mo = Some (handler_name m).
Proof.
  intros Hok Hr. eapply resolve_with_ok; [|exact Hok|exact Hr]. intros l Hl. cbn [load_path module_cache_loader].
  pose proof (path_loader_ok from_binary serialize deserialize compute_key removable aot_config
    fs_try_exists fs_len fs_read modules_dir user_modules_dir deserialize_serialize compute_key_inj
    compute_key_nodot now m l Hl) as Hp.
  by destruct (get_or_load_module_path _ _ _ _ _ _ _ _ _ _ _ _ _ _).
Qed.

Lemma resolve_name_ok now name hp (s s' : State) r : caches_ok (loader s) ->
  resolve_multi_module debug_path config now name hp s = (r, s') ->
  caches_ok (loader s') /\ forall c hp' mo pe, r = Success c hp' mo pe ->
    (sanitized (Platform name) = true /\ compiled (Platform name) c) /\ hp' = hp /\ mo = Some name.
Proof.
  intros Hok Hr. eapply resolve_with_ok; [|exact Hok|exact Hr]. intros l Hl. cbn [load_name module_cache_loader].
  pose proof (name_loader_ok from_binary serialize deserialize compute_key removable aot_config
    fs_try_exists fs_len fs_read modules_dir user_modules_dir deserialize_serialize compute_key_inj
    compute_key_nodot now name l Hl) as Hp.
  by destruct (get_or_load _ _ _ _ _ _ _ _ _ _ _ _ _).
Qed.

Definition resolve (now : Instant) (p : string) (s : State) : Resolution * State :=
  if Str.starts_with TENANT_PREFIX p
  then resolve_tenant_module percent_decode debug_path config now p s
  else resolve_module percent_decode debug_path config now p s.

Lemma resolve_ok now p (s s' : State) r : caches_ok (loader s) -> resolve now p s = (r, s') ->
  caches_ok (loader s') /\ forall c hp mo pe, r = Success c hp mo pe ->
    exists m, named_module p = Some (m, hp) /\ sanitized m = true /\ compiled m c /\
      mo = Some (handler_name m).
Proof.
  intros Hok. unfold resolve, named_module.
  destruct (Str.starts_with TENANT_PREFIX p).
  - unfold resolve_tenant_module. destruct (Str.strip_prefix TENANT_PREFIX p) as [q|]; [|by intros [= <- <-]].
    destruct (negb (tenants_configured config)); [by intros [= <- <-]|]. cbn [mbind option_bind].
    destruct (parse_module_path_route percent_decode q) as [[m hp]|]; [|by intros [= <- <-]].
    destruct (negb (is_tenant m)); [by intros [= <- <-]|]. intros Hr.
    apply resolve_path_ok in Hr as [Hc Hs]; [|done]. split; [done|].
    intros c hp' mo pe ->. destruct (Hs c hp' mo pe eq_refl) as ([? ?] & -> & ->). by exists m.
  - unfold resolve_module. destruct (Str.strip_prefix RUN_PREFIX p) as [q|]; [|by intros [= <- <-]].
    csimpl. destruct (parse_module_route percent_decode q) as [name hp].
    destruct (Str.is_empty name); [by intros [= <- <-]|]. rewrite multi_module. intros Hr.
    apply resolve_name_ok in Hr as [Hc Hs]; [|done]. split; [done|].
    intros c hp' mo pe ->. destruct (Hs c hp' mo pe eq_refl) as ([? ?] & -> & ->).
    by exists (Platform name).
Qed.

Lemma begin_ok now req (s s' : State) b : caches_ok (loader s) ->
  begin percent_decode gzip debug_path config now req s = (b, s') ->
  caches_ok (loader s') /\ forall p, b = Running p -> runs_its_module p.
Proof.
  intros Hok. unfold begin.
  destruct (validate_path_length _); [by intros [= <- <-]|].
  destruct (validate_content_length _ _); [by intros [= <- <-]|].
  destruct (Str.starts_with STATIC_PREFIX _); [by destruct (static_files config); intros [= <- <-]|].
  destruct (Str.starts_with MIK_API_PREFIX _); [by intros [= <- <-]|].
  destruct (Str.strip_prefix OPENAPI_PREFIX _); [by destruct (Str.is_empty _); intros [= <- <-]|].
  destruct (Str.starts_with SCRIPT_PREFIX _); [by intros [= <- <-]|].
  change (if Str.starts_with TENANT_PREFIX (path req) then _ else _) with (resolve now (path req) s).
  destruct (resolve now (path req) s) as [r s1] eqn:E. apply resolve_ok in E as [Hc Hs]; [|done].
  destruct r as [c hp mo pe|resp]; intros [= <- <-]; [|done]. split; [done|].
  intros p [= <-]. exact (Hs c hp mo pe eq_refl).
Qed.

Lemma finish_loader now ms p (s : State) :
  loader (finish parse_path_and_query header_value_ok gzip execute config now ms p s).2 = loader s.
Proof.
  assert (forall pe (s : State), loader (release config pe s) = loader s) as Hrel by (by intros [k|] s0).
  assert (forall mo ok (s : State), loader (record_outcome config now mo ok s) = loader s) as Hrec
    by (by intros [k|] ok s0).
  unfold finish. destruct (parse_path_and_query _); [|apply Hrel].
  destruct (collect_request_body _ _) as [[|]|]; [|apply Hrel..].
  destruct (rewrite_request_path _ _ _ _); [|apply Hrel].
  destruct (execute _ _); cbn [snd]; by rewrite Hrel, Hrec.
Qed.

Definition runtime_ok (y : sys (M := M) (L := Loader) (Comp := Comp)) : Prop :=
  caches_ok (loader (rstate y)) /\ Forall runs_its_module (inflight y).

Notation rstep := (step percent_decode parse_path_and_query header_value_ok gzip execute debug_path config).

Lemma runtime_step y y' : runtime_ok y -> rstep y y' -> runtime_ok y'.
Proof.
  intros [Hc HF] Hs. destruct Hs as [now req s s' r fl Hb|now req s s' p fl Hb|now ms p fl1 fl2 s|p fl1 fl2 s];
    unfold runtime_ok in *; cbn [rstate inflight] in *.
  - apply begin_ok in Hb as [? _]; [|done]. done.
  - apply begin_ok in Hb as [? Hp]; [|done]. split; [done|]. constructor; [by apply Hp|done].
  - rewrite finish_loader. split; [done|]. apply Forall_app in HF as [? HF]. apply Forall_cons in HF as [_ ?].
    by apply Forall_app.
  - split; [by destruct (permit p)|]. apply Forall_app in HF as [? HF]. apply Forall_cons in HF as [_ ?].
    by apply Forall_app.
Qed.

(** End to end, from the URL to the component: whatever requests arrive,
    finish or are cancelled, in any interleaving, starting from consistent
    caches, every request in flight runs the component compiled from the file of
    the very module its path names (of the tenant it names, below [/tenant/]),
    with the handler path that follows, and is accounted under that module's
    name. *)
Lemma requests_run_their_module (m : M) (l : Loader) (y : sys (M := M) (L := Loader) (Comp := Comp)) :
  caches_ok l -> rtc rstep (init m l) y ->
  caches_ok (loader (rstate y)) /\
  forall p, p ∈ inflight y -> exists md, named_module (path (request p)) = Some (md, handler_path p) /\
    sanitized md = true /\ compiled md (component p) /\ module p = Some (handler_name md).
Proof.
  intros Hl Hr. assert (runtime_ok y) as [Hc HF].
  { assert (runtime_ok (init m l)) as Hi by (by split; [|constructor]).
    clear Hl. revert Hi. induction Hr; eauto using runtime_step. }
  split; [done|]. intros p Hp. rewrite Forall_forall in HF. by apply HF.
Qed.
End Runtime.

Section Witness.
Definition runtime_config : RConfig (Comp := string) := {|
  cb_config := default_config; max_per_module_requests := 10; max_body_size_bytes := 100;
  single_component := None; single_component_name := None; tenants_configured := true;
  static_files := None; gateway := fun _ => Err []; schema := fun _ => RtError.not_found "" |}.

Definition empty_loader : LState (gmap string (CachedComponent string)) := {| cache := ∅; aot := ∅ |}.

#[local] Instance string_loader : ModuleLoader (LState (gmap string (CachedComponent string))) string :=
  module_cache_loader (fun w => Ok ("compiled " +:+ w)) (fun c => Ok c) (fun b => Ok b) hex_key
    (fun _ => true) config_default (fun _ => Ok true) (fun _ => Some 3) (fun p => Ok (to_str p))
    [RootDir; Normal "modules"] (Some [RootDir; Normal "tenants"]).

End Witness.
