(* ===== verification/RouterProps.v ===== *)
(** RouterProps: what the router guarantees, and what it does to tenants'
    circuit breakers. *)

From S2P Require Import Prelude Store CircuitBreaker PathSecurity ModulePath Http RtError WebContent ModuleCache Router.

(** ** Circuits and keys *)

Definition not_closed (o : option CircuitState) : Prop :=
  match o with Some (Open _ _) | Some (HalfOpen _) => True | _ => False end.

Section Circuits.
Context {M : Type} `{StoreLaws M CircuitState}.
Variable cfg : CircuitBreakerConfig.

Lemma check_get now k (m : M) :
  st_get k (check_request cfg now k m).2 =
  match (check_closure cfg now (st_get k m)).1 with Nop => st_get k m | Put s => Some s end.
Proof. rewrite check_request_state, get_compute_eq. done. Qed.

Lemma check_get_ne now k k' (m : M) :
  k <> k' -> st_get k' (check_request cfg now k m).2 = st_get k' m.
Proof. intros. rewrite check_request_state. by apply get_compute_ne. Qed.

Lemma check_ok now k (m : M) :
  is_ok (check_request cfg now k m).1 =
  match (check_closure cfg now (st_get k m)).2 with None => true | Some _ => false end.
Proof. unfold check_request. by destruct (check_closure _ _ _).2 as [[]|]. Qed.

Lemma check_not_closed now k (m : M) :
  not_closed (st_get k m) -> not_closed (st_get k (check_request cfg now k m).2).
Proof.
  rewrite check_get. destruct (st_get k m) as [[n|t n|t]|]; simpl; try done; zcase; done.
Qed.

Lemma failure_not_closed now k (m : M) :
  not_closed (st_get k m) -> not_closed (st_get k (record_failure cfg now k m)).
Proof. rewrite get_record_failure. by destruct (st_get k m) as [[n|t n|t]|]. Qed.

Lemma failure_get_ne now k k' (m : M) :
  k <> k' -> st_get k' (record_failure cfg now k m) = st_get k' m.
Proof. intros. by apply get_compute_ne. Qed.

Lemma success_get_ne k k' (m : M) : k <> k' -> st_get k' (record_success k m) = st_get k' m.
Proof. intros. by apply get_compute_ne. Qed.

Lemma check_then_halfopen now k (m : M) :
  not_closed (st_get k m) -> is_ok (check_request cfg now k m).1 = true ->
  st_get k (check_request cfg now k m).2 = Some (HalfOpen now).
Proof.
  rewrite check_ok, check_get. destruct (st_get k m) as [[n|t n|t]|]; simpl; try done; zcase; done.
Qed.

End Circuits.

Section Props.
Context {M L Comp : Type} `{StoreLaws M CircuitState} `{ModuleLoaderLaws L Comp}.
Variable percent_decode : string -> string.
Variable parse_path_and_query : string -> result (string * option string) string.
Variable header_value_ok : string -> bool.
Variable gzip : string -> option string.
Variable execute : Comp -> ExecReq -> result Resp (list string).
Variable debug_path : string -> string.
Variable config : RConfig (Comp := Comp).

Local Notation RState := (RState (M := M) (L := L)).
Local Notation begin := (begin percent_decode gzip debug_path config (M := M) (L := L)).
Local Notation finish := (finish parse_path_and_query header_value_ok gzip execute config
  (M := M) (L := L)).
Local Notation step := (step percent_decode parse_path_and_query header_value_ok gzip execute
  debug_path config (M := M) (L := L)).
Local Notation resolve_with := (resolve_with debug_path config (M := M) (L := L)).

(** *** What resolving does to the circuit of a key *)

Lemma resolve_with_ne now key name load hp s k :
  key <> k ->
  st_get k (circuit_breaker (resolve_with now key name load hp s).2) =
  st_get k (circuit_breaker s).
Proof.
  intros Hne. unfold Router.resolve_with. pose proof (check_get_ne (cb_config config) now key k
    (circuit_breaker s) Hne) as Hc.
  destruct (check_request _ _ _ _) as [[[]|e] m]; simpl in Hc; [|done].
  pose proof (try_acquire_permits config key (set_circuit m s)) as Ha.
  destruct (try_acquire config key _) as [[] s1]; destruct Ha as (_ & Ha & _); simpl in *;
    [|by rewrite Ha].
  destruct (load (loader s1)) as [[c|e] l]; simpl; rewrite ?failure_get_ne, Ha by done; done.
Qed.

Lemma resolve_with_not_closed now key name load hp s k :
  not_closed (st_get k (circuit_breaker s)) ->
  not_closed (st_get k (circuit_breaker (resolve_with now key name load hp s).2)).
Proof.
  intros Hnc. destruct (decide (key = k)) as [->|Hne]; [|by rewrite resolve_with_ne].
  unfold Router.resolve_with.
  pose proof (check_not_closed (cb_config config) now k _ Hnc) as Hc.
  destruct (check_request _ _ _ _) as [[[]|e] m]; simpl in Hc; [|done].
  pose proof (try_acquire_permits config k (set_circuit m s)) as Ha.
  destruct (try_acquire config k _) as [[] s1]; destruct Ha as (_ & Ha & _); simpl in *;
    [|by rewrite Ha].
  destruct (load (loader s1)) as [[c|e] l]; simpl; rewrite Ha; [done|].
  by apply failure_not_closed.
Qed.

(** A component is reported under a name only if its loader accepted it. *)
Lemma resolve_with_success now key name load hp s c hp' md pm s' :
  resolve_with now key name load hp s = (Success c hp' md pm, s') ->
  md = Some name /\ exists l, is_ok (load l).1 = true.
Proof.
  unfold Router.resolve_with. destruct (check_request _ _ _ _) as [[[]|e] m]; [|done].
  destruct (try_acquire config key _) as [[] s1]; [|done]. simpl.
  destruct (load (loader s1)) as [[c0|e] l] eqn:El; [|done]. intros [= <- <- <- <- <-].
  split; [done|]. exists (loader s1). by rewrite El.
Qed.

(** *** Routing *)

(** A request for a tenant's module that passes the first checks. *)
Definition tenant_request (req : HReq) (m : ModulePath) (hp : string) : Prop :=
  validate_path_length (path req) = None /\
  validate_content_length (req_headers req) (max_body_size_bytes config) = None /\
  is_tenant m = true /\ tenants_configured config = true /\
  exists tp, path req = TENANT_PREFIX +:+ tp /\
    parse_module_path_route percent_decode tp = Some (m, hp).

(** Likewise for a platform module. *)
Definition run_request (req : HReq) (module hp : string) : Prop :=
  validate_path_length (path req) = None /\
  validate_content_length (req_headers req) (max_body_size_bytes config) = None /\
  module <> EmptyString /\ single_component config = None /\
  exists rp, path req = RUN_PREFIX +:+ rp /\ parse_module_route percent_decode rp = (module, hp).

(** What [begin] makes of a resolution. *)
Definition to_begun (req : HReq) (x : Resolution (Comp := Comp) * RState)
  : Begun (Comp := Comp) * RState :=
  match x with
  | (Respond r, s) => (Answered (Ok r), s)
  | (Success comp hp md pm, s) =>
      (Running {| component := comp; handler_path := hp; module := md; permit := pm;
                  request := req |}, s)
  end.

Lemma begin_tenant now req m hp s :
  tenant_request req m hp ->
  begin now req s =
  to_begun req (resolve_with now (cache_key m) (handler_name m) (load_path now m) hp s).
Proof.
  intros (Hl & Hc & Hm & Ht & tp & Hp & Hparse). unfold Router.begin. rewrite Hl, Hc, Hp.
  change (Str.starts_with STATIC_PREFIX (TENANT_PREFIX +:+ tp)) with false.
  change (Str.starts_with MIK_API_PREFIX (TENANT_PREFIX +:+ tp)) with false.
  change (Str.strip_prefix OPENAPI_PREFIX (TENANT_PREFIX +:+ tp)) with (@None string).
  change (Str.starts_with SCRIPT_PREFIX (TENANT_PREFIX +:+ tp)) with false.
  change (Str.starts_with TENANT_PREFIX (TENANT_PREFIX +:+ tp)) with true. cbv iota beta zeta.
  unfold resolve_tenant_module.
  change (Str.strip_prefix TENANT_PREFIX (TENANT_PREFIX +:+ tp)) with (Some tp). cbv iota beta.
  rewrite Ht, Hparse. cbv iota beta. rewrite Hm. cbn [negb].
  unfold resolve_multi_module_path. by destruct (resolve_with _ _ _ _ _ _) as [[] ?].
Qed.

Lemma begin_run now req module hp s :
  run_request req module hp ->
  begin now req s = to_begun req (resolve_with now module module (load_name now module) hp s).
Proof.
  intros (Hl & Hc & Hm & Hs & rp & Hp & Hparse). unfold Router.begin. rewrite Hl, Hc, Hp.
  change (Str.starts_with STATIC_PREFIX (RUN_PREFIX +:+ rp)) with false.
  change (Str.starts_with MIK_API_PREFIX (RUN_PREFIX +:+ rp)) with false.
  change (Str.strip_prefix OPENAPI_PREFIX (RUN_PREFIX +:+ rp)) with (@None string).
  change (Str.starts_with SCRIPT_PREFIX (RUN_PREFIX +:+ rp)) with false.
  change (Str.starts_with TENANT_PREFIX (RUN_PREFIX +:+ rp)) with false. cbv iota beta zeta.
  unfold resolve_module.
  change (Str.strip_prefix RUN_PREFIX (RUN_PREFIX +:+ rp)) with (Some rp). cbv iota beta.
  rewrite Hparse, Hs. cbv iota beta. destruct module as [|a md]; [done|]. cbn [Str.is_empty].
  unfold resolve_multi_module. by destruct (resolve_with _ _ _ _ _ _) as [[] ?].
Qed.

(** Every request that is not answered at once resolves a module: the shape
    of [begin] for arguments by cases. *)
Lemma begin_cases now req s :
  (exists b, begin now req s = (b, s) /\ (forall p, b <> Running p)) \/
  (exists m hp, is_tenant m = true /\
     begin now req s =
     to_begun req (resolve_with now (cache_key m) (handler_name m) (load_path now m) hp s)) \/
  (exists module hp, begin now req s =
     to_begun req (resolve_with now module module (load_name now module) hp s)) \/
  (exists comp hp module, single_component config = Some comp /\
     begin now req s = to_begun req (Success comp hp (Some module) None, s)).
Proof.
  unfold Router.begin. destruct (validate_path_length _); [by left; eauto|].
  destruct (validate_content_length _ _); [by left; eauto|].
  destruct (Str.starts_with STATIC_PREFIX _); [left; destruct (static_files config); by eauto|].
  destruct (Str.starts_with MIK_API_PREFIX _); [by left; eauto|].
  destruct (Str.strip_prefix OPENAPI_PREFIX _); [left; destruct (Str.is_empty _); by eauto|].
  destruct (Str.starts_with SCRIPT_PREFIX _); [by left; eauto|].
  destruct (Str.starts_with TENANT_PREFIX _).
  - unfold resolve_tenant_module. destruct (Str.strip_prefix _ _); [|by left; eauto].
    destruct (negb _); [by left; eauto|].
    destruct (parse_module_path_route _ _) as [[m hp]|]; [|by left; eauto].
    destruct (is_tenant m) eqn:Hm; simpl; [|by left; eauto].
    right; left. exists m, hp. split; [done|]. unfold resolve_multi_module_path.
    by destruct (resolve_with _ _ _ _ _ _) as [[] ?].
  - unfold resolve_module. destruct (Str.strip_prefix _ _); [|by left; eauto].
    destruct (parse_module_route _ _) as [m hp]. destruct (Str.is_empty m); [by left; eauto|].
    destruct (single_component config) as [comp|], (single_component_name config) as [nm|].
    + destruct (String.eqb m nm); [|by left; eauto]. right; right; right. by exists comp, hp, m.
    + right; right; left. exists m, hp. unfold resolve_multi_module.
      by destruct (resolve_with _ _ _ _ _ _) as [[] ?].
    + right; right; left. exists m, hp. unfold resolve_multi_module.
      by destruct (resolve_with _ _ _ _ _ _) as [[] ?].
    + right; right; left. exists m, hp. unfold resolve_multi_module.
      by destruct (resolve_with _ _ _ _ _ _) as [[] ?].
Qed.

Lemma to_begun_state req x : (to_begun req x).2 = x.2.
Proof. by destruct x as [[] ?]. Qed.

Lemma begin_not_closed now req s k :
  not_closed (st_get k (circuit_breaker s)) ->
  not_closed (st_get k (circuit_breaker (begin now req s).2)).
Proof.
  intros Hnc.
  destruct (begin_cases now req s) as [(b & -> & _)|[(m & hp & _ & ->)|[(m & hp & ->)|(c & hp & m & _ & ->)]]];
    rewrite ?to_begun_state; try done; by apply resolve_with_not_closed.
Qed.

Lemma finish_circuit_ne now ms p s k :
  module p <> Some k ->
  st_get k (circuit_breaker (finish now ms p s).2) = st_get k (circuit_breaker s).
Proof.
  intros Hne. assert (forall pm (s : RState), circuit_breaker (release config pm s) = circuit_breaker s) as Hrel
    by (by intros []).
  unfold Router.finish. destruct (parse_path_and_query _) as [[]|]; [|simpl; by rewrite Hrel].
  destruct (collect_request_body _ _) as [[b|r]|]; [|simpl; by rewrite Hrel..].
  destruct (rewrite_request_path _ _ _) as [x|]; [|simpl; by rewrite Hrel].
  destruct (execute _ _); simpl; rewrite Hrel; (destruct (module p) as [name|]; [|done]); simpl.
  - apply success_get_ne. congruence.
  - apply failure_get_ne. congruence.
Qed.

(** *** A tenant's module and its key *)

Variables t n : string.
Let m : ModulePath := Tenant t n.
Let k : string := cache_key m.
Hypothesis m_sanitized : sanitized m = true.
Hypothesis multi_module : single_component config = None.
(** No tenant's identifier starts with [tenant:]. *)
Hypothesis no_odd_tenant : forall now m' l,
  is_ok (load_path now m' l).1 = true ->
  forall t', tenant_id m' = Some t' -> Str.starts_with "tenant:" t' = false.

Lemma key_has_slash : Str.contains_char Str.SLASH k = true.
Proof. unfold k, m. cbn [cache_key]. rewrite !Str.contains_char_app. simpl. by rewrite orb_true_r. Qed.

Lemma platform_key_refused : sanitized (Platform k) = false.
Proof.
  destruct (sanitized (Platform k)) eqn:E; [|done].
  apply sanitized_plain in E as [(_ & _ & _ & Hs) _]. simpl in Hs.
  pose proof key_has_slash. congruence.
Qed.

(** No request that reaches execution is recorded under the tenant's key. *)
Lemma running_name now req s p s' :
  begin now req s = (Running p, s') -> module p <> Some k.
Proof.
  intros E.
  destruct (begin_cases now req s) as [(b & Hb & Hn)|[(m' & hp & Hm' & Hb)|[(md & hp & Hb)|
    (c & hp & md & Hs & _)]]]; try rewrite E in Hb.
  - injection Hb as <- _. by destruct (Hn p).
  - destruct (resolve_with _ _ _ _ _ _) as [[c hp' md pm|r] s1] eqn:Er; [|done].
    apply resolve_with_success in Er as (-> & l & Hl). injection Hb as -> ->. simpl. intros [= Hk].
    destruct m' as [|t' n']; [done|]. pose proof (no_odd_tenant _ _ _ Hl t' eq_refl) as Ht'.
    apply load_path_sanitized, sanitized_plain in Hl as [_ Hpl].
    destruct (Hpl t' eq_refl) as (_ & _ & _ & Hslash).
    assert (Str.split_once Str.SLASH (t' +:+ String "/" n') = Some (t', n')) as Hsp1
      by (by apply Str.split_once_Some).
    assert (Str.split_once Str.SLASH (("tenant:" +:+ t) +:+ String "/" n) = Some ("tenant:" +:+ t, n)) as Hsp2.
    { apply Str.split_once_Some. split; [done|]. rewrite Str.contains_char_app.
      destruct (sanitized_plain _ m_sanitized) as [_ Htp].
      by destruct (Htp t eq_refl) as (_ & _ & _ & ->). }
    change (t' +:+ String "/" n' = ("tenant:" +:+ t) +:+ String "/" n) in Hk.
    rewrite Hk, Hsp2 in Hsp1. injection Hsp1 as <- _.
    change (Str.starts_with "tenant:" ("tenant:" +:+ t) = false) in Ht'.
    by rewrite Str.starts_with_app in Ht'.
  - destruct (resolve_with _ _ _ _ _ _) as [[c hp' md' pm|r] s1] eqn:Er; [|done].
    apply resolve_with_success in Er as (-> & l & Hl). injection Hb as -> ->. simpl. intros [= ->].
    apply load_name_sanitized in Hl. by rewrite platform_key_refused in Hl.
  - congruence.
Qed.

Definition stuck (y : sys (M := M) (L := L) (Comp := Comp)) : Prop :=
  not_closed (st_get k (circuit_breaker (rstate y))) /\
  Forall (fun p => module p <> Some k) (inflight y).

Lemma stuck_step y y' : stuck y -> step y y' -> stuck y'.
Proof.
  intros [Hnc Hfl] Hs. inversion Hs as [now req s s' r fl E|now req s s' p fl E|now ms p fl1 fl2 s|p fl1 fl2 s];
    subst; unfold stuck in *; simpl in *.
  - split; [|done]. pose proof (begin_not_closed now req s k Hnc) as Hb. by rewrite E in Hb.
  - split; [pose proof (begin_not_closed now req s k Hnc) as Hb; by rewrite E in Hb|].
    constructor; [|done]. by eapply running_name.
  - apply Forall_app in Hfl as [Hf1 Hf2]. apply Forall_cons in Hf2 as [Hp Hf2].
    split; [by rewrite finish_circuit_ne|by apply Forall_app].
  - apply Forall_app in Hfl as [Hf1 Hf2]. apply Forall_cons in Hf2 as [Hp Hf2].
    split; [by destruct (permit p)|by apply Forall_app].
Qed.

(** The answer to a request whose circuit rejects it. *)
Lemma resolve_with_blocked now key name load hp s :
  is_ok (check_request (cb_config config) now key (circuit_breaker s)).1 = false ->
  exists r, (resolve_with now key name load hp s).1 = Respond r /\ rs_status r = 503.
Proof.
  intros Hb. unfold Router.resolve_with. destruct (check_request _ _ _ _) as [[[]|e] m']; [done|].
  by eexists.
Qed.

Lemma tenant_blocked now req hp s :
  tenant_request req m hp ->
  is_ok (check_request (cb_config config) now k (circuit_breaker s)).1 = false ->
  exists r, (begin now req s).1 = Answered (Ok r) /\ rs_status r = 503.
Proof.
  intros Hreq Hb. rewrite (begin_tenant now req m hp s Hreq).
  destruct (resolve_with_blocked now k (handler_name m) (load_path now m) hp s Hb) as (r & Hr & Hst).
  exists r. split; [|done]. unfold k in Hr. by destruct (resolve_with _ _ _ _ _ _) as [[] ?]; simplify_eq/=.
Qed.

Lemma rtc_stuck y y' : stuck y -> rtc step y y' -> stuck y'.
Proof. intros Hs Hr. induction Hr; eauto using stuck_step. Qed.

(** A tenant's circuit never closes again. The circuit is checked, and load
    failures are recorded, under the cache key [tenant:t/n], but the outcome of
    an execution is recorded under the handler name [t/n]. Once the circuit of
    a tenant's module is open or half-open it stays so, whatever requests are
    served and whether they succeed or fail, until the cache forgets it; and
    whenever a request is let through, even if it succeeds, every further
    request for the module is answered 503 until the probe times out. *)
Lemma tenant_circuit_never_closes (y y' : sys (M := M) (L := L) (Comp := Comp))
    (req req' : HReq) (hp hp' : string) (t1 t2 t3 ms : Z) (p : Pending (Comp := Comp)) (s1 : RState) :
  inflight y = [] -> not_closed (st_get k (circuit_breaker (rstate y))) -> rtc step y y' ->
  tenant_request req m hp -> tenant_request req' m hp' ->
  begin t1 req (rstate y') = (Running p, s1) ->
  0 < probe_timeout (cb_config config) -> t3 < t1 + probe_timeout (cb_config config) ->
  not_closed (st_get k (circuit_breaker (rstate y'))) /\
  exists r, (begin t3 req' (finish t2 ms p s1).2).1 = Answered (Ok r) /\ rs_status r = 503.
Proof.
  intros Hfl Hnc Hr Hreq Hreq' Hb Hpos Hlt.
  assert (stuck y) as Hst by (split; [done|rewrite Hfl; constructor]).
  apply (rtc_stuck y y') in Hr as [Hnc' _]; [|done]. split; [done|].
  apply (tenant_blocked t3 req' hp' _ Hreq').
  assert (st_get k (circuit_breaker (finish t2 ms p s1).2) = Some (HalfOpen t1)) as Hho.
  { rewrite finish_circuit_ne by (by eapply running_name).
    rewrite (begin_tenant t1 req m hp _ Hreq) in Hb. revert Hb.
    unfold Router.resolve_with. fold k.
    pose proof (check_then_halfopen (cb_config config) t1 k (circuit_breaker (rstate y')) Hnc') as Hc.
    destruct (check_request _ _ _ _) as [[[]|e] m']; simpl in Hc; [|done].
    pose proof (try_acquire_permits config k (set_circuit m' (rstate y'))) as Ha.
    destruct (try_acquire config k _) as [[] s2]; [|done]. simpl.
    destruct (load_path t1 m (loader s2)) as [[c|e] l]; [|done]. intros [= <- <-]. simpl.
    destruct Ha as (_ & -> & _). by apply Hc. }
  rewrite (check_halfopen_rejects (cb_config config) t3 t1); done.
Qed.

(** A tenant's failing executions never open its circuit: as long as its
    module loads, any number of requests whose executions fail leaves the
    circuit untracked, so the breaker rejects none of them. *)
Lemma tenant_execution_never_trips (reqs : list (Z * Z * HReq)) (s : RState) :
  (forall now l, is_ok (load_path now m l).1 = true) ->
  Forall (fun r => exists hp, tenant_request r.2 m hp) reqs ->
  st_get k (circuit_breaker s) = None ->
  let serve s r := (handle_request_inner percent_decode parse_path_and_query header_value_ok gzip
    execute debug_path config r.1.1 r.1.2 0 r.2 s).2 in
  st_get k (circuit_breaker (fold_left serve reqs s)) = None.
Proof.
  intros Hload HF Hnone serve. revert s Hnone.
  induction HF as [|[[now1 now2] req] reqs [hp Hreq] HF IH]; intros s Hnone; [done|].
  simpl. apply IH. unfold serve. simpl. unfold handle_request_inner.
  destruct (begin now1 req s) as [b s1] eqn:Eb.
  assert (st_get k (circuit_breaker s1) = None) as Hs1.
  { assert (s1 = (begin now1 req s).2) as -> by (by rewrite Eb).
    simpl in Hreq. rewrite (begin_tenant now1 req m hp s Hreq), to_begun_state.
    unfold Router.resolve_with. fold k.
    pose proof (check_get (cb_config config) now1 k (circuit_breaker s)) as Hc.
    rewrite Hnone in Hc. simpl in Hc.
    destruct (check_request _ _ _ _) as [[[]|e] m']; simpl in Hc; [|done].
    pose proof (try_acquire_permits config k (set_circuit m' s)) as Ha.
    destruct (try_acquire config k _) as [[] s2]; destruct Ha as (_ & Ha & _); simpl;
      [|by rewrite Ha].
    pose proof (Hload now1 (loader s2)) as Hl.
    destruct (load_path now1 m (loader s2)) as [[c|e] l]; [|done]. simpl. by rewrite Ha. }
  destruct b as [r| |p]; [done|done|].
  pose proof (finish_circuit_ne now2 0 p s1 k (running_name _ _ _ _ _ Eb)) as Hf.
  unfold Router.finish in *. cbv zeta in *. destruct (_ : _ * _) as [r s2] in Hf |- *. simpl in *.
  by rewrite Hf.
Qed.

(** A request for the platform module named like the tenant's key is let
    through by a closed circuit, fails to load, and counts as a failure of the
    tenant's circuit. *)
Lemma attack_step now req hp s :
  run_request req k hp -> 0 < get_module_semaphore config k s ->
  (forall c, st_get k (circuit_breaker s) = Some c -> exists n, c = Closed n) ->
  let s' := (begin now req s).2 in
  st_get k (circuit_breaker s') =
    st_get k (record_failure (cb_config config) now k (circuit_breaker s)) /\
  get_module_semaphore config k s' = get_module_semaphore config k s.
Proof.
  intros Hreq Hsem Hcl s'. subst s'. split.
  2:{ pose proof (begin_permits percent_decode gzip debug_path config now req s) as Hp.
      rewrite (begin_run now req k hp s Hreq) in *.
      destruct (resolve_with _ _ _ _ _ _) as [[c hp' md pm|r] s1] eqn:Er; [|simpl in *; by rewrite Hp].
      apply resolve_with_success in Er as (_ & l & Hl). apply load_name_sanitized in Hl.
      by rewrite platform_key_refused in Hl. }
  rewrite (begin_run now req k hp s Hreq), to_begun_state. unfold Router.resolve_with.
  assert (check_request (cb_config config) now k (circuit_breaker s) = (Ok tt, circuit_breaker s)) as ->.
  { unfold check_request, and_compute_with.
    destruct (st_get k (circuit_breaker s)) as [c|]; [|done]. by destruct (Hcl c eq_refl) as [n' ->]. }
  pose proof (try_acquire_permits config k (set_circuit (circuit_breaker s) s)) as Ha.
  destruct (try_acquire config k _) as [ok s1]. destruct Ha as (-> & Hc & _ & _).
  rewrite permits_set_circuit. destruct (Z.ltb_spec 0 (get_module_semaphore config k s)); [|lia].
  simpl negb. cbv iota. pose proof (load_name_sanitized now k (loader s1)) as Hl.
  destruct (load_name now k (loader s1)) as [[c|e] l].
  - simpl in Hl. rewrite platform_key_refused in Hl. by discriminate Hl.
  - simpl. by rewrite Hc.
Qed.

Definition attack (s : RState) (reqs : list (Z * HReq)) : RState :=
  fold_left (fun s r => (begin r.1 r.2 s).2) reqs s.

Definition after_failures (c : Z) (now : Instant) : CircuitState :=
  if c <? Z.max 1 (failure_threshold (cb_config config)) then Closed c else Open now c.

Lemma attack_run reqs r s :
  Forall (fun r => exists hp, run_request r.2 k hp) (reqs ++ [r]) ->
  st_get k (circuit_breaker s) = None -> 0 < get_module_semaphore config k s ->
  Z.of_nat (length (reqs ++ [r])) <= Z.max 1 (failure_threshold (cb_config config)) ->
  Z.of_nat (length (reqs ++ [r])) < u32_max ->
  st_get k (circuit_breaker (attack s (reqs ++ [r]))) =
    Some (after_failures (Z.of_nat (length (reqs ++ [r]))) r.1) /\
  get_module_semaphore config k (attack s (reqs ++ [r])) = get_module_semaphore config k s.
Proof.
  intros HF Hn Hsem Hle Hu. revert r HF Hle Hu.
  induction reqs as [|x reqs IH] using rev_ind; intros r HF Hle Hu.
  - apply Forall_cons in HF as [[hp Hreq] _].
    destruct (attack_step r.1 r.2 hp s Hreq Hsem) as [D1 D2]; [by rewrite Hn|].
    simpl. split; [|done]. rewrite D1, get_record_failure, Hn. simpl. unfold after_failures.
    repeat zcase; done || lia.
  - rewrite length_app in Hle, Hu |- *. simpl length in *.
    destruct (IH x) as [D1 D2]; [by apply Forall_app in HF as [? _]|lia|lia|].
    apply Forall_app in HF as [_ HF]. apply Forall_cons in HF as [[hp Hreq] _].
    unfold attack. rewrite fold_left_app. fold (attack s (reqs ++ [x])). simpl.
    unfold after_failures in D1. rewrite length_app in D1. simpl length in D1.
    destruct (Z.ltb_spec (Z.of_nat (length reqs + 1)) (Z.max 1 (failure_threshold (cb_config config))));
      [|rewrite length_app in Hle; simpl length in Hle; lia].
    destruct (attack_step r.1 r.2 hp (attack s (reqs ++ [x])) Hreq) as [D3 D4];
      [by rewrite D2|intros c Hc; rewrite D1 in Hc; injection Hc as <-; eauto|].
    rewrite D3, D4, get_record_failure, D1. split; [|done]. unfold after_failures. simpl.
    rewrite length_app in *. simpl length in *.
    rewrite sat_add_u32_small by lia.
    replace (Z.of_nat (length reqs + 1) + 1) with (Z.of_nat (length reqs + 1 + 1)) by lia.
    repeat zcase; done || lia.
Qed.

(** Anyone can open a tenant's circuit without sending the tenant a single
    request: requests for a platform module whose percent-decoded name is the
    tenant's cache key (such as [/run/tenant:acme%2Forders]) fail to load and
    are counted under that key, which is never sanitised. As many of them as
    the failure threshold make the tenant's own requests answered 503 for the
    whole timeout. *)
Lemma cross_tenant_trip (reqs : list (Z * HReq)) (t0 now : Z) (req treq : HReq) (hp hp' : string)
    (s : RState) :
  st_get k (circuit_breaker s) = None -> 0 < get_module_semaphore config k s ->
  Forall (fun r => exists hp, run_request r.2 k hp) (reqs ++ [(t0, req)]) ->
  Z.of_nat (length (reqs ++ [(t0, req)])) = Z.max 1 (failure_threshold (cb_config config)) ->
  Z.max 1 (failure_threshold (cb_config config)) < u32_max ->
  0 < timeout (cb_config config) -> now < t0 + timeout (cb_config config) ->
  tenant_request treq m hp' ->
  exists r, (begin now treq (attack s (reqs ++ [(t0, req)]))).1 = Answered (Ok r) /\
            rs_status r = 503.
Proof.
  intros Hn Hsem HF Hlen Hu Hpos Hlt Htreq.
  destruct (attack_run reqs (t0, req) s HF Hn Hsem) as [Hc _]; [lia|lia|].
  apply (tenant_blocked now treq hp' _ Htreq). rewrite check_ok, Hc.
  unfold after_failures. rewrite Hlen. zcase; [lia|]. simpl.
  zcase; [unfold elapsed, sat_sub in *; lia|done].
Qed.

End Props.

(** ** Permits *)

(** Bulkhead: whatever requests arrive, finish, fail or are cancelled, in
    any interleaving, the requests in flight that hold a permit of a module and
    the permits left add up to the configured maximum; so at most
    [max_per_module_requests] requests of a module run at once, and no permit
    is lost or created on any error path. *)
Lemma bulkhead_safe {M L Comp : Type} `{StoreLaws M CircuitState} `{ModuleLoaderLaws L Comp}
    percent_decode parse_path_and_query header_value_ok gzip execute debug_path
    (config : RConfig (Comp := Comp)) (circuits : M) (l : L) (y : sys (M := M) (L := L)) (k : string) :
  0 <= max_per_module_requests config ->
  rtc (step percent_decode parse_path_and_query header_value_ok gzip execute debug_path config)
    (init circuits l) y ->
  0 <= get_module_semaphore config k (rstate y) /\
  holding k (inflight y) = max_per_module_requests config - get_module_semaphore config k (rstate y) /\
  holding k (inflight y) <= max_per_module_requests config /\
  (inflight y = [] -> get_module_semaphore config k (rstate y) = max_per_module_requests config).
Proof.
  intros Hmax Hr. assert (bulkhead config y) as Hb.
  { assert (bulkhead config (init (Comp := Comp) circuits l)) as Hi
      by (intros k'; unfold holding, get_module_semaphore; simpl; rewrite lookup_empty; simpl; lia).
    revert Hi. induction Hr; eauto using bulkhead_step. }
  destruct (Hb k) as [Hnn Heq]. split_and!; [done|lia|lia|]. intros Hf. rewrite Hf in Heq.
  unfold holding in Heq. simpl in Heq. lia.
Qed.

(** ** Routes *)

Lemma filter_nonempty_id l :
  Forall (fun s => s <> EmptyString) l -> filter (fun s => Str.is_empty s = false) l = l.
Proof.
  induction 1 as [|x l Hx HF IH]; [done|]. rewrite filter_cons, decide_True, IH; [done|].
  by destruct x.
Qed.

Lemma decode_plain d s : Str.contains_char "%" s = false -> decode d s = s.
Proof. intros Hs. unfold decode. by rewrite Hs. Qed.

(** Routes: a platform path [m/rest] is the module [m] and the handler path
    [/rest], kept to the last byte; a tenant path is the tenant, the module and
    the remaining non-empty segments, so that it treats repeated and trailing
    slashes as one and hands the handler an undecoded path, unlike the platform
    route. *)
Lemma routes_spec (percent_decode : string -> string) (m rest t n : string) (segs : list string) :
  let tenant_path := Str.join "/" (t :: n :: segs) in
  Str.contains_char Str.SLASH m = false -> Str.contains_char "%" m = false ->
  Str.contains_char "%" rest = false -> m <> EmptyString ->
  Forall (fun s => s <> EmptyString /\ Str.contains_char Str.SLASH s = false) (t :: n :: segs) ->
  parse_module_route percent_decode (m +:+ "/" +:+ rest) = (m, "/" +:+ rest) /\
  parse_module_route percent_decode m = (m, "/") /\
  parse_module_path_route percent_decode tenant_path =
    Some (Tenant (decode percent_decode t) (decode percent_decode n),
          match segs with [] => "/" | _ => "/" +:+ Str.join "/" segs end) /\
  parse_module_path_route percent_decode (tenant_path +:+ "/") =
    parse_module_path_route percent_decode tenant_path.
Proof.
  intros tenant_path Hm Hp Hr Hne HF.
  assert (forall s, Forall (fun s => s <> EmptyString) [t; n] -> s <> EmptyString ->
    (Str.split Str.SLASH s = t :: n :: segs \/ Str.split Str.SLASH s = (t :: n :: segs) ++ [EmptyString]) ->
    parse_module_path_route percent_decode s =
    Some (Tenant (decode percent_decode t) (decode percent_decode n),
          match segs with [] => "/" | _ => "/" +:+ Str.join "/" segs end)) as Hparse.
  { intros s _ Hs Hsplit. unfold parse_module_path_route. destruct s as [|c s]; [done|].
    cbn [Str.is_empty].
    assert (filter (fun s => Str.is_empty s = false) (Str.split Str.SLASH (String c s)) = t :: n :: segs)
      as ->; [|done].
    assert (Forall (fun s => s <> EmptyString) (t :: n :: segs)) as HF'
      by (eapply Forall_impl; [exact HF|tauto]).
    destruct Hsplit as [->| ->]; [by apply filter_nonempty_id|].
    rewrite filter_app, filter_nonempty_id by done. by rewrite app_nil_r. }
  assert (Str.split Str.SLASH tenant_path = t :: n :: segs) as Hsplit.
  { apply Str.split_join; [done|]. eapply Forall_impl; [exact HF|]. by intros ? []. }
  apply Forall_cons in HF as [[Ht Hts] HF]. apply Forall_cons in HF as [[Hn _] _].
  assert (tenant_path <> EmptyString) as Hnil by (unfold tenant_path; by destruct t).
  split_and!.
  - unfold parse_module_route.
    assert (Str.is_empty (m +:+ "/" +:+ rest) = false) as -> by (by destruct m).
    rewrite (proj2 (Str.split_once_Some Str.SLASH (m +:+ "/" +:+ rest) m rest)) by done.
    by rewrite !decode_plain.
  - unfold parse_module_route. destruct m as [|c m]; [done|]. cbn [Str.is_empty].
    rewrite (proj2 (Str.split_once_None _ _)) by done. by rewrite decode_plain.
  - apply Hparse; [by repeat constructor|done|by left].
  - rewrite !Hparse; [done|by repeat constructor|done|by left|by repeat constructor|by destruct tenant_path|].
    right. rewrite <- Hsplit. clear. unfold Str.split. induction tenant_path as [|c s IH]; [done|].
    change (String c s +:+ "/") with (String c (s +:+ "/")). cbn [Str.split_pred]. rewrite IH.
    destruct (Ascii.eqb Str.SLASH c); [done|].
    pose proof (Str.split_pred_nonempty (Ascii.eqb Str.SLASH) s).
    by destruct (Str.split_pred (Ascii.eqb Str.SLASH) s).
Qed.

Definition set_query (q : option string) (r : HReq) : HReq := {|
  method := method r; path := path r; query := q; req_headers := req_headers r;
  req_body := req_body r |}.

(** The query string of a module request is lost: routing uses the path
    alone and the request handed to the component gets the handler path as its
    whole path and query, so the same request with any other query is executed
    identically and answered identically. *)
Lemma query_string_is_lost {M L Comp : Type} `{Store M CircuitState} `{ModuleLoader L Comp}
    percent_decode parse_path_and_query header_value_ok gzip execute debug_path
    (config : RConfig (Comp := Comp)) (now1 now2 ms : Z) (req : HReq) (q : option string)
    (s : RState (M := M) (L := L)) :
  let handle := handle_request_inner percent_decode parse_path_and_query header_value_ok gzip
    execute debug_path config now1 now2 ms in
  handle (set_query q req) s = handle req s.
Proof.
  unfold handle_request_inner, begin. cbv zeta. cbn [path req_headers set_query].
  destruct (validate_path_length _); [done|]. destruct (validate_content_length _ _); [done|].
  destruct (Str.starts_with STATIC_PREFIX _); [by destruct (static_files config)|].
  destruct (Str.starts_with MIK_API_PREFIX _); [done|].
  destruct (Str.strip_prefix OPENAPI_PREFIX _); [by destruct (Str.is_empty _)|].
  destruct (Str.starts_with SCRIPT_PREFIX _); [done|].
  by destruct (if Str.starts_with TENANT_PREFIX _ then _ else _) as [[] ?].
Qed.
