(* ===== verification/AppError.v ===== *)
(** * Errors of the daemon's HTTP API

    [AppError] of [src/src/daemon/http/mod.rs] with its conversion to a
    response, the [get_service!] macro of [src/src/daemon/http/handlers/mod.rs],
    and the UTF-8 check of [String::from_utf8]. *)

From stdpp Require Import base list strings.
From S2P Require Import Prelude Http.

Inductive AppError :=
| NotFound (msg : string)
| BadRequest (msg : string)
| Conflict (msg : string)
| Internal (msg : string)
| ServiceUnavailable (msg : string).

Definition status_and_message (e : AppError) : Z * string :=
  match e with
  | NotFound msg => (404, msg)
  | BadRequest msg => (400, msg)
  | Conflict msg => (409, msg)
  | Internal msg => (500, msg)
  | ServiceUnavailable msg => (503, msg)
  end.

(** [IntoResponse]: the status with [{"error": message}]. *)
Definition into_response (e : AppError) : Resp :=
  let '(status, message) := status_and_message e in
  resp status [("content-type", "application/json")]
    ("{" +:+ json_string "error" +:+ ":" +:+ json_string message +:+ "}").

(** [From<anyhow::Error>]; [?] on a failing service call. *)
Definition from_error (e : string) : AppError := Internal e.

Definition or_internal {A} (r : result A string) : result A AppError :=
  match r with Ok a => Ok a | Err e => Err (from_error e) end.

Definition get_service {S} (service_name : string) (service : option S) : result S AppError :=
  match service with
  | Some s => Ok s
  | None => Err (ServiceUnavailable
      (service_name +:+ " service is disabled. Enable it in ~/.mik/daemon.toml"))
  end.

(** ** UTF-8 *)

(** Number of continuation bytes announced by a lead byte, with the range of
    the first of them (RFC 3629: no overlong forms, no surrogates). *)
Definition utf8_lead (c : ascii) : option (nat * N * N) :=
  if Str.in_range 0 127 c then Some (0%nat, 128%N, 191%N)
  else if Str.in_range 194 223 c then Some (1%nat, 128%N, 191%N)
  else if Str.in_range 224 224 c then Some (2%nat, 160%N, 191%N)
  else if (Str.in_range 225 236 c || Str.in_range 238 239 c)%bool then Some (2%nat, 128%N, 191%N)
  else if Str.in_range 237 237 c then Some (2%nat, 128%N, 159%N)
  else if Str.in_range 240 240 c then Some (3%nat, 144%N, 191%N)
  else if Str.in_range 241 243 c then Some (3%nat, 128%N, 191%N)
  else if Str.in_range 244 244 c then Some (3%nat, 128%N, 143%N)
  else None.

Fixpoint utf8_from (need : nat) (lo hi : N) (s : string) : bool :=
  match s with
  | EmptyString => Nat.eqb need 0
  | String c s' =>
      match need with
      | O => match utf8_lead c with Some (n, lo, hi) => utf8_from n lo hi s' | None => false end
      | S n => (Str.in_range lo hi c && utf8_from n 128 191 s')%bool
      end
  end.

Definition is_utf8 (s : string) : bool := utf8_from 0 128 191 s.

Definition from_utf8 (bytes : string) : option string :=
  if is_utf8 bytes then Some bytes else None.
