(* ===== verification/KvStore.v ===== *)
(** * Key-value service of the daemon

    [src/src/daemon/services/kv/] (backend.rs, types.rs, memory.rs, redb.rs,
    store.rs) and [src/src/daemon/http/handlers/kv.rs]: the interface
    [KvBackend], its two implementations, and the HTTP handlers written against
    it. The clock is read once per operation and counts nanoseconds since the
    Unix epoch; redb's transactions may fail and then change nothing; the order
    in which a map is iterated is arbitrary. [None] stands for a panic, which
    aborts the process (the release profile sets [panic = "abort"]). *)

From stdpp Require Import base gmap list strings sorting.
From S2P Require Import Prelude AppError.

#[local] Open Scope Z_scope.

(** ** The interface ([backend.rs]) *)

Class KvBackend (S : Type) := {
  kv_get : Instant -> string -> S -> result (option string) string * S;
  kv_set : Instant -> string -> string -> option Duration -> S -> option (result unit string * S);
  kv_delete : Instant -> string -> S -> result bool string * S;
  kv_list : Instant -> option string -> S -> result (list string) string * S;
  kv_exists : Instant -> string -> S -> result bool string * S;
}.
#[global] Hint Mode KvBackend ! : typeclass_instances.

(** The provided method [exists]. *)
Definition exists_default {S} (get : Instant -> string -> S -> result (option string) string * S)
    (now : Instant) (key : string) (s : S) : result bool string * S :=
  let '(r, s) := get now key s in
  (match r with Ok v => Ok (match v with Some _ => true | None => false end) | Err e => Err e end, s).

Definition matches (prefix : option string) (key : string) : bool :=
  match prefix with Some p => Str.starts_with p key | None => true end.

(** ** In-memory backend ([memory.rs]) *)

(** The largest [Instant] of the platform: 64-bit signed seconds. *)
Definition instant_max : Instant := from_secs 9223372036854775808 - 1.

Record MemoryEntry := {
  m_value : string;
  m_expires_at : option Instant;
}.

Notation MemoryBackend := (gmap string MemoryEntry).

(** [Instant::now() + d] panics on overflow. *)
Definition memory_entry_new (now : Instant) (value : string) (ttl : option Duration)
  : option MemoryEntry :=
  match ttl with
  | None => Some {| m_value := value; m_expires_at := None |}
  | Some d => if now + d <=? instant_max
              then Some {| m_value := value; m_expires_at := Some (now + d) |} else None
  end.

Definition m_is_expired (now : Instant) (e : MemoryEntry) : bool :=
  match m_expires_at e with Some exp => exp <=? now | None => false end.

(** [get] looks the entry up, and if it has expired drops the reference and
    removes the key: two separate steps on the shared map. *)
Inductive Looked := Hit (value : string) | Expired | Miss.

Definition mem_lookup (now : Instant) (key : string) (s : MemoryBackend) : Looked :=
  match s !! key with
  | Some entry => if m_is_expired now entry then Expired else Hit (m_value entry)
  | None => Miss
  end.

Definition mem_remove (key : string) (s : MemoryBackend) : MemoryBackend := delete key s.

Definition mem_get (now : Instant) (key : string) (s : MemoryBackend)
  : result (option string) string * MemoryBackend :=
  match mem_lookup now key s with
  | Hit v => (Ok (Some v), s)
  | Expired => (Ok None, mem_remove key s)
  | Miss => (Ok None, s)
  end.

Definition mem_set (now : Instant) (key value : string) (ttl : option Duration) (s : MemoryBackend)
  : option (result unit string * MemoryBackend) :=
  match memory_entry_new now value ttl with
  | Some entry => Some (Ok tt, <[key := entry]> s)
  | None => None
  end.

Definition mem_delete (key : string) (s : MemoryBackend) : result bool string * MemoryBackend :=
  (Ok match s !! key with Some _ => true | None => false end, mem_remove key s).

Definition mem_exists (now : Instant) (key : string) (s : MemoryBackend)
  : result bool string * MemoryBackend :=
  match mem_lookup now key s with
  | Hit _ => (Ok true, s)
  | Expired => (Ok false, mem_remove key s)
  | Miss => (Ok false, s)
  end.

Definition mem_len (s : MemoryBackend) : Z := Z.of_nat (size s).
Definition mem_is_empty (s : MemoryBackend) : bool := bool_decide (s = ∅).
Definition mem_clear (s : MemoryBackend) : MemoryBackend := ∅.
Definition mem_cleanup_expired (now : Instant) (s : MemoryBackend) : MemoryBackend :=
  filter (fun kv => m_is_expired now kv.2 = false) s.

Section MemoryList.
(** The order in which DashMap iterates. *)
Variable iter : forall A, gmap string A -> list (string * A).

(** The loop of [list]: the live and the expired keys that match. *)
Fixpoint mem_scan (now : Instant) (prefix : option string) (es : list (string * MemoryEntry))
  : list string * list string :=
  match es with
  | [] => ([], [])
  | (key, entry) :: es' =>
      let '(keys, expired_keys) := mem_scan now prefix es' in
      if negb (matches prefix key) then (keys, expired_keys)
      else if m_is_expired now entry then (keys, key :: expired_keys)
      else (key :: keys, expired_keys)
  end.

Definition mem_list (now : Instant) (prefix : option string) (s : MemoryBackend)
  : result (list string) string * MemoryBackend :=
  let '(keys, expired_keys) := mem_scan now prefix (iter _ s) in
  (Ok keys, foldr mem_remove s expired_keys).

#[local] Instance MemoryBackend_KvBackend : KvBackend MemoryBackend := {|
  kv_get := mem_get; kv_set := mem_set; kv_delete _ := mem_delete;
  kv_list := mem_list; kv_exists := mem_exists |}.
End MemoryList.

(** ** Persistent backend ([types.rs], [redb.rs]) *)

Record KvEntry := {
  value : string;
  expires_at : option Z;
}.

(** [SystemTime::now().duration_since(UNIX_EPOCH)], in seconds. *)
Definition unix_now (now : Instant) : result Z string :=
  if now <? 0 then Err "System time before UNIX epoch" else Ok (as_secs now).

Definition entry_new (v : string) : KvEntry := {| value := v; expires_at := None |}.

(** The sum wraps around in a release build. *)
Definition with_ttl (now : Instant) (v : string) (ttl_secs : Z) : result KvEntry string :=
  let? now := unix_now now in
  Ok {| value := v; expires_at := Some (wrap_u64 (now + ttl_secs)) |}.

Definition is_expired (now : Instant) (e : KvEntry) : result bool string :=
  match expires_at e with
  | None => Ok false
  | Some exp => let? now := unix_now now in Ok (exp <=? now)
  end.

Section Redb.
(** The bytes of a stored entry, and serde_json's conversions. *)
Context {Bytes : Type}.
Variable to_vec : KvEntry -> Bytes.
Variable from_slice : Bytes -> result KvEntry string.
Variable iter : forall A, gmap string A -> list (string * A).
(** Whether a read transaction, or the write transaction for a key, succeeds. *)
Variable read_txn : Instant -> result unit string.
Variable write_txn : Instant -> string -> result unit string.

Notation RedbBackend := (gmap string Bytes).

Definition delete_sync (now : Instant) (key : string) (s : RedbBackend)
  : result bool string * RedbBackend :=
  match write_txn now key with
  | Err e => (Err e, s)
  | Ok _ => (Ok match s !! key with Some _ => true | None => false end, delete key s)
  end.

(** The read transaction of [get_sync]. *)
Definition redb_lookup (now : Instant) (key : string) (s : RedbBackend) : result Looked string :=
  let? _ := read_txn now in
  match s !! key with
  | None => Ok Miss
  | Some json =>
      let? entry := from_slice json in
      let? expired := is_expired now entry in
      Ok (if expired then Expired else Hit (value entry))
  end.

Definition get_sync (now : Instant) (key : string) (s : RedbBackend)
  : result (option string) string * RedbBackend :=
  match redb_lookup now key s with
  | Err e => (Err e, s)
  | Ok (Hit v) => (Ok (Some v), s)
  | Ok Miss => (Ok None, s)
  | Ok Expired =>
      let '(r, s) := delete_sync now key s in
      (match r with Ok _ => Ok None | Err e => Err e end, s)
  end.

Definition set_sync (now : Instant) (key v : string) (ttl : option Duration) (s : RedbBackend)
  : result unit string * RedbBackend :=
  let entry := match ttl with
               | Some ttl => with_ttl now v (as_secs ttl)
               | None => Ok (entry_new v)
               end in
  match entry with
  | Err e => (Err e, s)
  | Ok entry =>
      match write_txn now key with
      | Err e => (Err e, s)
      | Ok _ => (Ok tt, <[key := to_vec entry]> s)
      end
  end.

(** The loop of [list_sync]; entries that do not decode are skipped. *)
Fixpoint redb_scan (now : Instant) (prefix : option string) (es : list (string * Bytes))
  : list string * list string :=
  match es with
  | [] => ([], [])
  | (key, json) :: es' =>
      let '(keys, expired_keys) := redb_scan now prefix es' in
      if negb (matches prefix key) then (keys, expired_keys)
      else match from_slice json with
           | Err _ => (keys, expired_keys)
           | Ok entry =>
               match is_expired now entry with
               | Ok true => (keys, key :: expired_keys)
               | Ok false => (key :: keys, expired_keys)
               | Err _ => (keys, expired_keys)
               end
           end
  end.

Definition list_sync (now : Instant) (prefix : option string) (s : RedbBackend)
  : result (list string) string * RedbBackend :=
  match read_txn now with
  | Err e => (Err e, s)
  | Ok _ =>
      let '(keys, expired_keys) := redb_scan now prefix (iter _ s) in
      (Ok keys, foldr (fun key s => (delete_sync now key s).2) s expired_keys)
  end.

#[local] Instance RedbBackend_KvBackend : KvBackend RedbBackend := {|
  kv_get := get_sync;
  kv_set now key v ttl s := Some (set_sync now key v ttl s);
  kv_delete := delete_sync; kv_list := list_sync;
  kv_exists := exists_default get_sync |}.
End Redb.

(** ** HTTP handlers ([handlers/kv.rs]) *)

Section Handlers.
Context {S : Type} `{KvBackend S}.

(** A handler runs on the configured store, if the service is enabled. *)
Definition with_kv {A} (kv : option S) (f : S -> result A AppError * option S)
  : result A AppError * option S :=
  match get_service "KV" kv with
  | Ok s => f s
  | Err e => (Err e, kv)
  end.

Definition http_kv_list (now : Instant) (prefix : option string) (kv : option S)
  : result (list string) AppError * option S :=
  with_kv kv (fun s => let '(r, s) := kv_list now prefix s in (or_internal r, Some s)).

(** The answer is the pair of the key and the value. *)
Definition http_kv_get (now : Instant) (key : string) (kv : option S)
  : result (string * string) AppError * option S :=
  with_kv kv (fun s =>
    let '(r, s) := kv_get now key s in
    (match r with
     | Err e => Err (from_error e)
     | Ok None => Err (NotFound ("Key '" +:+ key +:+ "' not found"))
     | Ok (Some bytes) =>
         match from_utf8 bytes with
         | Some v => Ok (key, v)
         | None => Err (Internal "Value is not valid UTF-8")
         end
     end, Some s)).

(** 200 on success; the TTL is in seconds. [None] if the process aborts. *)
Definition http_kv_set (now : Instant) (key v : string) (ttl : option Z) (kv : option S)
  : option (result Z AppError * option S) :=
  match get_service "KV" kv with
  | Err e => Some (Err e, kv)
  | Ok s =>
      match kv_set now key v (from_secs <$> ttl) s with
      | Some (Ok _, s) => Some (Ok 200, Some s)
      | Some (Err e, s) => Some (Err (from_error e), Some s)
      | None => None
      end
  end.

Definition http_kv_delete (now : Instant) (key : string) (kv : option S)
  : result Z AppError * option S :=
  with_kv kv (fun s =>
    let '(r, s) := kv_delete now key s in
    (match r with Ok _ => Ok 204 | Err e => Err (from_error e) end, Some s)).
End Handlers.
