(* ===== verification/KvLaws.v ===== *)
(** * What the key-value interface promises, and that both backends keep it

    [KvView] gives the contents of a backend with their deadlines, [KvLaws] says
    what each operation of [KvBackend] does to them; [memory_laws] and
    [redb_laws] discharge it for the two implementations of KvStore.v. *)

From stdpp Require Import base gmap list strings sorting.
From S2P Require Import Prelude AppError KvStore.

#[local] Open Scope Z_scope.

(** ** What the interface promises *)

(** Contents with deadlines, expired entries included. *)
Notation Contents := (gmap string (string * option Instant)).

Definition expired (now : Instant) (d : option Instant) : bool :=
  match d with Some exp => exp <=? now | None => false end.

(** The value a reader sees. *)
Definition live (now : Instant) (m : Contents) (key : string) : option string :=
  match m !! key with
  | Some (v, d) => if expired now d then None else Some v
  | None => None
  end.

(** Entries may disappear once they have expired. *)
Definition purged (now : Instant) (m m' : Contents) : Prop :=
  forall k, m' !! k = m !! k \/
    (m' !! k = None /\ exists v d, m !! k = Some (v, d) /\ expired now d = true).

Class KvView (S : Type) := {
  kv_wf : S -> Prop;
  kv_contents : S -> Contents;
  kv_deadline : Instant -> Duration -> option Instant;
}.

Definition live_now {S} `{KvView S} (now : Instant) (s : S) := live now (kv_contents s).

(** [deadline_of now ttl d]: a [set] at [now] with [ttl] expires at [d]. *)
Definition deadline_of {S} `{KvView S} (now : Instant) (ttl : option Duration)
    (d : option Instant) : Prop :=
  match ttl with
  | None => d = None
  | Some t => exists exp, kv_deadline now t = Some exp /\ d = Some exp
  end.

Class KvLaws (S : Type) `{KvBackend S} `{KvView S} : Prop := {
  kv_get_law now key (s s' : S) r : 0 <= now -> kv_wf s -> kv_get now key s = (r, s') ->
    kv_wf s' /\ purged now (kv_contents s) (kv_contents s') /\
    (r = Ok (live_now now s key) \/ exists e, r = Err e);
  kv_set_law now key v ttl (s : S) : 0 <= now -> kv_wf s ->
    match kv_set now key v ttl s with
    | Some (Ok _, s') => kv_wf s' /\ exists d, deadline_of now ttl d /\
                           kv_contents s' = <[key := (v, d)]> (kv_contents s)
    | Some (Err _, s') => s' = s
    | None => exists t, ttl = Some t /\ kv_deadline now t = None
    end;
  kv_delete_law now key (s : S) : 0 <= now -> kv_wf s ->
    match kv_delete now key s with
    | (Ok b, s') => kv_wf s' /\ kv_contents s' = delete key (kv_contents s) /\
                    b = bool_decide (is_Some (kv_contents s !! key))
    | (Err _, s') => s' = s
    end;
  kv_list_law now prefix (s s' : S) r : 0 <= now -> kv_wf s -> kv_list now prefix s = (r, s') ->
    kv_wf s' /\ purged now (kv_contents s) (kv_contents s') /\
    match r with
    | Ok ks => NoDup ks /\
        forall k, k ∈ ks <-> matches prefix k = true /\ is_Some (live_now now s k)
    | Err _ => True
    end;
  kv_exists_law now key (s s' : S) r : 0 <= now -> kv_wf s -> kv_exists now key s = (r, s') ->
    kv_wf s' /\ purged now (kv_contents s) (kv_contents s') /\
    (r = Ok (bool_decide (is_Some (live_now now s key))) \/ exists e, r = Err e);
}.

Lemma purged_refl now m : purged now m m.
Proof. by left. Qed.

Lemma purged_delete now m k v d :
  m !! k = Some (v, d) -> expired now d = true -> purged now m (delete k m).
Proof.
  intros Hk Hd k'. destruct (decide (k' = k)) as [->|Hne].
  - right. rewrite lookup_delete_eq. eauto.
  - left. by rewrite lookup_delete_ne.
Qed.

Lemma purged_trans now m1 m2 m3 : purged now m1 m2 -> purged now m2 m3 -> purged now m1 m3.
Proof.
  intros H12 H23 k. destruct (H23 k) as [->|(-> & v & d & Hk & Hd)]; [by apply H12|].
  right. split; [done|]. destruct (H12 k) as [<-|(E & _)]; [eauto|congruence].
Qed.

Lemma live_purged now now' m m' k : now <= now' -> purged now m m' -> live now' m' k = live now' m k.
Proof.
  intros Ht Hp. unfold live. destruct (Hp k) as [->|(-> & v & d & -> & Hd)]; [done|].
  destruct d as [d|]; simpl in *; [|done]. revert Hd. repeat zcase; done || lia.
Qed.

(** ** The in-memory backend keeps the promise *)

Section MemoryLaws.
Variable iter : forall A, gmap string A -> list (string * A).
Hypothesis iter_permutation : forall A (m : gmap string A), iter A m ≡ₚ map_to_list m.

#[local] Instance memory_kv : KvBackend MemoryBackend := MemoryBackend_KvBackend iter.
#[local] Instance memory_view : KvView MemoryBackend := {|
  kv_wf _ := True;
  kv_contents s := (fun e => (m_value e, m_expires_at e)) <$> s;
  kv_deadline now d := if now + d <=? instant_max then Some (now + d) else None |}.

Lemma memory_contents_lookup (s : MemoryBackend) k :
  kv_contents s !! k = (fun e => (m_value e, m_expires_at e)) <$> s !! k.
Proof. apply lookup_fmap. Qed.

Lemma memory_live now (s : MemoryBackend) k :
  live_now now s k = match mem_lookup now k s with Hit v => Some v | _ => None end.
Proof.
  unfold live_now, live, mem_lookup. rewrite memory_contents_lookup.
  destruct (s !! k) as [e|]; [|done]. simpl. unfold m_is_expired, expired.
  destruct (m_expires_at e); [by destruct (_ <=? _)|done].
Qed.

Lemma memory_remove_contents k (s : MemoryBackend) :
  kv_contents (mem_remove k s) = delete k (kv_contents s).
Proof. apply fmap_delete. Qed.

Lemma memory_remove_purged now k (s : MemoryBackend) :
  mem_lookup now k s = Expired -> purged now (kv_contents s) (kv_contents (mem_remove k s)).
Proof.
  intros Hl. rewrite memory_remove_contents. unfold mem_lookup in Hl.
  destruct (s !! k) as [e|] eqn:E; [|done].
  eapply purged_delete; [rewrite memory_contents_lookup, E; reflexivity|].
  unfold m_is_expired in Hl. unfold expired. by destruct (m_expires_at e) as [x|]; [destruct (x <=? now)|].
Qed.

Lemma mem_scan_spec now prefix es :
  mem_scan now prefix es =
    ((filter (fun e => matches prefix e.1 = true /\ m_is_expired now e.2 = false) es).*1,
     (filter (fun e => matches prefix e.1 = true /\ m_is_expired now e.2 = true) es).*1).
Proof.
  induction es as [|[k e] es IH]; [done|]. cbn [mem_scan]. rewrite IH, !filter_cons. simpl.
  destruct (matches prefix k), (m_is_expired now e); repeat case_decide; simpl in *; naive_solver.
Qed.

Lemma foldr_remove_lookup ks (s : MemoryBackend) k :
  foldr mem_remove s ks !! k = if decide (k ∈ ks) then None else s !! k.
Proof.
  induction ks as [|k' ks IH]; [done|]. cbn [foldr]. unfold mem_remove at 1.
  destruct (decide (k = k')) as [->|Hne].
  - rewrite lookup_delete_eq, decide_True; [done|]. left.
  - rewrite lookup_delete_ne, IH by done. repeat case_decide; set_solver.
Qed.

Lemma iter_lookup {A} (m : gmap string A) k x : (k, x) ∈ iter A m <-> m !! k = Some x.
Proof. by rewrite iter_permutation, elem_of_map_to_list. Qed.

Lemma iter_NoDup {A} (m : gmap string A) : NoDup (iter A m).*1.
Proof. rewrite iter_permutation. apply NoDup_fst_map_to_list. Qed.

#[local] Instance memory_laws : KvLaws MemoryBackend.
Proof.
  split; intros now; cbn [kv_get kv_set kv_delete kv_list kv_exists memory_kv
    MemoryBackend_KvBackend kv_wf kv_deadline memory_view].
  - intros key s s' r _ _. unfold mem_get. rewrite memory_live.
    destruct (mem_lookup now key s) eqn:E; intros [= <- <-]; (split; [done|]);
      eauto using purged_refl, memory_remove_purged.
  - intros key v ttl s _ _. unfold mem_set, memory_entry_new, deadline_of.
    destruct ttl as [t|]; simpl; [zcase; [|exists t; split; [done|zcase; [lia|done]]]|]; (split; [done|]).
    + eexists. split; [by eexists|by rewrite fmap_insert].
    + eexists. split; [done|by rewrite fmap_insert].
  - intros key s _ _. split_and!; [done|apply memory_remove_contents|].
    rewrite memory_contents_lookup. by destruct (s !! key).
  - intros prefix s s' r _ _. unfold mem_list. rewrite mem_scan_spec. intros [= <- <-].
    split; [done|]. split; [|split].
    + intros k. rewrite !memory_contents_lookup, foldr_remove_lookup. case_decide as Hin; [|by left].
      right. split; [done|]. apply list_elem_of_fmap in Hin as ([k' e] & -> & Hin).
      apply list_elem_of_filter in Hin as [[_ Hexp] Hin]. apply iter_lookup in Hin. simpl in *.
      rewrite Hin. by do 2 eexists.
    + eapply sublist_NoDup; [apply (iter_NoDup s)|]. apply fmap_sublist, sublist_filter.
    + intros k. rewrite memory_live, list_elem_of_fmap. unfold mem_lookup. split.
      * intros ([k' e] & -> & Hin). apply list_elem_of_filter in Hin as [[Hm Hexp] Hin].
        apply iter_lookup in Hin. simpl in *. rewrite Hin, Hexp. eauto.
      * intros [Hm [v Hv]]. destruct (s !! k) as [e|] eqn:E; [|done].
        destruct (m_is_expired now e) eqn:Hexp; [done|]. exists (k, e). split; [done|].
        apply list_elem_of_filter. split; [done|]. by apply iter_lookup.
  - intros key s s' r _ _. unfold mem_exists. rewrite memory_live.
    destruct (mem_lookup now key s) eqn:E; intros [= <- <-]; (split; [done|]);
      (split; [eauto using purged_refl, memory_remove_purged|by left]).
Qed.
End MemoryLaws.

(** ** The persistent backend keeps the promise *)

Section RedbLaws.
Context {Bytes : Type}.
Variable to_vec : KvEntry -> Bytes.
Variable from_slice : Bytes -> result KvEntry string.
Variable iter : forall A, gmap string A -> list (string * A).
Variable read_txn : Instant -> result unit string.
Variable write_txn : Instant -> string -> result unit string.
Hypothesis from_to : forall e, from_slice (to_vec e) = Ok e.
Hypothesis iter_permutation : forall A (m : gmap string A), iter A m ≡ₚ map_to_list m.

#[local] Instance redb_kv : KvBackend (gmap string Bytes) :=
  RedbBackend_KvBackend to_vec from_slice iter read_txn write_txn.

Definition entry_contents (e : KvEntry) : string * option Instant :=
  (value e, from_secs <$> expires_at e).

#[local] Instance redb_view : KvView (gmap string Bytes) := {|
  kv_wf s := forall k b, s !! k = Some b -> exists e, from_slice b = Ok e;
  kv_contents s := omap (fun b => match from_slice b with
                                  | Ok e => Some (entry_contents e) | Err _ => None end) s;
  kv_deadline now d := Some (from_secs (wrap_u64 (as_secs now + as_secs d))) |}.

Lemma redb_contents_lookup (s : gmap string Bytes) k : kv_wf s ->
  (s !! k = None /\ kv_contents s !! k = None) \/
  exists b e, s !! k = Some b /\ from_slice b = Ok e /\ kv_contents s !! k = Some (entry_contents e).
Proof.
  intros Hwf. simpl. rewrite lookup_omap. destruct (s !! k) as [b|] eqn:E; [|by left].
  right. destruct (Hwf _ _ E) as [e He]. exists b, e. simpl. by rewrite He.
Qed.

Lemma redb_expired now e : 0 <= now ->
  is_expired now e = Ok (expired now (entry_contents e).2).
Proof.
  intros Hn. unfold is_expired, unix_now, entry_contents, expired, from_secs, as_secs. simpl.
  destruct (expires_at e) as [x|]; [|done]. simpl. destruct (Z.ltb_spec now 0) as [|_]; [lia|]. simpl. f_equal.
  apply eq_bool_prop_intro. rewrite !Is_true_true, !Z.leb_le. split; intros Hx.
  - pose proof (Z.mul_div_le now 1000000000 ltac:(lia)). lia.
  - apply Z.div_le_lower_bound; lia.
Qed.

Lemma redb_lookup_spec now k (s : gmap string Bytes) : 0 <= now -> kv_wf s ->
  match redb_lookup from_slice read_txn now k s with
  | Err _ => True
  | Ok (Hit v) => live_now now s k = Some v
  | Ok Miss => live_now now s k = None
  | Ok Expired => live_now now s k = None /\
      exists v d, kv_contents s !! k = Some (v, d) /\ expired now d = true
  end.
Proof.
  intros Hn Hwf. unfold redb_lookup, live_now, live. destruct (read_txn now); [|done]. cbn [res_bind].
  destruct (redb_contents_lookup s k Hwf) as [[-> ->]|(b & e & -> & Hb & ->)]; [done|].
  rewrite Hb. cbn [res_bind]. rewrite redb_expired by done. cbn [res_bind].
  destruct (entry_contents e) as [v d] eqn:Ee. simpl. destruct (expired now d) eqn:Ed; [by eauto|].
  unfold entry_contents in Ee. by injection Ee as <- _.
Qed.

Lemma redb_delete_spec now k (s : gmap string Bytes) : kv_wf s ->
  match delete_sync write_txn now k s with
  | (Ok b, s') => kv_wf s' /\ kv_contents s' = delete k (kv_contents s) /\
                  b = bool_decide (is_Some (kv_contents s !! k))
  | (Err _, s') => s' = s
  end.
Proof.
  intros Hwf. unfold delete_sync. destruct (write_txn now k); [|done]. split_and!.
  - intros k' b Hk. apply lookup_delete_Some in Hk as [_ Hk]. by eapply Hwf.
  - apply omap_delete.
  - by destruct (redb_contents_lookup s k Hwf) as [[-> ->]|(b & e & -> & _ & ->)].
Qed.

Lemma redb_get_spec now k (s s' : gmap string Bytes) r : 0 <= now -> kv_wf s ->
  get_sync from_slice read_txn write_txn now k s = (r, s') ->
  kv_wf s' /\ purged now (kv_contents s) (kv_contents s') /\
  (r = Ok (live_now now s k) \/ exists e, r = Err e).
Proof.
  intros Hn Hwf. unfold get_sync. pose proof (redb_lookup_spec now k s Hn Hwf) as Hl.
  destruct (redb_lookup _ _ _ _ _) as [[v| |]|e].
  - intros [= <- <-]. rewrite Hl. eauto using purged_refl.
  - destruct Hl as [Hl (v & d & Hk & Hd)]. rewrite Hl.
    pose proof (redb_delete_spec now k s Hwf) as Hdel.
    destruct (delete_sync _ _ _ _) as [[b|e] s1]; intros [= <- <-]; [|subst; eauto using purged_refl].
    destruct Hdel as (Hwf' & -> & _). eauto using purged_delete.
  - intros [= <- <-]. rewrite Hl. eauto using purged_refl.
  - intros [= <- <-]. eauto using purged_refl.
Qed.

Lemma redb_scan_spec now prefix es : 0 <= now ->
  (forall k b, (k, b) ∈ es -> exists e, from_slice b = Ok e) ->
  let late b := match from_slice b with
                | Ok e => expired now (entry_contents e).2 | Err _ => false end in
  redb_scan from_slice now prefix es =
    ((filter (fun e => matches prefix e.1 = true /\ late e.2 = false) es).*1,
     (filter (fun e => matches prefix e.1 = true /\ late e.2 = true) es).*1).
Proof.
  intros Hn Hes late. induction es as [|[k b] es IH]; [done|]. cbn [redb_scan].
  rewrite IH by (intros k' b' Hb; eapply Hes; by right). rewrite !filter_cons. cbn [fst snd].
  destruct (Hes k b ltac:(left)) as [e He]. rewrite He, redb_expired by done.
  assert (late b = expired now (entry_contents e).2) as -> by (unfold late; by rewrite He).
  destruct (matches prefix k), (expired _ _); repeat case_decide; simpl in *; naive_solver.
Qed.

Lemma redb_cleanup now ks (s : gmap string Bytes) : kv_wf s ->
  (forall k, k ∈ ks -> exists v d, kv_contents s !! k = Some (v, d) /\ expired now d = true) ->
  let s' := foldr (fun key s => (delete_sync write_txn now key s).2) s ks in
  kv_wf s' /\ purged now (kv_contents s) (kv_contents s').
Proof.
  intros Hwf Hks. induction ks as [|k ks IH]; [split; [done|apply purged_refl]|]. cbn [foldr].
  destruct IH as [Hwf' Hp]; [intros k' Hk'; apply Hks; by right|].
  set (s1 := foldr _ _ ks) in *. pose proof (redb_delete_spec now k s1 Hwf') as Hd.
  destruct (delete_sync _ _ _ _) as [[b|e] s2]; cbn [snd]; [|by subst].
  destruct Hd as (Hwf2 & Hc & _). split; [done|]. rewrite Hc. intros k'.
  destruct (decide (k' = k)) as [->|Hne]; [|rewrite lookup_delete_ne by done; apply Hp].
  right. rewrite lookup_delete_eq. split; [done|]. apply Hks. left.
Qed.

#[local] Instance redb_laws : KvLaws (gmap string Bytes).
Proof.
  split; intros now; cbn [kv_get kv_set kv_delete kv_list kv_exists redb_kv RedbBackend_KvBackend].
  - intros; by eapply redb_get_spec.
  - intros key v ttl s Hn Hwf. unfold set_sync, with_ttl, unix_now, deadline_of.
    destruct (Z.ltb_spec now 0) as [|_]; [lia|].
    assert (forall e, kv_contents (<[key := to_vec e]> s) =
      <[key := entry_contents e]> (kv_contents s)) as Hins.
    { intros e. simpl. apply map_eq. intros k. rewrite lookup_omap.
      destruct (decide (k = key)) as [->|Hne]; [rewrite !lookup_insert_eq|rewrite !lookup_insert_ne by done].
      - simpl. by rewrite from_to.
      - by rewrite lookup_omap. }
    assert (forall e, kv_wf (<[key := to_vec e]> s)) as Hwf'.
    { intros e k b Hk. apply lookup_insert_Some in Hk as [[_ <-]|[_ Hk]]; [eauto|by eapply Hwf]. }
    destruct ttl as [t|]; cbn [res_bind]; (destruct (write_txn now key); [|done]);
      (split; [by apply Hwf'|]); eexists; (split; [|apply Hins]); [by eexists|done].
  - intros key s _. by apply redb_delete_spec.
  - intros prefix s s' r Hn Hwf. unfold list_sync. destruct (read_txn now);
      [|intros [= <- <-]; eauto using purged_refl].
    assert (forall k b, (k, b) ∈ iter _ s <-> s !! k = Some b) as Hit.
    { intros k b. by rewrite iter_permutation, elem_of_map_to_list. }
    rewrite redb_scan_spec; [|done|intros k b Hkb%Hit; eauto]. intros [= <- <-].
    apply and_assoc. split; [|split].
    + apply redb_cleanup; [done|]. intros k Hk. apply list_elem_of_fmap in Hk as ([k' b] & -> & Hin).
      apply list_elem_of_filter in Hin as [[_ Hexp] Hin]. apply Hit in Hin. simpl in Hexp, Hin.
      destruct (redb_contents_lookup s k' Hwf) as [[E _]|(b' & e & E & He & Hc)];
        [simpl in *; congruence|]. simplify_eq. rewrite He in Hexp.
        cbn [fst]. rewrite Hc. by do 2 eexists.
    + eapply sublist_NoDup; [|apply fmap_sublist, sublist_filter].
      rewrite iter_permutation. apply NoDup_fst_map_to_list.
    + intros k. rewrite list_elem_of_fmap. unfold live_now, live.
      destruct (redb_contents_lookup s k Hwf) as [[E ->]|(b & e & E & He & ->)].
      * split; [|by intros [_ [? ?]]]. intros ([k' b] & -> & Hin).
        apply list_elem_of_filter in Hin as [_ Hin]. apply Hit in Hin. simpl in *. congruence.
      * split.
        -- intros ([k' b'] & -> & Hin). apply list_elem_of_filter in Hin as [[Hm Hexp] Hin].
           apply Hit in Hin. simpl in *. simplify_eq. rewrite He in Hexp.
           simpl in Hexp. rewrite Hexp. eauto.
        -- intros [Hm [v Hv]]. exists (k, b). split; [done|]. apply list_elem_of_filter.
           split; [|by apply Hit]. split; [done|]. simpl.
           rewrite He. simpl. simpl in Hv. by destruct (expired _ _).
  - intros key s s' r Hn Hwf. unfold exists_default.
    destruct (get_sync _ _ _ _ _ _) as [r1 s1] eqn:E. apply redb_get_spec in E as (Hwf' & Hp & Hr); [|done..].
    intros [= <- <-]. split_and!; [done|done|]. destruct Hr as [->|[e ->]]; [left|by eauto].
    by destruct (live_now now s key).
Qed.
End RedbLaws.
