(* ===== verification/KvProps.v ===== *)
(** * Histories and properties of the key-value service

    Runs of operations against an abstract store, proved over the interface of
    KvLaws.v; interleavings of requests on the in-memory backend; the
    properties. *)

From stdpp Require Import base gmap list strings sorting.
From S2P Require Import Prelude AppError KvStore KvLaws.

#[local] Open Scope Z_scope.

(** ** Histories ([store.rs]: every method of [KvStore] calls the backend) *)

Inductive kv_op :=
| OpGet (key : string)
| OpSet (key v : string) (ttl : option Duration)
| OpDelete (key : string)
| OpList (prefix : option string)
| OpExists (key : string).

Inductive kv_out :=
| OutValue (r : result (option string) string)
| OutUnit (r : result unit string)
| OutBool (r : result bool string)
| OutKeys (r : result (list string) string)
| OutAborted.

Section Histories.
Context {S : Type} `{KvLaws S}.

Definition kv_step (now : Instant) (o : kv_op) (s : S) : kv_out * S :=
  match o with
  | OpGet key => let '(r, s) := kv_get now key s in (OutValue r, s)
  | OpSet key v ttl => match kv_set now key v ttl s with
                       | Some (r, s) => (OutUnit r, s)
                       | None => (OutAborted, s)
                       end
  | OpDelete key => let '(r, s) := kv_delete now key s in (OutBool r, s)
  | OpList prefix => let '(r, s) := kv_list now prefix s in (OutKeys r, s)
  | OpExists key => let '(r, s) := kv_exists now key s in (OutBool r, s)
  end.

(** The process ends at the first abort. *)
Fixpoint kv_run (ops : list (Instant * kv_op)) (s : S) : list kv_out * S :=
  match ops with
  | [] => ([], s)
  | (now, o) :: ops =>
      let '(out, s) := kv_step now o s in
      match out with
      | OutAborted => ([out], s)
      | _ => let '(outs, s) := kv_run ops s in (out :: outs, s)
      end
  end.

(** *** The abstract store: a map from keys to values with deadlines *)

Definition is_err (out : kv_out) : bool :=
  match out with
  | OutValue (Err _) | OutUnit (Err _) | OutBool (Err _) | OutKeys (Err _) => true
  | _ => false
  end.

(** The contents after an operation: failed operations change nothing. *)
Definition spec_post (now : Instant) (o : kv_op) (out : kv_out) (m m' : Contents) : Prop :=
  if is_err out then m' = m
  else match o, out with
       | OpSet key v ttl, OutUnit _ => exists d, deadline_of now ttl d /\ m' = <[key := (v, d)]> m
       | OpDelete key, _ => m' = delete key m
       | _, _ => m' = m
       end.

(** What an operation may answer. A backend may forget an expired entry at any
    time, so [delete] may answer either for one. *)
Definition spec_out (now : Instant) (o : kv_op) (out : kv_out) (m : Contents) : Prop :=
  is_err out = true \/
  match o, out with
  | OpGet key, OutValue (Ok r) => r = live now m key
  | OpSet _ _ _, OutUnit (Ok _) => True
  | OpSet _ _ (Some t), OutAborted => kv_deadline now t = None
  | OpDelete key, OutBool (Ok b) =>
      (is_Some (live now m key) -> b = true) /\ (m !! key = None -> b = false)
  | OpList prefix, OutKeys (Ok ks) => NoDup ks /\
      forall k, k ∈ ks <-> matches prefix k = true /\ is_Some (live now m k)
  | OpExists key, OutBool (Ok b) => b = bool_decide (is_Some (live now m key))
  | _, _ => False
  end.

Inductive spec_run : list (Instant * kv_op) -> list kv_out -> Contents -> Contents -> Prop :=
| spec_nil m : spec_run [] [] m m
| spec_cons now o ops out outs m m1 m2 :
    out <> OutAborted -> spec_out now o out m -> spec_post now o out m m1 ->
    spec_run ops outs m1 m2 -> spec_run ((now, o) :: ops) (out :: outs) m m2
| spec_abort now o ops m : spec_out now o OutAborted m ->
    spec_run ((now, o) :: ops) [OutAborted] m m.

(** Times do not go back. *)
Fixpoint nondecreasing (t : Instant) (ops : list (Instant * kv_op)) : Prop :=
  match ops with
  | [] => True
  | (now, _) :: ops => t <= now /\ nondecreasing now ops
  end.

(** The simulation: the backend has the abstract contents, less entries that
    have expired by now. *)
Lemma purged_mono t t' m m' : t <= t' -> purged t m m' -> purged t' m m'.
Proof.
  intros Ht Hp k. destruct (Hp k) as [E|(E & v & d & Hk & Hd)]; [by left|right].
  split; [done|]. exists v, d. split; [done|]. destruct d as [d|]; simpl in *; [|done].
  revert Hd. repeat zcase; done || lia.
Qed.

Lemma purged_insert t m m' k x : purged t m m' -> purged t (<[k:=x]> m) (<[k:=x]> m').
Proof.
  intros Hp k'. destruct (decide (k' = k)) as [->|Hne]; [left; by rewrite !lookup_insert_eq|].
  rewrite !lookup_insert_ne by done. apply Hp.
Qed.

Lemma purged_delete_both t m m' k : purged t m m' -> purged t (delete k m) (delete k m').
Proof.
  intros Hp k'. destruct (decide (k' = k)) as [->|Hne]; [left; by rewrite !lookup_delete_eq|].
  rewrite !lookup_delete_ne by done. apply Hp.
Qed.

Lemma kv_step_spec now o (s : S) m : 0 <= now -> kv_wf s -> purged now m (kv_contents s) ->
  let '(out, s') := kv_step now o s in
  spec_out now o out m /\
  (out <> OutAborted -> exists m', spec_post now o out m m' /\ kv_wf s' /\
     purged now m' (kv_contents s')).
Proof.
  intros Hn Hwf Hp. assert (forall k, live_now now s k = live now m k) as Hlive.
  { intros k. apply (live_purged now now); [lia|done]. }
  destruct o as [key|key v ttl|key|prefix|key]; cbn [kv_step].
  - destruct (kv_get now key s) as [r s'] eqn:E.
    apply kv_get_law in E as (Hwf' & Hp' & Hr); [|done..].
    split; [destruct Hr as [->|[e ->]]; [right; apply Hlive|by left]|intros _].
    exists m. split_and!; [by destruct r|done|by eapply purged_trans].
  - pose proof (kv_set_law now key v ttl s Hn Hwf) as Hs.
    destruct (kv_set now key v ttl s) as [[[[]|e] s']|].
    + destruct Hs as (Hwf' & d & Hd & Hc). split; [right; by destruct ttl|intros _].
      exists (<[key:=(v, d)]> m). split_and!; [by exists d|done|rewrite Hc; by apply purged_insert].
    + subst s'. split; [by left|intros _]. by exists m.
    + destruct Hs as (t & -> & Ht). split; [by right|done].
  - pose proof (kv_delete_law now key s Hn Hwf) as Hd.
    destruct (kv_delete now key s) as [[b|e] s']; [|subst; split; [by left|intros _; by exists m]].
    destruct Hd as (Hwf' & Hc & ->). split.
    + right. split; intros Hk; case_bool_decide as Hb; try done.
      * destruct Hb. rewrite <- Hlive in Hk. unfold live_now, live in Hk.
        destruct (kv_contents s !! key); [by eexists|by destruct Hk].
      * destruct (Hp key) as [E|(E & _)]; rewrite E in Hb; [rewrite Hk in Hb|]; by destruct Hb.
    + intros _. exists (delete key m). split_and!; [done|done|rewrite Hc; by apply purged_delete_both].
  - destruct (kv_list now prefix s) as [r s'] eqn:E.
    apply kv_list_law in E as (Hwf' & Hp' & Hr); [|done..]. split.
    + destruct r as [ks|e]; [right|by left]. destruct Hr as [Hnd Hks]. split; [done|].
      intros k. by rewrite Hks, Hlive.
    + intros _. exists m. split_and!; [by destruct r|done|by eapply purged_trans].
  - destruct (kv_exists now key s) as [r s'] eqn:E.
    apply kv_exists_law in E as (Hwf' & Hp' & Hr); [|done..].
    split; [destruct Hr as [->|[e ->]]; [right; by rewrite Hlive|by left]|intros _].
    exists m. split_and!; [by destruct r|done|by eapply purged_trans].
Qed.

Lemma kv_run_spec ops : forall t (s : S) m,
  0 <= t -> nondecreasing t ops -> kv_wf s -> purged t m (kv_contents s) ->
  exists m', spec_run ops (kv_run ops s).1 m m'.
Proof.
  induction ops as [|[now o] ops IH]; intros t s m Ht Hops Hwf Hp; [exists m; constructor|].
  destruct Hops as [Hle Hops]. cbn [kv_run]. apply (purged_mono _ now) in Hp; [|done].
  pose proof (kv_step_spec now o s m ltac:(lia) Hwf Hp) as Hs.
  destruct (kv_step now o s) as [out s']. destruct Hs as [Hout Hpost].
  assert (out = OutAborted \/ out <> OutAborted) as [->|Hna] by (destruct out; auto).
  - exists m. by constructor.
  - destruct (Hpost Hna) as (m1 & Hm1 & Hwf1 & Hp1).
    destruct (IH now s' m1 ltac:(lia) Hops Hwf1 Hp1) as [m2 Hrun].
    exists m2. destruct (kv_run ops s') as [outs s2]. destruct out; try done; by econstructor.
Qed.
End Histories.

(** ** Interleavings of requests

    [get] and [exists] look a key up in one step and remove it, if it had
    expired, in another; requests of other clients may come between. [removing]
    holds the keys of the requests that are between the two steps. *)

Record kv_sys (S : Type) := {
  shared : S;
  removing : list string;
}.
#[global] Arguments shared {_} _.
#[global] Arguments removing {_} _.

Inductive kv_event :=
| EvLookup (now : Instant) (key : string)
| EvRemove (key : string)
| EvSet (now : Instant) (key v : string) (ttl : option Duration)
| EvDelete (key : string).

Definition touches (key : string) (e : kv_event) : bool :=
  match e with
  | EvSet _ k _ _ | EvDelete k => String.eqb k key
  | EvLookup _ _ | EvRemove _ => false
  end.

Inductive mem_event_step : kv_event -> kv_sys MemoryBackend -> kv_sys MemoryBackend -> Prop :=
| ev_answer now key s rs : mem_lookup now key s <> Expired ->
    mem_event_step (EvLookup now key) {| shared := s; removing := rs |}
                   {| shared := s; removing := rs |}
| ev_expired now key s rs : mem_lookup now key s = Expired ->
    mem_event_step (EvLookup now key) {| shared := s; removing := rs |}
                   {| shared := s; removing := key :: rs |}
| ev_remove key s rs1 rs2 :
    mem_event_step (EvRemove key) {| shared := s; removing := rs1 ++ key :: rs2 |}
                   {| shared := mem_remove key s; removing := rs1 ++ rs2 |}
| ev_set now key v ttl s s' rs : mem_set now key v ttl s = Some (Ok tt, s') ->
    mem_event_step (EvSet now key v ttl) {| shared := s; removing := rs |}
                   {| shared := s'; removing := rs |}
| ev_delete key s rs :
    mem_event_step (EvDelete key) {| shared := s; removing := rs |}
                   {| shared := (mem_delete key s).2; removing := rs |}.

Inductive mem_events : list kv_event -> kv_sys MemoryBackend -> kv_sys MemoryBackend -> Prop :=
| evs_nil y : mem_events [] y y
| evs_cons e es y y1 y2 : mem_event_step e y y1 -> mem_events es y1 y2 -> mem_events (e :: es) y y2.

(** A value without deadline, with no removal of its key under way, is kept by
    every event that does not set or delete the key. *)
Definition settled (key v : string) (y : kv_sys MemoryBackend) : Prop :=
  shared y !! key = Some {| m_value := v; m_expires_at := None |} /\ key ∉ removing y.

Lemma settled_step key v e y y' :
  mem_event_step e y y' -> touches key e = false -> settled key v y -> settled key v y'.
Proof.
  intros Hs Ht [Hk Hr]. destruct Hs; simpl in *.
  - by split.
  - split; [done|]. apply not_elem_of_cons. split; [|done]. intros <-.
    unfold mem_lookup in *. by rewrite Hk in *.
  - split; [|set_solver]. unfold mem_remove. simpl. rewrite lookup_delete_ne; [done|set_solver].
  - split; [|done]. simpl. unfold mem_set in *.
    destruct (memory_entry_new _ _ _) as [x|]; [|done]. simplify_eq.
    rewrite lookup_insert_ne; [done|]. by apply String.eqb_neq.
  - split; [|done]. simpl. unfold mem_remove.
    rewrite lookup_delete_ne; [done|]. by apply String.eqb_neq.
Qed.

Lemma settled_steps key v es y y' :
  mem_events es y y' -> Forall (fun e => touches key e = false) es ->
  settled key v y -> settled key v y'.
Proof.
  induction 1 as [|e es y y1 y2 Hs _ IH]; intros HF Hst; [done|].
  apply Forall_cons in HF as [He HF]. eapply IH; [done|]. by eapply settled_step.
Qed.

Lemma as_secs_bounds d : as_secs d * 1000000000 <= d < as_secs d * 1000000000 + 1000000000.
Proof. unfold as_secs. pose proof (Z.div_mod d 1000000000). pose proof (Z.mod_pos_bound d 1000000000). lia. Qed.

(** A sum of two 64-bit numbers wraps around at most once. *)
Lemma wrap_u64_sum a b : is_u64 a -> is_u64 b ->
  (a + b <= u64_max /\ wrap_u64 (a + b) = a + b) \/
  (u64_max < a + b /\ wrap_u64 (a + b) = a + b - (u64_max + 1)).
Proof.
  intros Ha Hb. unfold is_u64 in *. destruct (Z.le_gt_cases (a + b) u64_max); [left|right]; (split; [lia|]).
  - apply wrap_u64_small. unfold is_u64. lia.
  - unfold wrap_u64. symmetry. apply (Z.mod_unique_pos _ _ 1); unfold u64_max in *; lia.
Qed.

(** A reader of redb gets the value. *)
Definition redb_sees {Bytes : Type} (from_slice : Bytes -> result KvEntry string) (t : Instant)
    (key v : string) (s : gmap string Bytes) : Prop :=
  redb_lookup from_slice (fun _ => Ok tt) t key s = Ok (Hit v).

(** The answer of [GET] for a key without value. *)
Definition no_key {A} (key : string) : result A AppError :=
  Err (NotFound ("Key '" +:+ key +:+ "' not found")).

(** When a value that was set with a TTL is seen. *)
Lemma mem_set_seen now t key v ttl (s : MemoryBackend) :
  match mem_set now key v (Some ttl) s with
  | Some (_, s') => now + ttl <= instant_max /\ (mem_lookup t key s' = Hit v <-> t < now + ttl)
  | None => instant_max < now + ttl
  end.
Proof.
  unfold mem_set, memory_entry_new. destruct (Z.leb_spec (now + ttl) instant_max); [|done].
  split; [done|]. unfold mem_lookup, m_is_expired. rewrite lookup_insert_eq. simpl.
  destruct (Z.leb_spec (now + ttl) t); split; done || lia.
Qed.

Lemma redb_set_seen {Bytes : Type} (to_vec : KvEntry -> Bytes) (from_slice : Bytes -> result KvEntry string)
    write_txn now t key v ttl (s s' : gmap string Bytes) :
  (forall e, from_slice (to_vec e) = Ok e) -> 0 <= now -> now <= t ->
  set_sync to_vec write_txn now key v (Some ttl) s = (Ok tt, s') ->
  redb_sees from_slice t key v s' <->
  as_secs t < wrap_u64 (as_secs now + as_secs ttl).
Proof.
  intros Hft Hn Ht. unfold set_sync, with_ttl, unix_now.
  destruct (Z.ltb_spec now 0) as [|_]; [lia|]. cbn [res_bind].
  destruct (write_txn now key); [|done]. intros [= <-].
  unfold redb_sees, redb_lookup, is_expired, unix_now. cbn [res_bind]. rewrite lookup_insert_eq, Hft.
  cbn [res_bind expires_at]. destruct (Z.ltb_spec t 0) as [|_]; [lia|]. cbn [res_bind].
  destruct (Z.leb_spec (wrap_u64 (as_secs now + as_secs ttl)) (as_secs t)); split; done || lia.
Qed.

(** ** Properties *)

(** C5. The in-memory and the persistent backend both refine the abstract
    store, a map from keys to values with deadlines: along any sequence of
    operations with a clock that does not go back, from any contents, every
    answer is the one the abstract store gives, up to operations that fail with
    an error (which change nothing), deletes of expired entries, and an abort
    when a deadline cannot be represented. This holds in whatever order the maps
    are iterated, and whichever transactions fail. *)
Theorem kv_refines_map (iter : forall A, gmap string A -> list (string * A))
    (ops : list (Instant * kv_op)) (t : Instant) :
  (forall A (m : gmap string A), iter A m ≡ₚ map_to_list m) ->
  0 <= t -> nondecreasing t ops ->
  (forall s : MemoryBackend, exists m,
     spec_run (H0 := memory_view) ops (kv_run (H := memory_kv iter) ops s).1
       (kv_contents (KvView := memory_view) s) m) /\
  (forall (Bytes : Type) (to_vec : KvEntry -> Bytes) from_slice read_txn write_txn (s : gmap string Bytes),
     (forall e, from_slice (to_vec e) = Ok e) ->
     kv_wf (KvView := redb_view from_slice) s -> exists m,
       spec_run (H0 := redb_view from_slice) ops
         (kv_run (H := redb_kv to_vec from_slice iter read_txn write_txn) ops s).1
         (kv_contents (KvView := redb_view from_slice) s) m).
Proof.
  intros Hiter Ht Hops. split.
  - intros s. by apply (kv_run_spec (H1 := memory_laws iter Hiter)) with t;
      [| |exact I|apply purged_refl].
  - intros Bytes to_vec from_slice read_txn write_txn s Hft Hwf.
    by apply (kv_run_spec (H1 := redb_laws to_vec from_slice iter read_txn write_txn Hft Hiter)) with t;
      [| | |apply purged_refl].
Qed.

(** Deadlines of the two backends. In memory a value lives exactly for its
    TTL, and the process aborts if the deadline exceeds the platform's instants.
    In redb, which counts whole seconds, it is gone once the TTL has passed, but
    up to two seconds early; a TTL below one second never makes it visible, and
    a TTL whose deadline exceeds 64 bits wraps around so that the value is gone
    at once. *)
Lemma ttl_bounds {Bytes : Type} (to_vec : KvEntry -> Bytes) (from_slice : Bytes -> result KvEntry string)
    (write_txn : Instant -> string -> result unit string) (now t : Instant) (key v : string) (ttl : Duration)
    (ms : MemoryBackend) (rs rs' : gmap string Bytes) :
  let seen := redb_sees from_slice t key v rs' in
  0 <= now -> now <= t -> is_u64 (as_secs ttl) -> is_u64 (as_secs now) ->
  (forall e, from_slice (to_vec e) = Ok e) ->
  set_sync to_vec write_txn now key v (Some ttl) rs = (Ok tt, rs') ->
  match mem_set now key v (Some ttl) ms with
  | Some (_, ms') => now + ttl <= instant_max /\
      (mem_lookup t key ms' = Hit v <-> t < now + ttl)
  | None => instant_max < now + ttl
  end /\
  (seen -> t < now + ttl) /\
  (as_secs now + as_secs ttl <= u64_max -> t <= now + ttl - from_secs 2 -> seen) /\
  (ttl < from_secs 1 -> ~ seen) /\
  (u64_max < as_secs now + as_secs ttl -> ~ seen).
Proof.
  intros seen Hn Ht Httl Hnow Hft Hset. split; [apply mem_set_seen|].
  unfold seen. rewrite (redb_set_seen to_vec from_slice write_txn now t key v ttl rs rs') by done.
  unfold from_secs. pose proof (as_secs_bounds now). pose proof (as_secs_bounds t).
  pose proof (as_secs_bounds ttl). unfold is_u64 in *.
  destruct (wrap_u64_sum (as_secs now) (as_secs ttl)) as [[Hle ->]|[Hgt ->]]; [done..| |];
    split_and!; intros; try lia.
Qed.

(** When a write survives concurrent requests. A value set without TTL
    while no reader is about to remove its key stays, whatever events follow,
    until the key is set or deleted again. But a reader that found the key
    expired removes whatever is there when it gets to it: a set that completes
    in between is lost, although it was acknowledged, has no TTL and nobody
    deleted the key. *)
Lemma set_may_be_lost (key v : string) (now0 now : Instant) (s : MemoryBackend) (rs : list string) :
  (key ∉ rs -> forall es y',
     mem_events (EvSet now key v None :: es) {| shared := s; removing := rs |} y' ->
     Forall (fun e => touches key e = false) es ->
     forall t, mem_lookup t key (shared y') = Hit v) /\
  (mem_lookup now0 key s = Expired ->
     exists y', mem_events [EvLookup now0 key; EvSet now key v None; EvRemove key]
                  {| shared := s; removing := rs |} y' /\
       forall t, mem_lookup t key (shared y') = Miss).
Proof.
  split.
  - intros Hr es y' Hes HF t. inversion Hes as [|? ? ? y1 ? Hset Hrun]; subst.
    inversion Hset as [| | |? ? ? ? ? s1 ? Hs|]; subst. injection Hs as <-.
    destruct (settled_steps key v es {| shared := <[key := {| m_value := v; m_expires_at := None |}]> s;
      removing := rs |} y') as [Hk _]; [done|done|split; [apply lookup_insert_eq|done]|].
    unfold mem_lookup. by rewrite Hk.
  - intros Hexp. eexists. split.
    + eapply evs_cons; [by constructor|]. eapply evs_cons; [by constructor|].
      eapply evs_cons; [apply (ev_remove _ _ [])|constructor].
    + intros t. unfold mem_lookup, mem_remove. simpl. by rewrite lookup_delete_eq.
Qed.

(** A value written over HTTP reads back: on any backend that keeps the
    promises of the interface, after [PUT] with a TTL in seconds answers 200,
    [GET] answers the same text until the deadline and 404 from it on, unless
    the backend reports an error (500); after [DELETE] answers 204 it answers
    404. A disabled service answers 503 and [PUT] never answers anything but
    200, 500 or 503. *)
Lemma http_kv_roundtrip {S : Type} `{KvLaws S} (t0 t1 : Instant) (key v : string) (ttl : option Z)
    (s : S) (kv1 : option S) (r : result Z AppError) :
  0 <= t0 -> t0 <= t1 -> is_utf8 v = true -> kv_wf s ->
  http_kv_set t0 key v ttl (Some s) = Some (r, kv1) ->
  (r = Ok 200 \/ exists e, r = Err (Internal e)) /\
  (r = Ok 200 -> exists d, deadline_of t0 (from_secs <$> ttl) d /\
     let got := (http_kv_get t1 key kv1).1 in
     (got = (if expired t1 d then no_key key else Ok (key, v)) \/
      exists e, got = Err (Internal e)) /\
     let '(dr, kv2) := http_kv_delete t1 key kv1 in
     dr = Ok 204 -> let got2 := (http_kv_get t1 key kv2).1 in
     got2 = no_key key \/ exists e, got2 = Err (Internal e)) /\
  (http_kv_get t1 key (None : option S)).1 =
    Err (ServiceUnavailable "KV service is disabled. Enable it in ~/.mik/daemon.toml").
Proof.
  intros H0' H1' Hu Hwf. unfold http_kv_set. cbn [get_service].
  pose proof (kv_set_law t0 key v (from_secs <$> ttl) s H0' Hwf) as Hset.
  destruct (kv_set t0 key v (from_secs <$> ttl) s) as [[[[]|e] s1]|]; [| |done]; intros [= <- <-].
  2: { split_and!; [by eauto|done|done]. }
  destruct Hset as (Hwf1 & d & Hd & Hc). split_and!; [by left| |done]. intros _. exists d.
  split; [done|].
  assert (forall s2 : S, kv_wf s2 -> (http_kv_get t1 key (Some s2)).1 =
     match live_now t1 s2 key with
     | Some bytes => match from_utf8 bytes with Some v => Ok (key, v)
                     | None => Err (Internal "Value is not valid UTF-8") end
     | None => Err (NotFound ("Key '" +:+ key +:+ "' not found"))
     end \/ exists e, (http_kv_get t1 key (Some s2)).1 = Err (Internal e)) as Hget.
  { intros s2 Hwf2. unfold http_kv_get, with_kv. cbn [get_service].
    destruct (kv_get t1 key s2) as [r2 s3] eqn:E.
    apply kv_get_law in E as (_ & _ & [->|[e ->]]); [|right; by eexists|lia|done].
    left. by destruct (live_now t1 s2 key). }
  split.
  - destruct (Hget s1 Hwf1) as [->|He]; [left|by right]. unfold live_now, live.
    rewrite Hc, lookup_insert_eq. destruct (expired t1 d); [done|]. unfold from_utf8. by rewrite Hu.
  - unfold http_kv_delete, with_kv. cbn [get_service].
    pose proof (kv_delete_law t1 key s1 ltac:(lia) Hwf1) as Hdel.
    destruct (kv_delete t1 key s1) as [[b|e] s2]; [|done]. intros _.
    destruct Hdel as (Hwf2 & Hc2 & _).
    destruct (Hget s2 Hwf2) as [->|He]; [left|by right]. unfold live_now, live.
    by rewrite Hc2, lookup_delete_eq.
Qed.

(** ** The properties at concrete inputs *)

Section Witnesses.
Definition kv_in_order (A : Type) (m : gmap string A) : list (string * A) := map_to_list m.

Lemma kv_in_order_permutation A (m : gmap string A) : kv_in_order A m ≡ₚ map_to_list m.
Proof. done. Qed.

Definition history : list (Instant * kv_op) :=
  [(from_secs 10, OpSet "a" "1" (Some (from_secs 5))); (from_secs 11, OpSet "b" "2" None);
   (from_secs 12, OpList None); (from_secs 14, OpGet "a"); (from_secs 15, OpGet "a");
   (from_secs 16, OpDelete "b"); (from_secs 17, OpExists "b")].

Lemma kv_refines_map_witness :
  let outs := (kv_run (H := redb_kv id Ok kv_in_order (fun _ => Ok tt) (fun _ _ => Ok tt)) history
                 (∅ : gmap string KvEntry)).1 in
  outs = [OutUnit (Ok tt); OutUnit (Ok tt); OutKeys (Ok ["a"; "b"]); OutValue (Ok (Some "1"));
          OutValue (Ok None); OutBool (Ok true); OutBool (Ok false)] /\
  exists m, spec_run (H0 := redb_view Ok) history outs
    (kv_contents (KvView := redb_view Ok) (∅ : gmap string KvEntry)) m.
Proof.
  intros outs. split; [vm_compute; reflexivity|].
  destruct (kv_refines_map kv_in_order history (from_secs 10)) as [_ Hredb];
    [exact kv_in_order_permutation|vm_compute; discriminate| |].
  - repeat split; vm_compute; discriminate.
  - apply (Hredb KvEntry id Ok (fun _ => Ok tt) (fun _ _ => Ok tt) ∅); [reflexivity|].
    intros k b Hk. by exists b.
Defined.

End Witnesses.
