(* ===== verification/Storage.v ===== *)
(** * Object storage of the daemon

    [src/src/daemon/services/storage/] (backend.rs, types.rs, validation.rs,
    memory.rs, filesystem.rs, metadata.rs, service.rs) and
    [src/src/daemon/http/handlers/storage.rs]: the interface [StorageBackend],
    the in-memory backend, and the filesystem backend, whose state is the tree
    below the base directory and the metadata database.

    The tree holds plain files and directories; the database's transactions may
    fail and then change nothing; the content type guessed from a path is
    mime_guess's; the clock is read once per operation. *)

From stdpp Require Import base gmap list strings sorting.
From S2P Require Import Prelude StdPath AppError.

#[local] Open Scope Z_scope.

(** ** Types and the interface ([types.rs], [backend.rs]) *)

Record ObjectMeta := {
  o_path : string;
  o_size : Z;
  content_type : string;
  created_at : Instant;
  modified_at : Instant;
}.

Class StorageBackend (S : Type) := {
  sb_put : Instant -> string -> string -> option string -> S -> result ObjectMeta string * S;
  sb_get : Instant -> string -> S -> result (option (string * ObjectMeta)) string;
  sb_delete : string -> S -> result bool string * S;
  sb_head : Instant -> string -> S -> result (option ObjectMeta) string;
  sb_list : option string -> S -> result (list ObjectMeta) string;
}.
#[global] Hint Mode StorageBackend ! : typeclass_instances.

(** ** Paths ([validation.rs]) *)

(** The loop of [validate_path] over the components. *)
Fixpoint validate_loop (path : string) (cs : Path) (normalized : Path) : result Path string :=
  match cs with
  | [] => Ok normalized
  | Normal name :: cs' => validate_loop path cs' (StdPath.join normalized [Normal name])
  | CurDir :: cs' => validate_loop path cs' normalized
  | ParentDir :: _ => Err ("Object path cannot contain '..': " +:+ path)
  | RootDir :: _ | Prefix _ :: _ => Err ("Object path cannot contain root or prefix: " +:+ path)
  end.

Definition validate_path (path : string) : result Path string :=
  if Str.is_empty path then Err "Object path cannot be empty"
  else if is_absolute (components path) then Err ("Object path cannot be absolute: " +:+ path)
  else
    let? normalized := validate_loop path (components path) [] in
    match normalized with
    | [] => Err "Object path normalized to empty path"
    | _ => Ok normalized
    end.

Definition object_path (base_dir : Path) (path : string) : result Path string :=
  let? normalized := validate_path path in Ok (StdPath.join base_dir normalized).

(** The file of the metadata database in the base directory. *)
Definition db_path (base_dir : Path) : Path := StdPath.join base_dir (components "metadata.redb").

(** [to_string_lossy().replace('\\', "/")] *)
Definition to_slash : string -> string :=
  Str.map (fun c => if Ascii.eqb c Str.BACKSLASH then Str.SLASH else c).

Definition starts_with_opt (prefix : option string) (key : string) : bool :=
  match prefix with Some p => Str.starts_with p key | None => true end.

(** [objects.sort_by(|a, b| a.path.cmp(&b.path))] *)
Definition meta_le (a b : ObjectMeta) : Prop := String.leb (o_path a) (o_path b) = true.
#[export] Instance meta_le_dec a b : Decision (meta_le a b).
Proof. unfold meta_le. apply _. Defined.

Definition sort_metas : list ObjectMeta -> list ObjectMeta := merge_sort meta_le.

(** ** The tree of files below the base directory *)

(** The tree below the base directory, by relative path. *)
Inductive Node := File (content : string) | Dir.
Notation Fs := (gmap (list string) Node).

(** The names of a path relative to the base directory. *)
Definition names (p : Path) : list string :=
  omap (fun c => match c with Normal n => Some n | _ => None end) p.

Definition lookup_node (p : list string) (fs : Fs) : option Node :=
  match p with [] => Some Dir | _ => fs !! p end.

(** [fs::create_dir_all] below the base directory: from the top, a missing
    directory is made and a file is an error. *)
Fixpoint create_dirs (above below : list string) (fs : Fs) : result unit string * Fs :=
  match below with
  | [] => (Ok tt, fs)
  | n :: below' =>
      let dir := above ++ [n] in
      match fs !! dir with
      | Some (File _) => (Err "File exists", fs)
      | Some Dir => create_dirs dir below' fs
      | None => create_dirs dir below' (<[dir := Dir]> fs)
      end
  end.
Definition create_dir_all (dir : list string) (fs : Fs) : result unit string * Fs :=
  create_dirs [] dir fs.

(** [fs::write], [fs::read] and [fs::remove_file] *)
Definition write_file (p : list string) (data : string) (fs : Fs) : result unit string * Fs :=
  match lookup_node p fs with
  | Some Dir => (Err "Is a directory", fs)
  | _ => (Ok tt, <[p := File data]> fs)
  end.
Definition read_file (p : list string) (fs : Fs) : result string string :=
  match lookup_node p fs with
  | Some (File data) => Ok data
  | Some Dir => Err "Is a directory"
  | None => Err "No such file or directory"
  end.
Definition remove_file (p : list string) (fs : Fs) : result unit string * Fs :=
  match lookup_node p fs with
  | Some (File _) => (Ok tt, delete p fs)
  | Some Dir => (Err "Is a directory", fs)
  | None => (Err "No such file or directory", fs)
  end.

Section Backends.
(** [mime_guess::from_path(_).first()] *)
Variable mime_guess : Path -> option string.
Variable iter : forall A, gmap string A -> list (string * A).

Definition guess_or_octets (p : Path) : string :=
  default "application/octet-stream" (mime_guess p).

Definition new_meta (now : Instant) (path : string) (p : Path) (data : string)
    (content_type : option string) : ObjectMeta := {|
  o_path := path; o_size := Str.len data;
  content_type := default (guess_or_octets p) content_type;
  created_at := now; modified_at := now |}.

(** ** In-memory backend ([memory.rs]) *)

Record MemoryObject := {
  mo_data : string;
  mo_meta : ObjectMeta;
}.

Notation MemoryStorageBackend := (gmap string MemoryObject).

Definition memory_key (p : Path) : string := to_slash (to_str p).

Definition memory_put (now : Instant) (path data : string) (content_type : option string)
    (s : MemoryStorageBackend) : result ObjectMeta string * MemoryStorageBackend :=
  match validate_path path with
  | Err e => (Err e, s)
  | Ok normalized =>
      let normalized_str := memory_key normalized in
      let meta := new_meta now normalized_str normalized data content_type in
      (Ok meta, <[normalized_str := {| mo_data := data; mo_meta := meta |}]> s)
  end.

Definition memory_get (path : string) (s : MemoryStorageBackend)
  : result (option (string * ObjectMeta)) string :=
  let? normalized := validate_path path in
  Ok ((fun obj => (mo_data obj, mo_meta obj)) <$> s !! memory_key normalized).

Definition memory_delete (path : string) (s : MemoryStorageBackend)
  : result bool string * MemoryStorageBackend :=
  match validate_path path with
  | Err e => (Err e, s)
  | Ok normalized =>
      (Ok match s !! memory_key normalized with Some _ => true | None => false end,
       delete (memory_key normalized) s)
  end.

Definition memory_head (path : string) (s : MemoryStorageBackend)
  : result (option ObjectMeta) string :=
  let? normalized := validate_path path in Ok (mo_meta <$> s !! memory_key normalized).

Definition memory_list (prefix : option string) (s : MemoryStorageBackend)
  : result (list ObjectMeta) string :=
  Ok (sort_metas ((fun e => mo_meta e.2) <$>
        filter (fun e => starts_with_opt prefix e.1 = true) (iter _ s))).

Definition memory_clear (s : MemoryStorageBackend) : MemoryStorageBackend := ∅.

#[local] Instance memory_storage : StorageBackend MemoryStorageBackend := {|
  sb_put := memory_put; sb_get _ := memory_get; sb_delete := memory_delete;
  sb_head _ := memory_head; sb_list := memory_list |}.

(** ** Filesystem backend ([filesystem.rs]) *)

(** [fs::metadata(_).len()]; the size of a directory is the file system's. *)
Variable dir_size : Z.
Definition file_len (p : list string) (fs : Fs) : option Z :=
  match lookup_node p fs with
  | Some (File data) => Some (Str.len data)
  | Some Dir => Some dir_size
  | None => None
  end.

(** The bytes of stored metadata, and serde_json's conversions. *)
Context {Bytes : Type}.
Variable to_vec : ObjectMeta -> Bytes.
Variable from_slice : Bytes -> result ObjectMeta string.
Variable db_read : result unit string.
Variable db_write : string -> result unit string.

Record FilesystemBackend := {
  files : Fs;
  db : gmap string Bytes;
}.

Definition set_files (fs : Fs) (s : FilesystemBackend) : FilesystemBackend :=
  {| files := fs; db := db s |}.
Definition set_db (m : gmap string Bytes) (s : FilesystemBackend) : FilesystemBackend :=
  {| files := files s; db := m |}.

(** *** Metadata ([metadata.rs]) *)

Definition save_metadata (meta : ObjectMeta) (m : gmap string Bytes)
  : result unit string * gmap string Bytes :=
  match db_write (o_path meta) with
  | Ok _ => (Ok tt, <[o_path meta := to_vec meta]> m)
  | Err e => (Err e, m)
  end.

Definition load_metadata (path : string) (m : gmap string Bytes) : result (option ObjectMeta) string :=
  let? _ := db_read in
  match m !! path with
  | Some bytes =>
      match from_slice bytes with
      | Ok meta => Ok (Some meta)
      | Err _ => Err ("Failed to deserialize object metadata: " +:+ path)
      end
  | None => Ok None
  end.

Definition remove_metadata (path : string) (m : gmap string Bytes)
  : result unit string * gmap string Bytes :=
  match db_write path with
  | Ok _ => (Ok tt, delete path m)
  | Err e => (Err e, m)
  end.

(** *** The object operations *)

Definition put_sync (now : Instant) (path data : string) (content_type : option string)
    (s : FilesystemBackend) : result ObjectMeta string * FilesystemBackend :=
  match validate_path path with
  | Err e => (Err e, s)
  | Ok file_path =>
      let p := names file_path in
      let '(made, fs) := create_dir_all (removelast p) (files s) in
      match made with
      | Err _ => (Err ("Failed to create parent directories for: " +:+ path), set_files fs s)
      | Ok _ =>
          let '(written, fs) := write_file p data fs in
          match written with
          | Err _ => (Err ("Failed to write object: " +:+ path), set_files fs s)
          | Ok _ =>
              let meta := new_meta now path file_path data content_type in
              let '(saved, m) := save_metadata meta (db s) in
              (match saved with Ok _ => Ok meta | Err e => Err e end, {| files := fs; db := m |})
          end
      end
  end.

(** Metadata of a file without an entry. *)
Definition reconstruct (now : Instant) (path : string) (p : Path) (len : Z) : ObjectMeta := {|
  o_path := path; o_size := len; content_type := guess_or_octets p;
  created_at := now; modified_at := now |}.

Definition meta_or_reconstruct (now : Instant) (path : string) (file_path : Path)
    (s : FilesystemBackend) : result ObjectMeta string :=
  let? loaded := load_metadata path (db s) in
  match loaded with
  | Some meta => Ok meta
  | None =>
      let? len := ok_or (file_len (names file_path) (files s))
                        ("Failed to get file metadata: " +:+ path) in
      Ok (reconstruct now path file_path len)
  end.

Definition exists_file (p : list string) (fs : Fs) : bool :=
  match lookup_node p fs with Some _ => true | None => false end.

Definition fs_get_sync (now : Instant) (path : string) (s : FilesystemBackend)
  : result (option (string * ObjectMeta)) string :=
  let? file_path := validate_path path in
  let p := names file_path in
  if negb (exists_file p (files s)) then Ok None
  else match read_file p (files s) with
       | Err _ => Err ("Failed to read object: " +:+ path)
       | Ok data =>
           let? meta := meta_or_reconstruct now path file_path s in Ok (Some (data, meta))
       end.

Definition delete_sync (path : string) (s : FilesystemBackend)
  : result bool string * FilesystemBackend :=
  match validate_path path with
  | Err e => (Err e, s)
  | Ok file_path =>
      let p := names file_path in
      if negb (exists_file p (files s)) then
        let '(removed, m) := remove_metadata path (db s) in
        (match removed with Ok _ => Ok false | Err e => Err e end, set_db m s)
      else
        let '(unlinked, fs) := remove_file p (files s) in
        match unlinked with
        | Err _ => (Err ("Failed to delete object: " +:+ path), set_files fs s)
        | Ok _ =>
            let '(removed, m) := remove_metadata path (db s) in
            (match removed with Ok _ => Ok true | Err e => Err e end, {| files := fs; db := m |})
        end
  end.

Definition head_sync (now : Instant) (path : string) (s : FilesystemBackend)
  : result (option ObjectMeta) string :=
  let? file_path := validate_path path in
  if negb (exists_file (names file_path) (files s)) then Ok None
  else let? meta := meta_or_reconstruct now path file_path s in Ok (Some meta).

Definition fs_list_sync (prefix : option string) (s : FilesystemBackend)
  : result (list ObjectMeta) string :=
  let? _ := db_read in
  Ok (sort_metas (omap (fun e => match from_slice e.2 with Ok meta => Some meta | Err _ => None end)
        (filter (fun e => starts_with_opt prefix e.1 = true) (iter _ (db s))))).

#[local] Instance filesystem_storage : StorageBackend FilesystemBackend := {|
  sb_put := put_sync; sb_get := fs_get_sync; sb_delete := delete_sync;
  sb_head := head_sync; sb_list := fs_list_sync |}.

(** *** Reconciliation at start-up ([metadata.rs]) *)

(** The directory entries the scan passes over. *)
Definition skipped (name : string) : bool :=
  (String.eqb name "metadata.redb" ||
   match (rsplit_dot name).2 with Some e => String.eqb e "lock" | None => false end)%bool.

(** [fs::read_dir]: the paths of the entries of a directory. *)
Definition read_dir (dir : list string) (fs : Fs) : list (list string * Node) :=
  filter (fun e => e.1 <> [] /\ removelast e.1 = dir) (map_to_list fs).

(** [scan_directory]; the fuel bounds the depth of the tree. *)
Fixpoint scan_directory (fuel : nat) (dir : list string) (fs : Fs) : list string :=
  match fuel with
  | O => []
  | S fuel' =>
      flat_map (fun e =>
        if skipped (default EmptyString (last e.1)) then []
        else match e.2 with
             | Dir => scan_directory fuel' e.1 fs
             | File _ => [to_slash (Str.join "/" e.1)]
             end) (read_dir dir fs)
  end.

(** Depth of the deepest entry. *)
Definition depth (fs : Fs) : nat := list_max ((fun e => length e.1) <$> map_to_list fs).

(** [base_dir.join(path)] of a stored path, relative to the base. *)
Definition stored_path (path : string) : list string := names (components path).

(** Phase 2: the entries without a file, and those with another size. *)
Fixpoint check_entries (es : list (string * Bytes)) (fs_files : list string) (fs : Fs)
  : list string * list (string * Z) * list string :=
  match es with
  | [] => ([], [], fs_files)
  | (path, bytes) :: es' =>
      if bool_decide (path ∈ fs_files) then
        let '(orphaned, stale, rest) :=
          check_entries es' (filter (fun f => f <> path) fs_files) fs in
        match from_slice bytes, file_len (stored_path path) fs with
        | Ok meta, Some len =>
            if Z.eqb len (o_size meta) then (orphaned, stale, rest)
            else (orphaned, (path, len) :: stale, rest)
        | _, _ => (orphaned, stale, rest)
        end
      else
        let '(orphaned, stale, rest) := check_entries es' fs_files fs in
        (path :: orphaned, stale, rest)
  end.

(** Phase 3 *)
Fixpoint remove_orphans (paths : list string) (m : gmap string Bytes)
  : result unit string * gmap string Bytes :=
  match paths with
  | [] => (Ok tt, m)
  | path :: paths' =>
      let '(r, m) := remove_metadata path m in
      match r with Ok _ => remove_orphans paths' m | Err e => (Err e, m) end
  end.

(** Phase 4 *)
Fixpoint add_missing (now : Instant) (paths : list string) (fs : Fs) (m : gmap string Bytes)
  : result unit string * gmap string Bytes :=
  match paths with
  | [] => (Ok tt, m)
  | path :: paths' =>
      match file_len (stored_path path) fs with
      | None => add_missing now paths' fs m
      | Some len =>
          let '(r, m) := save_metadata (reconstruct now path (components path) len) m in
          match r with Ok _ => add_missing now paths' fs m | Err e => (Err e, m) end
      end
  end.

(** Phase 5 *)
Definition resized (now : Instant) (len : Z) (meta : ObjectMeta) : ObjectMeta := {|
  o_path := o_path meta; o_size := len; content_type := content_type meta;
  created_at := created_at meta; modified_at := now |}.

Fixpoint update_stale (now : Instant) (stale : list (string * Z)) (m : gmap string Bytes)
  : result unit string * gmap string Bytes :=
  match stale with
  | [] => (Ok tt, m)
  | (path, len) :: stale' =>
      match load_metadata path m with
      | Err e => (Err e, m)
      | Ok None => update_stale now stale' m
      | Ok (Some meta) =>
          let '(r, m) := save_metadata (resized now len meta) m in
          match r with Ok _ => update_stale now stale' m | Err e => (Err e, m) end
      end
  end.

Definition reconcile (now : Instant) (fs : Fs) (m : gmap string Bytes)
  : result unit string * gmap string Bytes :=
  let fs_files := scan_directory (S (depth fs)) [] fs in
  match db_read with
  | Err e => (Err e, m)
  | Ok _ =>
      let '(orphaned, stale, missing) := check_entries (iter _ m) fs_files fs in
      let '(r, m) := remove_orphans orphaned m in
      match r with
      | Err e => (Err e, m)
      | Ok _ =>
          let '(r, m) := add_missing now missing fs m in
          match r with
          | Err e => (Err e, m)
          | Ok _ => update_stale now stale m
          end
      end
  end.

(** [FilesystemBackend::open] on an existing tree and database. *)
Definition fs_open (now : Instant) (fs : Fs) (m : gmap string Bytes)
  : result FilesystemBackend string :=
  match reconcile now fs m with
  | (Ok _, m) => Ok {| files := fs; db := m |}
  | (Err e, _) => Err e
  end.
End Backends.

(** ** HTTP handlers ([handlers/storage.rs]) *)

Section Handlers.
Context {S : Type} `{StorageBackend S}.

Definition get_storage (storage : option S) : result S AppError :=
  get_service "Storage" storage.

Definition storage_list (prefix : option string) (limit : option nat) (storage : option S)
  : result (list ObjectMeta) AppError :=
  let? s := get_storage storage in
  let? objects := or_internal (sb_list prefix s) in
  Ok match limit with Some n => take n objects | None => objects end.

(** 200 with the content type and the data. *)
Definition storage_get (now : Instant) (path : string) (storage : option S)
  : result (string * string) AppError :=
  let? s := get_storage storage in
  let? found := or_internal (sb_get now path s) in
  match found with
  | Some (data, meta) => Ok (content_type meta, data)
  | None => Err (NotFound ("Object '" +:+ path +:+ "' not found"))
  end.

Definition storage_put (now : Instant) (path : string) (content_type : option string) (body : string)
    (storage : option S) : result Z AppError * option S :=
  match get_storage storage with
  | Err e => (Err e, storage)
  | Ok s =>
      let '(r, s) := sb_put now path body content_type s in
      (match r with Ok _ => Ok 201 | Err e => Err (from_error e) end, Some s)
  end.

Definition storage_delete (path : string) (storage : option S) : result Z AppError * option S :=
  match get_storage storage with
  | Err e => (Err e, storage)
  | Ok s =>
      let '(r, s) := sb_delete path s in
      (match r with Ok _ => Ok 204 | Err e => Err (from_error e) end, Some s)
  end.

(** 200 with the content type and the size. *)
Definition storage_head (now : Instant) (path : string) (storage : option S)
  : result (string * Z) AppError :=
  let? s := get_storage storage in
  let? found := or_internal (sb_head now path s) in
  match found with
  | Some meta => Ok (content_type meta, o_size meta)
  | None => Err (NotFound ("Object '" +:+ path +:+ "' not found"))
  end.
End Handlers.
