(* ===== verification/StorageLaws.v ===== *)
(** * What the storage interface promises, and that both backends keep it

    Object paths; the laws of [StorageBackend] over the abstract objects of a
    backend; [memory_storage_laws] and [filesystem_storage_laws] discharge them
    for the two implementations of Storage.v. *)

From stdpp Require Import base gmap list strings sorting.
From S2P Require Import Prelude StdPath AppError Storage.

#[local] Open Scope Z_scope.

(** ** Object paths *)

Lemma validate_loop_Ok path cs acc p : acc = Normal <$> names acc ->
  validate_loop path cs acc = Ok p <->
  ParentDir ∉ cs /\ RootDir ∉ cs /\ (forall x, Prefix x ∉ cs) /\
  p = acc ++ (Normal <$> names cs).
Proof.
  revert acc. induction cs as [|c cs IH]; intros acc Hacc; simpl.
  - rewrite app_nil_r. set_solver.
  - assert (forall n, StdPath.join acc [Normal n] = acc ++ [Normal n]) as Hj by (by destruct acc).
    destruct c as [x| | | |n]; try (split; [done|set_solver]).
    + rewrite (IH acc Hacc). csimpl. split; intros (? & ? & Hx & ?); split_and!; set_solver.
    + rewrite Hj, IH.
      * csimpl. rewrite <- app_assoc. split; intros (? & ? & Hx & ?); split_and!; set_solver.
      * rewrite Hacc at 1. unfold names. by rewrite omap_app, fmap_app.
Qed.

(** [validate_path] accepts exactly the relative paths without [..] that name
    something, and returns their plain names. *)
Lemma validate_path_Ok path p :
  validate_path path = Ok p <->
  is_absolute (components path) = false /\ ParentDir ∉ components path /\
  p = Normal <$> names (components path) /\ p <> [].
Proof.
  unfold validate_path. destruct (Str.is_empty path) eqn:Ee.
  { destruct path; [|done]. split; [done|]. by intros (_ & _ & -> & ?). }
  destruct (is_absolute (components path)) eqn:Ea; [naive_solver|].
  assert (RootDir ∉ components path) as Hroot.
  { unfold components in *. destruct (Str.split Str.SLASH path) as [|f rest]; [set_solver|].
    assert (forall w, RootDir ∉ piece w) as Hp by (intros w; unfold piece; repeat case_match; set_solver).
    rewrite elem_of_app. intros [Hin|Hin].
    - destruct (String.eqb path ""); [set_solver|]. destruct (String.eqb f ""); [done|].
      destruct (String.eqb f "."); [set_solver|]. by apply Hp in Hin.
    - apply list_elem_of_join in Hin as (l & Hin & Hl). apply list_elem_of_fmap in Hl as (w & -> & _).
      by apply Hp in Hin. }
  rewrite res_bind_Ok. split.
  - intros (q & Hq & Hne). apply validate_loop_Ok in Hq as (Hpar & _ & _ & ->); [|done].
    cbn [app] in Hne. destruct (Normal <$> names (components path)) eqn:E; [done|].
    injection Hne as <-. done.
  - intros (_ & Hpar & -> & Hne). exists (Normal <$> names (components path)).
    split; [|by destruct (Normal <$> names (components path))].
    apply validate_loop_Ok; [done|]. split_and!; [done|done|apply components_no_prefix|done].
Qed.

Lemma names_normal ns : names (Normal <$> ns) = ns.
Proof. unfold names. induction ns as [|n ns IH]; [done|]. csimpl. by rewrite IH. Qed.

Lemma names_plain path : Forall plain (names (components path)).
Proof.
  apply Forall_forall. intros n Hn. unfold names in Hn. apply list_elem_of_omap in Hn as (c & Hc & E).
  destruct c; simplify_eq. by apply components_normal in Hc as [? _].
Qed.

Lemma to_str_join ns : ns <> [] -> to_str (Normal <$> ns) = Str.join "/" ns.
Proof.
  intros Hne. destruct ns as [|n ns]; [done|]. unfold to_str. simpl.
  rewrite <- list_fmap_compose. unfold compose. simpl. by rewrite list_fmap_id.
Qed.

(** Paths in normal form: plain names joined by slashes, without backslashes. *)
Definition canonical (path : string) : Prop :=
  exists ns, ns <> [] /\ Forall plain ns /\ path = Str.join "/" ns /\
             Str.contains_char Str.BACKSLASH path = false.

Lemma components_join ns : ns <> [] -> Forall plain ns ->
  components (Str.join "/" ns) = Normal <$> ns.
Proof. intros. rewrite <- to_str_join by done. by apply components_to_str. Qed.

Lemma stored_path_join ns : ns <> [] -> Forall plain ns -> stored_path (Str.join "/" ns) = ns.
Proof. intros. unfold stored_path. by rewrite components_join, names_normal. Qed.

Lemma join_inj ns ns' : ns <> [] -> ns' <> [] -> Forall plain ns -> Forall plain ns' ->
  Str.join "/" ns = Str.join "/" ns' -> ns = ns'.
Proof.
  intros H1 H2 HF1 HF2 E. by rewrite <- (stored_path_join ns), E, stored_path_join.
Qed.

Lemma validate_join ns : ns <> [] -> Forall plain ns ->
  validate_path (Str.join "/" ns) = Ok (Normal <$> ns).
Proof.
  intros Hne HF. apply validate_path_Ok. rewrite components_join, names_normal by done.
  split_and!; [by destruct ns| |done|by destruct ns].
  intros Hin. by apply list_elem_of_fmap in Hin as (? & ? & _).
Qed.

Lemma to_slash_none s : Str.contains_char Str.BACKSLASH s = false -> to_slash s = s.
Proof.
  unfold to_slash, Str.contains_char. induction s as [|c s IH]; [done|]. simpl.
  intros [Hc Hs]%orb_false_elim. rewrite IH by done.
  destruct (Ascii.eqb_spec c Str.BACKSLASH) as [->|]; [done|done].
Qed.

(** What the backends make of a path in normal form. *)
Lemma canonical_validate path : canonical path ->
  exists ns, ns <> [] /\ Forall plain ns /\ path = Str.join "/" ns /\
    validate_path path = Ok (Normal <$> ns) /\ memory_key (Normal <$> ns) = path /\
    stored_path path = ns.
Proof.
  intros (ns & Hne & HF & -> & Hb). exists ns. split_and!; [done..|by apply validate_join| |by apply stored_path_join].
  unfold memory_key. rewrite to_str_join by done. by apply to_slash_none.
Qed.

(** ** Sorted listings *)

Lemma leb_trans a b c : String.leb a b = true -> String.leb b c = true -> String.leb a c = true.
Proof.
  unfold String.leb. revert b c. induction a as [|x a IH]; intros b c; [by destruct c|].
  destruct b as [|y b]; [done|]. destruct c as [|z c]; [by destruct (_ ?= _)%string|].
  simpl. destruct (Ascii.compare x y) eqn:E1, (Ascii.compare y z) eqn:E2; try done;
    unfold Ascii.compare in *; rewrite ?N.compare_eq_iff, ?N.compare_lt_iff in *.
  - intros H1 H2. rewrite E1, E2, N.compare_refl. by eapply IH.
  - intros _ _. by rewrite E1, (proj2 (N.compare_lt_iff _ _) E2).
  - intros _ _. by rewrite <- E2, (proj2 (N.compare_lt_iff _ _) E1).
  - intros _ _. by rewrite (proj2 (N.compare_lt_iff _ _) (N.lt_trans _ _ _ E1 E2)).
Qed.

#[export] Instance meta_le_trans : Transitive meta_le.
Proof. intros a b c. apply leb_trans. Qed.
#[export] Instance meta_le_total : Total meta_le.
Proof. intros a b. apply String.leb_total. Qed.

(** Objects with distinct paths have one sorted listing. *)
Lemma sort_metas_unique l1 l2 :
  l1 ≡ₚ l2 -> NoDup (o_path <$> l1) -> sort_metas l1 = sort_metas l2.
Proof.
  intros Hp Hnd. unfold sort_metas.
  assert (merge_sort meta_le l1 ≡ₚ merge_sort meta_le l2) as Hs by by rewrite !merge_sort_Permutation.
  refine (Sorted_unique_strong meta_le _ _ _ (Sorted_merge_sort _ _) (Sorted_merge_sort _ _) Hs).
  intros a b Ha Hb Hab Hba. rewrite merge_sort_Permutation in Ha, Hb.
  rewrite <- Hp in Hb. pose proof (String.leb_antisym _ _ Hab Hba) as E.
  clear -Hnd Ha Hb E. induction l1 as [|x l IH]; [by apply elem_of_nil in Ha|].
  cbn [fmap list_fmap] in Hnd. apply NoDup_cons in Hnd as [Hx Hnd].
  apply elem_of_cons in Ha as [->|Ha], Hb as [->|Hb]; [done| | |by apply IH].
  - destruct Hx. rewrite E. by apply list_elem_of_fmap_2.
  - destruct Hx. rewrite <- E. by apply list_elem_of_fmap_2.
Qed.

(** ** The promise *)

Notation Objects := (gmap string (string * ObjectMeta)).

(** The objects below a prefix, sorted by path. *)
Definition listing (prefix : option string) (m : Objects) : list ObjectMeta :=
  sort_metas ((fun e => e.2.2) <$> filter (fun e => starts_with_opt prefix e.1 = true) (map_to_list m)).

Definition objects_wf (m : Objects) : Prop :=
  forall k d meta, m !! k = Some (d, meta) -> o_path meta = k /\ o_size meta = Str.len d.

(** The metadata of an object just stored. *)
Definition stored_as (now : Instant) (path data : string) (ct : option string) (meta : ObjectMeta) : Prop :=
  o_path meta = path /\ o_size meta = Str.len data /\ created_at meta = now /\ modified_at meta = now /\
  forall c, ct = Some c -> content_type meta = c.

Class StorageView (S : Type) := {
  sb_wf : S -> Prop;
  sb_objects : S -> Objects;
}.

(** For paths in normal form the operations are those of a map, except that a
    backend may report an error for a path that is no object (a directory);
    paths that [validate_path] rejects are errors and change nothing. *)
Class StorageLaws (S : Type) `{StorageBackend S} `{StorageView S} : Prop := {
  sb_wf_law (s : S) : sb_wf s -> objects_wf (sb_objects s);
  sb_put_law now path data ct (s : S) : sb_wf s -> canonical path ->
    match sb_put now path data ct s with
    | (Ok meta, s') => sb_wf s' /\ stored_as now path data ct meta /\
                       sb_objects s' = <[path := (data, meta)]> (sb_objects s)
    | (Err _, s') => sb_wf s' /\ sb_objects s' = sb_objects s
    end;
  sb_get_law now path (s : S) : sb_wf s -> canonical path ->
    match sb_get now path s with
    | Ok r => r = sb_objects s !! path
    | Err _ => sb_objects s !! path = None
    end;
  sb_delete_law path (s : S) : sb_wf s -> canonical path ->
    match sb_delete path s with
    | (Ok b, s') => sb_wf s' /\ sb_objects s' = delete path (sb_objects s) /\
                    b = bool_decide (is_Some (sb_objects s !! path))
    | (Err _, s') => sb_wf s' /\ sb_objects s' = sb_objects s /\ sb_objects s !! path = None
    end;
  sb_head_law now path d meta (s : S) : sb_wf s -> canonical path ->
    sb_objects s !! path = Some (d, meta) -> sb_head now path s = Ok (Some meta);
  sb_list_law prefix (s : S) : sb_wf s -> sb_list prefix s = Ok (listing prefix (sb_objects s));
  sb_reject_law now path data ct (s : S) e : validate_path path = Err e ->
    sb_put now path data ct s = (Err e, s) /\ sb_get now path s = Err e /\
    sb_delete path s = (Err e, s) /\ sb_head now path s = Err e;
}.

Lemma listing_paths prefix m : objects_wf m ->
  NoDup (o_path <$> ((fun e => e.2.2) <$>
    filter (fun e => starts_with_opt prefix e.1 = true) (map_to_list m))).
Proof.
  intros Hwf. rewrite <- list_fmap_compose. eapply (eq_ind _ NoDup).
  2: { apply list_fmap_ext. intros i [k [d meta]] Hi. apply list_elem_of_lookup_2 in Hi.
       apply list_elem_of_filter in Hi as [_ Hi]. apply elem_of_map_to_list in Hi.
       apply Hwf in Hi as [Hk _]. instantiate (1 := fst). by symmetry. }
  eapply sublist_NoDup; [apply (NoDup_fst_map_to_list m)|]. apply fmap_sublist, sublist_filter.
Qed.

(** ** The in-memory backend *)

Section MemoryLaws.
Variable mime_guess : Path -> option string.
Variable iter : forall A, gmap string A -> list (string * A).
Hypothesis iter_permutation : forall A (m : gmap string A), iter A m ≡ₚ map_to_list m.

#[local] Instance memory_backend : StorageBackend (gmap string MemoryObject) :=
  memory_storage mime_guess iter.
#[local] Instance memory_storage_view : StorageView (gmap string MemoryObject) := {|
  sb_objects s := (fun o => (mo_data o, mo_meta o)) <$> s;
  sb_wf s := objects_wf ((fun o => (mo_data o, mo_meta o)) <$> s) |}.

#[local] Instance memory_storage_laws : StorageLaws (gmap string MemoryObject).
Proof.
  split; cbn [sb_put sb_get sb_delete sb_head sb_list memory_backend memory_storage];
    cbn [sb_objects sb_wf memory_storage_view].
  - done.
  - intros now path data ct s Hwf Hcan.
    destruct (canonical_validate path Hcan) as (ns & _ & _ & _ & Hv & Hk & _).
    unfold memory_put. rewrite Hv, Hk, fmap_insert. cbn [mo_data mo_meta]. split_and!.
    + intros k d m Hl. apply lookup_insert_Some in Hl as [[<- [= <- <-]]|[_ Hl]]; [done|by eapply Hwf].
    + split_and!; try done. intros c ->. done.
    + done.
  - intros now path s _ Hcan.
    destruct (canonical_validate path Hcan) as (ns & _ & _ & _ & Hv & Hk & _).
    unfold memory_get. rewrite Hv. cbn [res_bind]. by rewrite Hk, lookup_fmap.
  - intros path s Hwf Hcan.
    destruct (canonical_validate path Hcan) as (ns & _ & _ & _ & Hv & Hk & _).
    unfold memory_delete. rewrite Hv, Hk, fmap_delete, lookup_fmap. split_and!; [|done|].
    + intros k d m Hl. apply lookup_delete_Some in Hl as [_ Hl]. by eapply Hwf.
    + by destruct (s !! path).
  - intros now path d meta s _ Hcan.
    destruct (canonical_validate path Hcan) as (ns & _ & _ & _ & Hv & Hk & _).
    unfold memory_head. rewrite Hv. cbn [res_bind]. rewrite Hk, lookup_fmap.
    destruct (s !! path) as [o|]; [|done]. simpl. by intros [= _ <-].
  - intros prefix s Hwf. unfold memory_list, listing. f_equal. symmetry.
    apply sort_metas_unique; [|by apply listing_paths].
    rewrite iter_permutation, map_to_list_fmap.
    induction (map_to_list s) as [|[k o] l IH]; [done|]. csimpl. rewrite !filter_cons. simpl.
    destruct (starts_with_opt prefix k); repeat case_decide; csimpl; try done. by rewrite IH.
  - intros now path data ct s e He. unfold memory_put, memory_get, memory_delete, memory_head.
    by rewrite He.
Qed.
End MemoryLaws.

(** ** The tree of files *)

(** Every entry has plain names and its parent is a directory. *)
Definition fs_wf (fs : Fs) : Prop :=
  forall p node, fs !! p = Some node ->
    p <> [] /\ Forall plain p /\ lookup_node (removelast p) fs = Some Dir.

Lemma removelast_snoc {A} (l : list A) x : removelast (l ++ [x]) = l.
Proof. apply removelast_last. Qed.

Lemma lookup_node_cons (p : list string) (fs : Fs) : p <> [] -> lookup_node p fs = fs !! p.
Proof. by destruct p. Qed.

Lemma fs_wf_insert p node fs : fs_wf fs -> p <> [] -> Forall plain p ->
  lookup_node (removelast p) fs = Some Dir -> (forall d, node = File d -> lookup_node p fs <> Some Dir) ->
  fs_wf (<[p := node]> fs).
Proof.
  intros Hwf Hne HF Hpar Hnode q x Hq.
  assert (forall r, lookup_node r fs = Some Dir -> lookup_node r (<[p := node]> fs) = Some Dir) as Hdir.
  { intros r Hr. destruct r as [|n r]; [done|]. rewrite lookup_node_cons in * by done.
    destruct (decide (n :: r = p)) as [<-|Hrp]; [|by rewrite lookup_insert_ne].
    rewrite lookup_insert_eq. destruct node as [d|]; [|done].
    by destruct (Hnode d eq_refl). }
  apply lookup_insert_Some in Hq as [[<- _]|[_ Hq]]; [by auto|].
  destruct (Hwf _ _ Hq) as (? & ? & ?). auto.
Qed.

(** [create_dir_all] only adds directories, and on success the directory exists. *)
Lemma create_dirs_spec below : forall above fs r fs',
  fs_wf fs -> lookup_node above fs = Some Dir -> Forall plain (above ++ below) ->
  create_dirs above below fs = (r, fs') ->
  fs_wf fs' /\ (forall p d, fs' !! p = Some (File d) <-> fs !! p = Some (File d)) /\
  (r = Ok tt -> lookup_node (above ++ below) fs' = Some Dir).
Proof.
  induction below as [|n below IH]; intros above fs r fs' Hwf Hab HF; cbn [create_dirs].
  { intros [= <- <-]. by rewrite app_nil_r. }
  assert (above ++ n :: below = (above ++ [n]) ++ below) as Eapp by (by rewrite <- app_assoc).
  rewrite Eapp in *. assert (above ++ [n] <> []) as Hne by (by destruct above).
  destruct (fs !! (above ++ [n])) as [[d|]|] eqn:E.
  - intros [= <- <-]. done.
  - intros Hc. eapply IH; [done| |done|done]. by rewrite lookup_node_cons.
  - intros Hc. apply IH in Hc as (Hwf' & Hfiles & Hd); [| | |done].
    + split_and!; [done| |done]. intros p d. rewrite Hfiles.
      destruct (decide (p = above ++ [n])) as [->|Hp]; [|by rewrite lookup_insert_ne].
      rewrite lookup_insert_eq, E. done.
    + apply fs_wf_insert; [done|done| |by rewrite removelast_snoc|done].
      by apply Forall_app in HF as [? _].
    + rewrite lookup_node_cons by done. apply lookup_insert_eq.
Qed.

Lemma write_file_spec p data fs r fs' :
  fs_wf fs -> p <> [] -> Forall plain p -> lookup_node (removelast p) fs = Some Dir ->
  write_file p data fs = (r, fs') ->
  match r with
  | Ok _ => fs_wf fs' /\ fs' = <[p := File data]> fs /\ fs !! p <> Some Dir
  | Err _ => fs' = fs /\ fs !! p = Some Dir
  end.
Proof.
  intros Hwf Hne HF Hpar. unfold write_file. rewrite lookup_node_cons by done.
  destruct (fs !! p) as [[d|]|] eqn:E; intros [= <- <-]; [|done|];
    (split_and!; [|done|done]); apply fs_wf_insert; try done;
    intros d' _; rewrite lookup_node_cons by done; by rewrite E.
Qed.

(** ** The filesystem backend *)

Section FilesystemLaws.
Variable mime_guess : Path -> option string.
Variable iter : forall A, gmap string A -> list (string * A).
Hypothesis iter_permutation : forall A (m : gmap string A), iter A m ≡ₚ map_to_list m.
Variable dir_size : Z.
Context {Bytes : Type}.
Variable to_vec : ObjectMeta -> Bytes.
Variable from_slice : Bytes -> result ObjectMeta string.
Hypothesis from_to : forall meta, from_slice (to_vec meta) = Ok meta.

Notation State := (FilesystemBackend (Bytes := Bytes)).

(** Every metadata entry decodes and describes a file of the tree, and every
    file has one. *)
Definition fs_consistent (s : State) : Prop :=
  fs_wf (files s) /\
  (forall path bytes, db s !! path = Some bytes -> exists ns d meta,
     from_slice bytes = Ok meta /\ o_path meta = path /\ o_size meta = Str.len d /\
     ns <> [] /\ Forall plain ns /\ path = Str.join "/" ns /\ files s !! ns = Some (File d)) /\
  (forall ns d, files s !! ns = Some (File d) -> is_Some (db s !! Str.join "/" ns)).

Definition fs_objects (s : State) : Objects :=
  map_imap (fun path bytes => match from_slice bytes, files s !! stored_path path with
                              | Ok meta, Some (File d) => Some (d, meta)
                              | _, _ => None
                              end) (db s).

Lemma fs_objects_lookup s path :
  fs_objects s !! path = db s !! path ≫= fun bytes =>
    match from_slice bytes, files s !! stored_path path with
    | Ok meta, Some (File d) => Some (d, meta)
    | _, _ => None
    end.
Proof. unfold fs_objects. apply map_lookup_imap. Qed.

(** The three views of a path of a consistent state agree. *)
Lemma fs_object s ns : fs_consistent s -> ns <> [] -> Forall plain ns ->
  (exists d bytes meta, files s !! ns = Some (File d) /\ db s !! Str.join "/" ns = Some bytes /\
     from_slice bytes = Ok meta /\ o_path meta = Str.join "/" ns /\ o_size meta = Str.len d /\
     fs_objects s !! Str.join "/" ns = Some (d, meta)) \/
  ((forall d, files s !! ns <> Some (File d)) /\ db s !! Str.join "/" ns = None /\
   fs_objects s !! Str.join "/" ns = None).
Proof.
  intros (Hwf & Hdb & Hfiles) Hne HF. rewrite fs_objects_lookup, stored_path_join by done.
  destruct (db s !! Str.join "/" ns) as [bytes|] eqn:E.
  - destruct (Hdb _ _ E) as (ns' & d & meta & Hm & Hp & Hs & Hne' & HF' & Hj & Hf).
    apply join_inj in Hj as <-; [|done..]. left. exists d, bytes, meta. rewrite Hf. simpl.
    by rewrite Hm.
  - right. split_and!; [|done|done]. intros d Hd. apply Hfiles in Hd as [? Hd]. congruence.
Qed.

Lemma fs_objects_wf s : fs_consistent s -> objects_wf (fs_objects s).
Proof.
  intros Hc k d meta. rewrite fs_objects_lookup. destruct (db s !! k) as [bytes|] eqn:E; [|done].
  destruct Hc as (_ & Hdb & _). destruct (Hdb _ _ E) as (ns & d' & m & Hm & Hp & Hs & Hne & HF & -> & Hf).
  simpl. rewrite Hm, stored_path_join, Hf by done. by intros [= <- <-].
Qed.

(** States with the same files and metadata have the same objects. *)
Lemma fs_objects_dirs s fs : fs_consistent s -> fs_wf fs ->
  (forall p d, fs !! p = Some (File d) <-> files s !! p = Some (File d)) ->
  fs_consistent {| files := fs; db := db s |} /\ fs_objects {| files := fs; db := db s |} = fs_objects s.
Proof.
  intros (Hwf & Hdb & Hfiles) Hwf' Hsame. split.
  - split_and!; simpl; [done| |].
    + intros path bytes Hb. destruct (Hdb _ _ Hb) as (ns & d & meta & ?). exists ns, d, meta.
      rewrite Hsame. naive_solver.
    + intros ns d. rewrite Hsame. apply Hfiles.
  - apply map_eq. intros k. rewrite !fs_objects_lookup. simpl.
    destruct (db s !! k); [|done]. simpl. destruct (from_slice _); [|done].
    destruct (fs !! stored_path k) as [[d|]|] eqn:E1, (files s !! stored_path k) as [[d'|]|] eqn:E2; try done.
    + apply Hsame in E1. congruence.
    + apply Hsame in E1. congruence.
    + apply Hsame in E1. congruence.
    + apply Hsame in E2. congruence.
    + apply Hsame in E2. congruence.
Qed.

(** Storing an object where no directory is. *)
Lemma fs_insert_object s ns d meta fs :
  fs_consistent s -> ns <> [] -> Forall plain ns ->
  (forall p x, fs !! p = Some (File x) <-> files s !! p = Some (File x)) ->
  fs_wf (<[ns := File d]> fs) -> o_path meta = Str.join "/" ns -> o_size meta = Str.len d ->
  let s' := {| files := <[ns := File d]> fs; db := <[Str.join "/" ns := to_vec meta]> (db s) |} in
  fs_consistent s' /\ fs_objects s' = <[Str.join "/" ns := (d, meta)]> (fs_objects s).
Proof.
  intros (Hwf & Hdb & Hfiles) Hne HF Hsame Hwf' Hp Hs s'. split.
  - split_and!; simpl; [done| |].
    + intros path bytes [[<- <-]|[Hpn Hb]]%lookup_insert_Some.
      * exists ns, d, meta. rewrite from_to, lookup_insert_eq. done.
      * destruct (Hdb _ _ Hb) as (ns' & d' & meta' & Hm & Hp' & Hs' & Hne' & HF' & -> & Hf).
        exists ns', d', meta'. rewrite lookup_insert_ne by congruence. rewrite Hsame. done.
    + intros ns' d' [[<- _]|[Hn Hd]]%lookup_insert_Some; [rewrite lookup_insert_eq; by eexists|].
      apply Hsame in Hd. destruct (Hwf _ _ Hd) as (Hne' & HF' & _). rewrite lookup_insert_ne.
      * by eapply Hfiles.
      * intros E. by apply join_inj in E.
  - apply map_eq. intros k. rewrite fs_objects_lookup. simpl.
    destruct (decide (k = Str.join "/" ns)) as [->|Hk].
    + rewrite !lookup_insert_eq. simpl. by rewrite from_to, stored_path_join, lookup_insert_eq.
    + rewrite (lookup_insert_ne (db s)), (lookup_insert_ne (fs_objects s)), fs_objects_lookup by done.
      destruct (db s !! k) as [bytes|] eqn:Hb; [|done]. simpl.
      destruct (Hdb _ _ Hb) as (ns' & d' & meta' & Hm & _ & _ & Hne' & HF' & -> & Hf).
      rewrite Hm, stored_path_join by done. rewrite lookup_insert_ne by congruence.
      by rewrite Hf, (proj2 (Hsame _ _) Hf).
Qed.

Lemma fs_delete_object s ns d : fs_consistent s -> ns <> [] -> Forall plain ns ->
  files s !! ns = Some (File d) ->
  let s' := {| files := delete ns (files s); db := delete (Str.join "/" ns) (db s) |} in
  fs_consistent s' /\ fs_objects s' = delete (Str.join "/" ns) (fs_objects s).
Proof.
  intros (Hwf & Hdb & Hfiles) Hne HF Hd s'. split.
  - split_and!; simpl.
    + intros p node [Hpn Hp]%lookup_delete_Some. destruct (Hwf _ _ Hp) as (? & ? & Hpar).
      split_and!; [done|done|]. destruct (removelast p) as [|n r] eqn:E; [done|].
      rewrite lookup_node_cons in * by done. rewrite lookup_delete_ne; [done|]. intros ->. congruence.
    + intros path bytes [Hpn Hb]%lookup_delete_Some.
      destruct (Hdb _ _ Hb) as (ns' & d' & meta' & Hm & Hp' & Hs' & Hne' & HF' & -> & Hf).
      exists ns', d', meta'. rewrite lookup_delete_ne by congruence. done.
    + intros ns' d' [Hn Hd']%lookup_delete_Some. destruct (Hwf _ _ Hd') as (Hne' & HF' & _).
      rewrite lookup_delete_ne; [by eapply Hfiles|]. intros E. by apply join_inj in E.
  - apply map_eq. intros k. rewrite fs_objects_lookup. simpl.
    destruct (decide (k = Str.join "/" ns)) as [->|Hk]; [by rewrite !lookup_delete_eq|].
    rewrite (lookup_delete_ne (db s)), (lookup_delete_ne (fs_objects s)), fs_objects_lookup by done.
    destruct (db s !! k) as [bytes|] eqn:Hb; [|done]. simpl.
    destruct (Hdb _ _ Hb) as (ns' & d' & meta' & Hm & _ & _ & Hne' & HF' & -> & Hf).
    rewrite Hm, stored_path_join by done. by rewrite lookup_delete_ne by congruence.
Qed.

#[local] Instance filesystem_backend : StorageBackend State :=
  filesystem_storage mime_guess iter dir_size to_vec from_slice (Ok tt) (fun _ => Ok tt).
#[local] Instance filesystem_view : StorageView State := {|
  sb_objects := fs_objects; sb_wf := fs_consistent |}.

Lemma fs_put_spec now s ns data ct : fs_consistent s -> ns <> [] -> Forall plain ns ->
  let path := Str.join "/" ns in
  match put_sync mime_guess to_vec (fun _ => Ok tt) now path data ct s with
  | (Ok meta, s') => fs_consistent s' /\ stored_as now path data ct meta /\
                     fs_objects s' = <[path := (data, meta)]> (fs_objects s)
  | (Err _, s') => fs_consistent s' /\ fs_objects s' = fs_objects s
  end.
Proof.
  intros Hc Hne HF path. unfold put_sync, path. rewrite validate_join by done. rewrite names_normal.
  destruct (create_dir_all (removelast ns) (files s)) as [made fs] eqn:Ed.
  unfold create_dir_all in Ed. apply create_dirs_spec in Ed as (Hwf & Hsame & Hdir);
    [|apply Hc|done|rewrite (app_removelast_last EmptyString Hne) in HF; by apply Forall_app in HF as [? _]].
  destruct made as [[]|e]; [|by apply fs_objects_dirs].
  destruct (write_file ns data fs) as [r fs'] eqn:Ew.
  apply write_file_spec in Ew; [|done|done|done|by apply Hdir].
  destruct r as [[]|e]; [|destruct Ew as [-> _]; by apply fs_objects_dirs].
  destruct Ew as (Hwf' & -> & _). unfold save_metadata. cbn [o_path new_meta].
  destruct (fs_insert_object s ns data (new_meta mime_guess now (Str.join "/" ns) (Normal <$> ns) data ct) fs)
    as [Hc' Ho']; [done..|].
  split_and!; [exact Hc'| |exact Ho']. split_and!; try done. by intros c ->.
Qed.

(** The listing of the database is that of the objects. *)
Lemma decoded_paths (l : list (string * Bytes)) :
  (forall k b, (k, b) ∈ l -> exists meta, from_slice b = Ok meta /\ o_path meta = k) ->
  o_path <$> omap (fun e => match from_slice e.2 with Ok meta => Some meta | Err _ => None end) l = l.*1.
Proof.
  induction l as [|[k b] l IH]; intros Hl; [done|]. csimpl.
  destruct (Hl k b ltac:(left)) as (meta & -> & <-). csimpl. f_equal. apply IH.
  intros k' b' Hb. apply Hl. by right.
Qed.

Lemma listing_permutation prefix s : fs_consistent s ->
  (fun e => e.2.2) <$> filter (fun e => starts_with_opt prefix e.1 = true) (map_to_list (fs_objects s)) ≡ₚ
  omap (fun e => match from_slice e.2 with Ok meta => Some meta | Err _ => None end)
    (filter (fun e => starts_with_opt prefix e.1 = true) (map_to_list (db s))).
Proof.
  intros Hc. apply NoDup_Permutation.
  - apply (NoDup_fmap_1 o_path). by apply listing_paths, fs_objects_wf.
  - apply (NoDup_fmap_1 o_path). rewrite decoded_paths.
    + eapply sublist_NoDup; [apply (NoDup_fst_map_to_list (db s))|]. apply fmap_sublist, sublist_filter.
    + intros k b [_ Hb]%list_elem_of_filter. apply elem_of_map_to_list in Hb.
      destruct Hc as (_ & Hdb & _). destruct (Hdb _ _ Hb) as (_ & _ & meta & ? & ? & _). eauto.
  - intros meta. rewrite list_elem_of_fmap, list_elem_of_omap. split.
    + intros ([k [d m]] & -> & [Hp Hin]%list_elem_of_filter). apply elem_of_map_to_list in Hin.
      rewrite fs_objects_lookup in Hin. destruct (db s !! k) as [b|] eqn:E; [|done]. simpl in *.
      exists (k, b). rewrite list_elem_of_filter, elem_of_map_to_list. split; [done|]. simpl.
      destruct (from_slice b) as [m'|]; [|done]. destruct (files s !! stored_path k) as [[]|]; try done.
      by injection Hin as _ ->.
    + intros ([k b] & [Hp Hin]%list_elem_of_filter & Hm). apply elem_of_map_to_list in Hin.
      destruct Hc as (_ & Hdb & _).
      destruct (Hdb _ _ Hin) as (ns & d & m & Hd & Hpath & _ & Hne & HF & -> & Hf).
      exists (Str.join "/" ns, (d, m)). rewrite list_elem_of_filter, elem_of_map_to_list. simpl in *.
      rewrite Hd in Hm. injection Hm as <-. split_and!; [done|done|].
      rewrite fs_objects_lookup, Hin. simpl. by rewrite Hd, stored_path_join, Hf.
Qed.

#[local] Instance filesystem_storage_laws : StorageLaws State.
Proof.
  split; cbn [sb_put sb_get sb_delete sb_head sb_list filesystem_backend filesystem_storage
    sb_objects sb_wf filesystem_view].
  - apply fs_objects_wf.
  - intros now path data ct s Hc Hcan.
    destruct (canonical_validate path Hcan) as (ns & Hne & HF & -> & _). by apply fs_put_spec.
  - intros now path s Hc Hcan.
    destruct (canonical_validate path Hcan) as (ns & Hne & HF & -> & Hv & _).
    unfold fs_get_sync. rewrite Hv. cbn [res_bind]. rewrite names_normal.
    unfold exists_file, read_file, meta_or_reconstruct, load_metadata. rewrite lookup_node_cons by done.
    destruct (fs_object s ns Hc Hne HF) as [(d & b & meta & -> & -> & Hm & _ & _ & ->)|(Hf & -> & ->)].
    + cbn [res_bind negb]. by rewrite Hm.
    + destruct (files s !! ns) as [[d|]|] eqn:E; [by destruct (Hf d)|done|done].
  - intros path s Hc Hcan.
    destruct (canonical_validate path Hcan) as (ns & Hne & HF & -> & Hv & _).
    unfold delete_sync. rewrite Hv, names_normal. unfold exists_file, remove_file, remove_metadata.
    rewrite lookup_node_cons by done.
    destruct (fs_object s ns Hc Hne HF) as [(d & b & meta & Hd & _ & _ & _ & _ & ->)|(Hf & Hdb & Hob)].
    + rewrite Hd. cbn [negb]. destruct (fs_delete_object s ns d) as [Hc' Ho']; [done..|].
      split_and!; [exact Hc'|exact Ho'|done].
    + destruct (files s !! ns) as [[d|]|] eqn:E; [by destruct (Hf d)| |]; cbn [negb].
      * by destruct s.
      * unfold set_db. rewrite (delete_id (db s)), (delete_id (fs_objects s)) by done.
        rewrite Hob. by destruct s.
  - intros now path d meta s Hc Hcan Ho.
    destruct (canonical_validate path Hcan) as (ns & Hne & HF & -> & Hv & _).
    unfold head_sync. rewrite Hv. cbn [res_bind]. rewrite names_normal.
    unfold exists_file, meta_or_reconstruct, load_metadata. rewrite lookup_node_cons by done.
    destruct (fs_object s ns Hc Hne HF) as [(d' & b & meta' & -> & -> & Hm & _ & _ & Ho')|(_ & _ & Ho')];
      [|congruence].
    cbn [res_bind negb]. rewrite Hm. cbn [res_bind]. congruence.
  - intros prefix s Hc. unfold fs_list_sync, listing. cbn [res_bind]. f_equal. symmetry.
    apply sort_metas_unique; [|by apply listing_paths, fs_objects_wf].
    rewrite iter_permutation. by apply listing_permutation.
  - intros now path data ct s e He. unfold put_sync, fs_get_sync, delete_sync, head_sync. by rewrite He.
Qed.
End FilesystemLaws.
