(* ===== verification/StorageProps.v ===== *)
(** * Properties of the object storage

    Histories of HTTP requests against an abstract map of objects, proved over
    the interface of StorageLaws.v; reconciliation of the metadata database
    with the tree; paths that are not in normal form. *)

From stdpp Require Import base gmap list strings sorting.
From S2P Require Import Prelude StdPath AppError Storage StorageLaws.

#[local] Open Scope Z_scope.

(** ** Histories *)

Inductive request :=
| PUT (path : string) (content_type : option string) (body : string)
| GET (path : string)
| HEAD (path : string)
| DELETE (path : string)
| LIST (prefix : option string) (limit : option nat).

Inductive response :=
| Status (r : result Z AppError)
| Object (r : result (string * string) AppError)
| Info (r : result (string * Z) AppError)
| Metas (r : result (list ObjectMeta) AppError).

Definition request_path (req : request) : option string :=
  match req with
  | PUT path _ _ | GET path | HEAD path | DELETE path => Some path
  | LIST _ _ => None
  end.

Definition truncate {A} (limit : option nat) (l : list A) : list A :=
  match limit with Some n => take n l | None => l end.

Definition internal {A} (r : result A AppError) : Prop := exists e, r = Err (Internal e).

(** What the abstract store, a map from paths to objects, answers to a request
    for a path in normal form, and what it becomes. A backend may fail on a path
    that is not an object. *)
Inductive answers (now : Instant) : request -> response -> Objects -> Objects -> Prop :=
| a_put path ct body m meta : stored_as now path body ct meta ->
    answers now (PUT path ct body) (Status (Ok 201)) m (<[path := (body, meta)]> m)
| a_put_failed path ct body m r : internal r -> answers now (PUT path ct body) (Status r) m m
| a_get path m d meta : m !! path = Some (d, meta) ->
    answers now (GET path) (Object (Ok (content_type meta, d))) m m
| a_get_none path m r : m !! path = None ->
    r = Err (NotFound ("Object '" +:+ path +:+ "' not found")) \/ internal r ->
    answers now (GET path) (Object r) m m
| a_head path m d meta : m !! path = Some (d, meta) ->
    answers now (HEAD path) (Info (Ok (content_type meta, o_size meta))) m m
| a_head_none path m r : m !! path = None -> answers now (HEAD path) (Info r) m m
| a_delete path m : answers now (DELETE path) (Status (Ok 204)) m (delete path m)
| a_delete_failed path m r : internal r -> m !! path = None -> answers now (DELETE path) (Status r) m m
| a_list prefix limit m : objects_wf m ->
    answers now (LIST prefix limit) (Metas (Ok (truncate limit (listing prefix m)))) m m.

(** A path the validation rejects is an error of any request and changes nothing. *)
Definition rejected (req : request) (e : string) (resp : response) : Prop :=
  match req with
  | PUT _ _ _ | DELETE _ => resp = Status (Err (Internal e))
  | GET _ => resp = Object (Err (Internal e))
  | HEAD _ => resp = Info (Err (Internal e))
  | LIST _ _ => False
  end.

Inductive history : list (Instant * request) -> list response -> Objects -> Objects -> Prop :=
| h_nil m : history [] [] m m
| h_answer now req reqs resp resps m m1 m2 :
    answers now req resp m m1 -> history reqs resps m1 m2 ->
    history ((now, req) :: reqs) (resp :: resps) m m2
| h_reject now req reqs path e resp resps m m2 :
    request_path req = Some path -> validate_path path = Err e -> rejected req e resp ->
    history reqs resps m m2 -> history ((now, req) :: reqs) (resp :: resps) m m2.

Section Histories.
Context {S : Type} `{StorageLaws S}.

Definition serve (now : Instant) (req : request) (storage : option S) : response * option S :=
  match req with
  | PUT path ct body => let '(r, s) := storage_put now path ct body storage in (Status r, s)
  | GET path => (Object (storage_get now path storage), storage)
  | HEAD path => (Info (storage_head now path storage), storage)
  | DELETE path => let '(r, s) := storage_delete path storage in (Status r, s)
  | LIST prefix limit => (Metas (storage_list prefix limit storage), storage)
  end.

Fixpoint serve_all (reqs : list (Instant * request)) (storage : option S) : list response * option S :=
  match reqs with
  | [] => ([], storage)
  | (now, req) :: reqs =>
      let '(resp, storage) := serve now req storage in
      let '(resps, storage) := serve_all reqs storage in (resp :: resps, storage)
  end.

(** A request is in normal form or its path is rejected. *)
Definition normal_request (req : request) : Prop :=
  forall path, request_path req = Some path -> canonical path \/ exists e, validate_path path = Err e.

Lemma serve_canonical now req (s : S) : sb_wf s ->
  (forall path, request_path req = Some path -> canonical path) ->
  exists s', (serve now req (Some s)).2 = Some s' /\ sb_wf s' /\
    answers now req (serve now req (Some s)).1 (sb_objects s) (sb_objects s').
Proof.
  intros Hwf Hcan. destruct req as [path ct body|path|path|path|prefix limit];
    [specialize (Hcan path eq_refl)..|]; cbn [serve].
  - unfold storage_put. cbn [get_storage get_service].
    pose proof (sb_put_law now path body ct s Hwf Hcan) as Hput.
    destruct (sb_put now path body ct s) as [[meta|e] s'].
    + destruct Hput as (Hwf' & Hst & Ho). exists s'. split_and!; [done|done|]. rewrite Ho. by constructor.
    + destruct Hput as (Hwf' & Ho). exists s'. split_and!; [done|done|]. rewrite Ho.
      constructor. by eexists.
  - exists s. split_and!; [done|done|]. cbn [fst]. unfold storage_get. cbn [get_storage get_service res_bind].
    pose proof (sb_get_law now path s Hwf Hcan) as Hget.
    destruct (sb_get now path s) as [r|e]; cbn [or_internal res_bind].
    + subst r. destruct (sb_objects s !! path) as [[d meta]|] eqn:E; [by econstructor|].
      apply a_get_none; [done|by left].
    + apply a_get_none; [done|right; by eexists].
  - exists s. split_and!; [done|done|]. cbn [fst].
    destruct (sb_objects s !! path) as [[d meta]|] eqn:E; [|by apply a_head_none].
    unfold storage_head. cbn [get_storage get_service res_bind].
    rewrite (sb_head_law now path d meta s Hwf Hcan E). cbn [or_internal res_bind]. by econstructor.
  - unfold storage_delete. cbn [get_storage get_service].
    pose proof (sb_delete_law path s Hwf Hcan) as Hdel.
    destruct (sb_delete path s) as [[b|e] s'].
    + destruct Hdel as (Hwf' & Ho & _). exists s'. split_and!; [done|done|]. rewrite Ho. constructor.
    + destruct Hdel as (Hwf' & Ho & Hn). exists s'. split_and!; [done|done|]. rewrite Ho.
      constructor; [by eexists|done].
  - exists s. split_and!; [done|done|]. cbn [fst]. unfold storage_list.
    cbn [get_storage get_service res_bind]. rewrite (sb_list_law prefix s Hwf).
    cbn [or_internal res_bind]. constructor. by apply sb_wf_law.
Qed.

Lemma serve_rejected now req path e (s : S) :
  request_path req = Some path -> validate_path path = Err e ->
  (serve now req (Some s)).2 = Some s /\ rejected req e (serve now req (Some s)).1.
Proof.
  intros Hp He. destruct req as [p ct body|p|p|p|]; simplify_eq/=.
  - destruct (sb_reject_law now path body ct s e He) as (Hr & _).
    unfold storage_put. cbn [get_storage get_service]. by rewrite Hr.
  - destruct (sb_reject_law now path "" None s e He) as (_ & Hr & _).
    unfold storage_get. cbn [get_storage get_service res_bind]. by rewrite Hr.
  - destruct (sb_reject_law now path "" None s e He) as (_ & _ & _ & Hr).
    unfold storage_head. cbn [get_storage get_service res_bind]. by rewrite Hr.
  - destruct (sb_reject_law now path "" None s e He) as (_ & _ & Hr & _).
    unfold storage_delete. cbn [get_storage get_service]. by rewrite Hr.
Qed.

Lemma serve_all_history reqs : forall s : S, sb_wf s -> Forall (fun r => normal_request r.2) reqs ->
  exists m, history reqs (serve_all reqs (Some s)).1 (sb_objects s) m.
Proof.
  induction reqs as [|[now req] reqs IH]; intros s Hwf HF; [by eexists; constructor|].
  apply Forall_cons in HF as [Hn HF]. cbn [serve_all].
  destruct (request_path req) as [path|] eqn:Ep.
  - destruct (Hn path Ep) as [Hcan|[e He]].
    + destruct (serve_canonical now req s Hwf) as (s' & Es & Hwf' & Ha); [intros ? ?; by simplify_eq|].
      destruct (IH s' Hwf' HF) as [m Hm]. exists m. destruct (serve now req (Some s)) as [resp st].
      simpl in *. subst st. destruct (serve_all reqs (Some s')). by econstructor.
    + destruct (serve_rejected now req path e s Ep He) as [Es Hr].
      destruct (IH s Hwf HF) as [m Hm]. exists m. destruct (serve now req (Some s)) as [resp st].
      simpl in *. subst st. destruct (serve_all reqs (Some s)). by eapply h_reject.
  - destruct (serve_canonical now req s Hwf) as (s' & Es & Hwf' & Ha); [by rewrite Ep|].
    destruct (IH s' Hwf' HF) as [m Hm]. exists m. destruct (serve now req (Some s)) as [resp st].
    simpl in *. subst st. destruct (serve_all reqs (Some s')). by econstructor.
Qed.
End Histories.

(** ** The scan of the tree *)

Lemma read_dir_spec dir fs p node :
  (p, node) ∈ read_dir dir fs <-> exists n, p = dir ++ [n] /\ fs !! p = Some node.
Proof.
  unfold read_dir. rewrite list_elem_of_filter, elem_of_map_to_list. simpl. split.
  - intros [[Hne <-] Hp]. exists (List.last p EmptyString). split; [|done]. by apply app_removelast_last.
  - intros (n & -> & Hp). rewrite removelast_snoc. split_and!; [by destruct dir|done|done].
Qed.

(** An inner prefix of an entry is a directory. *)
Lemma fs_wf_prefix fs q r node : fs_wf fs -> r <> [] -> fs !! (q ++ r) = Some node ->
  lookup_node q fs = Some Dir.
Proof.
  intros Hwf. revert node. induction r as [|n r IH] using rev_ind; intros node Hne Hq; [done|].
  rewrite app_assoc in Hq. apply Hwf in Hq as (_ & _ & Hpar). rewrite removelast_snoc in Hpar.
  destruct r as [|m r]; [by rewrite app_nil_r in Hpar|].
  rewrite lookup_node_cons in Hpar by (by destruct q). by eapply IH.
Qed.

Lemma scan_sound fuel : forall dir fs path, path ∈ scan_directory fuel dir fs ->
  exists rel d, rel <> [] /\ fs !! (dir ++ rel) = Some (File d) /\
    Forall (fun n => skipped n = false) rel /\ path = to_slash (Str.join "/" (dir ++ rel)).
Proof.
  induction fuel as [|fuel IH]; intros dir fs path; cbn [scan_directory]; [by intros ?%elem_of_nil|].
  rewrite list_elem_of_In, in_flat_map. intros ([p node] & Hin & Hpath).
  apply list_elem_of_In in Hin, Hpath. apply read_dir_spec in Hin as (n & -> & Hp).
  cbn [fst snd] in Hpath. rewrite last_snoc in Hpath. change (default EmptyString (Some n)) with n in Hpath.
  destruct (skipped n) eqn:Hs; [by apply elem_of_nil in Hpath|]. destruct node as [d|].
  - apply list_elem_of_singleton in Hpath as ->. exists [n], d. split_and!; [done|done|by constructor|done].
  - apply IH in Hpath as (rel & d & Hne & Hf & HF & ->). rewrite <- app_assoc in *.
    exists (n :: rel), d. split_and!; [done|done|by constructor|done].
Qed.

Lemma scan_complete fuel : forall dir fs rel d, fs_wf fs -> rel <> [] -> (length rel <= fuel)%nat ->
  fs !! (dir ++ rel) = Some (File d) -> Forall (fun n => skipped n = false) rel ->
  to_slash (Str.join "/" (dir ++ rel)) ∈ scan_directory fuel dir fs.
Proof.
  induction fuel as [|fuel IH]; intros dir fs rel d Hwf Hne Hlen Hf HF.
  { destruct rel; simpl in Hlen; [done|lia]. }
  destruct rel as [|n rel]; [done|]. apply Forall_cons in HF as [Hn HF].
  assert (dir ++ n :: rel = (dir ++ [n]) ++ rel) as E by (by rewrite <- app_assoc).
  cbn [scan_directory]. rewrite list_elem_of_In, in_flat_map.
  assert (dir ++ [n] <> []) as Hdn by (by destruct dir).
  destruct rel as [|m rel].
  - exists (dir ++ [n], File d). split; [apply list_elem_of_In, read_dir_spec; eauto|apply list_elem_of_In].
    cbn [fst snd]. rewrite last_snoc. change (default EmptyString (Some n)) with n. rewrite Hn. by left.
  - rewrite E in Hf. pose proof (fs_wf_prefix fs (dir ++ [n]) (m :: rel) _ Hwf ltac:(done) Hf) as Hdir.
    rewrite lookup_node_cons in Hdir by done. exists (dir ++ [n], Dir).
    split; [apply list_elem_of_In, read_dir_spec; eauto|apply list_elem_of_In].
    cbn [fst snd]. rewrite last_snoc. change (default EmptyString (Some n)) with n. rewrite Hn, E.
    eapply IH; [done|done|simpl in *; lia|done|done].
Qed.

Lemma depth_bound (fs : Fs) p node : fs !! p = Some node -> (length p <= depth fs)%nat.
Proof.
  intros Hp. unfold depth. apply elem_of_map_to_list in Hp.
  assert (length p ∈ ((fun e : list string * Node => length e.1) <$> map_to_list fs)) as Hin.
  { change (length p) with ((fun e : list string * Node => length e.1) (p, node)). by apply list_elem_of_fmap_2. }
  revert Hin. generalize ((fun e : list string * Node => length e.1) <$> map_to_list fs).
  intros l. induction l as [|x l IH]; [by intros ?%elem_of_nil|].
  intros [->|Hin]%elem_of_cons; simpl; [lia|]. specialize (IH Hin). unfold list_max in *. lia.
Qed.

(** No entry of the path is passed over by the scan. *)
Definition visible (ns : list string) : Prop := Forall (fun n => skipped n = false) ns.

Definition no_backslash (fs : Fs) : Prop :=
  forall p d, fs !! p = Some (File d) -> Str.contains_char Str.BACKSLASH (Str.join "/" p) = false.

(** Without backslashes in names the scan finds exactly the visible files. *)
Lemma scan_files fs path : fs_wf fs -> no_backslash fs ->
  path ∈ scan_directory (S (depth fs)) [] fs <->
  exists ns d, ns <> [] /\ Forall plain ns /\ visible ns /\ path = Str.join "/" ns /\
    fs !! ns = Some (File d).
Proof.
  intros Hwf Hb. split.
  - intros (rel & d & Hne & Hf & HF & ->)%scan_sound. simpl in *. exists rel, d.
    split_and!; [done|by eapply Hwf|done|by eapply to_slash_none, Hb|done].
  - intros (ns & d & Hne & _ & HF & -> & Hf).
    rewrite <- (to_slash_none (Str.join "/" ns)) by (by eapply Hb).
    eapply (scan_complete _ []); [done|done| |done|done]. apply depth_bound in Hf. lia.
Qed.

(** ** The phases *)

Section Reconcile.
Variable mime_guess : Path -> option string.
Variable iter : forall A, gmap string A -> list (string * A).
Hypothesis iter_permutation : forall A (m : gmap string A), iter A m ≡ₚ map_to_list m.
Variable dir_size : Z.
Context {Bytes : Type}.
Variable to_vec : ObjectMeta -> Bytes.
Variable from_slice : Bytes -> result ObjectMeta string.
Hypothesis from_to : forall meta, from_slice (to_vec meta) = Ok meta.

Lemma check_entries_spec fs es : forall fs_files orphaned stale missing, NoDup es.*1 ->
  check_entries dir_size from_slice es fs_files fs = (orphaned, stale, missing) ->
  (forall k, k ∈ orphaned <-> k ∈ es.*1 /\ k ∉ fs_files) /\
  (forall k len, (k, len) ∈ stale <-> exists b meta, (k, b) ∈ es /\ k ∈ fs_files /\
     from_slice b = Ok meta /\ file_len dir_size (stored_path k) fs = Some len /\ len <> o_size meta) /\
  (forall k, k ∈ missing <-> k ∈ fs_files /\ k ∉ es.*1).
Proof.
  induction es as [|[path b] es IH]; intros fs_files orphaned stale missing Hnd; cbn [check_entries].
  { intros [= <- <- <-]. split_and!; intros; set_solver. }
  csimpl. csimpl in Hnd. apply NoDup_cons in Hnd as [Hnew Hnd].
  case_bool_decide as Hin.
  - destruct (check_entries _ _ es (filter (fun f => f <> path) fs_files) fs) as [[o st] rest] eqn:E.
    apply IH in E as (Ho & Hst & Hm); [|done]. intros Hres.
    assert (orphaned = o /\ missing = rest) as [-> ->].
    { repeat case_match; by simplify_eq. }
    split_and!.
    + intros k. rewrite Ho, list_elem_of_filter. set_solver.
    + intros k len.
      assert ((k, len) ∈ st <-> exists b' meta, (k, b') ∈ es /\ k ∈ fs_files /\ from_slice b' = Ok meta /\
        file_len dir_size (stored_path k) fs = Some len /\ len <> o_size meta) as Hst'.
      { rewrite Hst. split; intros (b' & meta & Hb & Hf & ?); exists b', meta; (split; [done|]).
        - apply list_elem_of_filter in Hf as [_ Hf]. done.
        - rewrite list_elem_of_filter. split; [|done]. split; [|done]. intros ->.
          destruct Hnew. apply list_elem_of_fmap. by exists (path, b'). }
      assert ((k, len) ∈ stale <-> (k, len) ∈ st \/
        (k = path /\ exists meta, from_slice b = Ok meta /\
           file_len dir_size (stored_path path) fs = Some len /\ len <> o_size meta)) as ->.
      { destruct (from_slice b) as [meta|e]; [|naive_solver].
        destruct (file_len dir_size (stored_path path) fs) as [len'|]; [|naive_solver].
        destruct (Z.eqb_spec len' (o_size meta)); simplify_eq; [naive_solver|].
        rewrite elem_of_cons. naive_solver. }
      rewrite Hst'. split.
      * intros [(b' & meta & ? & ?)|(-> & meta & ?)]; [|exists b, meta; set_solver].
        exists b', meta. split; [by right|done].
      * intros (b' & meta & [[= -> ->]|Hb]%elem_of_cons & Hf & ?); [right|left]; naive_solver.
    + intros k. rewrite Hm, list_elem_of_filter. set_solver.
  - destruct (check_entries _ _ es fs_files fs) as [[o st] rest] eqn:E.
    apply IH in E as (Ho & Hst & Hm); [|done]. intros [= <- <- <-]. split_and!.
    + intros k. rewrite elem_of_cons, Ho. set_solver.
    + intros k len. rewrite Hst. split; intros (b' & meta & Hb & ?); exists b', meta.
      * split; [by right|done].
      * apply elem_of_cons in Hb as [[= -> ->]|Hb]; [naive_solver|done].
    + intros k. rewrite Hm. set_solver.
Qed.

Notation db_ok := (fun _ : string => Ok tt : result unit string).

Lemma remove_orphans_spec paths : forall m : gmap string Bytes, exists m',
  remove_orphans db_ok paths m = (Ok tt, m') /\
  forall k, m' !! k = if decide (k ∈ paths) then None else m !! k.
Proof.
  induction paths as [|p paths IH]; intros m; cbn [remove_orphans remove_metadata]; [by exists m|].
  destruct (IH (delete p m)) as (m' & -> & Hm'). exists m'. split; [done|]. intros k.
  rewrite Hm'. destruct (decide (k = p)) as [->|Hk].
  - rewrite lookup_delete_eq, (decide_True (P := p ∈ p :: paths)) by left. by case_decide.
  - rewrite lookup_delete_ne by done. repeat case_decide; set_solver.
Qed.

Lemma add_missing_spec now fs paths : forall m : gmap string Bytes, exists m',
  add_missing mime_guess dir_size to_vec db_ok now paths fs m = (Ok tt, m') /\
  forall k, m' !! k =
    match file_len dir_size (stored_path k) fs with
    | Some len => if decide (k ∈ paths)
                  then Some (to_vec (reconstruct mime_guess now k (components k) len)) else m !! k
    | None => m !! k
    end.
Proof.
  induction paths as [|p paths IH]; intros m; cbn [add_missing].
  { exists m. split; [done|]. intros k. by destruct (file_len _ _ _). }
  destruct (file_len dir_size (stored_path p) fs) as [len|] eqn:El.
  - cbn [save_metadata reconstruct o_path].
    destruct (IH (<[p := to_vec (reconstruct mime_guess now p (components p) len)]> m)) as (m' & -> & Hm').
    exists m'. split; [done|]. intros k. rewrite Hm'. destruct (decide (k = p)) as [->|Hk].
    + rewrite El, lookup_insert_eq, (decide_True (P := p ∈ p :: paths)) by left. by case_decide.
    + rewrite lookup_insert_ne by done. destruct (file_len dir_size (stored_path k) fs); [|done].
      repeat case_decide; set_solver.
  - destruct (IH m) as (m' & -> & Hm'). exists m'. split; [done|]. intros k. rewrite Hm'.
    destruct (decide (k = p)) as [->|Hk]; [by rewrite El|].
    destruct (file_len dir_size (stored_path k) fs); [|done]. repeat case_decide; set_solver.
Qed.

(** Two metadata entries of one object: the second has the new size. *)
Definition resized_to (k : string) (len : Z) (b b' : Bytes) : Prop :=
  exists meta meta', from_slice b = Ok meta /\ from_slice b' = Ok meta' /\ o_path meta' = k /\
    o_size meta' = len /\ content_type meta' = content_type meta /\ created_at meta' = created_at meta.

Lemma update_stale_spec now (L : string -> Z) stale : forall m : gmap string Bytes,
  (forall k len, (k, len) ∈ stale -> len = L k /\
     exists b meta, m !! k = Some b /\ from_slice b = Ok meta /\ o_path meta = k) ->
  exists m', update_stale to_vec from_slice (Ok tt) db_ok now stale m = (Ok tt, m') /\
    forall k, (k ∉ stale.*1 -> m' !! k = m !! k) /\
      (k ∈ stale.*1 -> exists b b', m !! k = Some b /\ m' !! k = Some b' /\ resized_to k (L k) b b').
Proof.
  induction stale as [|[p len] stale IH]; intros m Hst; cbn [update_stale].
  { exists m. split; [done|]. intros k. split; [done|]. by intros ?%elem_of_nil. }
  destruct (Hst p len ltac:(left)) as (-> & b & meta & Hb & Hm & Hp).
  unfold load_metadata. cbn [res_bind]. rewrite Hb, Hm. unfold save_metadata. cbn [resized o_path]. rewrite Hp.
  set (m1 := <[p := to_vec (resized now (L p) meta)]> m).
  destruct (IH m1) as (m' & -> & Hm').
  { intros k len Hin. destruct (Hst k len ltac:(by right)) as (-> & b' & meta' & Hb' & Hd & Hk).
    split; [done|]. unfold m1. destruct (decide (k = p)) as [->|Hkp].
    - rewrite lookup_insert_eq. do 2 eexists. split_and!; [done|apply from_to|done].
    - rewrite lookup_insert_ne by done. eauto. }
  exists m'. split; [done|]. intros k. destruct (Hm' k) as [Hno Hyes]. csimpl. split.
  - intros [Hkp Hk]%not_elem_of_cons. rewrite Hno by done. unfold m1. by rewrite lookup_insert_ne.
  - intros Hk. unfold m1 in *. destruct (decide (k ∈ stale.*1)) as [Hin|Hnin].
    + destruct (Hyes Hin) as (b1 & b' & Hb1 & Hb' & meta1 & meta' & Hd1 & Hr).
      destruct (decide (k = p)) as [->|Hkp].
      * rewrite lookup_insert_eq in Hb1. injection Hb1 as <-. rewrite from_to in Hd1. injection Hd1 as <-.
        exists b, b'. split_and!; [done|done|]. exists meta, meta'. split; [done|]. exact Hr.
      * rewrite lookup_insert_ne in Hb1 by done. exists b1, b'. split_and!; [done|done|].
        by exists meta1, meta'.
    + apply elem_of_cons in Hk as [->|Hk]; [|done].
      rewrite (Hno Hnin), lookup_insert_eq. do 2 eexists. split_and!; [done|done|].
      exists meta, (resized now (L p) meta). split_and!; done || apply from_to.
Qed.

(** The size of a stored path of a well-formed tree. *)
Lemma file_len_join fs ns d : ns <> [] -> Forall plain ns -> fs !! ns = Some (File d) ->
  file_len dir_size (stored_path (Str.join "/" ns)) fs = Some (Str.len d).
Proof.
  intros Hne HF Hf. unfold file_len. by rewrite stored_path_join, lookup_node_cons, Hf.
Qed.

(** The database after reconciliation, entry by entry. *)
Lemma reconcile_spec now fs (m : gmap string Bytes) :
  fs_wf fs -> no_backslash fs ->
  (forall k b, m !! k = Some b -> exists meta, from_slice b = Ok meta /\ o_path meta = k) ->
  exists m', reconcile mime_guess iter dir_size to_vec from_slice (Ok tt) db_ok now fs m = (Ok tt, m') /\
  (forall k, is_Some (m' !! k) -> exists ns d, ns <> [] /\ Forall plain ns /\ visible ns /\
     k = Str.join "/" ns /\ fs !! ns = Some (File d)) /\
  (forall ns d, ns <> [] -> Forall plain ns -> visible ns -> fs !! ns = Some (File d) ->
     let k := Str.join "/" ns in
     match m !! k with
     | None => m' !! k = Some (to_vec (reconstruct mime_guess now k (components k) (Str.len d)))
     | Some b => exists b', m' !! k = Some b' /\
         forall meta, from_slice b = Ok meta ->
           (o_size meta = Str.len d -> b' = b) /\
           (o_size meta <> Str.len d -> resized_to k (Str.len d) b b')
     end).
Proof.
  intros Hwf Hnb Hdec. unfold reconcile.
  destruct (check_entries dir_size from_slice (iter Bytes m) (scan_directory (S (depth fs)) [] fs) fs)
    as [[orphaned stale] missing] eqn:Ec.
  apply check_entries_spec in Ec as (Ho & Hst & Hmi); [|rewrite iter_permutation; apply NoDup_fst_map_to_list].
  assert (forall k b, (k, b) ∈ iter _ m <-> m !! k = Some b) as Hit.
  { intros k b. by rewrite iter_permutation, elem_of_map_to_list. }
  assert (forall k, k ∈ (iter _ m).*1 <-> is_Some (m !! k)) as Hkeys.
  { intros k. rewrite list_elem_of_fmap. split.
    - intros ([k' b] & -> & Hb). apply Hit in Hb. by eexists.
    - intros [b Hb]. exists (k, b). by rewrite Hit. }
  destruct (remove_orphans_spec orphaned m) as (m1 & -> & H1).
  destruct (add_missing_spec now fs missing m1) as (m2 & -> & H2).
  set (F := scan_directory _ [] fs) in *.
  assert (forall k, k ∉ missing -> m2 !! k = m1 !! k) as H2no.
  { intros k Hk. rewrite H2. destruct (file_len dir_size (stored_path k) fs); [|done]. by rewrite decide_False. }
  (* The database before the sizes are updated. *)
  assert (forall k, k ∉ F -> m2 !! k = None) as Hout.
  { intros k Hk. rewrite H2no by (rewrite Hmi; tauto). rewrite H1.
    case_decide as Hd; [done|]. rewrite Ho, Hkeys in Hd. destruct (m !! k); [|done].
    destruct Hd. by split; [eexists|]. }
  assert (forall k b, k ∈ F -> m !! k = Some b -> m2 !! k = Some b) as Hin.
  { intros k b Hk Hb. rewrite H2no by (rewrite Hmi, Hkeys, Hb; intros [_ []]; by eexists).
    rewrite H1, decide_False by (rewrite Ho; tauto). done. }
  destruct (update_stale_spec now (fun k => default 0 (file_len dir_size (stored_path k) fs)) stale m2)
    as (m' & -> & H3).
  { intros k len Hs. apply Hst in Hs as (b & meta & Hb & Hk & Hd & Hl & _). rewrite Hl. split; [done|].
    apply Hit in Hb. exists b, meta. split_and!; [by apply Hin|done|].
    destruct (Hdec k b Hb) as (meta' & Hd' & Hp). congruence. }
  assert (forall k len, (k, len) ∈ stale -> k ∈ F) as HstF by (intros k len; rewrite Hst; naive_solver).
  exists m'. split; [done|]. split.
  - intros k Hk. destruct (decide (k ∈ F)) as [HkF|HkF]; [by apply scan_files in HkF|].
    destruct (H3 k) as [Hsame _]. rewrite Hsame, Hout in Hk; [by destruct Hk|done|].
    intros ([? ?] & -> & Hs)%list_elem_of_fmap. by apply HstF in Hs.
  - intros ns d Hne HF Hv Hf. set (k := Str.join "/" ns) in *. assert (k ∈ F) as HkF by (apply scan_files; [done..|]; by exists ns, d).
    pose proof (file_len_join fs ns d Hne HF Hf) as Hlen. fold k in Hlen.
    destruct (H3 k) as [Hsame Hres]. rewrite Hlen in Hres. cbn [default] in Hres.
    destruct (m !! k) as [b|] eqn:Eb.
    + pose proof (Hin k b HkF Eb) as Hb2. destruct (Hdec k b Eb) as (meta & Hd & _).
      assert (k ∈ stale.*1 <-> Str.len d <> o_size meta) as Hstale.
      { rewrite list_elem_of_fmap. split.
        - intros ([k' len] & Ek & (b' & meta' & Hb' & _ & Hd' & Hl & Hne')%Hst). apply Hit in Hb'.
          cbn [fst] in Ek. rewrite <- Ek in *. congruence.
        - intros Hne'. exists (k, Str.len d). split; [done|]. apply Hst. exists b, meta.
          split_and!; [by apply Hit|done..]. }
      destruct (decide (Str.len d = o_size meta)) as [E|E].
      * exists b. rewrite Hsame by tauto. split; [done|]. intros meta' Hm'. simplify_eq. split; [done|congruence].
      * destruct (Hres (proj2 Hstale E)) as (b1 & b' & Hb1 & Hb' & Hr). exists b'. split; [done|].
        assert (b1 = b) as -> by congruence. intros meta' Hm'. split; [congruence|done].
    + rewrite Hsame.
      * rewrite H2, Hlen, decide_True; [done|]. apply Hmi. split; [done|]. rewrite Hkeys, Eb. by intros [].
      * intros ([k' len] & Ek & (b' & meta' & Hb' & _)%Hst)%list_elem_of_fmap. apply Hit in Hb'.
        cbn [fst] in Ek. rewrite <- Ek in *. congruence.
Qed.
End Reconcile.

(** ** Properties *)

(** The path of an object with the given names. *)
Definition below (base : Path) (ns : list string) : Path := base ++ (Normal <$> ns).

(** Another spelling of a path. *)
Definition dotted (p : string) : string := "./" +:+ p.

Lemma join_below base ns : is_absolute (Normal <$> ns) = false ->
  StdPath.join base (Normal <$> ns) = base ++ (Normal <$> ns).
Proof.
  intros Ha. unfold StdPath.join. rewrite Ha. destruct base as [|b base]; [done|].
  by destruct ns as [|n ns].
Qed.

Lemma join_pieces ns : Forall plain ns -> mjoin (piece <$> ns) = Normal <$> ns.
Proof.
  induction 1 as [|n ns Hn HF IH]; [done|]. rewrite !fmap_cons, <- IH.
  change (mjoin (piece n :: (piece <$> ns))) with (piece n ++ mjoin (piece <$> ns)). by rewrite piece_plain.
Qed.

Lemma components_dot ns : ns <> [] -> Forall plain ns ->
  components ("./" +:+ Str.join "/" ns) = CurDir :: (Normal <$> ns).
Proof.
  intros Hne HF. unfold components.
  change ("./" +:+ Str.join "/" ns) with ("." +:+ String Str.SLASH (Str.join "/" ns)) at 1.
  rewrite Str.split_app by done. unfold Str.SLASH.
  rewrite Str.split_join; [|done|by eapply Forall_impl; [exact HF|intros ? (_ & _ & _ & ?)]].
  by rewrite join_pieces.
Qed.

Lemma validate_dot ns : ns <> [] -> Forall plain ns ->
  validate_path ("./" +:+ Str.join "/" ns) = Ok (Normal <$> ns).
Proof.
  intros Hne HF. apply validate_path_Ok. rewrite components_dot by done. csimpl.
  rewrite names_normal. split_and!; [done| |done|by destruct ns].
  rewrite elem_of_cons, list_elem_of_fmap. intros [?|(? & ? & _)]; done.
Qed.

(** Object paths are contained: the validation accepts exactly the relative
    paths without [..] that name something; the object then lies strictly below
    the base directory, at plain names; and the accepted path is a fixed point.
    The file of the metadata database is not protected: it is the path of the
    object [metadata.redb]. *)
Lemma object_path_contained (base : Path) (path : string) (q : Path) :
  is_absolute base = true ->
  (object_path base path = Ok q <->
     is_absolute (components path) = false /\ ParentDir ∉ components path /\
     names (components path) <> [] /\ q = below base (names (components path))) /\
  (object_path base path = Ok q -> exists ns, ns <> [] /\ Forall plain ns /\ q = below base ns /\
     StdPath.starts_with q base = true /\ object_path base (to_str (Normal <$> ns)) = Ok q) /\
  object_path base "metadata.redb" = Ok (db_path base).
Proof.
  intros Hb.
  assert (object_path base path = Ok q <->
     is_absolute (components path) = false /\ ParentDir ∉ components path /\
     names (components path) <> [] /\ q = base ++ (Normal <$> names (components path))) as Hiff.
  { unfold object_path. rewrite res_bind_Ok. split.
    - intros (p & (Ha & Hp & -> & Hne)%validate_path_Ok & [= <-]). split_and!; [done|done| |].
      + intros E. by rewrite E in Hne.
      + apply join_below. by destruct (names (components path)).
    - intros (Ha & Hp & Hne & ->). exists (Normal <$> names (components path)). split.
      + apply validate_path_Ok. split_and!; [done..|]. by destruct (names (components path)).
      + f_equal. apply join_below. by destruct (names (components path)). }
  split_and!; [exact Hiff| |].
  - intros (_ & _ & Hne & ->)%Hiff. exists (names (components path)).
    split_and!; [done|apply names_plain|done|apply path_starts_with_iff; by eexists|].
    unfold object_path. rewrite to_str_join, validate_join by (done || apply names_plain).
    cbn [res_bind]. f_equal. apply join_below. by destruct (names (components path)).
  - unfold object_path, db_path. f_equal.
Qed.


(** Opening a storage directory repairs its metadata: whatever entries the
    database has, afterwards exactly the visible files have one; entries whose
    file still has the recorded size are kept as they are, others keep their
    type and creation time and get the size of the file, and if all files are
    visible the store is consistent. But an object below a name with the
    extension [lock], or called [metadata.redb], is not visible: it is served,
    yet every restart drops its metadata, so it disappears from the listing and
    loses its content type. *)
Lemma reconcile_restores (mime_guess : Path -> option string)
    (iter : forall A, gmap string A -> list (string * A)) (dir_size : Z) {Bytes : Type}
    (to_vec : ObjectMeta -> Bytes) (from_slice : Bytes -> result ObjectMeta string)
    (now : Instant) (fs : Fs) (m : gmap string Bytes) :
  (forall A (m : gmap string A), iter A m ≡ₚ map_to_list m) ->
  (forall meta, from_slice (to_vec meta) = Ok meta) ->
  fs_wf fs -> no_backslash fs ->
  (forall k b, m !! k = Some b -> exists meta, from_slice b = Ok meta /\ o_path meta = k) ->
  exists s, fs_open mime_guess iter dir_size to_vec from_slice (Ok tt) (fun _ => Ok tt) now fs m = Ok s /\
    files s = fs /\
    (forall ns d, fs !! ns = Some (File d) -> is_Some (db s !! Str.join "/" ns) <-> visible ns) /\
    (forall ns d b meta, fs !! ns = Some (File d) -> visible ns ->
       m !! Str.join "/" ns = Some b -> from_slice b = Ok meta ->
       exists b', db s !! Str.join "/" ns = Some b' /\
         (o_size meta = Str.len d -> b' = b) /\
         (o_size meta <> Str.len d -> resized_to from_slice (Str.join "/" ns) (Str.len d) b b')) /\
    ((forall ns d, fs !! ns = Some (File d) -> visible ns) -> fs_consistent from_slice s).
Proof.
  intros Hiter Hft Hwf Hnb Hdec. unfold fs_open.
  destruct (reconcile_spec mime_guess iter Hiter dir_size to_vec from_slice Hft now fs m Hwf Hnb Hdec)
    as (m' & -> & Hout & Hin).
  eexists. split_and!; [done|done| | |]; cbn [files db].
  - intros ns d Hf. destruct (Hwf _ _ Hf) as (Hne & HF & _). split.
    + intros (ns' & d' & Hne' & HF' & Hv' & E & _)%Hout. by apply join_inj in E as <-.
    + intros Hv. pose proof (Hin ns d Hne HF Hv Hf) as Hk. cbv zeta in Hk.
      destruct (m !! Str.join "/" ns) as [b|]; [destruct Hk as (b' & -> & _)|rewrite Hk]; by eexists.
  - intros ns d b meta Hf Hv Hb Hm. destruct (Hwf _ _ Hf) as (Hne & HF & _).
    pose proof (Hin ns d Hne HF Hv Hf) as Hk. cbv zeta in Hk. rewrite Hb in Hk.
    destruct Hk as (b' & Hb' & Hk). exists b'. split; [done|]. by apply Hk.
  - intros Hv. split_and!; simpl; [done| |].
    + intros path b' Hb'. destruct (Hout path ltac:(by eexists)) as (ns & d & Hne & HF & Hvis & -> & Hf).
      pose proof (Hin ns d Hne HF Hvis Hf) as Hk. cbv zeta in Hk. exists ns, d.
      destruct (m !! Str.join "/" ns) as [b|] eqn:Eb.
      * destruct (Hdec _ _ Eb) as (meta & Hm & Hp). destruct Hk as (b1 & Hb1 & Hk).
        assert (b1 = b') as -> by congruence. destruct (Hk meta Hm) as [Hsame Hnew].
        destruct (decide (o_size meta = Str.len d)) as [E|E].
        -- rewrite (Hsame E). by exists meta.
        -- destruct (Hnew E) as (meta0 & meta' & _ & Hm' & Hp' & Hs' & _). by exists meta'.
      * assert (b' = to_vec (reconstruct mime_guess now (Str.join "/" ns) (components (Str.join "/" ns)) (Str.len d)))
          as -> by congruence.
        eexists. split_and!; [apply Hft|done..].
    + intros ns d Hf. destruct (Hwf _ _ Hf) as (Hne & HF & _).
      pose proof (Hin ns d Hne HF (Hv _ _ Hf) Hf) as Hk. cbv zeta in Hk.
      destruct (m !! Str.join "/" ns) as [b|]; [destruct Hk as (b' & -> & _)|rewrite Hk]; by eexists.
Qed.

(** Every metadata entry is listed. *)
Lemma fs_list_listed iter {Bytes : Type} (from_slice : Bytes -> result ObjectMeta string) s k b meta :
  (forall A (m : gmap string A), iter A m ≡ₚ map_to_list m) ->
  db s !! k = Some b -> from_slice b = Ok meta ->
  exists l, fs_list_sync iter from_slice (Ok tt) None s = Ok l /\ meta ∈ l.
Proof.
  intros Hiter Hk Hb. unfold fs_list_sync. cbn [res_bind]. eexists. split; [done|].
  unfold sort_metas. rewrite merge_sort_Permutation, list_elem_of_omap. exists (k, b). simpl. rewrite Hb.
  split; [|done]. rewrite list_elem_of_filter, Hiter, elem_of_map_to_list. done.
Qed.

(** The filesystem backend stores metadata under the path as it was written,
    but files under the normalised path, so that two spellings of a path are one
    object with two entries: after storing [./p], reading [p] gives the data
    with a guessed content type instead of the stored one, and after deleting
    [p] the listing still shows [./p], which is no longer there. The in-memory
    backend normalises both. *)
Lemma alias_splits_object (mime_guess : Path -> option string)
    (iter : forall A, gmap string A -> list (string * A)) {Bytes : Type}
    (to_vec : ObjectMeta -> Bytes) (from_slice : Bytes -> result ObjectMeta string)
    (now t : Instant) (ns : list string) (data ct : string) (meta : ObjectMeta)
    (s s' : FilesystemBackend (Bytes := Bytes)) (ms : gmap string MemoryObject) :
  let p := Str.join "/" ns in
  let alias := dotted p in
  (forall A (m : gmap string A), iter A m ≡ₚ map_to_list m) ->
  (forall meta, from_slice (to_vec meta) = Ok meta) -> forall dir_size,
  fs_consistent from_slice s -> ns <> [] -> Forall plain ns ->
  Str.contains_char Str.BACKSLASH p = false -> fs_objects from_slice s !! p = None ->
  put_sync mime_guess to_vec (fun _ => Ok tt) now alias data (Some ct) s = (Ok meta, s') ->
  content_type meta = ct /\
  fs_get_sync mime_guess dir_size from_slice (Ok tt) t p s' =
    Ok (Some (data, reconstruct mime_guess t p (Normal <$> ns) (Str.len data))) /\
  (let '(deleted, s2) := delete_sync (fun _ => Ok tt) p s' in
   deleted = Ok true /\
   fs_get_sync mime_guess dir_size from_slice (Ok tt) t alias s2 = Ok None /\
   exists l, fs_list_sync iter from_slice (Ok tt) None s2 = Ok l /\ meta ∈ l) /\
  (exists m, memory_get p (memory_put mime_guess now alias data (Some ct) ms).2 = Ok (Some (data, m)) /\
     content_type m = ct).
Proof.
  intros p alias Hiter Hft dir_size Hc Hne HF Hbs Hno Hput.
  assert (alias <> p) as Hap.
  { intros E. apply (f_equal String.length) in E. unfold alias, dotted in E. simpl in E. lia. }
  assert (db s !! p = None) as Hdb.
  { destruct (fs_object from_slice s ns Hc Hne HF) as [(d & b & m & _ & _ & _ & _ & _ & Ho)|(_ & Hd & _)]; [|done].
    unfold p in Hno. congruence. }
  assert (validate_path alias = Ok (Normal <$> ns)) as Hva by by apply validate_dot.
  assert (validate_path p = Ok (Normal <$> ns)) as Hvp by by apply validate_join.
  unfold put_sync in Hput. rewrite Hva, names_normal in Hput.
  destruct (create_dir_all (removelast ns) (files s)) as [[[]|e] fs]; [|done].
  destruct (write_file ns data fs) as [[[]|e] fs'] eqn:Ew; [|done].
  unfold save_metadata in Hput. cbn [o_path new_meta] in Hput. injection Hput as <- <-.
  assert (fs' !! ns = Some (File data)) as Hf.
  { unfold write_file in Ew. destruct (lookup_node ns fs) as [[]|]; simplify_eq; apply lookup_insert_eq. }
  split; [done|]. split; [|split].
  - unfold fs_get_sync. rewrite Hvp. cbn [res_bind]. rewrite names_normal.
    unfold exists_file, read_file, meta_or_reconstruct, load_metadata, file_len. cbn [files db].
    rewrite names_normal, lookup_node_cons, Hf by done. cbn [negb res_bind].
    rewrite lookup_insert_ne by done. rewrite Hdb. done.
  - unfold delete_sync. rewrite Hvp, names_normal.
    unfold exists_file, remove_file, remove_metadata. cbn [files db].
    rewrite lookup_node_cons, Hf by done. cbn [negb]. split_and!; [done| |].
    + unfold fs_get_sync. rewrite Hva. cbn [res_bind].
      rewrite names_normal. unfold exists_file. cbn [files].
      by rewrite lookup_node_cons, lookup_delete_eq by done.
    + eapply (fs_list_listed _ _ _ alias); [done| |apply Hft]. cbn [db].
      rewrite lookup_delete_ne by done. apply lookup_insert_eq.
  - unfold memory_get, memory_put. rewrite Hvp, Hva.
    cbn [res_bind snd]. rewrite lookup_insert_eq. eexists. by split.
Qed.

(** ** The properties at concrete inputs *)

Section Witnesses.
Definition in_order (A : Type) (m : gmap string A) : list (string * A) := map_to_list m.

Lemma in_order_permutation A (m : gmap string A) : in_order A m ≡ₚ map_to_list m.
Proof. done. Qed.

Definition text_plain (p : Path) : option string := Some "text/plain".
Definition empty_store : FilesystemBackend (Bytes := ObjectMeta) := {| files := ∅; db := ∅ |}.

Lemma empty_consistent : fs_consistent Ok empty_store.
Proof. split_and!; [intros p node Hp|intros p b Hp|intros p d Hp]; cbn [files db empty_store] in Hp; by rewrite lookup_empty in Hp. Qed.

Definition session : list (Instant * request) :=
  [(1, PUT "b/x.txt" (Some "text/html") "hi"); (2, PUT "a" None "data"); (3, GET "b/x.txt");
   (4, GET "../etc/passwd"); (5, DELETE "a"); (6, GET "a"); (7, HEAD "b/x.txt")].

Lemma session_normal : Forall (fun r => normal_request r.2) session.
Proof.
  assert (forall ns, ns <> [] -> Forall plain ns ->
    Str.contains_char Str.BACKSLASH (Str.join "/" ns) = false -> canonical (Str.join "/" ns)) as Hc
    by (intros ns ? ? ?; by exists ns).
  assert (canonical "b/x.txt") by (apply (Hc ["b"; "x.txt"]); [done|repeat constructor; done|done]).
  assert (canonical "a") by (apply (Hc ["a"]); [done|repeat constructor; done|done]).
  repeat apply Forall_cons_2; try apply Forall_nil_2; intros path Hp; simplify_eq/=; try (by left).
  right. by eexists.
Qed.


End Witnesses.
