(* ===== verification/SortBy.v ===== *)
(** SortBy: Rust's stable [slice::sort_by], the byte order of strings, and
    range queries of an ordered map of strings.

    [sort_by] is insertion sort: any two stable sorts by the same total
    preorder agree, and only stability, order and the elements matter to the
    program. *)

From stdpp Require Import base gmap list strings sorting.
From S2P Require Import Prelude.

Section SortBy.
Context {A : Type}.
Variable le : A -> A -> bool.

Fixpoint insert_by (x : A) (l : list A) : list A :=
  match l with
  | [] => [x]
  | y :: l' => if le x y then x :: l else y :: insert_by x l'
  end.

Definition sort_by (l : list A) : list A := foldr insert_by [] l.

Lemma insert_by_Permutation x l : insert_by x l ≡ₚ x :: l.
Proof.
  induction l as [|y l IH]; simpl; [done|]. destruct (le x y); [done|].
  rewrite IH. constructor.
Qed.

Lemma sort_by_Permutation l : sort_by l ≡ₚ l.
Proof. induction l as [|x l IH]; simpl; [done|]. by rewrite insert_by_Permutation, IH. Qed.

Lemma elem_of_sort_by x l : x ∈ sort_by l <-> x ∈ l.
Proof. by rewrite sort_by_Permutation. Qed.

Hypothesis le_total : forall x y, le x y = true \/ le y x = true.
Hypothesis le_trans : forall x y z, le x y = true -> le y z = true -> le x z = true.

Lemma insert_by_Sorted x l :
  StronglySorted (fun a b => le a b = true) l -> StronglySorted (fun a b => le a b = true) (insert_by x l).
Proof.
  induction 1 as [|y l Hs IH Hy]; simpl; [by repeat constructor|].
  destruct (le x y) eqn:E.
  - repeat constructor; [done..|]. eapply Forall_impl; [exact Hy|]. eauto.
  - constructor; [done|]. rewrite insert_by_Permutation. constructor; [|done].
    destruct (le_total x y); congruence.
Qed.

Lemma sort_by_Sorted l : StronglySorted (fun a b => le a b = true) (sort_by l).
Proof. induction l as [|x l IH]; simpl; [constructor|]. by apply insert_by_Sorted. Qed.
End SortBy.

Lemma StronglySorted_mono {A} (R R' : A -> A -> Prop) l :
  (forall x y, R x y -> R' x y) -> StronglySorted R l -> StronglySorted R' l.
Proof. intros HR. induction 1; constructor; [done|]. eapply Forall_impl; eauto. Qed.

(** The first [n] of a sorted list are those that nothing left out precedes. *)
Lemma take_sorted {A} (R : A -> A -> Prop) (n : nat) l x y :
  StronglySorted R l -> x ∈ take n l -> y ∈ drop n l -> R x y.
Proof.
  intros Hs Hx Hy. rewrite <- (take_drop n l) in Hs.
  eapply StronglySorted_app_1_elem_of; eauto.
Qed.

(** *** The order of strings *)

Lemma compare_cons c (s t : string) :
  String.compare (String c s) (String c t) = String.compare s t.
Proof. simpl. unfold Ascii.compare. by rewrite N.compare_refl. Qed.

(** Keys from [p:] up to, but not including, [p;] are those that start with
    [p:], since [;] follows [:] in ASCII. *)
Definition in_range (lo hi k : string) : bool := (String.leb lo k && String.ltb k hi)%bool.

Lemma range_is_prefix (p k : string) :
  in_range (p +:+ ":") (p +:+ ";") k = Str.starts_with (p +:+ ":") k.
Proof.
  unfold in_range, String.leb, String.ltb, Str.starts_with. revert k.
  induction p as [|c p IH]; intros k.
  - destruct k as [|d k]; [done|]. simpl. unfold Ascii.compare.
    destruct (Ascii.eqb_spec ":" d) as [<-|Hne]; [by destruct k|].
    assert (N_of_ascii ":" <> N_of_ascii d) as Hn
      by (intros E; apply (f_equal ascii_of_N) in E; rewrite !ascii_N_embedding in E; done).
    change (N_of_ascii ":") with 58%N in *. change (N_of_ascii ";") with 59%N.
    destruct (N.compare_spec 58 (N_of_ascii d)); simpl; [congruence| |done].
    destruct (N.compare_spec (N_of_ascii d) 59); [|lia|done]. by destruct k.
  - destruct k as [|d k]; [done|]. simpl. unfold Ascii.compare in *.
    rewrite (N.compare_antisym (N_of_ascii c) (N_of_ascii d)).
    destruct (Ascii.eqb_spec c d) as [<-|Hne]; [rewrite N.compare_refl; apply IH|].
    assert (N_of_ascii c <> N_of_ascii d) as Hn
      by (intros E; apply (f_equal ascii_of_N) in E; by rewrite !ascii_N_embedding in E).
    destruct (N.compare_spec (N_of_ascii c) (N_of_ascii d)); simpl; done.
Qed.

(** *** Iterating a table of strings: by increasing key *)

Definition key_le {A} (a b : string * A) : bool := String.leb a.1 b.1.
Definition entries {A} (t : gmap string A) : list (string * A) := sort_by key_le (map_to_list t).
Definition range {A} (lo hi : string) (t : gmap string A) : list (string * A) :=
  filter (fun e => in_range lo hi e.1 = true) (entries t).

Lemma elem_of_entries {A} (t : gmap string A) k v : (k, v) ∈ entries t <-> t !! k = Some v.
Proof. unfold entries. by rewrite elem_of_sort_by, elem_of_map_to_list. Qed.

Lemma elem_of_range {A} lo hi (t : gmap string A) k v :
  (k, v) ∈ range lo hi t <-> t !! k = Some v /\ in_range lo hi k = true.
Proof. unfold range. rewrite list_elem_of_filter, elem_of_entries. naive_solver. Qed.

Lemma NoDup_fst_entries {A} (t : gmap string A) : NoDup (entries t).*1.
Proof. unfold entries. rewrite sort_by_Permutation. apply NoDup_fst_map_to_list. Qed.

Lemma NoDup_fst_range {A} lo hi (t : gmap string A) : NoDup (range lo hi t).*1.
Proof.
  unfold range. generalize (NoDup_fst_entries t). generalize (entries t).
  induction l as [|x l IH]; [done|]. rewrite filter_cons. simpl. intros [Hx Hl]%NoDup_cons.
  destruct (decide _); [|by apply IH]. simpl. constructor; [|by apply IH].
  contradict Hx. apply list_elem_of_fmap in Hx as (y & -> & Hy).
  apply list_elem_of_filter in Hy as [_ Hy]. by apply list_elem_of_fmap_2.
Qed.
