(* ===== verification/Cron.v ===== *)
(** Cron: scheduled jobs of the daemon, of [src/src/daemon/cron/] (types.rs,
    scheduler.rs, execution.rs).

    The scheduler crate is a parameter: a set of entries, each a cron
    expression with the name captured by its closure ([JobScheduler]). An
    execution has two halves, reading the configuration ([execute_job_start],
    [execute_job_internal_start]) and recording the outcome
    ([record_execution]); between them the jobs may change. The network is an
    argument of the half that uses it, and what is sent and slept is its
    output. *)

From stdpp Require Import base gmap list strings.
From S2P Require Import Prelude StdPath.

#[local] Open Scope Z_scope.

(** ** Types ([types.rs]) *)

Definition MAX_HISTORY_ENTRIES : nat := 100.

Definition default_port : Z := 3000.
Definition default_health_path : string := "/health".
Definition default_method : string := "GET".
Definition default_path : string := "/".
Definition default_enabled : bool := true.

Record JobExecution := {
  id : string;
  job_name : string;
  started_at : Instant;
  completed_at : option Instant;
  duration_ms : option Z;
  success : bool;
  error : option string;
  manual : bool;
}.

(** [str::to_uppercase], as far as comparisons with ASCII strings can observe
    it: the non-ASCII characters whose uppercase form is ASCII are sharp s,
    dotless i, long s and the Latin ligatures U+FB00 to U+FB06; the bytes of
    every other non-ASCII character are kept here. *)
Definition upper_ligature (c : ascii) : option string :=
  match Str.code c with
  | 128%N => Some "FF" | 129%N => Some "FI" | 130%N => Some "FL" | 131%N => Some "FFI"
  | 132%N => Some "FFL" | 133%N => Some "ST" | 134%N => Some "ST" | _ => None
  end.

Fixpoint to_uppercase (s : string) : string :=
  match s with
  | EmptyString => EmptyString
  | String c s1 =>
      let keep := String (Str.upper_char c) (to_uppercase s1) in
      match s1 with
      | EmptyString => keep
      | String d s2 =>
          match Str.code c, Str.code d with
          | 195%N, 159%N => "SS" +:+ to_uppercase s2
          | 196%N, 177%N => "I" +:+ to_uppercase s2
          | 197%N, 191%N => "S" +:+ to_uppercase s2
          | 239%N, 172%N =>
              match s2 with
              | String e s3 =>
                  match upper_ligature e with Some u => u +:+ to_uppercase s3 | None => keep end
              | EmptyString => keep
              end
          | _, _ => keep
          end
      end
  end.

(** The first [n] characters of a UTF-8 string. *)
Fixpoint take_chars (n : nat) (s : string) : string :=
  match s with
  | EmptyString => EmptyString
  | String c s' =>
      if Str.in_range 128 191 c then String c (take_chars n s')
      else match n with O => EmptyString | S n' => String c (take_chars n' s') end
  end.

Section Cron.
(** serde_json's values. *)
Context {Json : Type}.

(** The headers are in the iteration order of the hash map. *)
Record ScheduleConfig := {
  name : string;
  module : string;
  cron : string;
  method : string;
  path : string;
  enabled : bool;
  port : Z;
  body : option Json;
  headers : option (list (string * string));
  health_path : string;
}.

Definition set_config_enabled (b : bool) (c : ScheduleConfig) : ScheduleConfig := {|
  name := name c; module := module c; cron := cron c; method := method c; path := path c;
  enabled := b; port := port c; body := body c; headers := headers c;
  health_path := health_path c |}.

Record JobInfo := {
  ji_name : string;
  ji_cron : string;
  ji_module : string;
  ji_method : string;
  ji_path : string;
  ji_enabled : bool;
  next_run : option Instant;
  last_execution : option JobExecution;
  ji_execution_count : Z;
  ji_success_count : Z;
  ji_failure_count : Z;
}.

Record JobState := {
  config : ScheduleConfig;
  job_id : option string;
  history : list JobExecution;
  execution_count : Z;
  success_count : Z;
  failure_count : Z;
}.

Definition job_state_new (c : ScheduleConfig) (job_id : option string) : JobState := {|
  config := c; job_id := job_id; history := [];
  execution_count := 0; success_count := 0; failure_count := 0 |}.

Definition to_job_info (st : JobState) : JobInfo := {|
  ji_name := name (config st); ji_cron := cron (config st); ji_module := module (config st);
  ji_method := method (config st); ji_path := path (config st);
  ji_enabled := enabled (config st); next_run := None; last_execution := last (history st);
  ji_execution_count := execution_count st; ji_success_count := success_count st;
  ji_failure_count := failure_count st |}.

(** ** Execution ([execution.rs]) *)

Record HttpRequest := {
  rq_method : string;
  rq_url : string;
  rq_headers : list (string * string);
  rq_body : option Json;
}.

(** What the network does during one execution: whether a client can be built,
    the status or error of each health check, and the status and body of the
    call, or its error. *)
Record Network := {
  client : bool;
  health : nat -> result Z string;
  call : HttpRequest -> result (Z * option string) string;
}.

Inductive Event :=
| HealthCheck (url : string)
| Sleep (ms : Z)
| Call (r : HttpRequest).

Definition is_success (status : Z) : bool := ((200 <=? status) && (status <? 300))%bool.

Definition health_url (port : Z) (health_path : string) : string :=
  let path := if Str.starts_with "/" health_path then health_path else "/" +:+ health_path in
  "http://localhost:" +:+ Str.of_Z port +:+ path.

(** Milliseconds before the attempt after [attempt]. *)
Definition backoff_ms (attempt : nat) : Z :=
  Z.min (wrap_u64 (500 * wrap_u64 (2 ^ (Z.of_nat attempt - 1)))) 8000.

(** The loop from [attempt], with [remaining] attempts left. *)
Fixpoint health_loop (net : Network) (url : string) (remaining attempt : nat) (last_error : string)
  : (result unit string) * list Event :=
  match remaining with
  | O => (Err last_error, [])
  | S remaining' =>
      let outcome := match health net attempt with
                     | Ok status => if is_success status then None
                                    else Some ("status " +:+ Str.of_Z status)
                     | Err e => Some e
                     end in
      match outcome with
      | None => (Ok tt, [HealthCheck url])
      | Some e =>
          let sleep := if Nat.eqb remaining' 0 then [] else [Sleep (backoff_ms attempt)] in
          let '(r, evs) := health_loop net url remaining' (S attempt) e in
          (r, HealthCheck url :: sleep ++ evs)
      end
  end.

Definition wait_for_healthy (net : Network) (port : Z) (health_path : string) (max_attempts : nat)
  : result unit string * list Event :=
  let '(r, evs) := health_loop net (health_url port health_path) max_attempts 1 "" in
  (match r with
   | Ok _ => Ok tt
   | Err last_error =>
       Err ("Instance not healthy on port " +:+ Str.of_Z port +:+ " after " +:+
            Str.of_Z (Z.of_nat max_attempts) +:+ " attempts: " +:+ last_error)
   end, evs).

Definition call_url (port : Z) (module_name path : string) : string :=
  "http://localhost:" +:+ Str.of_Z port +:+ "/run/" +:+ module_name +:+ path.

Definition supported_method (m : string) : bool :=
  existsb (String.eqb m) ["GET"; "POST"; "PUT"; "DELETE"; "PATCH"].

(** The request of the last part of [execute_wasm_module], and the reading of
    its response. *)
Definition call_module (net : Network) (url : string) (r : HttpRequest) : result unit string :=
  match call net r with
  | Err _ => Err ("Failed to call module at " +:+ url)
  | Ok (status, text) =>
      if negb (is_success status) then
        Err ("Module returned error status " +:+ Str.of_Z status +:+ ": " +:+
             take_chars 200 (default "<no body>" text))
      else Ok tt
  end.

Definition execute_wasm_module (net : Network) (c : ScheduleConfig) : result unit string * list Event :=
  match StdPath.file_stem (StdPath.components (module c)) with
  | None => (Err ("Invalid module path: " +:+ module c), [])
  | Some module_name =>
      if negb (client net) then (Err "Failed to create HTTP client", [])
      else
        let '(healthy, evs) := wait_for_healthy net (port c) (health_path c) 5 in
        match healthy with
        | Err e => (Err e, evs)
        | Ok _ =>
            let url := call_url (port c) module_name (path c) in
            let m := to_uppercase (method c) in
            if negb (supported_method m) then (Err ("Unsupported HTTP method: " +:+ m), evs)
            else
              let r := {| rq_method := m; rq_url := url;
                          rq_headers := default [] (headers c); rq_body := body c |} in
              (call_module net url r, evs ++ [Call r])
        end
  end.

(** ** Scheduler ([scheduler.rs]) *)

Notation JobsMap := (gmap string JobState).

(** tokio-cron-scheduler: its entries by identifier, each a cron expression
    with the job name its closure captured; [job_new] is the check of the
    expression, [sch_add] and [sch_remove] may fail. *)
Class JobScheduler (Sch : Type) := {
  sch_entries : Sch -> gmap string (string * string);
  job_new : string -> result unit string;
  sch_add : string * string -> Sch -> result string string * Sch;
  sch_remove : string -> Sch -> result unit string * Sch;
}.

Class JobSchedulerLaws (Sch : Type) `{JobScheduler Sch} := {
  add_entries e s :
    match sch_add e s with
    | (Ok i, s') => sch_entries s !! i = None /\ sch_entries s' = <[i := e]> (sch_entries s)
    | (Err _, s') => sch_entries s' = sch_entries s
    end;
  remove_entries i s :
    match sch_remove i s with
    | (Ok _, s') => sch_entries s' = delete i (sch_entries s)
    | (Err _, s') => sch_entries s' = sch_entries s
    end;
}.

Section Scheduler.
Context {Sch : Type} `{JobScheduler Sch}.

Record CronScheduler := {
  scheduler : Sch;
  jobs : JobsMap;
}.

Definition set_jobs (m : JobsMap) (s : CronScheduler) : CronScheduler :=
  {| scheduler := scheduler s; jobs := m |}.

Definition add_job (c : ScheduleConfig) (s : CronScheduler) : result unit string * CronScheduler :=
  match job_new (cron c) with
  | Err _ => (Err ("Invalid cron expression: " +:+ cron c), s)
  | Ok _ =>
      match sch_add (cron c, name c) (scheduler s) with
      | (Err _, sch) => (Err "Failed to add job to scheduler", {| scheduler := sch; jobs := jobs s |})
      | (Ok job_id, sch) =>
          (Ok tt, {| scheduler := sch; jobs := <[name c := job_state_new c (Some job_id)]> (jobs s) |})
      end
  end.

Definition remove_job (n : string) (s : CronScheduler) : result bool string * CronScheduler :=
  match jobs s !! n with
  | None => (Ok false, s)
  | Some state =>
      let s := set_jobs (delete n (jobs s)) s in
      match job_id state with
      | None => (Ok true, s)
      | Some job_id =>
          let '(removed, sch) := sch_remove job_id (scheduler s) in
          (match removed with
           | Ok _ => Ok true
           | Err _ => Err "Failed to remove job from scheduler"
           end, {| scheduler := sch; jobs := jobs s |})
      end
  end.

Definition with_config (c : ScheduleConfig) (st : JobState) : JobState := {|
  config := c; job_id := job_id st; history := history st;
  execution_count := execution_count st; success_count := success_count st;
  failure_count := failure_count st |}.

Definition set_enabled (n : string) (b : bool) (s : CronScheduler) : option bool * CronScheduler :=
  match jobs s !! n with
  | None => (None, s)
  | Some st =>
      (Some b, set_jobs (<[n := with_config (set_config_enabled b (config st)) st]> (jobs s)) s)
  end.

Definition get_config (n : string) (s : CronScheduler) : option ScheduleConfig :=
  config <$> jobs s !! n.
Definition get_job (n : string) (s : CronScheduler) : option JobInfo := to_job_info <$> jobs s !! n.

(** The values of the hash map, in its iteration order. *)
Definition list_jobs (iter : JobsMap -> list (string * JobState)) (s : CronScheduler) : list JobInfo :=
  (fun e => to_job_info e.2) <$> iter (jobs s).

Definition get_history (n : string) (limit : option nat) (s : CronScheduler)
  : option (list JobExecution) :=
  (fun st => take (default 50%nat limit `min` MAX_HISTORY_ENTRIES) (rev (history st))) <$> jobs s !! n.

(** ** Executions ([execution.rs]) *)

(** An execution between its two halves: [p_config] is what was read. *)
Record Pending := {
  p_id : string;
  p_name : string;
  p_started : Instant;
  p_config : option ScheduleConfig;
  p_manual : bool;
}.

(** What the call of the module takes and when it ends. *)
Record Run := {
  net : Network;
  ms : Z;
  completed : Instant;
}.

Definition run_execution (r : Run) (p : Pending) : JobExecution * list Event :=
  let '(outcome, evs, duration) :=
    match p_config p with
    | Some c => (execute_wasm_module (net r) c, ms r)
    | None => (Err "Job not found", [], 0)
    end in
  ({| id := p_id p; job_name := p_name p; started_at := p_started p;
      completed_at := Some (completed r); duration_ms := Some duration;
      success := is_ok outcome;
      error := match outcome with Ok _ => None | Err e => Some e end;
      manual := p_manual p |}, evs).

(** The job's state after one execution. *)
Definition record (e : JobExecution) (success : bool) (st : JobState) : JobState := {|
  config := config st; job_id := job_id st;
  history := (if Nat.leb MAX_HISTORY_ENTRIES (length (history st)) then tail (history st)
              else history st) ++ [e];
  execution_count := wrap_u64 (execution_count st + 1);
  success_count := if success then wrap_u64 (success_count st + 1) else success_count st;
  failure_count := if success then failure_count st else wrap_u64 (failure_count st + 1) |}.

Definition record_execution (n : string) (e : JobExecution) (success : bool) (s : CronScheduler)
  : CronScheduler :=
  match jobs s !! n with
  | Some st => set_jobs (<[n := record e success st]> (jobs s)) s
  | None => s
  end.

Definition execute_job_start (id n : string) (now : Instant) (manual : bool) (s : CronScheduler)
  : Pending :=
  {| p_id := id; p_name := n; p_started := now; p_config := get_config n s; p_manual := manual |}.

(** A scheduled execution stops here when the job is gone or disabled. *)
Definition execute_job_internal_start (id n : string) (now : Instant) (s : CronScheduler)
  : option Pending :=
  match get_config n s with
  | Some c => if enabled c then Some (execute_job_start id n now false s) else None
  | None => None
  end.

Definition execution_finish (r : Run) (p : Pending) (s : CronScheduler) : JobExecution * CronScheduler :=
  let '(e, _) := run_execution r p in (e, record_execution (p_name p) e (success e) s).

Definition execute_job (id n : string) (now : Instant) (r : Run) (s : CronScheduler)
  : JobExecution * CronScheduler :=
  execution_finish r (execute_job_start id n now true s) s.

Definition trigger_result (n : string) (e : JobExecution) : result JobExecution string :=
  if (negb (success e) && bool_decide (error e = Some "Job not found"))%bool
  then Err ("Job '" +:+ n +:+ "' not found") else Ok e.

Definition trigger_job (id n : string) (now : Instant) (r : Run) (s : CronScheduler)
  : result JobExecution string * CronScheduler :=
  let '(e, s) := execute_job id n now r s in (trigger_result n e, s).
End Scheduler.
End Cron.

Arguments ScheduleConfig : clear implicits.
Arguments JobState : clear implicits.
Arguments JobInfo : clear implicits.
Arguments HttpRequest : clear implicits.
Arguments Network : clear implicits.
Arguments Event : clear implicits.
Arguments Pending : clear implicits.
Arguments Run : clear implicits.
Arguments CronScheduler : clear implicits.
