(* ===== verification/CronProps.v ===== *)
(** CronProps: what one execution of a scheduled job does to the network. *)

From stdpp Require Import base gmap list strings.
From S2P Require Import Prelude StdPath Cron.

#[local] Open Scope Z_scope.

Section Execution.
Context {Json : Type}.
Notation Net := (Network Json).

Definition healthy (net : Net) (attempt : nat) : bool :=
  match health net attempt with Ok status => is_success status | Err _ => false end.

(** [n] failed checks from attempt [a] on, each followed by its backoff. *)
Fixpoint polls (url : string) (a n : nat) : list (Event Json) :=
  match n with
  | O => []
  | S n' => HealthCheck url :: Sleep (backoff_ms a) :: polls url (S a) n'
  end.

Lemma health_loop_first (net : Net) url rem a k le : (a <= k < a + rem)%nat ->
  healthy net k = true -> (forall j, (a <= j < k)%nat -> healthy net j = false) ->
  health_loop net url rem a le = (Ok tt, polls url a (k - a) ++ [HealthCheck url]).
Proof.
  revert a le. induction rem as [|rem IH]; intros a le Hk Hh Hbefore; [lia|]. simpl.
  destruct (decide (k = a)) as [->|Hne].
  - rewrite Nat.sub_diag. unfold healthy in Hh. destruct (health net a); [|done]. by rewrite Hh.
  - assert (healthy net a = false) as Ha by (apply Hbefore; lia). unfold healthy in Ha.
    replace (k - a)%nat with (S (k - S a)) by lia.
    assert (Nat.eqb rem 0 = false) as -> by (apply Nat.eqb_neq; lia).
    destruct (health net a) as [st|e]; [rewrite Ha|]; rewrite (IH (S a)); try done; try lia;
      intros; apply Hbefore; lia.
Qed.

Lemma health_loop_none (net : Net) url rem a le :
  (forall j, (a <= j <= a + rem)%nat -> healthy net j = false) ->
  exists e, health_loop net url (S rem) a le = (Err e, polls url a rem ++ [HealthCheck url]).
Proof.
  revert a le. induction rem as [|rem IH]; intros a le Hall.
  - assert (healthy net a = false) as Ha by (apply Hall; lia). unfold healthy in Ha.
    simpl. destruct (health net a); [rewrite Ha|]; by eexists.
  - assert (healthy net a = false) as Ha by (apply Hall; lia). unfold healthy in Ha.
    remember (S rem) as m. simpl. subst m.
    destruct (health net a) as [st|e0]; [rewrite Ha|];
      (edestruct (IH (S a)) as [e He]; [intros; apply Hall; lia|rewrite He; by eexists]).
Qed.

Definition slept (evs : list (Event Json)) : Z :=
  foldr (fun e acc => match e with Sleep ms => ms + acc | _ => acc end) 0 evs.

Definition calls (evs : list (Event Json)) : nat :=
  length (List.filter (fun e => match e with Call _ => true | _ => false end) evs).

Lemma first_healthy (net : Net) n :
  (exists k, (1 <= k <= n)%nat /\ healthy net k = true /\
     forall j, (1 <= j < k)%nat -> healthy net j = false) \/
  (forall j, (1 <= j <= n)%nat -> healthy net j = false).
Proof.
  induction n as [|n [(k & Hk & Hh & Hb)|Hall]]; [right; lia|left; exists k; split_and!; done || lia|].
  destruct (healthy net (S n)) eqn:E; [left; exists (S n)|right].
  - split_and!; [lia|lia|done|]. intros. apply Hall. lia.
  - intros j Hj. destruct (decide (j = S n)) as [->|]; [done|]. apply Hall. lia.
Qed.

(** One execution of a job on the network, from a client that can be built
    and a module path with a name. If one of the first five health checks
    succeeds, the checks up to it, with the exponential backoffs between them,
    are followed by exactly one call of [/run/<module><path>] with the job's
    headers and body, provided the method is one of the five supported ones,
    and the execution succeeds when the answer is 2xx; if all five fail, the
    module is not called and the execution fails. In every case at most 7.5
    seconds are slept. *)
Lemma execution_network (net : Net) (c : ScheduleConfig Json) (m : string) :
  file_stem (components (module c)) = Some m -> client net = true ->
  let url := health_url (port c) (health_path c) in
  let meth := to_uppercase (method c) in
  let r := {| rq_method := meth; rq_url := call_url (port c) m (path c);
              rq_headers := default [] (headers c); rq_body := body c |} in
  let checks k := polls url 1 (k - 1) ++ [HealthCheck url] in
  (forall k, (1 <= k <= 5)%nat -> healthy net k = true ->
     (forall j, (1 <= j < k)%nat -> healthy net j = false) ->
     execute_wasm_module net c =
       if supported_method meth then (call_module net (rq_url r) r, checks k ++ [Call r])
       else (Err ("Unsupported HTTP method: " +:+ meth), checks k)) /\
  ((forall j, (1 <= j <= 5)%nat -> healthy net j = false) ->
     exists e, execute_wasm_module net c = (Err e, checks 5%nat)) /\
  slept (execute_wasm_module net c).2 <= 7500 /\ (calls (execute_wasm_module net c).2 <= 1)%nat.
Proof.
  intros Hm Hc url meth r checks.
  assert (forall k, (1 <= k <= 5)%nat -> healthy net k = true ->
     (forall j, (1 <= j < k)%nat -> healthy net j = false) ->
     execute_wasm_module net c =
       if supported_method meth then (call_module net (rq_url r) r, checks k ++ [Call r])
       else (Err ("Unsupported HTTP method: " +:+ meth), checks k)) as H1.
  { intros k Hk Hh Hb. unfold execute_wasm_module, wait_for_healthy. rewrite Hm, Hc. simpl negb.
    rewrite (health_loop_first net _ 5 1 k) by (done || lia). fold url meth. cbv zeta.
    by destruct (supported_method meth). }
  assert ((forall j, (1 <= j <= 5)%nat -> healthy net j = false) ->
     exists e, execute_wasm_module net c = (Err e, checks 5%nat)) as H2.
  { intros Hall. unfold execute_wasm_module, wait_for_healthy. rewrite Hm, Hc. simpl negb.
    destruct (health_loop_none net url 4 1 "") as [e He]; [intros; apply Hall; lia|].
    fold url. rewrite He. by eexists. }
  split; [done|]. split; [done|].
  assert (forall k, (1 <= k <= 5)%nat -> forall l, slept (checks k ++ l) <= 7500 + slept l /\
    calls (checks k ++ l) = calls l) as Hs.
  { intros k Hk l. assert (k = 1 \/ k = 2 \/ k = 3 \/ k = 4 \/ k = 5)%nat as Hcases by lia.
    repeat destruct Hcases as [->|Hcases]; subst; (split; [|done]); unfold checks; cbn [polls Nat.sub];
      rewrite <- ?app_comm_cons; cbn [app slept foldr]; fold (slept l); change (backoff_ms 1) with 500;
      change (backoff_ms 2) with 1000; change (backoff_ms 3) with 2000; change (backoff_ms 4) with 4000; lia. }
  destruct (first_healthy net 5) as [(k & Hk & Hh & Hb)|Hall].
  - rewrite (H1 k Hk Hh Hb). destruct (supported_method meth); cbn [snd].
    + destruct (Hs k Hk [Call r]) as [? ->]. cbn [slept foldr] in *. split; [lia|done].
    + destruct (Hs k Hk []) as [? Hn]. rewrite app_nil_r in *. rewrite Hn. cbn [slept foldr] in *.
      split; [lia|auto with arith].
  - destruct (H2 Hall) as [e ->]. destruct (Hs 5%nat ltac:(lia) []) as [? Hn].
    rewrite app_nil_r in *. cbn [snd]. rewrite Hn. cbn [slept foldr] in *. split; [lia|auto with arith].
Qed.
End Execution.

(** ** A concrete instance *)

Section Witness.
Definition report : ScheduleConfig unit := {|
  name := "report"; module := "modules/report.wasm"; cron := "0 0 * * * * *"; method := "post";
  path := "/daily"; enabled := true; port := 3000; body := None; headers := None;
  health_path := "health" |}.

(** The second health check succeeds. *)
Definition late : Network unit := {|
  client := true;
  health n := if Nat.eqb n 1 then Err "connection refused" else Ok 200;
  call _ := Ok (204, None) |}.

End Witness.
