(* ===== verification/StateStore.v ===== *)
(** StateStore: the daemon's state database, of [src/src/daemon/state/]
    (mod.rs, types.rs, instances.rs, cron.rs, history.rs).

    Three redb tables from strings to JSON. A transaction is atomic: it applies
    all its updates, or fails and changes nothing; where it fails, and with
    which message, is its argument ([Txn]). serde_json is the class [Serde]. *)

From stdpp Require Import base gmap list strings sorting.
From S2P Require Import Prelude SortBy Cron.

#[local] Open Scope Z_scope.

(** ** Types ([types.rs]) *)

Inductive Status := Running | Stopped | Crashed (exit_code : Z).
#[export] Instance Status_eq_dec : EqDecision Status.
Proof. solve_decision. Defined.

Record Instance := {
  i_name : string;
  i_port : Z;
  i_pid : Z;
  i_status : Status;
  i_config : string;
  i_started_at : Instant;
  i_modules : list string;
  i_auto_restart : bool;
  i_restart_count : Z;
  i_last_restart_at : option Instant;
}.

Definition instance_new (now : Instant) (name : string) (port pid : Z) (config : string) : Instance := {|
  i_name := name; i_port := port; i_pid := pid; i_status := Running; i_config := config;
  i_started_at := now; i_modules := []; i_auto_restart := false; i_restart_count := 0;
  i_last_restart_at := None |}.

Definition set_status (st : Status) (i : Instance) : Instance := {|
  i_name := i_name i; i_port := i_port i; i_pid := i_pid i; i_status := st;
  i_config := i_config i; i_started_at := i_started_at i; i_modules := i_modules i;
  i_auto_restart := i_auto_restart i; i_restart_count := i_restart_count i;
  i_last_restart_at := i_last_restart_at i |}.

(** ** Tables *)

Class Serde (Bytes A : Type) := {
  to_vec : A -> result Bytes string;
  from_slice : Bytes -> result A string;
}.
#[global] Hint Mode Serde ! ! : typeclass_instances.

Class SerdeLaws (Bytes A : Type) `{Serde Bytes A} :=
  serde_roundtrip (a : A) (b : Bytes) : to_vec a = Ok b -> from_slice b = Ok a.

(** The outcome of a write transaction: of starting it and opening the table,
    and of writing and committing. *)
Record Txn := {
  begin_txn : result unit string;
  commit_txn : result unit string;
}.
Definition txn_ok : Txn := {| begin_txn := Ok tt; commit_txn := Ok tt |}.

(** A transaction whose body cannot fail. *)
Definition txn_result (t : Txn) : result unit string := let? _ := begin_txn t in commit_txn t.

Section Tables.
Context {Bytes : Type}.
Notation Table := (gmap string Bytes).

(** A write transaction that inserts [a], serialised in between. *)
Definition table_insert {A} `{Serde Bytes A} (txn : Txn) (ser_error key : string) (a : A) (t : Table)
  : result unit string * Table :=
  match begin_txn txn with
  | Err e => (Err e, t)
  | Ok _ =>
      match to_vec a with
      | Err _ => (Err ser_error, t)
      | Ok json =>
          match commit_txn txn with
          | Err e => (Err e, t)
          | Ok _ => (Ok tt, <[key := json]> t)
          end
      end
  end.

Definition table_get {A} `{Serde Bytes A} (rtxn : result unit string) (de_error key : string) (t : Table)
  : result (option A) string :=
  let? _ := rtxn in
  match t !! key with
  | None => Ok None
  | Some json => match from_slice json with Ok a => Ok (Some a) | Err _ => Err de_error end
  end.

(** Entries that do not decode are skipped. *)
Definition table_list {A} `{Serde Bytes A} (rtxn : result unit string) (t : Table) : result (list A) string :=
  let? _ := rtxn in
  Ok (omap (fun e => match from_slice e.2 with Ok a => Some a | Err _ => None end) (entries t)).

Definition table_remove (txn : Txn) (key : string) (t : Table) : result bool string * Table :=
  match txn_result txn with
  | Ok _ => (Ok match t !! key with Some _ => true | None => false end, delete key t)
  | Err e => (Err e, t)
  end.

(** The removals of one transaction, and how many entries there were. *)
Fixpoint remove_keys (keys : list string) (t : Table) : nat * Table :=
  match keys with
  | [] => (0%nat, t)
  | k :: keys' =>
      let '(removed, t') := remove_keys keys' (delete k t) in
      (match t !! k with Some _ => S removed | None => removed end, t')
  end.

(** ** The store *)

Context {Json : Type}.
Context `{Serde Bytes Instance} `{Serde Bytes (ScheduleConfig Json)} `{Serde Bytes JobExecution}.

Record StateStore := {
  instances : Table;
  cron_jobs : Table;
  cron_history : Table;
}.

Definition set_instances (t : Table) (s : StateStore) : StateStore :=
  {| instances := t; cron_jobs := cron_jobs s; cron_history := cron_history s |}.
Definition set_cron_jobs (t : Table) (s : StateStore) : StateStore :=
  {| instances := instances s; cron_jobs := t; cron_history := cron_history s |}.
Definition set_cron_history (t : Table) (s : StateStore) : StateStore :=
  {| instances := instances s; cron_jobs := cron_jobs s; cron_history := t |}.

(** *** Instances ([instances.rs]) *)

Definition save_instance (txn : Txn) (i : Instance) (s : StateStore) : result unit string * StateStore :=
  let '(r, t) := table_insert txn "Failed to serialize instance to JSON" (i_name i) i (instances s) in
  (r, set_instances t s).

Definition get_instance (rtxn : result unit string) (name : string) (s : StateStore)
  : result (option Instance) string :=
  table_get rtxn ("Failed to deserialize instance '" +:+ name +:+ "'") name (instances s).

Definition list_instances (rtxn : result unit string) (s : StateStore) : result (list Instance) string :=
  table_list rtxn (instances s).

Definition remove_instance (txn : Txn) (name : string) (s : StateStore) : result bool string * StateStore :=
  let '(r, t) := table_remove txn name (instances s) in (r, set_instances t s).

(** *** Cron jobs ([cron.rs]) *)

Definition save_cron_job (txn : Txn) (c : ScheduleConfig Json) (s : StateStore)
  : result unit string * StateStore :=
  let '(r, t) := table_insert txn "Failed to serialize cron job to JSON" (name c) c (cron_jobs s) in
  (r, set_cron_jobs t s).

Definition get_cron_job (rtxn : result unit string) (name : string) (s : StateStore)
  : result (option (ScheduleConfig Json)) string :=
  table_get rtxn ("Failed to deserialize cron job '" +:+ name +:+ "'") name (cron_jobs s).

Definition list_cron_jobs (rtxn : result unit string) (s : StateStore)
  : result (list (ScheduleConfig Json)) string :=
  table_list rtxn (cron_jobs s).

Definition remove_cron_job (txn : Txn) (name : string) (s : StateStore) : result bool string * StateStore :=
  let '(r, t) := table_remove txn name (cron_jobs s) in (r, set_cron_jobs t s).

(** *** Execution history ([history.rs]) *)

Definition timestamp (t : Instant) : Z := t / 1000000000.

Definition history_key (e : JobExecution) : string :=
  job_name e +:+ ":" +:+ Str.of_Z (timestamp (started_at e)) +:+ ":" +:+ id e.

Definition save_job_execution (txn : Txn) (e : JobExecution) (s : StateStore)
  : result unit string * StateStore :=
  let '(r, t) := table_insert txn "Failed to serialize job execution" (history_key e) e (cron_history s) in
  (r, set_cron_history t s).

Fixpoint decode_all (es : list (string * Bytes)) : result (list JobExecution) string :=
  match es with
  | [] => Ok []
  | (key, json) :: es' =>
      match from_slice json with
      | Err _ => Err ("Failed to deserialize job execution: " +:+ key)
      | Ok e => let? l := decode_all es' in Ok (e :: l)
      end
  end.

(** Most recent first. *)
Definition newer (a b : JobExecution) : bool := started_at b <=? started_at a.

(** All executions in the key range of the job, most recent first. *)
Definition job_executions (rtxn : result unit string) (job : string) (s : StateStore)
  : result (list JobExecution) string :=
  let? _ := rtxn in
  let? es := decode_all (range (job +:+ ":") (job +:+ ";") (cron_history s)) in
  Ok (sort_by newer es).

Definition list_job_executions (rtxn : result unit string) (job : string) (limit : nat) (s : StateStore)
  : result (list JobExecution) string :=
  let? es := job_executions rtxn job s in Ok (take limit es).

(** The number of executions is below [usize::MAX], the limit given here. *)
Definition cleanup_job_executions (rtxn : result unit string) (txn : Txn) (job : string) (keep : nat)
    (s : StateStore) : result nat string * StateStore :=
  match job_executions rtxn job s with
  | Err e => (Err e, s)
  | Ok es =>
      if Nat.leb (length es) keep then (Ok 0%nat, s)
      else
        match txn_result txn with
        | Err e => (Err e, s)
        | Ok _ =>
            let '(removed, t) := remove_keys (history_key <$> drop keep es) (cron_history s) in
            (Ok removed, set_cron_history t s)
        end
  end.
End Tables.

Arguments StateStore : clear implicits.
