(* ===== verification/StateProps.v ===== *)
(** StateProps: what the execution history of the state database holds.

    Keys are [job:timestamp:id] and a job's history is the range of keys that
    start with [job:], which also holds the executions of the jobs whose names
    continue [job:]. *)

From stdpp Require Import base gmap list strings sorting pretty.
From S2P Require Import Prelude SortBy Cron StateStore.

#[local] Open Scope Z_scope.

(** ** Colon-separated keys *)

Definition no_colon (s : string) : Prop := Str.contains_char Str.COLON s = false.

Lemma no_colon_app a b : no_colon (a +:+ ":" +:+ b) <-> False.
Proof.
  unfold no_colon. rewrite Str.contains_char_app. simpl. rewrite orb_true_r. by split.
Qed.

Lemma pretty_N_go_no_colon n s : no_colon s -> no_colon (pretty_N_go n s).
Proof.
  revert s. induction (N.lt_wf_0 n) as [n _ IH]; intros s Hs.
  destruct (decide (n = 0)%N) as [->|Hn]; [by rewrite pretty_N_go_0|].
  rewrite pretty_N_go_step by lia. apply IH; [apply N.div_lt; lia|].
  unfold no_colon in *. unfold Str.contains_char in *. simpl. rewrite Hs, orb_false_r.
  unfold pretty_N_char. by repeat case_match.
Qed.

Lemma of_Z_no_colon z : no_colon (Str.of_Z z).
Proof.
  assert (forall n : N, no_colon (pretty n)) as Hn.
  { intros n. unfold pretty, pretty_N. destruct (decide _); [done|]. by apply pretty_N_go_no_colon. }
  unfold Str.of_Z, pretty, pretty_Z. destruct z; [done| |]; unfold pretty, pretty_positive.
  - apply Hn.
  - pose proof (Hn (N.pos p)). unfold no_colon, Str.contains_char in *. simpl. done.
Qed.

(** Two readings of one string as a part, a colon and a rest. *)
Lemma colon_split a r b r' : a +:+ ":" +:+ r = b +:+ ":" +:+ r' <->
  (a = b /\ r = r') \/
  (exists x, b = a +:+ ":" +:+ x /\ r = x +:+ ":" +:+ r') \/
  (exists x, a = b +:+ ":" +:+ x /\ r' = x +:+ ":" +:+ r).
Proof.
  split.
  2:{ intros [[-> ->]|[(x & -> & ->)|(x & -> & ->)]]; [done|..]; by rewrite <- !Str.app_assoc. }
  revert b. induction a as [|c a IH]; intros [|d b]; simpl; intros Heq; simplify_eq.
  - by left.
  - right. left. by exists b.
  - right. right. by exists a.
  - destruct (IH b) as [[-> ->]|[(x & -> & ->)|(x & -> & ->)]]; [done|by left|..]; right.
    + left. by exists x.
    + right. by exists x.
Qed.

Lemma history_prefix (job : string) e : no_colon (id e) ->
  Str.starts_with (job +:+ ":") (history_key e) = true <->
  job_name e = job \/ (exists x, job_name e = job +:+ ":" +:+ x) \/
  job = job_name e +:+ ":" +:+ Str.of_Z (timestamp (started_at e)).
Proof.
  intros Hid. rewrite Str.starts_with_iff. unfold history_key.
  set (ts := Str.of_Z _). assert (no_colon ts) as Hts by apply of_Z_no_colon.
  setoid_rewrite <- Str.app_assoc. setoid_rewrite colon_split. split.
  - intros (r & [[-> _]|[(x & -> & Hx)|(x & -> & _)]]); [by left| |by right; left; exists x].
    right; right. apply colon_split in Hx as [[<- _]|[(y & -> & Hy)|(y & Hy & _)]]; [done|..].
    + rewrite Hy in Hid. by apply no_colon_app in Hid.
    + rewrite Hy in Hts. by apply no_colon_app in Hts.
  - intros [->|[(x & ->)| ->]].
    + eexists. by left.
    + eexists. right; right. by exists x.
    + exists (id e). right; left. by exists ts.
Qed.

(** ** The history of a job *)

Section History.
Context {Bytes Json : Type} `{Serde Bytes Instance} `{Serde Bytes (ScheduleConfig Json)}.
Context `{Serde Bytes JobExecution}.

Notation Store := (StateStore Bytes).
Notation Table := (gmap string Bytes).

(** The execution is in the table, under its key. *)
Definition stored (e : JobExecution) (t : Table) : Prop :=
  exists b, t !! history_key e = Some b /\ from_slice b = Ok e.

(** Every entry decodes to an execution with its key. *)
Definition history_ok (t : Table) : Prop :=
  forall k b, t !! k = Some b -> exists e, from_slice b = Ok e /\ k = history_key e.

Lemma stored_key e e' t : stored e t -> stored e' t -> history_key e = history_key e' -> e = e'.
Proof. intros (b & Hb & He) (b' & Hb' & He') Hk. rewrite Hk in Hb. congruence. Qed.

Lemma decode_all_spec (es : list (string * Bytes)) :
  (forall k b, (k, b) ∈ es -> exists e, from_slice b = Ok e /\ k = history_key e) ->
  exists l, decode_all es = Ok l /\ history_key <$> l = es.*1 /\
    forall e, e ∈ l <-> exists b, (history_key e, b) ∈ es /\ from_slice b = Ok e.
Proof.
  induction es as [|[k b] es IH]; intros Hes; simpl.
  - exists []. split_and!; [done..|]. intros e. split; [by intros ?%not_elem_of_nil|].
    by intros (b & ?%not_elem_of_nil & _).
  - destruct (Hes k b) as (e & He & Hk); [by left|]. rewrite He.
    destruct IH as (l & -> & Hk' & Hl); [intros k' b' ?; apply Hes; by right|].
    exists (e :: l). split_and!; [done|by csimpl; rewrite Hk', Hk|].
    intros e'. rewrite elem_of_cons, Hl. split.
    + intros [->|(b' & ? & ?)]; [exists b|exists b'; by split; [right|]].
      split; [|done]. rewrite Hk. left.
    + intros (b' & [[= Hk2 ->]|?]%elem_of_cons & Hb'); [left; congruence|right; by exists b'].
Qed.

Lemma newer_total a b : newer a b = true \/ newer b a = true.
Proof. unfold newer. lia. Qed.
Lemma newer_trans a b c : newer a b = true -> newer b c = true -> newer a c = true.
Proof. unfold newer. lia. Qed.

Lemma job_executions_spec (job : string) (s : Store) :
  history_ok (cron_history s) ->
  exists l, job_executions (Ok tt) job s = Ok l /\
    StronglySorted (fun a b => started_at b <= started_at a) l /\ NoDup (history_key <$> l) /\
    forall e, e ∈ l <-> stored e (cron_history s) /\ Str.starts_with (job +:+ ":") (history_key e) = true.
Proof.
  intros Hok. set (es := range (job +:+ ":") (job +:+ ";") (cron_history s)).
  destruct (decode_all_spec es) as (l & Hl & Hk & Hin).
  { intros k b [Hkb _]%elem_of_range. by apply Hok. }
  exists (sort_by newer l). unfold job_executions. fold es. simpl. rewrite Hl. split_and!; [done|..].
  - eapply StronglySorted_mono; [|apply sort_by_Sorted; [apply newer_total|apply newer_trans]].
    unfold newer. simpl. intros. lia.
  - rewrite sort_by_Permutation, Hk. apply NoDup_fst_range.
  - intros e. rewrite elem_of_sort_by, Hin. unfold es, stored. setoid_rewrite elem_of_range.
    rewrite range_is_prefix. naive_solver.
Qed.

(** ** Removal *)

Lemma remove_keys_spec keys (t : Table) : NoDup keys -> (forall k, k ∈ keys -> is_Some (t !! k)) ->
  (remove_keys keys t).1 = length keys /\
  forall k, (remove_keys keys t).2 !! k = if decide (k ∈ keys) then None else t !! k.
Proof.
  revert t. induction keys as [|k keys IH]; intros t Hnd Hin; [done|].
  apply NoDup_cons in Hnd as [Hk Hnd]. simpl.
  destruct (IH (delete k t) Hnd) as [Hn Hl].
  { intros k' Hk'. rewrite lookup_delete_ne by (intros ->; done). apply Hin. by right. }
  destruct (remove_keys keys (delete k t)) as [n t']. simpl in *.
  destruct (Hin k) as [b ->]; [left|]. split; [by rewrite Hn|].
  intros k'. rewrite Hl. destruct (decide (k' = k)) as [->|Hne].
  - rewrite lookup_delete_eq. repeat destruct (decide _); done || set_solver.
  - rewrite lookup_delete_ne by done. repeat destruct (decide _); done || set_solver.
Qed.

Lemma stored_remove_keys keys (t : Table) e : NoDup keys -> (forall k, k ∈ keys -> is_Some (t !! k)) ->
  stored e (remove_keys keys t).2 <-> stored e t /\ history_key e ∉ keys.
Proof.
  intros Hnd Hin. destruct (remove_keys_spec keys t Hnd Hin) as [_ Hl].
  unfold stored. rewrite Hl. destruct (decide _); naive_solver.
Qed.

Lemma cleanup_spec (job : string) (keep : nat) (s : Store) l :
  history_ok (cron_history s) -> job_executions (Ok tt) job s = Ok l ->
  exists s', cleanup_job_executions (Ok tt) txn_ok job keep s = (Ok (length l - keep)%nat, s') /\
    forall e, stored e (cron_history s') <-> stored e (cron_history s) /\ e ∉ drop keep l.
Proof.
  intros Hok Hl. destruct (job_executions_spec job s Hok) as (l' & Hl' & _ & Hnd & Hin).
  rewrite Hl in Hl'. injection Hl' as <-. unfold cleanup_job_executions. rewrite Hl.
  destruct (Nat.leb_spec (length l) keep) as [Hle|Hgt].
  { exists s. split; [by replace (length l - keep)%nat with 0%nat by lia|].
    intros e. rewrite drop_ge by done. set_solver. }
  simpl. assert (NoDup (history_key <$> drop keep l)) as Hnd'.
  { rewrite fmap_drop. rewrite <- (take_drop keep (history_key <$> l)) in Hnd.
    by apply NoDup_app in Hnd as (_ & _ & ?). }
  assert (forall e, e ∈ drop keep l -> stored e (cron_history s)) as Hst.
  { intros e He. apply Hin. rewrite <- (take_drop keep l). apply elem_of_app. by right. }
  assert (forall k, k ∈ history_key <$> drop keep l -> is_Some (cron_history s !! k)) as Hks.
  { intros k (e & -> & He)%list_elem_of_fmap. destruct (Hst e He) as (b & -> & _). by eexists. }
  pose proof (remove_keys_spec _ _ Hnd' Hks) as [Hn _].
  pose proof (fun e => stored_remove_keys _ _ e Hnd' Hks) as Hr.
  destruct (remove_keys _ _) as [n t]. simpl in Hn, Hr. rewrite length_fmap, length_drop in Hn.
  eexists. split; [by rewrite Hn|]. intros e. simpl. rewrite Hr. split; intros [He Hk]; split; [done| |done|].
  - contradict Hk. by apply list_elem_of_fmap_2.
  - contradict Hk. apply list_elem_of_fmap in Hk as (e' & Hk & He').
    by rewrite (stored_key e e' (cron_history s) He (Hst e' He') Hk).
Qed.
(** What the database takes for the history of a job. For a table whose
    entries are executions stored under their keys: [list_job_executions]
    answers the most recent executions first, up to the limit, of the job, of
    every job whose name continues the job's name and a colon (all scheduled
    jobs of an instance, whose names are [instance:job], for a job named like
    the instance), and of a job whose name and start time read as this job's
    name; [cleanup_job_executions] removes all of those but the [keep] most
    recent, nothing else, and reports how many. *)
Lemma history_of_job (job : string) (keep : nat) (s : Store) :
  history_ok (cron_history s) -> (forall e, stored e (cron_history s) -> no_colon (id e)) ->
  exists l,
    (forall n, list_job_executions (Ok tt) job n s = Ok (take n l)) /\
    StronglySorted (fun a b => started_at b <= started_at a) l /\ NoDup l /\
    (forall e, e ∈ l <-> stored e (cron_history s) /\
      (job_name e = job \/ (exists x, job_name e = job +:+ ":" +:+ x) \/
       job = job_name e +:+ ":" +:+ Str.of_Z (timestamp (started_at e)))) /\
    exists s', cleanup_job_executions (Ok tt) txn_ok job keep s = (Ok (length l - keep)%nat, s') /\
      forall e, stored e (cron_history s') <-> stored e (cron_history s) /\ e ∉ drop keep l.
Proof.
  intros Hok Hid. destruct (job_executions_spec job s Hok) as (l & Hl & Hs & Hnd & Hin).
  exists l. split_and!; [|done|by eapply NoDup_fmap_1| |by apply cleanup_spec].
  - intros n. unfold list_job_executions. by rewrite Hl.
  - intros e. rewrite Hin. split; intros [He Hp]; (split; [done|]);
      by apply (history_prefix job e (Hid e He)).
Qed.

(** The cleanup after a triggered job deletes the history of other jobs:
    an execution of a job whose name continues [job:] is gone as soon as there
    are [keep] later executions of [job] itself, although it may be the only
    one of its job. *)
Lemma cleanup_crosses_jobs (job x : string) (e : JobExecution) (recent : list JobExecution) (s : Store) :
  history_ok (cron_history s) -> (forall e, stored e (cron_history s) -> no_colon (id e)) ->
  stored e (cron_history s) -> job_name e = job +:+ ":" +:+ x ->
  NoDup recent ->
  (forall r, r ∈ recent -> stored r (cron_history s) /\ job_name r = job /\ started_at e < started_at r) ->
  ~ stored e (cron_history (cleanup_job_executions (Ok tt) txn_ok job (length recent) s).2).
Proof.
  intros Hok Hid He Hx Hnd Hrec. destruct (job_executions_spec job s Hok) as (l & Hl & Hs & _ & Hin).
  destruct (cleanup_spec job (length recent) s l Hok Hl) as (s' & -> & Hst). simpl.
  rewrite Hst. intros [_ Hdrop].
  assert (forall r, stored r (cron_history s) -> job_name r = job \/ job_name r = job +:+ ":" +:+ x ->
    r ∈ l) as Hmem.
  { intros r Hr Hj. apply Hin. split; [done|]. apply history_prefix; [by apply Hid|]. naive_solver. }
  assert (e ∈ take (length recent) l) as Htake.
  { assert (e ∈ l) as Hel by (apply Hmem; auto).
    rewrite <- (take_drop (length recent) l) in Hel. apply elem_of_app in Hel. tauto. }
  assert (e :: recent ⊆+ take (length recent) l) as Hsub%submseteq_length.
  { apply NoDup_submseteq.
    { constructor; [|done]. intros (_ & _ & ?)%Hrec. lia. }
    intros r [->|Hr]%elem_of_cons; [done|]. destruct (Hrec r Hr) as (Hsr & Hj & Hlt).
    assert (r ∈ l) as Hrl by (apply Hmem; auto).
    rewrite <- (take_drop (length recent) l) in Hrl. apply elem_of_app in Hrl as [|Hrl]; [done|].
    pose proof (take_sorted _ (length recent) l e r Hs Htake Hrl). simpl in *. lia. }
  rewrite length_take in Hsub. simpl in Hsub. lia.
Qed.
End History.

(** ** Listing a table *)

Lemma table_list_spec {Bytes A} `{Serde Bytes A} (key_of : A -> string) (t : gmap string Bytes) (l : list A) :
  table_list (Ok tt) t = Ok l ->
  (forall k b a, t !! k = Some b -> from_slice b = Ok a -> key_of a = k) ->
  NoDup (key_of <$> l) /\ forall a, a ∈ l <-> exists b, t !! key_of a = Some b /\ from_slice b = Ok a.
Proof.
  intros [= <-] Hk. set (f := fun e : string * Bytes => match from_slice e.2 with Ok a => Some a | Err _ => None end).
  assert (forall e a, f e = Some a <-> from_slice e.2 = Ok a) as Hf.
  { intros e a. unfold f. destruct (from_slice e.2); naive_solver. }
  assert (forall e a, e ∈ entries t -> f e = Some a -> key_of a = e.1) as He.
  { intros [k b] a Hin%elem_of_entries Ha%Hf. by apply (Hk k b). }
  split.
  - pose proof (NoDup_fst_entries t) as Hnd. clear Hk. revert He Hnd. generalize (entries t).
    intros es. induction es as [|e es IH]; intros He; [done|]. intros [Hn Hnd]%NoDup_cons. csimpl.
    assert (NoDup (key_of <$> omap f es)) by (apply IH; [intros e' a ?; apply He; by right|done]).
    destruct (f e) as [a|] eqn:E; [|done]. csimpl. constructor; [|done].
    rewrite (He e a) by (done || left). contradict Hn.
    apply list_elem_of_fmap in Hn as (a' & Ha' & (e' & He' & Hfe)%list_elem_of_omap).
    rewrite Ha', (He e' a') by (done || by right). by apply list_elem_of_fmap_2.
  - intros a. rewrite list_elem_of_omap. split.
    + intros ([k b] & Hin & Ha). assert (key_of a = k) as <- by exact (He (k, b) a Hin Ha).
      exists b. by rewrite <- elem_of_entries, <- (Hf (key_of a, b)).
    + intros (b & Hb & Ha). exists (key_of a, b). by rewrite elem_of_entries, Hf.
Qed.
