(* ===== verification/Daemon.v ===== *)
(** Daemon: scheduled jobs as the daemon's HTTP API manages them, of
    [src/src/daemon/http/handlers/cron.rs] and the start-up of
    [src/src/daemon/http/mod.rs].

    A handler is a function on the scheduler and the state database
    ([Daemon]). What the database does to each operation is the argument [Db];
    the clock is read once. [cron_trigger] and the firing of a scheduler entry
    have two halves, between which other requests are served. *)

From stdpp Require Import base gmap list strings.
From S2P Require Import Prelude AppError SortBy Cron StateStore.

#[local] Open Scope Z_scope.

(** ** Requests and responses ([http/types.rs]) *)

Record CronJobResponse := {
  cr_name : string;
  cr_cron : string;
  cr_module : string;
  cr_method : string;
  cr_path : string;
  cr_enabled : bool;
  cr_status : string;
  cr_last_run : option string;
  cr_next_run : option string;
}.

(** ** The environment *)

(** Outcomes of the database operations, by operation and key. *)
Record Db := {
  rd : string -> result unit string;
  wr : string -> string -> Txn;
}.
Definition db_ok : Db := {| rd _ := Ok tt; wr _ _ := txn_ok |}.

Section Daemon.
Context {Json Sch Bytes : Type} `{JobScheduler Sch}.
Context `{Serde Bytes Instance} `{Serde Bytes (ScheduleConfig Json)} `{Serde Bytes JobExecution}.
Notation Config := (ScheduleConfig Json).
Notation Jobs := (gmap string (JobState Json)).

(** [DateTime::format]. *)
Variable fmt : Instant -> string.
(** The iteration order of the hash map of jobs. *)
Variable iter : Jobs -> list (string * JobState Json).

Record Daemon := {
  sched : CronScheduler Json Sch;
  store : StateStore Bytes;
}.

Definition set_sched (c : CronScheduler Json Sch) (s : Daemon) : Daemon := {| sched := c; store := store s |}.
Definition set_store (st : StateStore Bytes) (s : Daemon) : Daemon := {| sched := sched s; store := st |}.

(** ** Cron handlers ([handlers/cron.rs]) *)

Definition job_status (last : option JobExecution) : string :=
  match last with
  | Some e => if success e then "idle" else "failed"
  | None => "idle"
  end.

Definition cron_list (s : Daemon) : list CronJobResponse :=
  (fun job : JobInfo => {|
     cr_name := ji_name job; cr_cron := ji_cron job; cr_module := ji_module job;
     cr_method := ji_method job; cr_path := ji_path job; cr_enabled := ji_enabled job;
     cr_status := job_status (last_execution job);
     cr_last_run := (fun e => fmt (started_at e)) <$> last_execution job;
     cr_next_run := fmt <$> next_run job |}) <$> list_jobs iter (sched s).

(** The method and path of the answer are constants. *)
Definition cron_get (n : string) (s : Daemon) : result CronJobResponse AppError :=
  match get_job n (sched s) with
  | None => Err (NotFound ("Cron job '" +:+ n +:+ "' not found"))
  | Some job => Ok {|
      cr_name := ji_name job; cr_cron := ji_cron job; cr_module := ji_module job;
      cr_method := "GET"; cr_path := "/"; cr_enabled := ji_enabled job;
      cr_status := job_status (last_execution job);
      cr_last_run := (fun e => fmt (started_at e)) <$> last_execution job;
      cr_next_run := fmt <$> next_run job |}
  end.

Definition cron_create (db : Db) (c : Config) (s : Daemon) : result string AppError * Daemon :=
  let '(added, sch) := add_job c (sched s) in
  let s := set_sched sch s in
  match added with
  | Err e => (Err (BadRequest ("Failed to create cron job: " +:+ e)), s)
  | Ok _ =>
      let '(saved, st) := save_cron_job (wr db "save_cron_job" (name c)) c (store s) in
      (match saved with
       | Ok _ => Ok (name c)
       | Err e => Err (Internal ("Failed to persist cron job: " +:+ e))
       end, set_store st s)
  end.

Definition cron_delete (db : Db) (n : string) (s : Daemon) : result string AppError * Daemon :=
  let '(removed, sch) := remove_job n (sched s) in
  let s := set_sched sch s in
  match removed with
  | Err e => (Err (Internal ("Failed to delete cron job: " +:+ e)), s)
  | Ok false => (Err (NotFound ("Cron job '" +:+ n +:+ "' not found")), s)
  | Ok true =>
      let '(r, st) := remove_cron_job (wr db "remove_cron_job" n) n (store s) in
      (match r with
       | Ok _ => Ok n
       | Err e => Err (Internal ("Failed to remove cron job from database: " +:+ e))
       end, set_store st s)
  end.

Definition cron_update (db : Db) (n : string) (enabled : option bool) (s : Daemon)
  : result (string * bool) AppError * Daemon :=
  match enabled with
  | None => (Err (BadRequest "No fields to update. Provide 'enabled' field."), s)
  | Some b =>
      let '(r, sch) := set_enabled n b (sched s) in
      let s := set_sched sch s in
      match r with
      | None => (Err (NotFound ("Cron job '" +:+ n +:+ "' not found")), s)
      | Some new_enabled =>
          match get_config n (sched s) with
          | None => (Ok (n, new_enabled), s)
          | Some c =>
              let '(saved, st) := save_cron_job (wr db "save_cron_job" (name c)) c (store s) in
              (match saved with
               | Ok _ => Ok (n, new_enabled)
               | Err e => Err (Internal ("Failed to persist cron job update: " +:+ e))
               end, set_store st s)
          end
      end
  end.

(** The first half of [cron_trigger]: the job exists, and its configuration is
    read. *)
Definition cron_trigger_start (id n : string) (now : Instant) (s : Daemon) : result (Pending Json) AppError :=
  match get_job n (sched s) with
  | None => Err (NotFound ("Cron job '" +:+ n +:+ "' not found"))
  | Some _ => Ok (execute_job_start id n now true (sched s))
  end.

(** The second half: the outcome is recorded, stored, and old executions are
    removed; failures of the database are only logged. *)
Definition cron_trigger_finish (db : Db) (r : Run Json) (p : Pending Json) (s : Daemon)
  : result string AppError * Daemon :=
  let '(e, sch) := execution_finish r p (sched s) in
  let s := set_sched sch s in
  match trigger_result (p_name p) e with
  | Err msg => (Err (Internal ("Failed to trigger job: " +:+ msg)), s)
  | Ok e =>
      let '(_, st) := save_job_execution (wr db "save_job_execution" (history_key e)) e (store s) in
      let '(_, st) := cleanup_job_executions (rd db "list_job_executions")
                        (wr db "cleanup_job_executions" (p_name p)) (p_name p) 100 st in
      (Ok (id e), set_store st s)
  end.

Definition cron_trigger (db : Db) (id n : string) (now : Instant) (r : Run Json) (s : Daemon)
  : result string AppError * Daemon :=
  match cron_trigger_start id n now s with
  | Err e => (Err e, s)
  | Ok p => cron_trigger_finish db r p s
  end.

Definition cron_history (db : Db) (n : string) (s : Daemon) : result (list JobExecution) AppError :=
  match get_job n (sched s) with
  | None => Err (NotFound ("Cron job '" +:+ n +:+ "' not found"))
  | Some _ =>
      match list_job_executions (rd db "list_job_executions") n 100 (store s) with
      | Ok l => Ok l
      | Err e => Err (Internal ("Failed to read job history: " +:+ e))
      end
  end.

(** What the scheduler runs when an entry fires: the halves of
    [execute_job_internal]. *)
Definition tick_start (id n : string) (now : Instant) (s : Daemon) : option (Pending Json) :=
  execute_job_internal_start id n now (sched s).
Definition tick_finish (r : Run Json) (p : Pending Json) (s : Daemon) : Daemon :=
  set_sched (execution_finish r p (sched s)).2 s.

(** Restoring the jobs at start-up ([serve]): failures are only logged. *)
Definition restore_jobs (cs : list Config) (sch : CronScheduler Json Sch) : CronScheduler Json Sch :=
  fold_left (fun sch c => (add_job c sch).2) cs sch.

Definition serve_start (db : Db) (fresh : Sch) (st : StateStore Bytes) : result Daemon string :=
  match list_cron_jobs (rd db "list_cron_jobs") st with
  | Err _ => Err "Failed to load persisted cron jobs"
  | Ok cs => Ok {| sched := restore_jobs cs {| scheduler := fresh; jobs := ∅ |}; store := st |}
  end.
End Daemon.

Arguments Daemon : clear implicits.
