(* ===== verification/Instances.v ===== *)
(** Instances: the processes the daemon starts, stops and restarts, of
    [src/src/daemon/http/handlers/instances.rs], [src/src/daemon/http/types.rs],
    [src/src/daemon/http/mod.rs] (health checks, shutdown, API keys) and
    [src/src/daemon/process/health.rs] ([tail_log]).

    What the operating system does is the argument [Os], the database [Db]. *)

From stdpp Require Import base gmap list strings.
From S2P Require Import Prelude StdPath AppError SortBy Cron StateStore Daemon.

#[local] Open Scope Z_scope.

(** ** Requests and responses ([http/types.rs]) *)

Definition validate_instance_name (name : string) : result unit string :=
  if Str.is_empty name then Err "Instance name cannot be empty"
  else if 64 <? Str.len name then Err "Instance name must be 64 characters or less"
  else if negb (Str.all (fun c => Str.is_alphanumeric c || Ascii.eqb c "-" || Ascii.eqb c "_")%bool name)
  then Err "Instance name can only contain alphanumeric characters, hyphens, and underscores"
  else if (Str.starts_with "-" name || Str.starts_with "_" name)%bool
  then Err "Instance name cannot start with a hyphen or underscore"
  else Ok tt.

(** [format_duration], on nanoseconds. *)
Definition format_duration (d : Z) : string :=
  let total_secs := Z.quot d 1000000000 in
  if total_secs <? 0 then "0s"
  else
    let days := total_secs / 86400 in
    let hours := (total_secs mod 86400) / 3600 in
    let mins := (total_secs mod 3600) / 60 in
    let secs := total_secs mod 60 in
    if 0 <? days then Str.of_Z days +:+ "d " +:+ Str.of_Z hours +:+ "h " +:+ Str.of_Z mins +:+ "m"
    else if 0 <? hours then Str.of_Z hours +:+ "h " +:+ Str.of_Z mins +:+ "m " +:+ Str.of_Z secs +:+ "s"
    else if 0 <? mins then Str.of_Z mins +:+ "m " +:+ Str.of_Z secs +:+ "s"
    else Str.of_Z secs +:+ "s".

Record StartInstanceRequest := {
  si_name : string;
  si_port : option Z;
  si_config : option string;
  si_working_dir : option string;
  si_auto_restart : bool;
}.

Record InstanceResponse := {
  ir_name : string;
  ir_port : Z;
  ir_pid : Z;
  ir_status : string;
  ir_started_at : option string;
  ir_uptime : option string;
}.

Record SpawnConfig := {
  sc_name : string;
  sc_port : Z;
  sc_config_path : string;
  sc_working_dir : list Component;
  sc_hot_reload : bool;
}.

Section Instances.
Context {Json Sch Bytes : Type} `{JobScheduler Sch}.
Context `{Serde Bytes Instance} `{Serde Bytes (ScheduleConfig Json)} `{Serde Bytes JobExecution}.
Notation Config := (ScheduleConfig Json).
Notation Jobs := (gmap string (JobState Json)).
Notation State := (Daemon Json Sch Bytes).

(** Processes and files; the parser of manifests is toml's. *)
Record Os := {
  is_running : Z -> result bool string;
  kill_instance : Z -> result unit string;
  spawn_instance : SpawnConfig -> result Z string;
  path_exists : string -> bool;
  read_to_string : string -> result string string;
  toml_from_str : string -> result (list Config) string;
  current_dir : result string string;
}.

(** [DateTime::format]. *)
Variable fmt : Instant -> string.
(** The iteration order of the hash map of jobs. *)
Variable iter : Jobs -> list (string * JobState Json).

Definition status_str (st : Status) : string :=
  match st with
  | Running => "running"
  | Stopped => "stopped"
  | Crashed exit_code => "crashed (exit: " +:+ Str.of_Z exit_code +:+ ")"
  end.

(** [Debug] of [Status]. *)
Definition status_debug (st : Status) : string :=
  match st with
  | Running => "Running"
  | Stopped => "Stopped"
  | Crashed exit_code => "Crashed { exit_code: " +:+ Str.of_Z exit_code +:+ " }"
  end.

(** [From<&Instance>] *)
Definition instance_response (now : Instant) (i : Instance) : InstanceResponse := {|
  ir_name := i_name i; ir_port := i_port i; ir_pid := i_pid i; ir_status := status_str (i_status i);
  ir_started_at := Some (fmt (i_started_at i));
  ir_uptime := if decide (i_status i = Running) then Some (format_duration (now - i_started_at i))
               else None |}.

(** The response for an instance whose process turned out to be gone. *)
Definition crashed_response (r : InstanceResponse) : InstanceResponse := {|
  ir_name := ir_name r; ir_port := ir_port r; ir_pid := ir_pid r; ir_status := "crashed";
  ir_started_at := ir_started_at r; ir_uptime := None |}.

(** ** Schedules of an instance *)

(** [parse_schedules_from_manifest] ([cron/manifest.rs]) *)
Definition parse_schedules_from_manifest (os : Os) (path : string) : result (list Config) string :=
  if negb (path_exists os path) then Ok []
  else match read_to_string os path with
       | Err _ => Err ("Failed to read " +:+ path)
       | Ok content =>
           match toml_from_str os content with
           | Err _ => Err ("Failed to parse " +:+ path)
           | Ok schedules => Ok schedules
           end
       end.

Definition scoped_name (instance job : string) : string := instance +:+ ":" +:+ job.

Definition scoped (instance : string) (port : Z) (c : Config) : Config := {|
  name := scoped_name instance (name c); module := module c; cron := cron c; method := method c;
  path := path c; enabled := enabled c;
  port := if Cron.port c =? 3000 then port else Cron.port c;
  body := body c; headers := headers c; health_path := health_path c |}.

(** One schedule is added, and stored if that succeeded. *)
Definition register (db : Db) (c : Config) (s : State) : State :=
  let '(added, sch) := add_job c (sched s) in
  let s := set_sched sch s in
  match added with
  | Ok _ => set_store (save_cron_job (wr db "save_cron_job" (name c)) c (store s)).2 s
  | Err _ => s
  end.

(** The loops of [start_instance] and [restart_instance]. *)
Definition register_schedules (db : Db) (os : Os) (instance : string) (port : Z) (config : string)
    (s : State) : State :=
  match parse_schedules_from_manifest os config with
  | Ok schedules => fold_left (fun s c => register db (scoped instance port c) s) schedules s
  | Err _ => s
  end.

Definition unregister (db : Db) (n : string) (s : State) : State :=
  let '(removed, sch) := remove_job n (sched s) in
  let s := set_sched sch s in
  match removed with
  | Ok _ => set_store (remove_cron_job (wr db "remove_cron_job" n) n (store s)).2 s
  | Err _ => s
  end.

(** The loop of [stop_instance] and [restart_instance]. *)
Definition remove_scoped_jobs (db : Db) (instance : string) (s : State) : State :=
  fold_left (fun s (job : JobInfo) =>
      if Str.starts_with (instance +:+ ":") (ji_name job) then unregister db (ji_name job) s else s)
    (list_jobs iter (sched s)) s.

(** ** Handlers ([handlers/instances.rs]) *)

Definition is_actually_running (os : Os) (i : Instance) : result bool string :=
  if decide (i_status i = Running) then is_running os (i_pid i) else Ok false.

Fixpoint list_responses (os : Os) (now : Instant) (insts : list Instance)
  : result (list InstanceResponse) string :=
  match insts with
  | [] => Ok []
  | i :: insts' =>
      let? running := is_actually_running os i in
      let response := instance_response now i in
      let? rs := list_responses os now insts' in
      Ok ((if decide (i_status i = Running) then if running then response else crashed_response response
           else response) :: rs)
  end.

Definition http_list_instances (db : Db) (os : Os) (now : Instant) (s : State)
  : result (list InstanceResponse) AppError :=
  or_internal (let? insts := list_instances (rd db "list_instances") (store s) in
               list_responses os now insts).

Definition http_get_instance (db : Db) (os : Os) (now : Instant) (n : string) (s : State)
  : result InstanceResponse AppError :=
  let? found := or_internal (get_instance (rd db "get_instance") n (store s)) in
  let? i := ok_or found (NotFound ("Instance '" +:+ n +:+ "' not found")) in
  let response := instance_response now i in
  if decide (i_status i = Running)
  then let? running := or_internal (is_running os (i_pid i)) in
       Ok (if running then response else crashed_response response)
  else Ok response.

(** [Path::join] of a relative name. *)
Definition push_name (dir n : string) : string :=
  if (Str.is_empty dir || Str.ends_with "/" dir)%bool then dir +:+ n else dir +:+ "/" +:+ n.

(** What [start_instance] decides before it changes anything. *)
Definition start_checks (db : Db) (os : Os) (req : StartInstanceRequest) (s : State)
  : result SpawnConfig AppError :=
  let? _ := match validate_instance_name (si_name req) with Ok _ => Ok tt | Err e => Err (BadRequest e) end in
  let? existing := or_internal (get_instance (rd db "get_instance") (si_name req) (store s)) in
  let? conflict := match existing with
                   | Some i => or_internal (is_actually_running os i)
                   | None => Ok false
                   end in
  let? _ := match existing with
            | Some i =>
                if (conflict : bool)
                then Err (Conflict ("Instance '" +:+ si_name req +:+ "' is already running on port " +:+
                                    Str.of_Z (i_port i)))
                else Ok tt
            | None => Ok tt
            end in
  let? config_path := match si_config req with
                      | Some path => Ok path
                      | None => let? dir := or_internal (current_dir os) in Ok (push_name dir "mik.toml")
                      end in
  let? _ := if path_exists os config_path then Ok tt
            else Err (BadRequest ("Config file not found: " +:+ config_path)) in
  let? working_dir := match si_working_dir req with
                      | Some path => Ok path
                      | None => or_internal (current_dir os)
                      end in
  Ok {| sc_name := si_name req; sc_port := default 3000 (si_port req);
        sc_config_path := config_path; sc_working_dir := components working_dir;
        sc_hot_reload := false |}.

Definition start_instance (db : Db) (os : Os) (now : Instant) (req : StartInstanceRequest) (s : State)
  : result InstanceResponse AppError * State :=
  match start_checks db os req s with
  | Err e => (Err e, s)
  | Ok sc =>
      match spawn_instance os sc with
      | Err e => (Err (from_error e), s)
      | Ok pid =>
          let i := {| i_name := si_name req; i_port := sc_port sc; i_pid := pid; i_status := Running;
                      i_config := sc_config_path sc; i_started_at := now; i_modules := [];
                      i_auto_restart := si_auto_restart req; i_restart_count := 0;
                      i_last_restart_at := None |} in
          match save_instance (wr db "save_instance" (i_name i)) i (store s) with
          | (Err e, st) => (Err (from_error e), set_store st s)
          | (Ok _, st) =>
              (Ok (instance_response now i),
               register_schedules db os (i_name i) (i_port i) (i_config i) (set_store st s))
          end
      end
  end.

(** Killing the process of an instance that is running. *)
Definition kill_if_running (os : Os) (i : Instance) : result unit string :=
  let? running := is_actually_running os i in
  if (running : bool) then kill_instance os (i_pid i) else Ok tt.

Definition stop_instance (db : Db) (os : Os) (now : Instant) (n : string) (s : State)
  : result InstanceResponse AppError * State :=
  match (let? found := or_internal (get_instance (rd db "get_instance") n (store s)) in
         let? i := ok_or found (NotFound ("Instance '" +:+ n +:+ "' not found")) in
         let? _ := if decide (i_status i = Running) then Ok tt
                   else Err (BadRequest ("Instance '" +:+ n +:+ "' is not running (status: " +:+
                                         status_debug (i_status i) +:+ ")")) in
         let? _ := or_internal (kill_if_running os i) in Ok i) with
  | Err e => (Err e, s)
  | Ok i =>
      let s := remove_scoped_jobs db n s in
      let updated := set_status Stopped i in
      let '(saved, st) := save_instance (wr db "save_instance" (i_name i)) updated (store s) in
      (match saved with Ok _ => Ok (instance_response now updated) | Err e => Err (from_error e) end,
       set_store st s)
  end.

(** How a stored instance is started again: in the directory of its
    configuration file. *)
Definition respawn_config (i : Instance) : SpawnConfig := {|
  sc_name := i_name i; sc_port := i_port i; sc_config_path := i_config i;
  sc_working_dir := default [CurDir] (parent (components (i_config i))); sc_hot_reload := false |}.

Definition restarted (now : Instant) (pid : Z) (i : Instance) : Instance := {|
  i_name := i_name i; i_port := i_port i; i_pid := pid; i_status := Running; i_config := i_config i;
  i_started_at := now; i_modules := i_modules i; i_auto_restart := i_auto_restart i;
  i_restart_count := i_restart_count i; i_last_restart_at := i_last_restart_at i |}.

Definition restart_instance (db : Db) (os : Os) (now : Instant) (n : string) (s : State)
  : result InstanceResponse AppError * State :=
  match (let? found := or_internal (get_instance (rd db "get_instance") n (store s)) in
         let? i := ok_or found (NotFound ("Instance '" +:+ n +:+ "' not found")) in
         let? _ := or_internal (kill_if_running os i) in Ok i) with
  | Err e => (Err e, s)
  | Ok i =>
      let s := remove_scoped_jobs db n s in
      match spawn_instance os (respawn_config i) with
      | Err e => (Err (from_error e), s)
      | Ok pid =>
          let updated := restarted now pid i in
          match save_instance (wr db "save_instance" (i_name i)) updated (store s) with
          | (Err e, st) => (Err (from_error e), set_store st s)
          | (Ok _, st) =>
              (Ok (instance_response now updated),
               register_schedules db os n (i_port i) (i_config i) (set_store st s))
          end
      end
  end.

(** ** Health checks ([http/mod.rs]) *)

Definition BASE_BACKOFF_SECS : Z := 5.
Definition MAX_BACKOFF_SECS : Z := 300.

Definition backoff_secs (restart_count : Z) : Z :=
  Z.min (wrap_u64 (BASE_BACKOFF_SECS * wrap_u64 (2 ^ restart_count))) MAX_BACKOFF_SECS.

Definition should_restart_now (now : Instant) (i : Instance) (backoff : Z) : bool :=
  match i_last_restart_at i with
  | Some last_restart => backoff <=? Z.quot (now - last_restart) 1000000000
  | None => true
  end.

Definition auto_restarted (now : Instant) (pid : Z) (i : Instance) : Instance := {|
  i_name := i_name i; i_port := i_port i; i_pid := pid; i_status := Running; i_config := i_config i;
  i_started_at := now; i_modules := i_modules i; i_auto_restart := true;
  i_restart_count := wrap_u32 (i_restart_count i + 1); i_last_restart_at := Some now |}.

Definition spawn_and_save_restarted_instance (db : Db) (os : Os) (now : Instant) (i : Instance)
    (st : StateStore Bytes) : StateStore Bytes :=
  match spawn_instance os (respawn_config i) with
  | Ok pid => (save_instance (wr db "save_restarted" (i_name i)) (auto_restarted now pid i) st).2
  | Err _ => st
  end.

Definition attempt_auto_restart (db : Db) (os : Os) (now : Instant) (i : Instance)
    (max_auto_restarts : Z) (st : StateStore Bytes) : StateStore Bytes :=
  if max_auto_restarts <=? i_restart_count i then st
  else if negb (should_restart_now now i (backoff_secs (i_restart_count i))) then st
  else spawn_and_save_restarted_instance db os now i st.

Definition handle_crashed_instance (db : Db) (os : Os) (now : Instant) (i : Instance)
    (max_auto_restarts : Z) (st : StateStore Bytes) : StateStore Bytes :=
  match save_instance (wr db "save_crashed" (i_name i)) (set_status (Crashed (-1)) i) st with
  | (Err _, st) => st
  | (Ok _, st) =>
      if negb (i_auto_restart i) then st
      else attempt_auto_restart db os now i max_auto_restarts st
  end.

Definition check_and_recover_single_instance (db : Db) (os : Os) (now : Instant) (i : Instance)
    (max_auto_restarts : Z) (st : StateStore Bytes) : StateStore Bytes :=
  if decide (i_status i = Running) then
    match is_running os (i_pid i) with
    | Ok false => handle_crashed_instance db os now i max_auto_restarts st
    | _ => st
    end
  else st.

Definition check_and_recover_instances (db : Db) (os : Os) (now : Instant) (max_auto_restarts : Z)
    (st : StateStore Bytes) : StateStore Bytes :=
  match list_instances (rd db "list_instances") st with
  | Err _ => st
  | Ok insts => fold_left (fun st i => check_and_recover_single_instance db os now i max_auto_restarts st) insts st
  end.

(** ** Shutdown *)

Definition shutdown_instance (db : Db) (os : Os) (i : Instance) (st : StateStore Bytes) : StateStore Bytes :=
  if decide (i_status i = Running) then
    match is_running os (i_pid i) with
    | Ok _ => (save_instance (wr db "save_instance" (i_name i)) (set_status Stopped i) st).2
    | Err _ => st
    end
  else st.

Definition graceful_shutdown (db : Db) (os : Os) (st : StateStore Bytes) : StateStore Bytes :=
  match list_instances (rd db "list_instances") st with
  | Err _ => st
  | Ok insts => fold_left (fun st i => shutdown_instance db os i st) insts st
  end.
End Instances.

(** ** API keys ([http/mod.rs]) *)

Inductive Auth := Pass | Unauthorized (message : string).

(** [ct_eq] on byte strings of equal lengths is equality. *)
Definition api_key_auth_middleware (api_key : option string) (path : string) (header : option string) : Auth :=
  match api_key with
  | None => Pass
  | Some expected_key =>
      if (String.eqb path "/health" || String.eqb path "/metrics")%bool then Pass
      else match header with
           | Some key => if ((Str.len key =? Str.len expected_key) && String.eqb key expected_key)%bool
                         then Pass else Unauthorized "Invalid API key"
           | None => Unauthorized "Missing X-API-Key header"
           end
  end.

(** [API_KEY]: an empty variable counts as unset. *)
Definition configured_key (env : option string) : option string :=
  match env with Some k => if Str.is_empty k then None else Some k | None => None end.

(** ** Logs *)

(** [tail_log], on the lines of the file. *)
Definition tail_log (all_lines : list string) (lines : nat) : list string :=
  drop (length all_lines - lines) all_lines.

(** [get_log_path] ([daemon/paths.rs]) *)
Definition get_log_path (logs_dir : list Component) (name : string) : list Component :=
  join logs_dir (components (name +:+ ".log")).

(** [get_logs]: [read] gives the lines of an existing file. *)
Definition get_logs (logs_dir : list Component) (exists_ : list Component -> bool)
    (read : list Component -> result (list string) string) (name : string) (lines : option nat)
  : result (list string) AppError :=
  let log_path := get_log_path logs_dir name in
  if negb (exists_ log_path) then Ok []
  else let? all_lines := or_internal (read log_path) in Ok (tail_log all_lines (default 50%nat lines)).
