(* ===== verification/Logs.v ===== *)
(** Logs: the log files of instances and their rotation, of
    [src/src/daemon/process/] (log_rotation.rs, types.rs, and the part of
    lifecycle.rs that prepares a log and starts a process).

    A log directory is a map from file names to contents and modification
    times. The file operations that may fail, the order in which a directory
    is read, and the timestamp format of chrono are parameters. *)

From stdpp Require Import base gmap list strings sorting.
From S2P Require Import Prelude StdPath SortBy Instances.

#[local] Open Scope Z_scope.

(** ** Types ([process/types.rs]) *)

Definition DEFAULT_MAX_LOG_SIZE : Z := 10 * 1024 * 1024.
Definition DEFAULT_MAX_LOG_FILES : nat := 5.

Record LogRotationConfig := {
  max_size : Z;
  max_files : nat;
}.

Definition default_rotation : LogRotationConfig :=
  {| max_size := DEFAULT_MAX_LOG_SIZE; max_files := DEFAULT_MAX_LOG_FILES |}.
(** The product wraps around in a release build. *)
Definition with_size_mb (mb : Z) : LogRotationConfig :=
  {| max_size := wrap_u64 (mb * 1024 * 1024); max_files := DEFAULT_MAX_LOG_FILES |}.

Record LogFile := {
  content : string;
  modified : Instant;
}.

#[export] Instance LogFile_eq_dec : EqDecision LogFile.
Proof. solve_decision. Defined.

Notation LogDir := (gmap string LogFile).

(** The command line of a new instance. *)
Record ServerCommand := {
  args : list string;
  cwd : list Component;
  env_hot_reload : bool;
}.

Record InstanceInfo := {
  pid : Z;
  log_path : string;
}.

(** ** Rotation *)

Definition rotated_name (log_name timestamp : string) : string := log_name +:+ "." +:+ timestamp.

(** Which files count as rotated logs of [log_name]. *)
Definition is_rotated (log_name file : string) : bool :=
  (Str.starts_with (log_name +:+ ".") file && negb (String.eqb file log_name))%bool.

Definition newest_first (a b : string * LogFile) : bool := modified b.2 <=? modified a.2.

Section Rotation.
(** The path of the log directory, displayed. *)
Variable log_dir : string.
(** [format("%Y%m%d-%H%M%S")] *)
Variable timestamp : Instant -> string.
(** The entries of the directory, in the order it is read. *)
Variable read_dir : LogDir -> result (list (string * LogFile)) string.
Variable metadata : string -> result unit string.
Variable rename : string -> string -> result unit string.
Variable remove_file : string -> result unit string.

Definition shown (file : string) : string := log_dir +:+ "/" +:+ file.

Definition remove_one (dir : LogDir) (e : string * LogFile) : LogDir :=
  match remove_file e.1 with Ok _ => delete e.1 dir | Err _ => dir end.

(** The rotated logs of [log_name] whose metadata can be read. *)
Definition rotated_files (log_name : string) (dir : LogDir) : list (string * LogFile) :=
  match read_dir dir with
  | Err _ => []
  | Ok entries => filter (fun e => is_rotated log_name e.1 = true /\ is_ok (metadata e.1) = true) entries
  end.

Definition cleanup_old_logs (log_name : string) (max_files : nat) (dir : LogDir) : LogDir :=
  fold_left remove_one (drop max_files (sort_by newest_first (rotated_files log_name dir))) dir.

Definition rotate_log_if_needed (now : Instant) (log_name : string) (config : LogRotationConfig) (dir : LogDir)
  : result bool (list string) * LogDir :=
  match dir !! log_name with
  | None => (Ok false, dir)
  | Some f =>
      match metadata log_name with
      | Err e => (Err ["Failed to get log file metadata"; e], dir)
      | Ok _ =>
          if Str.len (content f) <? max_size config then (Ok false, dir)
          else
            let rotated := rotated_name log_name (timestamp now) in
            match rename log_name rotated with
            | Err e => (Err ["Failed to rotate log file to " +:+ shown rotated; e], dir)
            | Ok _ =>
                (Ok true, cleanup_old_logs log_name (max_files config) (<[rotated := f]> (delete log_name dir)))
            end
      end
  end.

(** The loop of [rotate_all_logs]; the first error ends it. *)
Fixpoint rotate_each (now : Instant) (config : LogRotationConfig) (names : list string) (rotated_count : nat)
    (dir : LogDir) : result nat (list string) * LogDir :=
  match names with
  | [] => (Ok rotated_count, dir)
  | n :: names =>
      if bool_decide (extension [Normal n] = Some "log") then
        match rotate_log_if_needed now n config dir with
        | (Err e, dir) => (Err e, dir)
        | (Ok true, dir) => rotate_each now config names (S rotated_count) dir
        | (Ok false, dir) => rotate_each now config names rotated_count dir
        end
      else rotate_each now config names rotated_count dir
  end.

Definition rotate_all_logs (now : Instant) (config : LogRotationConfig) (dir : LogDir)
  : result nat (list string) * LogDir :=
  match read_dir dir with
  | Err _ => (Ok 0%nat, dir)
  | Ok entries => rotate_each now config entries.*1 0 dir
  end.

(** *** Starting an instance ([lifecycle.rs]) *)

(** [create_dir_all] of the log directory, [current_exe], and the process *)
Variable create_log_dir : result unit string.
Variable open_log : string -> result unit string.
Variable current_exe : result unit string.
Variable spawn : ServerCommand -> result Z string.

Definition log_name (instance : string) : string := instance +:+ ".log".

Definition server_command (config : SpawnConfig) : ServerCommand := {|
  args := ["run"; "--port"; Str.of_Z (sc_port config); "--config"; sc_config_path config];
  cwd := sc_working_dir config;
  env_hot_reload := sc_hot_reload config |}.

Definition spawn_instance_with_rotation (now : Instant) (config : SpawnConfig) (rotation : LogRotationConfig)
    (dir : LogDir) : result InstanceInfo (list string) * LogDir :=
  match create_log_dir with
  | Err e => (Err ["Failed to create log directory: " +:+ log_dir; e], dir)
  | Ok _ =>
      let path := log_name (sc_name config) in
      match rotate_log_if_needed now path rotation dir with
      | (Err e, dir) => (Err e, dir)
      | (Ok _, dir) =>
          match open_log path with
          | Err e => (Err ["Failed to open log file: " +:+ shown path; e], dir)
          | Ok _ =>
              let dir := match dir !! path with
                         | Some _ => dir
                         | None => <[path := {| content := ""; modified := now |}]> dir
                         end in
              match current_exe with
              | Err e => (Err ["Failed to get current executable path"; e], dir)
              | Ok _ =>
                  match spawn (server_command config) with
                  | Err e => (Err ["Failed to spawn mik server process"; e], dir)
                  | Ok p => (Ok {| pid := p; log_path := shown path |}, dir)
                  end
              end
          end
      end
  end.

Definition spawn_instance (now : Instant) (config : SpawnConfig) (dir : LogDir) :
  result InstanceInfo (list string) * LogDir :=
  spawn_instance_with_rotation now config default_rotation dir.

(** ** What a rotation does *)

Lemma remove_one_lookup dir e k :
  remove_one dir e !! k = if bool_decide (e.1 = k /\ is_ok (remove_file e.1) = true) then None else dir !! k.
Proof.
  unfold remove_one. case_bool_decide as Hd.
  - destruct Hd as [<- Hok]. destruct (remove_file e.1); [|done]. apply lookup_delete_eq.
  - destruct (remove_file e.1) eqn:Er; [|done]. apply lookup_delete_ne. intros <-. apply Hd. split; [done|]. by rewrite ?Er.
Qed.

(** What removing a list of files leaves. *)
Lemma remove_all_lookup l : forall dir k,
  fold_left remove_one l dir !! k =
    if bool_decide (k ∈ l.*1 /\ is_ok (remove_file k) = true) then None else dir !! k.
Proof.
  induction l as [|e l IH]; intros dir k; cbn [fold_left fmap list_fmap].
  - rewrite bool_decide_eq_false_2; [done|]. intros [Hin _]. by apply not_elem_of_nil in Hin.
  - rewrite IH, remove_one_lookup. repeat case_bool_decide; try done; exfalso.
    + apply H0. destruct H. split; [by right|done].
    + destruct H0 as [<- ?]. apply H1. split; [by left|done].
    + destruct H1 as [Hin Hok]. apply elem_of_cons in Hin as [->|Hin]; [by apply H0|by apply H].
Qed.

Hypothesis read_dir_entries : forall dir entries, read_dir dir = Ok entries -> entries ≡ₚ map_to_list dir.

Lemma elem_of_rotated_files log dir k f :
  (k, f) ∈ rotated_files log dir -> is_rotated log k = true /\ dir !! k = Some f.
Proof.
  unfold rotated_files. destruct (read_dir dir) as [entries|] eqn:E; [|by intros ?%not_elem_of_nil].
  intros [[Hr _] Hin]%list_elem_of_filter. split; [done|].
  rewrite (read_dir_entries _ _ E) in Hin. by apply elem_of_map_to_list.
Qed.

Lemma NoDup_rotated_files log dir : NoDup (rotated_files log dir).*1.
Proof.
  unfold rotated_files. destruct (read_dir dir) as [entries|] eqn:E; [|constructor].
  eapply sublist_NoDup; [|apply fmap_sublist, sublist_filter].
  rewrite (read_dir_entries _ _ E). apply NoDup_fst_map_to_list.
Qed.

Lemma newest_first_total a b : newest_first a b = true \/ newest_first b a = true.
Proof. unfold newest_first. lia. Qed.
Lemma newest_first_trans a b c : newest_first a b = true -> newest_first b c = true -> newest_first a c = true.
Proof. unfold newest_first. lia. Qed.

Definition by_age (log : string) (dir : LogDir) : list (string * LogFile) :=
  sort_by newest_first (rotated_files log dir).

Lemma by_age_sorted log dir : StronglySorted (fun a b => newest_first a b = true) (by_age log dir).
Proof. apply sort_by_Sorted; [apply newest_first_total|apply newest_first_trans]. Qed.

Lemma NoDup_by_age log dir : NoDup (by_age log dir).*1.
Proof. unfold by_age. rewrite sort_by_Permutation. apply NoDup_rotated_files. Qed.

Lemma cleanup_lookup log n dir k :
  cleanup_old_logs log n dir !! k =
    if bool_decide (k ∈ (drop n (by_age log dir)).*1 /\ is_ok (remove_file k) = true) then None else dir !! k.
Proof. apply remove_all_lookup. Qed.

Lemma sorted_unique l : forall l', l ≡ₚ l' ->
  StronglySorted (fun a b => newest_first a b = true) l ->
  StronglySorted (fun a b => modified b.2 < modified a.2) l' -> l = l'.
Proof.
  induction l as [|x l IH]; intros l' Hp Hs Hs'.
  { symmetry in Hp. by apply Permutation_nil_r in Hp. }
  destruct l' as [|y l']; [by apply Permutation_nil_r in Hp|].
  apply StronglySorted_inv in Hs as [Hs Hx]. apply StronglySorted_inv in Hs' as [Hs' Hy].
  rewrite Forall_forall in Hx, Hy. destruct (decide (x = y)) as [<-|Hne].
  - f_equal. apply IH; [|done..]. by apply Permutation_cons_inv in Hp.
  - exfalso. assert (y ∈ x :: l) as [Hy'|Hy']%elem_of_cons by (rewrite Hp; left); [done|].
    assert (x ∈ y :: l') as [Hx'|Hx']%elem_of_cons by (rewrite <- Hp; left); [done|].
    specialize (Hx _ Hy'). specialize (Hy _ Hx'). unfold newest_first in Hx. lia.
Qed.

Lemma StronglySorted_rev {A} (R : A -> A -> Prop) l :
  StronglySorted R l -> StronglySorted (fun a b => R b a) (rev l).
Proof.
  induction 1 as [|x l Hs IH Hx]; [constructor|]. simpl. apply StronglySorted_app. split; [|split; [done|repeat constructor]].
  intros a b Ha Hb%list_elem_of_singleton. subst. rewrite list_elem_of_In, <- in_rev, <- list_elem_of_In in Ha.
  by eapply Forall_forall in Hx.
Qed.

(** The rotated logs of a name, oldest first *)
Definition chunks_of (log : string) (dir : LogDir) (chunks : list (string * LogFile)) : Prop :=
  (forall k f, (k, f) ∈ chunks <-> is_rotated log k = true /\ dir !! k = Some f) /\
  StronglySorted (fun a b => modified a.2 < modified b.2) chunks.

Hypothesis read_dir_ok : forall dir, is_ok (read_dir dir) = true.
Hypothesis metadata_ok : forall f, is_ok (metadata f) = true.
Hypothesis rename_ok : forall f g, is_ok (rename f g) = true.
Hypothesis remove_ok : forall f, is_ok (remove_file f) = true.

Lemma by_age_chunks log dir chunks : chunks_of log dir chunks -> by_age log dir = rev chunks.
Proof.
  intros [Hin Hs]. apply sorted_unique; [|apply by_age_sorted|by apply StronglySorted_rev].
  apply NoDup_Permutation.
  - apply (NoDup_fmap_1 fst), NoDup_by_age.
  - rewrite <- Permutation_rev. clear Hin. induction Hs as [|x l Hs IH Hx]; constructor; [|done].
    intros Hin. eapply Forall_forall in Hx; [|exact Hin]. lia.
  - intros [k f]. unfold by_age. rewrite elem_of_sort_by, <- Permutation_rev, Hin.
    unfold rotated_files. specialize (read_dir_ok dir). destruct (read_dir dir) as [entries|] eqn:E; [|done].
    rewrite list_elem_of_filter, (read_dir_entries _ _ E), elem_of_map_to_list. cbn.
    specialize (metadata_ok k). naive_solver.
Qed.

(** A cleanup keeps the youngest. *)
Lemma cleanup_chunks log n dir chunks :
  chunks_of log dir chunks ->
  let dir' := cleanup_old_logs log n dir in
  chunks_of log dir' (drop (length chunks - n) chunks).
Proof.
  intros Hc dir'. pose proof (by_age_chunks _ _ _ Hc) as Hb. destruct Hc as [Hin Hs].
  assert (NoDup chunks.*1) as Hnd.
  { pose proof (NoDup_by_age log dir) as Hn. by rewrite Hb, <- Permutation_rev in Hn. }
  set (old := take (length chunks - n) chunks). set (kept := drop (length chunks - n) chunks).
  assert (chunks = old ++ kept) as Ek by (symmetry; apply take_drop).
  assert (forall k, dir' !! k = if decide (k ∈ old.*1) then None else dir !! k) as Hl.
  { intros k. unfold dir'. rewrite cleanup_lookup, Hb, skipn_rev. fold old.
    specialize (remove_ok k). case_bool_decide as Hd; rewrite <- Permutation_rev in Hd; destruct (decide (k ∈ old.*1)); naive_solver. }
  rewrite Ek in Hnd, Hin, Hs. rewrite fmap_app in Hnd. apply NoDup_app in Hnd as (_ & Hdis & _).
  split.
  - intros k f. rewrite Hl. specialize (Hin k f). rewrite elem_of_app in Hin. destruct (decide _) as [Ho|Ho].
    + split; [|by intros [_ ?]]. intros Hk. exfalso. eapply Hdis; [exact Ho|]. by apply (list_elem_of_fmap_2 fst _ (k, f)).
    + rewrite <- Hin. split; [by right|]. intros [Hk|Hk]; [|done]. exfalso. apply Ho. by apply (list_elem_of_fmap_2 fst _ (k, f)).
  - by apply StronglySorted_app in Hs as (_ & _ & Hs).
Qed.

Lemma cleanup_others log n dir k : is_rotated log k = false -> cleanup_old_logs log n dir !! k = dir !! k.
Proof.
  intros Hk. rewrite cleanup_lookup. case_bool_decide as Hd; [|done]. exfalso. destruct Hd as [Hd _].
  apply list_elem_of_fmap in Hd as ([k' f] & -> & Hin). cbn in Hk.
  assert ((k', f) ∈ by_age log dir) as Hb by (rewrite <- (take_drop n (by_age log dir)); apply elem_of_app; by right).
  unfold by_age in Hb. rewrite elem_of_sort_by in Hb. apply elem_of_rotated_files in Hb as [? _]. congruence.
Qed.

(** ** Whose file it is *)

Definition own (i k : string) : Prop := k = log_name i \/ is_rotated (log_name i) k = true.

Lemma own_split i k : Str.contains_char Str.DOT i = false -> own i k -> exists r, Str.split_once Str.DOT k = Some (i, r).
Proof.
  intros Hi [->|Hr]; unfold log_name, is_rotated in *.
  - exists "log". by apply Str.split_once_Some.
  - apply andb_true_iff in Hr as [[r ->]%Str.starts_with_iff _]. exists ("log." +:+ r).
    apply Str.split_once_Some. split; [|done]. by rewrite <- !Str.app_assoc.
Qed.

Lemma own_disjoint i j k :
  Str.contains_char Str.DOT i = false -> Str.contains_char Str.DOT j = false -> own i k -> own j k -> i = j.
Proof. intros Hi Hj [r E]%own_split [r' E']%own_split; congruence. Qed.

Lemma is_rotated_self log : is_rotated log log = false.
Proof. unfold is_rotated. by rewrite String.eqb_refl, andb_false_r. Qed.

Lemma is_rotated_name log ts : is_rotated log (rotated_name log ts) = true.
Proof.
  unfold is_rotated, rotated_name. rewrite Str.app_assoc, Str.starts_with_app, <- Str.app_assoc.
  destruct (String.eqb_spec (log +:+ "." +:+ ts) log) as [E|]; [|done].
  apply (f_equal String.length) in E. rewrite !Str.length_app in E. simpl in E. lia.
Qed.

(** Instance names have no dots. *)
Lemma valid_no_dot i : validate_instance_name i = Ok tt -> Str.contains_char Str.DOT i = false.
Proof.
  unfold validate_instance_name. destruct (Str.is_empty i); [done|]. destruct (_ <? _); [done|].
  destruct (Str.all _ i) eqn:Ha; [|done]. intros _. clear -Ha. unfold Str.contains_char.
  induction i as [|c i IH]; [done|]. cbn [Str.all Str.any] in *. apply andb_true_iff in Ha as [Hc Ha]. rewrite IH by done. rewrite orb_false_r.
  destruct (Ascii.eqb_spec Str.DOT c) as [<-|]; [|done]. by vm_compute in Hc.
Qed.

(** ** Histories *)

Hypothesis create_log_dir_ok : is_ok create_log_dir = true.
Hypothesis open_log_ok : forall f, is_ok (open_log f) = true.

(** An instance writes to its log, or is started (again). *)
Inductive Op :=
| Write (instance data : string)
| Start (config : SpawnConfig).

Definition log_step (rotation : LogRotationConfig) (dir : LogDir) (e : Instant * Op) : LogDir :=
  match e.2 with
  | Write i data =>
      match dir !! log_name i with
      | Some f => <[log_name i := {| content := content f +:+ data; modified := e.1 |}]> dir
      | None => dir
      end
  | Start config => (spawn_instance_with_rotation e.1 config rotation dir).2
  end.

Definition log_run (rotation : LogRotationConfig) (ops : list (Instant * Op)) : LogDir :=
  fold_left (log_step rotation) ops ∅.

Definition op_instance (o : Op) : string := match o with Write i _ => i | Start c => sc_name c end.

(** What an instance wrote from its first start on. *)
Definition output_step (i : string) (acc : option string) (e : Instant * Op) : option string :=
  if String.eqb (op_instance e.2) i then
    match e.2, acc with
    | Write _ data, Some w => Some (w +:+ data)
    | Write _ _, None => None
    | Start _, _ => Some (default "" acc)
    end
  else acc.
Definition output (i : string) (ops : list (Instant * Op)) : option string := fold_left (output_step i) ops None.

Fixpoint text (chunks : list (string * LogFile)) : string :=
  match chunks with [] => EmptyString | e :: chunks => content e.2 +:+ text chunks end.

Lemma text_app l l' : text (l ++ l') = text l +:+ text l'.
Proof. induction l as [|e l IH]; [done|]. cbn. by rewrite IH, Str.app_assoc. Qed.

(** The logs of one instance at time [now]; [stamps] are the timestamps used. *)
Record logs_ok (rotation : LogRotationConfig) (i : string) (dir : LogDir) (w : option string) (now : Instant)
    (stamps : list string) (chunks : list (string * LogFile)) : Prop := {
  lo_chunks : chunks_of (log_name i) dir chunks;
  lo_count : (length chunks <= max_files rotation)%nat;
  lo_large : Forall (fun e => max_size rotation <= Str.len (content e.2)) chunks;
  lo_stamps : Forall (fun e => exists ts, ts ∈ stamps /\ e.1 = rotated_name (log_name i) ts) chunks;
  lo_live : match dir !! log_name i with
            | None => w = None /\ chunks = []
            | Some f => (exists lost, w = Some (lost +:+ text chunks +:+ content f) /\
                                         ((length chunks < max_files rotation)%nat -> lost = "")) /\
                        Forall (fun e => modified e.2 < modified f) chunks /\ modified f <= now
            end
}.

Lemma chunks_of_ext log dir dir' chunks :
  (forall k, is_rotated log k = true -> dir' !! k = dir !! k) -> chunks_of log dir chunks -> chunks_of log dir' chunks.
Proof.
  intros Hd [Hin Hs]. split; [|done]. intros k f. rewrite Hin.
  split; intros [Hr Hk]; (split; [done|]); [rewrite Hd|rewrite <- Hd]; done.
Qed.

(** The log of an instance is written without touching the rotated ones. *)
Lemma chunks_of_live log dir chunks f : chunks_of log dir chunks -> chunks_of log (<[log := f]> dir) chunks.
Proof.
  apply chunks_of_ext. intros k Hr. apply lookup_insert_ne. intros <-. by rewrite is_rotated_self in Hr.
Qed.

Lemma logs_ok_mono rotation i dir dir' w now now' stamps stamps' chunks :
  (forall k, own i k -> dir' !! k = dir !! k) -> now <= now' -> stamps ⊆ stamps' ->
  logs_ok rotation i dir w now stamps chunks -> logs_ok rotation i dir' w now' stamps' chunks.
Proof.
  intros Hown Hnow Hst [Hch Hc Hl Ht Hlive]. constructor; try done.
  - eapply chunks_of_ext; [|exact Hch]. intros k Hr. apply Hown. by right.
  - eapply Forall_impl; [exact Ht|]. intros e (ts & ? & ?). exists ts. split; [by apply Hst|done].
  - rewrite Hown by (by left). destruct (dir !! log_name i); [|done]. destruct Hlive as (? & ? & ?). repeat split; [done..|lia].
Qed.

Lemma rotate_working now log config dir :
  rotate_log_if_needed now log config dir =
    match dir !! log with
    | None => (Ok false, dir)
    | Some f =>
        if Str.len (content f) <? max_size config then (Ok false, dir)
        else (Ok true, cleanup_old_logs log (max_files config)
                         (<[rotated_name log (timestamp now) := f]> (delete log dir)))
    end.
Proof.
  unfold rotate_log_if_needed. destruct (dir !! log); [|done]. specialize (metadata_ok log).
  destruct (metadata log); [|done]. destruct (_ <? _); [done|].
  specialize (rename_ok log (rotated_name log (timestamp now))). by destruct (rename _ _).
Qed.

(** A file is rotated: it becomes the youngest chunk, and the oldest go. *)
Lemma rotate_chunks rotation i dir w now stamps chunks f t :
  logs_ok rotation i dir w now stamps chunks -> dir !! log_name i = Some f -> max_size rotation <= Str.len (content f) ->
  now < t -> timestamp t ∉ stamps ->
  let rotated := rotated_name (log_name i) (timestamp t) in
  let chunks' := chunks ++ [(rotated, f)] in
  chunks_of (log_name i) (<[rotated := f]> (delete (log_name i) dir)) chunks'.
Proof.
  intros [[Hin Hs] _ _ Ht Hlive] Hf Hlen Hnow Hfresh rotated chunks'. rewrite Hf in Hlive.
  destruct Hlive as (_ & Hlt & _).
  assert (forall g, (rotated, g) ∉ chunks) as Hnew.
  { intros g Hg. eapply Forall_forall in Hg; [|exact Ht]. destruct Hg as (ts & Hts & E). cbn in E.
    unfold rotated, rotated_name in E. apply Str.app_inj_l, (Str.app_inj_l ".") in E. congruence. }
  split.
  - intros k g. unfold chunks'. rewrite elem_of_app, Hin, list_elem_of_singleton.
    destruct (decide (k = rotated)) as [->|Hne].
    + rewrite lookup_insert_eq. split; [|intros [_ [= ->]]; by right].
      intros [H|[= ->]]; [exfalso; by apply (Hnew g), Hin|]. split; [apply is_rotated_name|done].
    + rewrite lookup_insert_ne by done. split.
      * intros [[Hr Hg]|[= ? ?]]; [|done]. split; [done|]. rewrite lookup_delete_ne; [done|].
        intros E. by rewrite <- E, is_rotated_self in Hr.
      * intros [Hr Hg]. left. split; [done|]. by apply lookup_delete_Some in Hg as [_ Hg].
  - apply StronglySorted_app. split; [|split; [done|repeat constructor]].
    intros a b Ha ->%list_elem_of_singleton. eapply Forall_forall in Hlt; [|exact Ha]. done.
Qed.

(** The directory after an instance was started: its log is there. *)
Definition started (now : Instant) (log : string) (rotation : LogRotationConfig) (dir : LogDir) : LogDir :=
  let dir := (rotate_log_if_needed now log rotation dir).2 in
  match dir !! log with
  | Some _ => dir
  | None => <[log := {| content := ""; modified := now |}]> dir
  end.

Lemma spawn_dir now config rotation dir :
  (spawn_instance_with_rotation now config rotation dir).2 = started now (log_name (sc_name config)) rotation dir.
Proof.
  unfold spawn_instance_with_rotation, started. destruct create_log_dir; [|done].
  rewrite rotate_working. destruct (dir !! log_name (sc_name config)) as [f|] eqn:Ef.
  - destruct (_ <? _); cbn [snd]; specialize (open_log_ok (log_name (sc_name config)));
      (destruct (open_log _); [|done]); (destruct current_exe; [|done]); by destruct (spawn _).
  - cbn [snd]. specialize (open_log_ok (log_name (sc_name config))).
    (destruct (open_log _); [|done]); (destruct current_exe; [|done]); by destruct (spawn _).
Qed.

(** Files that are not its own are left alone. *)
Lemma started_others now i rotation dir k :
  ~ own i k -> started now (log_name i) rotation dir !! k = dir !! k.
Proof.
  intros Hk. unfold started. rewrite rotate_working.
  assert (k <> log_name i) as Hne by (intros ->; apply Hk; by left).
  destruct (dir !! log_name i) as [f|] eqn:Ef; [destruct (_ <? _)|]; cbn [snd].
  - by rewrite Ef.
  - assert (is_rotated (log_name i) k = false) as Hr
      by (destruct (is_rotated (log_name i) k) eqn:E; [exfalso; apply Hk; by right|done]).
    assert (forall g, <[rotated_name (log_name i) (timestamp now) := g]> (delete (log_name i) dir) !! k = dir !! k) as Hd.
    { intros g. rewrite lookup_insert_ne, lookup_delete_ne; [done|done|].
      intros <-. by rewrite is_rotated_name in Hr. }
    destruct (cleanup_old_logs _ _ _ !! log_name i); [|rewrite lookup_insert_ne by done]; by rewrite cleanup_others.
  - rewrite Ef. by apply lookup_insert_ne.
Qed.

Lemma started_ok rotation i dir w now stamps chunks t :
  logs_ok rotation i dir w now stamps chunks -> now < t -> timestamp t ∉ stamps ->
  exists chunks', logs_ok rotation i (started t (log_name i) rotation dir) (Some (default "" w)) t
                    (timestamp t :: stamps) chunks'.
Proof.
  intros Hok Hnow Hfresh. unfold started. rewrite rotate_working.
  destruct (dir !! log_name i) as [f|] eqn:Ef; [destruct (Z.ltb_spec (Str.len (content f)) (max_size rotation)) as [Hs|Hs]|]; cbn [snd].
  - rewrite Ef. exists chunks. pose proof (lo_live _ _ _ _ _ _ _ Hok) as H. rewrite Ef in H.
    destruct H as ((lost & -> & Hfew) & _).
    eapply logs_ok_mono; [done| | |exact Hok]; [lia|set_solver].
  - set (rotated := rotated_name (log_name i) (timestamp t)). set (dir1 := <[rotated := f]> (delete (log_name i) dir)).
    pose proof (rotate_chunks _ _ _ _ _ _ _ _ _ Hok Ef Hs Hnow Hfresh) as Hc1. cbv zeta in Hc1. fold rotated dir1 in Hc1.
    set (chunks1 := chunks ++ [(rotated, f)]) in *.
    pose proof (cleanup_chunks _ (max_files rotation) _ _ Hc1) as Hc2. cbv zeta in Hc2.
    set (old := take (length chunks1 - max_files rotation) chunks1).
    set (kept := drop (length chunks1 - max_files rotation) chunks1) in *.
    assert (chunks1 = old ++ kept) as Ek by (symmetry; apply take_drop).
    destruct Hok as [Hc Hn Hl Ht Hlive]. rewrite Ef in Hlive. destruct Hlive as ((lost & -> & Hfew) & Hlt & Hm).
    assert (cleanup_old_logs (log_name i) (max_files rotation) dir1 !! log_name i = None) as Hnone.
    { rewrite cleanup_others by apply is_rotated_self. unfold dir1. rewrite lookup_insert_ne.
      - apply lookup_delete_eq.
      - intros E. pose proof (is_rotated_name (log_name i) (timestamp t)) as Hr. fold rotated in Hr.
        by rewrite E, is_rotated_self in Hr. }
    rewrite Hnone. exists kept.
    assert (Forall (fun e => max_size rotation <= Str.len (content e.2)) chunks1) as Hl1
      by (apply Forall_app; split; [done|by repeat constructor]).
    assert (Forall (fun e => exists ts, ts ∈ timestamp t :: stamps /\ e.1 = rotated_name (log_name i) ts) chunks1) as Ht1.
    { apply Forall_app. split; [eapply Forall_impl; [exact Ht|]|].
      - intros e (ts & ? & ?). exists ts. split; [by right|done].
      - repeat constructor. exists (timestamp t). split; [left|done]. }
    assert (Forall (fun e => modified e.2 <= now) chunks1) as Hm1.
    { apply Forall_app. split; [eapply Forall_impl; [exact Hlt|]; cbn; lia|by repeat constructor]. }
    rewrite Ek, Forall_app in Hl1, Ht1, Hm1. constructor; [| |by apply Hl1|by apply Ht1|].
    + by apply chunks_of_live.
    + unfold kept. rewrite length_drop. lia.
    + rewrite lookup_insert_eq. cbn [content modified]. split; [|split; [|lia]].
      * exists (lost +:+ text old). cbn [default]. split.
        -- rewrite Str.app_nil_r, <- Str.app_assoc, <- text_app, <- Ek.
           unfold chunks1. rewrite text_app. cbn. by rewrite Str.app_nil_r.
        -- unfold kept, old. rewrite length_drop. intros Hlt'.
           assert (length chunks1 = S (length chunks)) as E1 by (unfold chunks1; rewrite length_app; cbn; lia).
           rewrite Hfew by lia. by replace (length chunks1 - max_files rotation)%nat with 0%nat by lia.
      * eapply Forall_impl; [exact (proj2 Hm1)|]. cbn. lia.
  - rewrite Ef. pose proof (lo_live _ _ _ _ _ _ _ Hok) as H. rewrite Ef in H. destruct H as [-> ->].
    destruct Hok as [Hc Hn Hl Ht Hlive]. exists []. constructor; try done; [by apply chunks_of_live|].
    rewrite lookup_insert_eq. cbn. split; [by exists ""|]. split; [constructor|lia].
Qed.

Lemma write_ok rotation i dir w now stamps chunks t data :
  logs_ok rotation i dir w now stamps chunks -> now < t ->
  logs_ok rotation i (log_step rotation dir (t, Write i data)) (output_step i w (t, Write i data)) t stamps chunks.
Proof.
  intros [Hc Hn Hl Ht Hlive] Hnow. unfold log_step, output_step. cbn [fst snd op_instance]. rewrite String.eqb_refl.
  destruct (dir !! log_name i) as [f|] eqn:Ef.
  - destruct Hlive as ((lost & -> & Hfew) & Hlt & Hm). constructor; try done; [by apply chunks_of_live|].
    rewrite lookup_insert_eq. cbn [content modified]. split; [|split; [|lia]].
    + exists lost. split; [by rewrite <- !Str.app_assoc|done].
    + eapply Forall_impl; [exact Hlt|]. cbn. lia.
  - destruct Hlive as [-> ->]. constructor; try done. by rewrite Ef.
Qed.

(** The timestamps with which the log of [i] may have been rotated. *)
Definition op_stamps (i : string) (e : Instant * Op) : list string :=
  match e.2 with
  | Start config => if String.eqb (sc_name config) i then [timestamp e.1] else []
  | Write _ _ => []
  end.

(** One step of the directory, for an instance whose name has no dot. *)
Lemma step_ok rotation i dir w now stamps chunks e :
  Str.contains_char Str.DOT i = false -> Str.contains_char Str.DOT (op_instance e.2) = false ->
  logs_ok rotation i dir w now stamps chunks -> now < e.1 -> (forall ts, ts ∈ op_stamps i e -> ts ∉ stamps) ->
  exists chunks', logs_ok rotation i (log_step rotation dir e) (output_step i w e) e.1 (op_stamps i e ++ stamps) chunks'.
Proof.
  destruct e as [t o]. cbn [fst snd]. intros Hi Hj Hok Hnow Hfresh. destruct (decide (op_instance o = i)) as [<-|Hne].
  - destruct o as [j data|config]; cbn [op_instance] in *.
    + exists chunks. by apply write_ok with (now := now).
    + unfold log_step, output_step, op_stamps in *. cbn [fst snd op_instance] in *. rewrite spawn_dir.
      rewrite String.eqb_refl in *. eapply started_ok; [done|done|]. apply Hfresh. by left.
  - exists chunks. unfold output_step. cbn [snd]. rewrite (proj2 (String.eqb_neq _ _) Hne).
    eapply logs_ok_mono; [|apply Z.lt_le_incl; exact Hnow| |exact Hok]; [|set_solver].
    intros k Hk. assert (~ own (op_instance o) k) as Hno by (intros Ho; apply Hne; by eapply own_disjoint).
    unfold log_step. destruct o as [j data|config]; cbn [fst snd op_instance] in *.
    + destruct (dir !! log_name j) as [f|]; [|done]. apply lookup_insert_ne. intros <-. apply Hno. by left.
    + rewrite spawn_dir. by apply started_others.
Qed.

Lemma run_ok rotation i ops : forall dir w now stamps chunks,
  Str.contains_char Str.DOT i = false -> Forall (fun e => Str.contains_char Str.DOT (op_instance e.2) = false) ops ->
  StronglySorted Z.lt (now :: ops.*1) -> NoDup (mjoin (op_stamps i <$> ops)) ->
  (forall ts, ts ∈ mjoin (op_stamps i <$> ops) -> ts ∉ stamps) ->
  logs_ok rotation i dir w now stamps chunks ->
  exists chunks' now' stamps',
    logs_ok rotation i (fold_left (log_step rotation) ops dir) (fold_left (output_step i) ops w) now' stamps' chunks'.
Proof.
  induction ops as [|e ops IH]; intros dir w now stamps chunks Hi Hj Hs Hnd Hfresh Hok; [eauto|].
  cbn [fold_left]. apply Forall_cons in Hj as [He Hj]. cbn in Hs, Hnd, Hfresh.
  apply StronglySorted_inv in Hs as [Hs Hnow]. apply Forall_cons in Hnow as [Hnow _].
  apply NoDup_app in Hnd as (_ & Hdis & Hnd).
  destruct (step_ok rotation i dir w now stamps chunks e) as [chunks' Hok']; [done..|set_solver|].
  eapply IH; [done|done|exact Hs|done| |exact Hok']. set_solver.
Qed.

(** ** Properties *)

(** C31. Log rotation keeps the latest output of every instance, and no more
    than it should. As long as the file operations work, the clock advances
    and the log of an instance is not rotated twice within a second, the
    rotated logs of an instance, from the oldest to the youngest, followed by
    its current log, are the end of what it wrote, whatever the other
    instances do: at most [max_files] of them are kept, each was full, and
    nothing was dropped while there are fewer. *)
Theorem logs_keep_latest (rotation : LogRotationConfig) (ops : list (Instant * Op)) (i : string) :
  validate_instance_name i = Ok tt ->
  Forall (fun e => validate_instance_name (op_instance e.2) = Ok tt) ops ->
  StronglySorted Z.lt ops.*1 -> NoDup (mjoin (op_stamps i <$> ops)) ->
  let dir := log_run rotation ops in
  exists chunks, chunks_of (log_name i) dir chunks /\
    (length chunks <= max_files rotation)%nat /\
    Forall (fun e => max_size rotation <= Str.len (content e.2)) chunks /\
    match output i ops, dir !! log_name i with
    | Some w, Some f => exists lost, w = lost +:+ text chunks +:+ content f /\
                                     ((length chunks < max_files rotation)%nat -> lost = "")
    | None, None => chunks = []
    | _, _ => False
    end.
Proof.
  intros Hi Hops Hs Hnd dir.
  set (start := match ops with [] => 0 | e :: _ => e.1 - 1 end).
  assert (StronglySorted Z.lt (start :: ops.*1)) as Hs0.
  { constructor; [done|]. unfold start. destruct ops as [|e ops]; [constructor|].
    cbn in Hs. apply StronglySorted_inv in Hs as [_ He]. cbn. constructor; [lia|].
    eapply Forall_impl; [exact He|]. cbn. lia. }
  destruct (run_ok rotation i ops ∅ None start [] []) as (chunks & now' & stamps' & Hok); try done.
  - by apply valid_no_dot.
  - eapply Forall_impl; [exact Hops|]. intros e. apply valid_no_dot.
  - set_solver.
  - constructor; try done; [|cbn; lia]. split; [|constructor]. intros k f. split; [by intros ?%not_elem_of_nil|].
    by intros [_ ?%lookup_empty_Some].
  - exists chunks. destruct Hok as [Hc Hn Hl _ Hlive]. fold (output i ops) in Hlive. fold (log_run rotation ops) in Hlive, Hc.
    fold dir in Hlive, Hc. split; [done|]. split; [done|]. split; [done|].
    destruct (dir !! log_name i) as [f|]; [|by destruct Hlive as [-> ->]].
    destruct Hlive as ((lost & -> & Hfew) & _). by exists lost.
Qed.

End Rotation.

(** ** Witness *)

Definition toy_config (name : string) : SpawnConfig := {|
  sc_name := name; sc_port := 3000; sc_config_path := "mik.toml"; sc_working_dir := []; sc_hot_reload := false |}.

(** Two full logs of [web] and one line more; one rotated log is kept. *)
Definition toy_history : list (Instant * Op) :=
  [(1, Start (toy_config "web")); (2, Write "web" "aaa"); (3, Start (toy_config "web")); (4, Start (toy_config "api"));
   (5, Write "web" "bbb"); (6, Write "api" "zzzz"); (7, Start (toy_config "web")); (8, Write "web" "c")].

Definition toy_entries (dir : LogDir) : result (list (string * LogFile)) string := Ok (map_to_list dir).

Lemma logs_keep_latest_witness :
  let dir := log_run "logs" Str.of_Z toy_entries (fun _ => Ok tt) (fun _ _ => Ok tt) (fun _ => Ok tt) (Ok tt)
               (fun _ => Ok tt) (Ok tt) (fun _ => Ok 1) {| max_size := 3; max_files := 1 |} toy_history in
  exists chunks, chunks_of (log_name "web") dir chunks /\ (length chunks <= 1)%nat /\
    exists lost, "aaabbbc" = lost +:+ text chunks +:+ "c".
Proof.
  intros dir.
  destruct (logs_keep_latest "logs" Str.of_Z toy_entries (fun _ => Ok tt) (fun _ _ => Ok tt) (fun _ => Ok tt) (Ok tt)
    (fun _ => Ok tt) (Ok tt) (fun _ => Ok 1) ltac:(by intros ? ? [= <-]) ltac:(done) ltac:(done) ltac:(done) ltac:(done)
    ltac:(done) ltac:(done) {| max_size := 3; max_files := 1 |} toy_history "web") as (chunks & Hc & Hn & _ & Hw).
  - vm_compute. reflexivity.
  - repeat constructor.
  - repeat constructor.
  - vm_compute. repeat constructor; set_solver.
  - exists chunks. split; [exact Hc|]. split; [exact Hn|]. revert Hw. fold dir.
    assert (output "web" toy_history = Some "aaabbbc") as -> by (vm_compute; reflexivity).
    assert (dir !! log_name "web" = Some {| content := "c"; modified := 8 |}) as -> by (vm_compute; reflexivity).
    intros (lost & E & _). by exists lost.
Defined.
