(* ===== verification/DaemonProps.v ===== *)
(** DaemonProps: the daemon's scheduled jobs under any interleaving of requests
    and executions.

    [step] is one request served, one half of a triggered execution, or one
    half of an execution the scheduler starts. *)

From stdpp Require Import base gmap list strings relations.
From S2P Require Import Prelude StdPath AppError SortBy Cron StateStore StateProps Daemon Instances.

#[local] Open Scope Z_scope.

Lemma fold_left_inv {A B} (P : A -> Prop) (f : A -> B -> A) l a :
  P a -> (forall a b, P a -> P (f a b)) -> P (fold_left f l a).
Proof. intros Ha Hf. revert a Ha. induction l; simpl; auto. Qed.

Section DaemonProps.
Context {Json Sch Bytes : Type} `{HS : JobScheduler Sch} `{!JobSchedulerLaws Sch}.
Context `{Serde Bytes Instance} `{HC : Serde Bytes (ScheduleConfig Json)} `{Serde Bytes JobExecution}.
Notation Config := (ScheduleConfig Json).
Notation Jobs := (gmap string (JobState Json)).
Notation State := (Daemon Json Sch Bytes).
Notation Cron := (CronScheduler Json Sch).

Variable fmt : Instant -> string.
Variable iter : Jobs -> list (string * JobState Json).

Record sys := {
  daemon : State;
  flights : list (Pending Json);
}.

(** What the database may do. *)
Variable allowed : Db -> Prop.

(** The requests that change the state. *)
Inductive request : State -> State -> Prop :=
| req_create db c s : allowed db -> request s (cron_create db c s).2
| req_delete db n s : allowed db -> request s (cron_delete db n s).2
| req_update db n b s : allowed db -> request s (cron_update db n b s).2
| req_start db os now r s : allowed db -> request s (start_instance fmt db os now r s).2
| req_stop db os now n s : allowed db -> request s (stop_instance fmt iter db os now n s).2
| req_restart db os now n s : allowed db -> request s (restart_instance fmt iter db os now n s).2
| req_health db (os : Os (Json := Json)) now max s : allowed db ->
    request s (set_store (check_and_recover_instances db os now max (store s)) s).

Inductive step : sys -> sys -> Prop :=
| step_request s s' fl : request s s' ->
    step {| daemon := s; flights := fl |} {| daemon := s'; flights := fl |}
| step_trigger id n now s p fl : cron_trigger_start id n now s = Ok p ->
    step {| daemon := s; flights := fl |} {| daemon := s; flights := p :: fl |}
| step_trigger_finish db r p s fl1 fl2 : allowed db -> p_manual p = true ->
    step {| daemon := s; flights := fl1 ++ p :: fl2 |}
         {| daemon := (cron_trigger_finish db r p s).2; flights := fl1 ++ fl2 |}
| step_tick i e id n now s p fl : sch_entries (scheduler (sched s)) !! i = Some (e, n) ->
    tick_start id n now s = Some p ->
    step {| daemon := s; flights := fl |} {| daemon := s; flights := p :: fl |}
| step_tick_finish r p s fl1 fl2 : p_manual p = false ->
    step {| daemon := s; flights := fl1 ++ p :: fl2 |}
         {| daemon := tick_finish r p s; flights := fl1 ++ fl2 |}.

(** ** Updates of the database beside the jobs *)

Lemma save_instance_jobs txn i (st : StateStore Bytes) :
  cron_jobs (save_instance txn i st).2 = cron_jobs st.
Proof. unfold save_instance. by destruct (table_insert _ _ _ _ _). Qed.

Lemma save_execution_jobs txn e (st : StateStore Bytes) :
  cron_jobs (save_job_execution txn e st).2 = cron_jobs st.
Proof. unfold save_job_execution. by destruct (table_insert _ _ _ _ _). Qed.

Lemma cleanup_jobs r txn n keep (st : StateStore Bytes) :
  cron_jobs (cleanup_job_executions r txn n keep st).2 = cron_jobs st.
Proof.
  unfold cleanup_job_executions. destruct (job_executions _ _ _); [|done].
  destruct (Nat.leb _ _); [done|]. destruct (txn_result _); [|done]. by destruct (remove_keys _ _).
Qed.

Lemma recover_jobs db (os : Os (Json := Json)) now i max (st : StateStore Bytes) :
  cron_jobs (check_and_recover_single_instance db os now i max st) = cron_jobs st.
Proof.
  unfold check_and_recover_single_instance. destruct (decide _); [|done].
  destruct (is_running os (i_pid i)) as [[]|]; [done| |done]. unfold handle_crashed_instance.
  pose proof (save_instance_jobs (wr db "save_crashed" (i_name i)) (set_status (Crashed (-1)) i) st) as Hs.
  destruct (save_instance _ _ st) as [[] st']; simpl in Hs; [|done].
  destruct (i_auto_restart i); simpl; [|done]. unfold attempt_auto_restart.
  destruct (_ <=? _); [done|]. destruct (should_restart_now _ _ _); simpl; [|done].
  unfold spawn_and_save_restarted_instance. destruct (spawn_instance _ _); [|done].
  by rewrite save_instance_jobs.
Qed.

Lemma check_and_recover_jobs db (os : Os (Json := Json)) now max (st : StateStore Bytes) :
  cron_jobs (check_and_recover_instances db os now max st) = cron_jobs st.
Proof.
  unfold check_and_recover_instances. destruct (list_instances _ _); [|done].
  apply (fold_left_inv (fun st' => cron_jobs st' = cron_jobs st)); [done|].
  intros st' i <-. apply recover_jobs.
Qed.

(** ** Properties that every step keeps *)

Lemma cron_create_register db c (s : State) : (cron_create db c s).2 = register db c s.
Proof.
  unfold cron_create, register. destruct (add_job c (sched s)) as [[] ?]; [|done].
  by destruct (save_cron_job _ _ _).
Qed.

Section Closed.
Variable J : State -> Prop.
Hypothesis J_register : forall db c s, allowed db -> J s -> J (register db c s).
Hypothesis J_unregister : forall db n s, allowed db -> J s -> J (unregister db n s).
Hypothesis J_delete : forall db n s, allowed db -> J s -> J (cron_delete db n s).2.
Hypothesis J_update : forall db n b s, allowed db -> J s -> J (cron_update db n b s).2.
Hypothesis J_store : forall st s, cron_jobs st = cron_jobs (store s) -> J s -> J (set_store st s).

Lemma J_save db op i s : allowed db -> J s -> J (set_store (save_instance (wr db op (i_name i)) i (store s)).2 s).
Proof. intros Hdb. apply J_store, save_instance_jobs. Qed.

Lemma register_schedules_closed db os i p c (s : State) : allowed db ->
  J s -> J (register_schedules db os i p c s).
Proof.
  intros Hdb Hs. unfold register_schedules. destruct (parse_schedules_from_manifest os c); [|done].
  apply fold_left_inv; auto.
Qed.

Lemma remove_scoped_closed db n (s : State) : allowed db -> J s -> J (remove_scoped_jobs iter db n s).
Proof.
  intros Hdb Hs. unfold remove_scoped_jobs. apply fold_left_inv; [done|].
  intros s' j Hs'. destruct (Str.starts_with _ _); auto.
Qed.

Lemma request_closed (s s' : State) : request s s' -> J s -> J s'.
Proof.
  intros Hr Hs. destruct Hr as [db c s Hdb|db n s Hdb|db n b s Hdb|db os now r s Hdb|db os now n s Hdb
                               |db os now n s Hdb|db os now max s Hdb].
  - rewrite cron_create_register. auto.
  - auto.
  - auto.
  - unfold start_instance. destruct (start_checks _ _ _ _) as [sc|]; [|done].
    destruct (spawn_instance _ _) as [pid|]; [|done]. cbv zeta.
    match goal with |- context [save_instance _ ?i _] => pose proof (J_save db "save_instance" i s Hdb Hs) end.
    destruct (save_instance _ _ _) as [[] ?]; [|done]. by apply register_schedules_closed.
  - unfold stop_instance. destruct (res_bind _ _) as [i|]; [|done]. cbv zeta.
    pose proof (J_save db "save_instance" (set_status Stopped i) _ Hdb (remove_scoped_closed db n s Hdb Hs)).
    by destruct (save_instance _ _ _) as [[] ?].
  - unfold restart_instance. destruct (res_bind _ _) as [i|]; [|done]. cbv zeta.
    pose proof (remove_scoped_closed db n s Hdb Hs) as Hs'. destruct (spawn_instance _ _) as [pid|]; [|done].
    pose proof (J_save db "save_instance" (restarted now pid i) _ Hdb Hs').
    destruct (save_instance _ _ _) as [[] ?]; [|done]. by apply register_schedules_closed.
  - apply J_store; [apply check_and_recover_jobs|done].
Qed.

Hypothesis J_finish : forall r p s, J s -> J (set_sched (execution_finish r p (sched s)).2 s).

Lemma step_closed y y' : step y y' -> J (daemon y) -> J (daemon y').
Proof.
  intros Hs. destruct Hs as [s s' fl Hr| |db r p s fl1 fl2 Hdb _| |r p s fl1 fl2 _]; simpl; auto.
  - by apply request_closed.
  - intros Hs. unfold cron_trigger_finish. pose proof (J_finish r p _ Hs).
    destruct (execution_finish r p (sched s)) as [e sch].
    destruct (trigger_result _ _) as [e'|]; [|done]. cbv zeta. cbn [store set_sched].
    pose proof (save_execution_jobs (wr db "save_job_execution" (history_key e')) e' (store s)) as Hj1.
    destruct (save_job_execution _ _ _) as [? st]. simpl in Hj1.
    pose proof (cleanup_jobs (rd db "list_job_executions") (wr db "cleanup_job_executions" (p_name p))
      (p_name p) 100 st) as Hj2.
    destruct (cleanup_job_executions _ _ _ _ _). simpl in *. apply J_store; [|done]. simpl. congruence.
  - apply J_finish.
Qed.

Lemma reachable_closed y y' : rtc step y y' -> J (daemon y) -> J (daemon y').
Proof. induction 1; eauto using step_closed. Qed.
End Closed.

(** A property of the scheduler that its operations keep. *)
Lemma scheduler_closed (I : Cron -> Prop) y y' :
  (forall c s, I s -> I (add_job c s).2) -> (forall n s, I s -> I (remove_job n s).2) ->
  (forall n b s, I s -> I (set_enabled n b s).2) -> (forall r p s, I s -> I (execution_finish r p s).2) ->
  rtc step y y' -> I (sched (daemon y)) -> I (sched (daemon y')).
Proof.
  intros Hadd Hrem Hen Hfin. apply (reachable_closed (fun s => I (sched s))); try done; cbv beta.
  - intros db c s _ Hs. unfold register. pose proof (Hadd c _ Hs).
    by destruct (add_job c (sched s)) as [[] ?].
  - intros db n s _ Hs. unfold unregister. pose proof (Hrem n _ Hs).
    by destruct (remove_job n (sched s)) as [[] ?].
  - intros db n s _ Hs. unfold cron_delete. pose proof (Hrem n _ Hs).
    destruct (remove_job n (sched s)) as [[[]|] ?]; [|done..]. by destruct (remove_cron_job _ _ _).
  - intros db n b s _ Hs. unfold cron_update. destruct b as [b|]; [|done]. pose proof (Hen n b _ Hs).
    destruct (set_enabled n b (sched s)) as [[] ?]; [|done]. simpl in *.
    destruct (get_config _ _); [|done]. by destruct (save_cron_job _ _ _).
  - intros r p s Hs. by apply Hfin.
Qed.

(** ** The scheduler's operations *)

Lemma add_job_ok c (s s' : Cron) : add_job c s = (Ok tt, s') ->
  exists i, sch_entries (scheduler s) !! i = None /\
    sch_entries (scheduler s') = <[i := (cron c, name c)]> (sch_entries (scheduler s)) /\
    jobs s' = <[name c := job_state_new c (Some i)]> (jobs s).
Proof.
  unfold add_job. destruct (job_new _); [|done]. pose proof (add_entries (cron c, name c) (scheduler s)) as Ha.
  destruct (sch_add _ _) as [[i|] sch]; [|done]. intros [= <-]. destruct Ha. by exists i.
Qed.

Lemma add_job_cases c (s : Cron) :
  (exists s', add_job c s = (Ok tt, s')) \/
  (exists e s', add_job c s = (Err e, s') /\ jobs s' = jobs s /\
    sch_entries (scheduler s') = sch_entries (scheduler s)).
Proof.
  unfold add_job. destruct (job_new _); [|right; eauto].
  pose proof (add_entries (cron c, name c) (scheduler s)) as Ha.
  destruct (sch_add _ _) as [[i|] sch]; [left; eauto|right]. do 2 eexists. split; [done|]. by split.
Qed.

Lemma remove_job_spec n (s : Cron) :
  jobs (remove_job n s).2 = delete n (jobs s) /\
  (sch_entries (scheduler (remove_job n s).2) = sch_entries (scheduler s) \/
   exists st i, jobs s !! n = Some st /\ job_id st = Some i /\
     sch_entries (scheduler (remove_job n s).2) = delete i (sch_entries (scheduler s))).
Proof.
  unfold remove_job. destruct (jobs s !! n) as [st|] eqn:En; [|split; [by rewrite delete_id|by left]].
  destruct (job_id st) as [i|] eqn:Ei; [|by split; [|left]].
  pose proof (remove_entries i (scheduler s)) as Hr. simpl.
  destruct (sch_remove i (scheduler s)) as [[] sch]; simpl; (split; [done|]); [right; by exists st, i|by left].
Qed.

Lemma set_enabled_spec n b (s : Cron) :
  scheduler (set_enabled n b s).2 = scheduler s /\
  forall n', jobs (set_enabled n b s).2 !! n' =
    (if decide (n = n') then (fun st => with_config (set_config_enabled b (config st)) st) else (fun st => st))
      <$> jobs s !! n'.
Proof.
  unfold set_enabled. destruct (jobs s !! n) as [st|] eqn:En; simpl; (split; [done|]); intros n'.
  - destruct (decide (n = n')) as [<-|]; [by rewrite lookup_insert_eq, En|].
    rewrite lookup_insert_ne by done. by destruct (jobs s !! n').
  - destruct (decide (n = n')) as [<-|]; [by rewrite En|]. by destruct (jobs s !! n').
Qed.

Lemma execution_finish_spec r p (s : Cron) :
  let e := (run_execution r p).1 in
  (execution_finish r p s).1 = e /\ job_name e = p_name p /\
  scheduler (execution_finish r p s).2 = scheduler s /\
  forall n, jobs (execution_finish r p s).2 !! n =
    (if decide (p_name p = n) then record e (success e) else (fun st => st)) <$> jobs s !! n.
Proof.
  unfold execution_finish. assert (job_name (run_execution r p).1 = p_name p) as Hn.
  { unfold run_execution. destruct (p_config p); [|done]. by destruct (execute_wasm_module _ _). }
  destruct (run_execution r p) as [e evs]. simpl in *. split_and!; [done|done|..].
  - unfold record_execution. by destruct (jobs s !! p_name p).
  - intros n. unfold record_execution. destruct (jobs s !! p_name p) as [st|] eqn:En; simpl.
    + destruct (decide (p_name p = n)) as [<-|]; [by rewrite lookup_insert_eq, En|].
      rewrite lookup_insert_ne by done. by destruct (jobs s !! n).
    + destruct (decide (p_name p = n)) as [<-|]; [by rewrite En|]. by destruct (jobs s !! n).
Qed.

(** ** Every job has its schedule *)

Definition job_ok (s : Cron) (n : string) (st : JobState Json) : Prop :=
  name (config st) = n /\
  (exists i, job_id st = Some i /\ sch_entries (scheduler s) !! i = Some (cron (config st), n)) /\
  execution_count st = wrap_u64 (success_count st + failure_count st) /\
  (length (history st) <= MAX_HISTORY_ENTRIES)%nat /\ Forall (fun e => job_name e = n) (history st).

Definition sched_ok (s : Cron) : Prop := forall n st, jobs s !! n = Some st -> job_ok s n st.

Lemma sched_ok_add c s : sched_ok s -> sched_ok (add_job c s).2.
Proof.
  intros Hs. destruct (add_job_cases c s) as [(s' & E)|(e & s' & -> & Hj & He)].
  - rewrite E. destruct (add_job_ok c s s' E) as (i & Hi & He & Hj). simpl. intros n st. rewrite Hj.
    intros [[<- <-]|[Hne Hst]]%lookup_insert_Some; unfold job_ok; rewrite He.
    + split_and!; [done|by exists i; rewrite lookup_insert_eq|done|simpl; lia|constructor].
    + destruct (Hs n st Hst) as (? & (i' & ? & Hi') & ?). split_and!; [done| |naive_solver..].
      exists i'. rewrite lookup_insert_ne by congruence. done.
  - intros n st. simpl. rewrite Hj. intros Hst. destruct (Hs n st Hst). unfold job_ok. by rewrite He.
Qed.

Lemma sched_ok_remove n s : sched_ok s -> sched_ok (remove_job n s).2.
Proof.
  intros Hs n' st. destruct (remove_job_spec n s) as [-> He]. intros [Hne Hst]%lookup_delete_Some.
  destruct (Hs n' st Hst) as (? & (i & ? & Hi) & ?). split_and!; [done| |naive_solver..].
  exists i. split; [done|]. destruct He as [->|(st0 & i0 & Hst0 & Hi0 & ->)]; [done|].
  rewrite lookup_delete_ne; [done|]. intros <-.
  destruct (Hs n st0 Hst0) as (_ & (i1 & Hi1 & Hi1') & _). congruence.
Qed.

Lemma sched_ok_enable n b s : sched_ok s -> sched_ok (set_enabled n b s).2.
Proof.
  intros Hs n' st. destruct (set_enabled_spec n b s) as [He Hj]. rewrite Hj.
  unfold job_ok. rewrite He. intros (st0 & Hst0 & ->)%fmap_Some.
  destruct (Hs n' st0 Hst0) as (? & ? & ?). by destruct (decide _).
Qed.

Lemma sched_ok_finish r p s : sched_ok s -> sched_ok (execution_finish r p s).2.
Proof.
  intros Hs n st. destruct (execution_finish_spec r p s) as (_ & Hn & He & Hj). rewrite Hj.
  unfold job_ok. rewrite He. intros (st0 & Hst0 & ->)%fmap_Some.
  destruct (Hs n st0 Hst0) as (? & ? & Hc & Hl & Hf).
  destruct (decide (p_name p = n)) as [<-|]; [|done]. unfold record.
  generalize dependent (run_execution r p).1. intros e Hn Hj.
  cbn [config job_id history execution_count success_count failure_count].
  split_and!; [done|done| | |].
  - rewrite Hc. unfold wrap_u64.
    destruct (success e); rewrite ?Zplus_mod_idemp_l, ?Zplus_mod_idemp_r; f_equal; lia.
  - rewrite length_app. change (length [e]) with 1%nat.
    destruct (Nat.leb_spec MAX_HISTORY_ENTRIES (length (history st0))); [|lia].
    assert (MAX_HISTORY_ENTRIES = 100%nat) by reflexivity.
    destruct (history st0); cbn [length tail] in *; lia.
  - apply Forall_app. split; [|by repeat constructor].
    destruct (Nat.leb _ _); [|done]. by destruct Hf.
Qed.

(** C14. The scheduled jobs stay consistent under any interleaving of requests,
    triggered executions and executions the scheduler starts, from an empty
    scheduler: every job is known under its own name, has a live entry of the
    scheduler with its own cron expression that runs it, counts each execution
    once as a success or a failure, and keeps at most the last 100 of its own
    executions. *)
Theorem jobs_have_schedules (sch : Sch) (st : StateStore Bytes) (y : sys) n j :
  rtc step {| daemon := {| sched := {| scheduler := sch; jobs := ∅ |}; store := st |}; flights := [] |} y ->
  jobs (sched (daemon y)) !! n = Some j ->
  name (config j) = n /\
  (exists i, job_id j = Some i /\
     sch_entries (scheduler (sched (daemon y))) !! i = Some (cron (config j), n)) /\
  execution_count j = wrap_u64 (success_count j + failure_count j) /\
  (length (history j) <= MAX_HISTORY_ENTRIES)%nat /\ Forall (fun e => job_name e = n) (history j).
Proof.
  intros Hr Hj. assert (sched_ok (sched (daemon y))) as Hok; [|by apply Hok].
  apply (scheduler_closed sched_ok _ _ sched_ok_add sched_ok_remove sched_ok_enable sched_ok_finish Hr).
  intros n' st' Hst'. simpl in Hst'. by rewrite lookup_empty in Hst'.
Qed.

(** ** Schedules nobody owns *)

Definition orphan (i : string) (e : string * string) (s : Cron) : Prop :=
  sch_entries (scheduler s) !! i = Some e /\
  forall n st, jobs s !! n = Some st -> job_id st <> Some i.

Lemma orphan_add i e c s : orphan i e s -> orphan i e (add_job c s).2.
Proof.
  intros [Hi Ho]. destruct (add_job_cases c s) as [(s' & E)|(er & s' & -> & Hj & He)].
  - rewrite E. destruct (add_job_ok c s s' E) as (i' & Hi' & He & Hj). simpl.
    assert (i' <> i) as Hne by congruence. split; [by rewrite He, lookup_insert_ne|].
    intros n st. rewrite Hj. intros [[_ <-]|[_ Hst]]%lookup_insert_Some; [simpl; congruence|eauto].
  - simpl. split; [by rewrite He|]. intros n st. rewrite Hj. apply Ho.
Qed.

Lemma orphan_remove i e n s : orphan i e s -> orphan i e (remove_job n s).2.
Proof.
  intros [Hi Ho]. destruct (remove_job_spec n s) as [Hj He]. split.
  - destruct He as [->|(st & i' & Hst & Hi' & ->)]; [done|]. rewrite lookup_delete_ne; [done|].
    intros ->. by apply (Ho n st).
  - intros n' st. rewrite Hj. intros [_ ?]%lookup_delete_Some. eauto.
Qed.

Lemma orphan_enable i e n b s : orphan i e s -> orphan i e (set_enabled n b s).2.
Proof.
  intros [Hi Ho]. destruct (set_enabled_spec n b s) as [He Hj]. split; [by rewrite He|].
  intros n' st. rewrite Hj. intros (st0 & Hst0 & ->)%fmap_Some.
  destruct (decide _); simpl; eauto.
Qed.

Lemma orphan_finish i e r p s : orphan i e s -> orphan i e (execution_finish r p s).2.
Proof.
  intros [Hi Ho]. destruct (execution_finish_spec r p s) as (_ & _ & He & Hj). split; [by rewrite He|].
  intros n' st. rewrite Hj. intros (st0 & Hst0 & ->)%fmap_Some.
  destruct (decide _); simpl; eauto.
Qed.

(** Creating a job under a name in use leaks the schedule it replaces: the
    scheduler's entry of the old job is never removed again, whatever is
    requested afterwards, the deletion of the job included, and as long as a
    job of that name exists and is enabled the old entry runs it, on the old
    cron expression, beside its own entry. *)
Lemma replaced_schedule_survives (sch : Sch) (st : StateStore Bytes) (y y' : sys) db (c : Config)
    (j : JobState Json) (i : string) :
  rtc step {| daemon := {| sched := {| scheduler := sch; jobs := ∅ |}; store := st |}; flights := [] |} y ->
  jobs (sched (daemon y)) !! name c = Some j -> job_id j = Some i ->
  (add_job c (sched (daemon y))).1 = Ok tt ->
  rtc step {| daemon := (cron_create db c (daemon y)).2; flights := flights y |} y' ->
  sch_entries (scheduler (sched (daemon y'))) !! i = Some (cron (config j), name c) /\
  forall j', jobs (sched (daemon y')) !! name c = Some j' -> job_id j' <> Some i /\
    (enabled (config j') = true -> forall id now, exists p,
       tick_start id (name c) now (daemon y') = Some p /\ p_config p = Some (config j')).
Proof.
  intros Hr Hj Hi Hadd Hr'. assert (sched_ok (sched (daemon y))) as Hok.
  { apply (scheduler_closed sched_ok _ _ sched_ok_add sched_ok_remove sched_ok_enable sched_ok_finish Hr).
    intros n' st' Hst'. simpl in Hst'. by rewrite lookup_empty in Hst'. }
  destruct (Hok _ _ Hj) as (_ & (i0 & Hi0 & He) & _). assert (i0 = i) as -> by congruence.
  assert (orphan i (cron (config j), name c) (sched (daemon y'))) as [Ho Hno].
  { apply (scheduler_closed (orphan i (cron (config j), name c)) _ _ (orphan_add i _) (orphan_remove i _)
      (orphan_enable i _) (orphan_finish i _) Hr').
    simpl. rewrite cron_create_register. unfold register.
    destruct (add_job c (sched (daemon y))) as [[[]|] s'] eqn:E; [|done].
    destruct (add_job_ok c _ s' E) as (i' & Hi' & He' & Hj'). cbn [sched set_sched set_store].
    assert (i' <> i) by congruence. split; [by rewrite He', lookup_insert_ne|].
    intros n st'. rewrite Hj'. intros [[_ <-]|[Hne Hst]]%lookup_insert_Some; [simpl; congruence|].
    destruct (Hok n st' Hst) as (_ & (i1 & Hi1 & He1) & _). congruence. }
  split; [done|]. intros j' Hj'. split; [by apply Hno with (name c)|]. intros Hen id now.
  unfold tick_start, execute_job_internal_start, execute_job_start, get_config. rewrite Hj'. simpl.
  rewrite Hen. by eexists.
Qed.

(** ** The database holds the jobs *)

Definition stored_config (st : StateStore Bytes) (n : string) : option Config :=
  match cron_jobs st !! n with
  | Some b => match from_slice b with Ok c => Some c | Err _ => None end
  | None => None
  end.

Definition synced (s : State) : Prop :=
  (forall n, config <$> jobs (sched s) !! n = stored_config (store s) n) /\
  forall n st, jobs (sched s) !! n = Some st -> name (config st) = n /\ is_ok (job_new (cron (config st))) = true.

Section Synced.
Context `{!@SerdeLaws Bytes Config HC}.
Hypothesis db_works : forall db op k, allowed db -> wr db op k = txn_ok.
Hypothesis serializes : forall c : Config, is_ok (to_vec (Bytes := Bytes) c) = true.
Hypothesis sch_adds : forall e (s : Sch), is_ok (sch_add e s).1 = true.
Hypothesis sch_removes : forall i (s : Sch), is_ok (sch_remove i s).1 = true.

Lemma save_cron_job_ok db op c (st : StateStore Bytes) : allowed db -> exists b,
  save_cron_job (wr db op (name c)) c st = (Ok tt, set_cron_jobs (<[name c := b]> (cron_jobs st)) st) /\
  from_slice b = Ok c.
Proof.
  intros Hdb. unfold save_cron_job, table_insert. rewrite (db_works db _ _ Hdb). simpl.
  pose proof (serializes c) as Hc. destruct (to_vec c) as [b|] eqn:E; [|done].
  exists b. split; [done|]. by apply serde_roundtrip.
Qed.

Lemma synced_save s c b j : synced s -> from_slice b = Ok c -> config j = c ->
  is_ok (job_new (cron c)) = true -> forall sch,
  synced {| sched := {| scheduler := sch; jobs := <[name c := j]> (jobs (sched s)) |};
            store := set_cron_jobs (<[name c := b]> (cron_jobs (store s))) (store s) |}.
Proof.
  intros [Hs1 Hs2] Hb Hj Hnew sch. split; simpl.
  - intros n. unfold stored_config. simpl. destruct (decide (n = name c)) as [->|Hne].
    + rewrite !lookup_insert_eq, Hb. simpl. by rewrite Hj.
    + rewrite !lookup_insert_ne by done. apply Hs1.
  - intros n st [[<- <-]|[_ Hst]]%lookup_insert_Some; [by rewrite Hj|by apply Hs2].
Qed.

Lemma synced_register db c s : allowed db -> synced s -> synced (register db c s).
Proof.
  intros Hdb Hs. unfold register, add_job. destruct (job_new (cron c)) eqn:Hnew; [|by destruct s].
  pose proof (sch_adds (cron c, name c) (scheduler (sched s))) as Ha.
  destruct (sch_add _ _) as [[i|] sch]; [|done]. cbn [store set_sched].
  destruct (save_cron_job_ok db "save_cron_job" c (store s) Hdb) as (b & -> & Hb).
  apply (synced_save s c b (job_state_new c (Some i))); [done..|by rewrite Hnew].
Qed.

Lemma remove_job_ok n (s : Cron) :
  (remove_job n s).1 = Ok (match jobs s !! n with Some _ => true | None => false end) /\
  jobs (remove_job n s).2 = delete n (jobs s).
Proof.
  split; [|apply remove_job_spec]. unfold remove_job. destruct (jobs s !! n) as [st|]; [|done].
  destruct (job_id st) as [i|]; [|done]. simpl. pose proof (sch_removes i (scheduler s)).
  by destruct (sch_remove i (scheduler s)) as [[] ?].
Qed.

Lemma synced_delete n s sch : synced s ->
  synced {| sched := {| scheduler := sch; jobs := delete n (jobs (sched s)) |};
            store := set_cron_jobs (delete n (cron_jobs (store s))) (store s) |}.
Proof.
  intros [Hs1 Hs2]. split; simpl.
  - intros n'. unfold stored_config. simpl. destruct (decide (n' = n)) as [->|Hne].
    + by rewrite !lookup_delete_eq.
    + rewrite !lookup_delete_ne by done. apply Hs1.
  - intros n' st [_ Hst]%lookup_delete_Some. by apply Hs2.
Qed.

Lemma remove_cron_job_ok db op n (st : StateStore Bytes) : allowed db ->
  (remove_cron_job (wr db op n) n st).2 = set_cron_jobs (delete n (cron_jobs st)) st /\
  is_ok (remove_cron_job (wr db op n) n st).1 = true.
Proof. intros Hdb. unfold remove_cron_job, table_remove. by rewrite (db_works db _ _ Hdb). Qed.

Lemma synced_unregister db n s : allowed db -> synced s -> synced (unregister db n s).
Proof.
  intros Hdb Hs. unfold unregister. destruct (remove_job_ok n (sched s)) as [Hr Hj].
  destruct (remove_job n (sched s)) as [r [sch js]]. simpl in Hr, Hj. subst.
  cbn [store set_sched]. destruct (remove_cron_job_ok db "remove_cron_job" n (store s) Hdb) as [-> _].
  by apply synced_delete.
Qed.

Lemma synced_cron_delete db n s : allowed db -> synced s -> synced (cron_delete db n s).2.
Proof.
  intros Hdb Hs. unfold cron_delete. destruct (remove_job_ok n (sched s)) as [Hr Hj].
  destruct (remove_job n (sched s)) as [r [sch js]]. simpl in Hr, Hj. subst.
  destruct (jobs (sched s) !! n) as [st|] eqn:En; cbn [store set_sched].
  - destruct (remove_cron_job_ok db "remove_cron_job" n (store s) Hdb) as [Hd _].
    destruct (remove_cron_job _ _ _) as [[] ?]; simpl in *; subst; by apply synced_delete.
  - simpl. rewrite delete_id by done. by destruct Hs.
Qed.

Lemma synced_update db n b s : allowed db -> synced s -> synced (cron_update db n b s).2.
Proof.
  intros Hdb Hs. unfold cron_update, set_enabled. destruct b as [b|]; [|done].
  destruct (jobs (sched s) !! n) as [st|] eqn:En; [|by destruct s].
  unfold get_config. cbn [sched set_sched set_jobs jobs]. rewrite lookup_insert_eq. simpl.
  destruct (proj2 Hs n st En) as [Hn Hnew].
  set (c := set_config_enabled b (config st)).
  destruct (save_cron_job_ok db "save_cron_job" c (store s) Hdb) as (by_ & E & Hb).
  change (name (config st)) with (name c) in E |- *. rewrite E.
  pose proof (synced_save s c by_ (with_config c st) Hs Hb eq_refl Hnew (scheduler (sched s))) as Hsy.
  assert (name c = n) as Hcn by done. rewrite Hcn in Hsy |- *. exact Hsy.
Qed.

Lemma synced_store st s : cron_jobs st = cron_jobs (store s) -> synced s -> synced (set_store st s).
Proof. intros E [Hs1 Hs2]. split; [|done]. intros n. simpl. rewrite Hs1. unfold stored_config. by rewrite E. Qed.

Lemma synced_finish r p s : synced s -> synced (set_sched (execution_finish r p (sched s)).2 s).
Proof.
  intros [Hs1 Hs2]. destruct (execution_finish_spec r p (sched s)) as (_ & _ & _ & Hj). split; simpl.
  - intros n. rewrite Hj, <- Hs1, <- option_fmap_compose. destruct (jobs (sched s) !! n); [|done].
    simpl. by destruct (decide _).
  - intros n st. rewrite Hj. intros (st0 & Hst0 & ->)%fmap_Some.
    destruct (decide _); simpl; by apply Hs2.
Qed.

(** *** Restoring *)

Lemma restore_jobs_spec (cs : list Config) (s : Cron) :
  NoDup (name <$> cs) -> Forall (fun c => is_ok (job_new (cron c)) = true) cs ->
  (forall c, c ∈ cs -> config <$> jobs (restore_jobs cs s) !! name c = Some c) /\
  forall n, n ∉ name <$> cs -> jobs (restore_jobs cs s) !! n = jobs s !! n.
Proof.
  unfold restore_jobs. revert s. induction cs as [|c cs IH]; intros s Hnd Hnew.
  { split; [by intros c ?%not_elem_of_nil|done]. }
  apply NoDup_cons in Hnd as [Hc Hnd]. apply Forall_cons in Hnew as [Hn Hnew]. simpl.
  destruct (IH (add_job c s).2 Hnd Hnew) as [IH1 IH2].
  assert (exists i, jobs (add_job c s).2 = <[name c := job_state_new c (Some i)]> (jobs s)) as [i Hj].
  { unfold add_job. destruct (job_new (cron c)); [|done].
    pose proof (sch_adds (cron c, name c) (scheduler s)). destruct (sch_add _ _) as [[i|] sch]; [|done].
    by exists i. }
  split.
  - intros c' [->|Hc']%elem_of_cons; [|by apply IH1]. by rewrite IH2, Hj, lookup_insert_eq.
  - intros n [Hne Hn']%not_elem_of_cons. by rewrite IH2, Hj, lookup_insert_ne.
Qed.

Lemma listed_configs (st : StateStore Bytes) cs : list_cron_jobs (Ok tt) st = Ok cs ->
  (forall n c, stored_config st n = Some c -> name c = n) ->
  NoDup (name <$> cs) /\ forall c, c ∈ cs <-> stored_config st (name c) = Some c.
Proof.
  intros Hl Hn. destruct (table_list_spec name _ cs Hl) as [Hnd Hin].
  { intros k b c Hk Hc. apply (Hn k c). unfold stored_config. by rewrite Hk, Hc. }
  split; [done|]. intros c. rewrite Hin. unfold stored_config.
  destruct (cron_jobs st !! name c) as [b|]; [|by split; [intros (? & ? & ?)|]].
  split.
  - intros (b' & [= <-] & ->). done.
  - intros E. exists b. split; [done|]. by destruct (from_slice b) as [c'|]; [injection E as ->|].
Qed.

End Synced.
End DaemonProps.

(** ** Concrete instances *)

Module Toy.

Inductive Doc :=
| DInstance (i : Instance)
| DConfig (c : ScheduleConfig unit)
| DExecution (e : JobExecution).

#[export] Instance instance_serde : Serde Doc Instance := {|
  to_vec i := Ok (DInstance i);
  from_slice d := match d with DInstance i => Ok i | _ => Err "" end |}.
#[export] Instance config_serde : Serde Doc (ScheduleConfig unit) := {|
  to_vec c := Ok (DConfig c);
  from_slice d := match d with DConfig c => Ok c | _ => Err "" end |}.
#[export] Instance execution_serde : Serde Doc JobExecution := {|
  to_vec e := Ok (DExecution e);
  from_slice d := match d with DExecution e => Ok e | _ => Err "" end |}.
#[export] Instance instance_serde_laws : SerdeLaws Doc Instance.
Proof. by intros i b [= <-]. Qed.
#[export] Instance config_serde_laws : SerdeLaws Doc (ScheduleConfig unit).
Proof. by intros c b [= <-]. Qed.

(** A scheduler that accepts every expression. *)
#[export] Instance toy_scheduler : JobScheduler (gmap string (string * string)) := {|
  sch_entries s := s;
  job_new _ := Ok tt;
  sch_add e s := let i := fresh (dom s) in (Ok i, <[i := e]> s);
  sch_remove i s := (Ok tt, delete i s) |}.
#[export] Instance toy_scheduler_laws : JobSchedulerLaws (gmap string (string * string)).
Proof. split; intros; simpl; [|done]. split; [|done]. apply not_elem_of_dom, is_fresh. Qed.

Definition job (n expr : string) : ScheduleConfig unit := {|
  name := n; module := "modules/report.wasm"; cron := expr; method := "GET"; path := "/";
  enabled := true; port := 3000; body := None; headers := None; health_path := "/health" |}.

Definition empty_store : StateStore Doc := {| instances := ∅; cron_jobs := ∅; StateStore.cron_history := ∅ |}.
Definition empty : Daemon unit (gmap string (string * string)) Doc :=
  {| sched := {| scheduler := ∅; jobs := ∅ |}; store := empty_store |}.

Definition hourly := job "report" "0 0 * * * * *".
Definition daily := job "report" "0 0 0 * * * *".
Definition one := (cron_create db_ok hourly empty).2.

Definition toy_step := step (Json := unit) (fun _ : Instant => "") map_to_list (fun db => db = db_ok)
  (Sch := gmap string (string * string)) (Bytes := Doc).

Lemma reach_one : rtc toy_step {| daemon := empty; flights := [] |} {| daemon := one; flights := [] |}.
Proof. apply rtc_once. by constructor; constructor. Qed.

End Toy.

Section Witnesses.
Import Toy.

Lemma jobs_have_schedules_witness :
  exists j, jobs (sched one) !! "report" = Some j /\ name (config j) = "report" /\
    (length (history j) <= MAX_HISTORY_ENTRIES)%nat.
Proof.
  eexists. split; [vm_compute; reflexivity|].
  destruct (jobs_have_schedules _ _ _ ∅ empty_store _ "report" _ reach_one
    ltac:(vm_compute; reflexivity)) as (H1 & _ & _ & H2 & _). split; [exact H1|exact H2].
Defined.

End Witnesses.
