(* ===== verification/InstanceProps.v ===== *)
(** InstanceProps: what the daemon's health checks make of its instances, and
    what stopping an instance leaves behind. *)

From stdpp Require Import base gmap list strings.
From S2P Require Import Prelude StdPath AppError SortBy Cron StateStore StateProps Daemon Instances DaemonProps.

#[local] Open Scope Z_scope.

Section Health.
Context {Json Bytes : Type} `{HI : Serde Bytes Instance} `{!@SerdeLaws Bytes Instance HI}.
Notation Store := (StateStore Bytes).
Notation Os := (Os (Json := Json)).

Hypothesis serializes : forall i : Instance, is_ok (to_vec (Bytes := Bytes) i) = true.

(** ** The instances of the database *)

Definition view (st : Store) (n : string) : option Instance :=
  match instances st !! n with
  | Some b => match from_slice b with Ok i => Some i | Err _ => None end
  | None => None
  end.

(** Every instance is stored under its name. *)
Definition names_ok (st : Store) : Prop := forall n i, view st n = Some i -> i_name i = n.

Lemma save_instance_view i (st : Store) :
  (save_instance txn_ok i st).1 = Ok tt /\
  forall n, view (save_instance txn_ok i st).2 n = if decide (n = i_name i) then Some i else view st n.
Proof.
  unfold save_instance, table_insert. simpl. pose proof (serializes i) as Hi.
  destruct (to_vec i) as [b|] eqn:E; [|done]. split; [done|]. intros n. unfold view. simpl.
  destruct (decide (n = i_name i)) as [->|Hne].
  - by rewrite lookup_insert_eq, (serde_roundtrip i b E).
  - by rewrite lookup_insert_ne.
Qed.

(** ** One instance *)

(** Whether the health check starts a process for the instance, and which. *)
Definition restart_pid (os : Os) (now : Instant) (max : Z) (i : Instance) : option Z :=
  if (i_auto_restart i && (i_restart_count i <? max) &&
      should_restart_now now i (backoff_secs (i_restart_count i)))%bool
  then match spawn_instance os (respawn_config i) with Ok pid => Some pid | Err _ => None end
  else None.

Definition died (os : Os) (i : Instance) : bool :=
  (bool_decide (i_status i = Running) && match is_running os (i_pid i) with Ok false => true | _ => false end)%bool.

(** What becomes of an instance in one cycle. *)
Definition recover (os : Os) (now : Instant) (max : Z) (i : Instance) : Instance :=
  if died os i
  then match restart_pid os now max i with
       | Some pid => auto_restarted now pid i
       | None => set_status (Crashed (-1)) i
       end
  else i.

Lemma i_name_recover os now max i : i_name (recover os now max i) = i_name i.
Proof. unfold recover. destruct (died os i); [|done]. by destruct (restart_pid os now max i). Qed.

Lemma recover_single os now max i (st : Store) n : view st (i_name i) = Some i ->
  view (check_and_recover_single_instance db_ok os now i max st) n =
    if decide (n = i_name i) then Some (recover os now max i) else view st n.
Proof.
  intros Hi. unfold check_and_recover_single_instance, recover, died.
  assert (forall n, view st n = if decide (n = i_name i) then Some i else view st n) as Hid.
  { intros n'. by destruct (decide _) as [->|]. }
  destruct (decide (i_status i = Running)) as [Hr|Hr]; [|by rewrite bool_decide_eq_false_2].
  rewrite (bool_decide_eq_true_2 (i_status i = Running)) by done. simpl.
  destruct (is_running os (i_pid i)) as [[]|]; [apply Hid| |apply Hid]. simpl.
  unfold handle_crashed_instance. cbn [wr db_ok].
  destruct (save_instance_view (set_status (Crashed (-1)) i) st) as [H1 H2].
  destruct (save_instance txn_ok _ st) as [r st1]. simpl in H1, H2. subst r. unfold restart_pid.
  destruct (i_auto_restart i); simpl; [|by rewrite H2].
  unfold attempt_auto_restart. rewrite Z.ltb_antisym. destruct (_ <=? _); simpl; [by rewrite H2|].
  destruct (should_restart_now _ _ _); simpl; [|by rewrite H2].
  unfold spawn_and_save_restarted_instance. destruct (spawn_instance _ _) as [pid|]; [|by rewrite H2].
  cbn [wr db_ok]. rewrite (proj2 (save_instance_view _ _)), H2. simpl. by destruct (decide _).
Qed.

(** ** Cycles *)

Lemma recover_fold os now max (l : list Instance) (st : Store) n :
  NoDup (i_name <$> l) -> (forall i, i ∈ l -> view st (i_name i) = Some i) ->
  view (fold_left (fun st i => check_and_recover_single_instance db_ok os now i max st) l st) n =
    if decide (n ∈ i_name <$> l) then recover os now max <$> view st n else view st n.
Proof.
  revert st. induction l as [|i l IH]; intros st Hnd Hl.
  { destruct (decide (n ∈ i_name <$> [])) as [E|]; [by apply not_elem_of_nil in E|done]. }
  apply NoDup_cons in Hnd as [Hi Hnd]. pose proof (Hl i ltac:(left)) as Hv. simpl.
  rewrite IH; [|done|].
  - rewrite !recover_single by done. destruct (decide (n = i_name i)) as [->|Hne].
    + rewrite Hv, (decide_False (P := i_name i ∈ _)) by done. by rewrite decide_True by (csimpl; left).
    + destruct (decide (n ∈ i_name <$> l)); [rewrite decide_True by (csimpl; by right)|
        rewrite decide_False by (csimpl; set_solver)]; done.
  - intros j Hj. rewrite recover_single by done. destruct (decide (i_name j = i_name i)) as [E|]; [|apply Hl; by right].
    destruct Hi. rewrite <- E. by apply list_elem_of_fmap_2.
Qed.

Lemma health_cycle_view os now max (st : Store) n : names_ok st ->
  view (check_and_recover_instances db_ok os now max st) n = recover os now max <$> view st n.
Proof.
  intros Hn. unfold check_and_recover_instances. cbn [rd db_ok]. unfold list_instances.
  destruct (table_list (Ok tt) (instances st)) as [l|] eqn:E; [|done].
  destruct (table_list_spec i_name _ l E) as [Hnd Hin].
  { intros k b i Hk Hi. apply Hn. unfold view. by rewrite Hk, Hi. }
  assert (forall i, i ∈ l <-> view st (i_name i) = Some i) as Hin'.
  { intros i. rewrite Hin. unfold view. destruct (instances st !! i_name i) as [b|].
    - destruct (from_slice b) eqn:Eb; split; [intros (? & [= <-] & ?)|intros [= ->]; eauto|
        intros (? & [= <-] & ?)|]; congruence.
    - by split; [intros (? & ? & ?)|]. }
  rewrite recover_fold by (done || apply Hin'). destruct (decide _) as [Hd|Hd]; [done|].
  destruct (view st n) as [i|] eqn:Ev; [|done]. destruct Hd. rewrite <- (Hn n i Ev).
  apply list_elem_of_fmap_2, Hin'. by rewrite (Hn n i Ev).
Qed.

Lemma health_cycle_names (os : Os) now max (st : Store) : names_ok st ->
  names_ok (check_and_recover_instances db_ok os now max st).
Proof.
  intros Hn n i. rewrite health_cycle_view by done. intros (j & Hj & ->)%fmap_Some.
  rewrite i_name_recover. by apply Hn.
Qed.

(** Cycles one after the other, each with its own world and time. *)
Definition cycles (max : Z) (ws : list (Os * Instant)) (st : Store) : Store :=
  fold_left (fun st w => check_and_recover_instances db_ok w.1 w.2 max st) ws st.

Definition recover_all (max : Z) (ws : list (Os * Instant)) (i : Instance) : Instance :=
  fold_left (fun i w => recover w.1 w.2 max i) ws i.

Lemma cycles_view max ws (st : Store) n : names_ok st ->
  view (cycles max ws st) n = recover_all max ws <$> view st n.
Proof.
  unfold cycles, recover_all. revert st. induction ws as [|w ws IH]; intros st Hn; simpl.
  - by destruct (view st n).
  - rewrite IH by (by apply health_cycle_names). rewrite health_cycle_view by done.
    by destruct (view st n).
Qed.


(** An instance that dies before its backoff is over is never restarted,
    although it has restarts left: the check that notices it records it as
    crashed, and later checks, however late, pass over crashed instances. *)
Lemma early_crash_is_final (os : Os) (now last : Instant) (max : Z) (ws : list (Os * Instant))
    (st : Store) (n : string) (i : Instance) :
  names_ok st -> view st n = Some i -> died os i = true ->
  i_last_restart_at i = Some last ->
  Z.quot (now - last) 1000000000 < backoff_secs (i_restart_count i) ->
  view (cycles max ((os, now) :: ws) st) n = Some (set_status (Crashed (-1)) i).
Proof.
  intros Hn Hi Hd Hlast Hback. rewrite cycles_view, Hi by done. simpl. f_equal.
  assert (recover os now max i = set_status (Crashed (-1)) i) as Hr.
  { unfold recover, restart_pid. rewrite Hd. unfold should_restart_now. rewrite Hlast.
    destruct (Z.leb_spec (backoff_secs (i_restart_count i)) (Z.quot (now - last) 1000000000)); [lia|].
    by rewrite andb_false_r. }
  unfold recover_all. simpl. rewrite Hr. induction ws as [|w ws IH]; [done|]. exact IH.
Qed.

(** The processes the checks start for an instance. *)
Fixpoint spawned (max : Z) (ws : list (Os * Instant)) (i : Instance) : list Z :=
  match ws with
  | [] => []
  | (os, now) :: ws' =>
      (if died os i then match restart_pid os now max i with Some pid => [pid] | None => [] end else [])
      ++ spawned max ws' (recover os now max i)
  end.

(** Restarts are bounded: whatever dies whenever, the health checks start
    at most [max_auto_restarts] processes for an instance over its life, and
    its restart count is the number of them. *)
Lemma restarts_bounded (max : Z) (ws : list (Os * Instant)) (st : Store) (n : string) (i : Instance) :
  names_ok st -> view st n = Some i -> 0 <= i_restart_count i -> max <= u32_max ->
  exists i', view (cycles max ws st) n = Some i' /\
    i_restart_count i' = i_restart_count i + Z.of_nat (length (spawned max ws i)) /\
    (spawned max ws i = [] \/ i_restart_count i' <= max).
Proof.
  intros Hn Hi Hc Hmax. rewrite cycles_view, Hi by done. exists (recover_all max ws i).
  split; [done|]. clear Hi. revert i Hc. unfold recover_all.
  induction ws as [|[os now] ws IH]; intros i Hc; simpl; [split; [lia|by left]|].
  destruct (died os i) eqn:Ed.
  2:{ assert (recover os now max i = i) as -> by (unfold recover; by rewrite Ed). by apply IH. }
  destruct (restart_pid os now max i) as [pid|] eqn:Ep; simpl.
  2:{ assert (recover os now max i = set_status (Crashed (-1)) i) as ->
        by (unfold recover; by rewrite Ed, Ep).
      by apply (IH (set_status (Crashed (-1)) i)). }
  assert (recover os now max i = auto_restarted now pid i) as -> by (unfold recover; by rewrite Ed, Ep).
  unfold restart_pid in Ep. destruct (Z.ltb_spec (i_restart_count i) max); [|by rewrite andb_false_r in Ep].
  destruct (IH (auto_restarted now pid i)) as [H1 H2]; simpl in *; rewrite wrap_u32_small in *;
    unfold is_u32; try lia.
  split; [lia|]. right. destruct H2 as [E|]; [rewrite E in H1; simpl in H1; lia|done].
Qed.
End Health.

(** ** Stopping *)

Section Stop.
Context {Json Sch Bytes : Type} `{HS : JobScheduler Sch} `{!JobSchedulerLaws Sch}.
Context `{HI : Serde Bytes Instance} `{!@SerdeLaws Bytes Instance HI}.
Context `{HC : Serde Bytes (ScheduleConfig Json)} `{HE : Serde Bytes JobExecution}.
Notation State := (Daemon Json Sch Bytes).
Notation Jobs := (gmap string (JobState Json)).

Variable fmt : Instant -> string.
Variable iter : Jobs -> list (string * JobState Json).
Hypothesis iter_spec : forall m, iter m ≡ₚ map_to_list m.
Hypothesis serializes : forall i : Instance, is_ok (to_vec (Bytes := Bytes) i) = true.
Hypothesis sch_removes : forall i (s : Sch), is_ok (sch_remove i s).1 = true.

Definition belongs (instance n : string) : bool := Str.starts_with (instance +:+ ":") n.

Lemma unregister_ok n (s : State) :
  jobs (sched (unregister db_ok n s)) = delete n (jobs (sched s)) /\
  cron_jobs (store (unregister db_ok n s)) = delete n (cron_jobs (store s)) /\
  instances (store (unregister db_ok n s)) = instances (store s).
Proof.
  unfold unregister. destruct (remove_job_ok sch_removes n (sched s)) as [Hr Hj].
  destruct (remove_job n (sched s)) as [r sch]. simpl in Hr, Hj. subst r. cbn [wr db_ok].
  unfold remove_cron_job, table_remove. simpl. done.
Qed.

Lemma filtered_cons {A} (P : string -> bool) (m : gmap string A) j l n :
  (if decide (n ∈ l /\ P n = true) then None else (if P j then delete j m else m) !! n) =
  if decide (n ∈ j :: l /\ P n = true) then None else m !! n.
Proof.
  destruct (decide (n = j)) as [->|Hne].
  - destruct (P j) eqn:Ep.
    + rewrite lookup_delete_eq. rewrite (decide_True (P := j ∈ j :: l /\ _)) by (split; [left|done]).
      by destruct (decide _).
    + rewrite !decide_False; [done|naive_solver..].
  - assert (n ∈ l /\ P n = true <-> n ∈ j :: l /\ P n = true) as Hiff by (rewrite elem_of_cons; naive_solver).
    rewrite (decide_ext _ _ None _ Hiff). destruct (decide (n ∈ j :: l /\ P n = true)); [done|].
    destruct (P j); [|done]. by rewrite lookup_delete_ne.
Qed.

Lemma remove_scoped_fold instance (l : list JobInfo) (s : State) :
  let s' := fold_left (fun s (job : JobInfo) =>
      if Str.starts_with (instance +:+ ":") (ji_name job) then unregister db_ok (ji_name job) s else s) l s in
  instances (store s') = instances (store s) /\
  (forall n, jobs (sched s') !! n =
     if decide (n ∈ ji_name <$> l /\ belongs instance n = true) then None else jobs (sched s) !! n) /\
  (forall n, cron_jobs (store s') !! n =
     if decide (n ∈ ji_name <$> l /\ belongs instance n = true) then None else cron_jobs (store s) !! n).
Proof.
  revert s. induction l as [|j l IH]; intros s; cbv zeta.
  { split_and!; [done|..]; intros n; (destruct (decide (n ∈ ji_name <$> [] /\ _)) as [[E _]|];
      [by apply not_elem_of_nil in E|done]). }
  cbn [fold_left]. fold (belongs instance (ji_name j)).
  destruct (unregister_ok (ji_name j) s) as (Hj & Hc & Hi).
  set (s1 := if belongs _ _ then _ else _). destruct (IH s1) as (H1 & H2 & H3). rewrite H1.
  assert (jobs (sched s1) = if belongs instance (ji_name j) then delete (ji_name j) (jobs (sched s)) else jobs (sched s))
    as Hj1 by (unfold s1; by destruct (belongs _ _)).
  assert (cron_jobs (store s1) = if belongs instance (ji_name j) then delete (ji_name j) (cron_jobs (store s))
    else cron_jobs (store s)) as Hc1 by (unfold s1; by destruct (belongs _ _)).
  split_and!.
  - unfold s1. by destruct (belongs _ _).
  - intros n. rewrite H2, Hj1. apply filtered_cons.
  - intros n. rewrite H3, Hc1. apply filtered_cons.
Qed.

(** Stopping an instance that runs: its process is killed if it is still
    there, exactly the jobs whose names start with the instance's name and a
    colon are removed, from the scheduler and from the database, and the
    instance is recorded as stopped; all other jobs and instances stay. *)
Lemma stop_instance_spec (os : Os (Json := Json)) (now : Instant) (n : string) (i : Instance) (s : State) :
  names_ok (store s) -> sched_ok (sched s) ->
  view (store s) n = Some i -> i_status i = Running -> kill_if_running os i = Ok tt ->
  exists r s', stop_instance fmt iter db_ok os now n s = (Ok r, s') /\ ir_status r = "stopped" /\
    (forall m, view (store s') m = if decide (m = n) then Some (set_status Stopped i) else view (store s) m) /\
    (forall m, jobs (sched s') !! m = if belongs n m then None else jobs (sched s) !! m) /\
    (forall m, is_Some (jobs (sched s) !! m) ->
       cron_jobs (store s') !! m = if belongs n m then None else cron_jobs (store s) !! m).
Proof.
  intros Hn Hok Hi Hr Hk. pose proof (Hn n i Hi) as Hname. unfold stop_instance, get_instance, table_get.
  assert (exists b, instances (store s) !! n = Some b /\ from_slice b = Ok i) as (b & Hb & Hbi).
  { unfold view in Hi. destruct (instances (store s) !! n) as [b|]; [|done]. exists b.
    split; [done|]. by destruct (from_slice b); simplify_eq. }
  cbn [rd db_ok res_bind]. rewrite Hb, Hbi. cbn [or_internal res_bind ok_or].
  rewrite decide_True by done. cbn [res_bind]. rewrite Hk. cbn [or_internal res_bind]. cbv zeta.
  destruct (remove_scoped_fold n (list_jobs iter (sched s)) s) as (H1 & H2 & H3).
  fold (remove_scoped_jobs iter db_ok n s) in H1, H2, H3.
  assert (forall m, is_Some (jobs (sched s) !! m) -> m ∈ ji_name <$> list_jobs iter (sched s)) as Hin.
  { intros m [j Hj]. unfold list_jobs. rewrite <- list_fmap_compose, list_elem_of_fmap.
    exists (m, j). split; [by destruct (Hok m j Hj) as [<- _]|]. rewrite iter_spec.
    by apply elem_of_map_to_list. }
  set (s1 := remove_scoped_jobs iter db_ok n s) in *. cbn [wr db_ok].
  destruct (save_instance_view serializes (set_status Stopped i) (store s1)) as [Hs1 Hs2].
  pose proof (save_instance_jobs txn_ok (set_status Stopped i) (store s1)) as Hs3.
  destruct (save_instance txn_ok _ _) as [r st]. simpl in Hs1, Hs2, Hs3. subst r.
  do 2 eexists. split_and!; [done|done|..]; cbn [store sched set_store].
  - intros m. rewrite Hs2, Hname. destruct (decide (m = n)); [done|]. unfold view. by rewrite H1.
  - intros m. rewrite H2. destruct (jobs (sched s) !! m) eqn:E.
    + destruct (belongs n m) eqn:Eb; [rewrite decide_True|rewrite decide_False]; try done; [|naive_solver].
      split; [apply Hin; by rewrite E|done].
    + by destruct (decide _), (belongs n m).
  - intros m Hm. rewrite Hs3, H3.
    destruct (belongs n m) eqn:Eb; [rewrite decide_True|rewrite decide_False]; try done; [|naive_solver].
    split; [by apply Hin|done].
Qed.
End Stop.

(** ** Concrete instances *)

Section Witnesses.
Import Toy.
#[local] Notation Os := (Os (Json := unit)).

Definition web : Instance := {|
  i_name := "web"; i_port := 3001; i_pid := 42; i_status := Running; i_config := "/srv/mik.toml";
  i_started_at := 0; i_modules := []; i_auto_restart := true; i_restart_count := 3;
  i_last_restart_at := Some (from_secs 100) |}.

Definition web_store : StateStore Doc :=
  {| instances := {[ "web" := DInstance web ]}; cron_jobs := ∅; StateStore.cron_history := ∅ |}.

(** Process 42 is gone; new processes get 43. *)
Definition os : Os := {|
  is_running pid := Ok (negb (pid =? 42)); kill_instance _ := Ok tt; spawn_instance _ := Ok 43;
  path_exists _ := true; read_to_string _ := Ok ""; toml_from_str _ := Ok []; current_dir := Ok "/" |}.

Definition alive : Os := {|
  is_running pid := Ok true; kill_instance _ := Ok tt; spawn_instance _ := Ok 43;
  path_exists _ := true; read_to_string _ := Ok ""; toml_from_str _ := Ok []; current_dir := Ok "/" |}.

Lemma web_view n : view web_store n = if decide (n = "web") then Some web else None.
Proof.
  unfold view, web_store. simpl. destruct (decide (n = "web")) as [->|Hne].
  - by rewrite lookup_singleton_eq.
  - by rewrite lookup_singleton_ne.
Qed.

Lemma web_names : names_ok web_store.
Proof. intros n i. rewrite web_view. destruct (decide _) as [->|]; [by intros [= <-]|done]. Qed.


Definition serving : Daemon unit (gmap string (string * string)) Doc :=
  register db_ok (scoped "web" 3001 hourly) {| sched := sched one; store := web_store |}.

End Witnesses.
