(* ===== verification/Cli.v ===== *)
(** Cli: the commands that manage instances without the daemon's HTTP
    interface, of [src/src/commands/daemon.rs] and [dev.rs], with
    [daemon/startup.rs].

    They open the state database themselves, which redb allows only one
    process at a time. Processes, files and the database's transactions are
    parameters; printing is left out. *)

From stdpp Require Import base gmap list strings.
From S2P Require Import Prelude StdPath Cron StateStore StateProps Daemon Instances Watch.

#[local] Open Scope Z_scope.

Definition DAEMON_PORT : Z := 9919.

(** What a command did to processes, in order. *)
Inductive Action :=
| Spawned (config : SpawnConfig) (pid : Z)
| DaemonSpawned (pid : Z)
| Killed (pid : Z).

(** [utils::format_duration], on seconds *)
Definition format_duration (secs : Z) : string :=
  if secs <? 60 then Str.of_Z secs +:+ "s"
  else if secs <? 3600 then Str.of_Z (secs / 60) +:+ "m " +:+ Str.of_Z (secs mod 60) +:+ "s"
  else if secs <? 86400 then Str.of_Z (secs / 3600) +:+ "h " +:+ Str.of_Z (secs mod 3600 / 60) +:+ "m"
  else Str.of_Z (secs / 86400) +:+ "d " +:+ Str.of_Z (secs mod 86400 / 3600) +:+ "h".

Section Cli.
Context {Bytes : Type} `{Serde Bytes Instance}.
Notation Store := (StateStore Bytes).

Record World := {
  store : Store;
  acts : list Action;
}.

Definition act (a : Action) (w : World) : World := {| store := store w; acts := acts w ++ [a] |}.
Definition set_store (s : Store) (w : World) : World := {| store := s; acts := acts w |}.

Notation Effect A := (result A (list string) * World)%type.

(** Processes may depend on what was done before. *)
Variable is_running : list Action -> Z -> result bool string.
Variable kill_instance : list Action -> Z -> result unit string.
Variable spawn_instance : list Action -> SpawnConfig -> result Z (list string).
Variable db : Db.
(** [Database::create] given the process that has the file open *)
Variable db_open : option Z -> result unit string.
Variable state_path : string.
(** The content of [daemon.pid] *)
Variable daemon_pid : option Z.

Definition open_store (holder : option Z) : result unit (list string) :=
  match db_open holder with Ok _ => Ok tt | Err e => Err ["Failed to open state database: " +:+ state_path; e] end.

Definition kill (pid : Z) (w : World) : Effect unit :=
  match kill_instance (acts w) pid with
  | Err e => (Err [e], w)
  | Ok _ => (Ok tt, act (Killed pid) w)
  end.

Definition running (w : World) (pid : Z) : result bool (list string) :=
  match is_running (acts w) pid with Ok b => Ok b | Err e => Err [e] end.

Definition save (i : Instance) (w : World) : Effect unit :=
  let '(r, s) := save_instance (wr db "save_instance" (i_name i)) i (store w) in
  (match r with Ok _ => Ok tt | Err e => Err [e] end, set_store s w).

(** An instance that is recorded as running and does run *)
Definition is_alive (w : World) (i : Instance) : bool :=
  (bool_decide (i_status i = Running) && match is_running (acts w) (i_pid i) with Ok b => b | Err _ => false end)%bool.

(** [check_daemon_auto_exit]; [check_and_stop_daemon] of [dev.rs] is the same. *)
Definition check_daemon_auto_exit (w : World) : Effect unit :=
  match list_instances (rd db "list_instances") (store w) with
  | Err e => (Err [e], w)
  | Ok instances =>
      match filter (fun i => is_alive w i = true) instances, daemon_pid with
      | [], Some pid => kill pid w
      | _, _ => (Ok tt, w)
      end
  end.

Definition not_found (name : string) : string := "Instance '" +:+ name +:+ "' not found".

(** *** [mik stop] *)

Definition stop (holder : option Z) (name : string) (w : World) : Effect unit :=
  match open_store holder with
  | Err e => (Err e, w)
  | Ok _ =>
      match get_instance (rd db "get_instance") name (store w) with
      | Err e => (Err [e], w)
      | Ok None => (Err [not_found name], w)
      | Ok (Some i) =>
          if bool_decide (i_status i = Running) then
            let '(r, w) :=
              match running w (i_pid i) with
              | Err e => (Err e, w)
              | Ok true => kill (i_pid i) w
              | Ok false => (Ok tt, w)
              end in
            match r with
            | Err e => (Err e, w)
            | Ok _ =>
                match save (set_status Stopped i) w with
                | (Err e, w) => (Err e, w)
                | (Ok _, w) => check_daemon_auto_exit w
                end
            end
          else (Ok tt, w)
      end
  end.

(** *** [mik prune] *)

Definition should_prune (w : World) (i : Instance) : result bool (list string) :=
  match i_status i with
  | Stopped | Crashed _ => Ok true
  | Running => match running w (i_pid i) with Ok b => Ok (negb b) | Err e => Err e end
  end.

Fixpoint prune_each (instances : list Instance) (pruned : nat) (w : World) : Effect nat :=
  match instances with
  | [] => (Ok pruned, w)
  | i :: instances =>
      match should_prune w i with
      | Err e => (Err e, w)
      | Ok false => prune_each instances pruned w
      | Ok true =>
          match remove_instance (wr db "remove_instance" (i_name i)) (i_name i) (store w) with
          | (Err e, s) => (Err [e], set_store s w)
          | (Ok _, s) => prune_each instances (S pruned) (set_store s w)
          end
      end
  end.

(** [state_exists]: whether the database file is there. *)
Definition prune (state_exists : bool) (holder : option Z) (w : World) : Effect nat :=
  if negb state_exists then (Ok 0%nat, w)
  else match open_store holder with
       | Err e => (Err e, w)
       | Ok _ =>
           match list_instances (rd db "list_instances") (store w) with
           | Err e => (Err [e], w)
           | Ok instances => prune_each instances 0 w
           end
       end.

(** *** [mik ps] and [mik inspect] *)

Definition actual_status (w : World) (i : Instance) : result string (list string) :=
  match i_status i with
  | Running => let? b := running w (i_pid i) in Ok (if b then "running" else "crashed")
  | Stopped => Ok "stopped"
  | Crashed _ => Ok "crashed"
  end.

Definition uptime (now : Instant) (status : string) (i : Instance) : string :=
  if String.eqb status "running" then format_duration (Z.quot (now - i_started_at i) 1000000000) else "-".

Record PsRow := {
  ps_name : string;
  ps_port : Z;
  ps_pid : Z;
  ps_status : string;
  ps_uptime : string;
}.

Fixpoint ps_rows (now : Instant) (instances : list Instance) (w : World) : result (list PsRow) (list string) :=
  match instances with
  | [] => Ok []
  | i :: instances =>
      let? status := actual_status w i in
      let? rows := ps_rows now instances w in
      Ok ({| ps_name := i_name i; ps_port := i_port i; ps_pid := i_pid i; ps_status := status;
             ps_uptime := uptime now status i |} :: rows)
  end.

(** The table; without rows, a hint is printed instead. *)
Definition ps (now : Instant) (state_exists : bool) (holder : option Z) (w : World) : result (list PsRow) (list string) :=
  if negb state_exists then Ok []
  else
    let? _ := open_store holder in
    match list_instances (rd db "list_instances") (store w) with
    | Err e => Err [e]
    | Ok instances => ps_rows now instances w
    end.

Definition inspect_status (w : World) (i : Instance) : result string (list string) :=
  match i_status i with
  | Running => let? b := running w (i_pid i) in Ok (if b then "running" else "crashed (process not found)")
  | Stopped => Ok "stopped"
  | Crashed exit_code => Ok ("crashed (exit code: " +:+ Str.of_Z exit_code +:+ ")")
  end.

Definition inspect (holder : option Z) (name : string) (w : World) : result (Instance * string) (list string) :=
  let? _ := open_store holder in
  match get_instance (rd db "get_instance") name (store w) with
  | Err e => Err [e]
  | Ok None => Err [not_found name]
  | Ok (Some i) => let? status := inspect_status w i in Ok (i, status)
  end.

(** *** The daemon ([startup.rs]) *)

(** The answers to the health probes, in order; starting the daemon, up to
    writing its PID file *)
Variable healthy : nat -> bool.
Variable daemon_process : result Z (list string).
Variable pid_file : result unit string.

Definition ensure_daemon (failure : string) (w : World) : Effect unit :=
  if healthy 0 then (Ok tt, w)
  else match daemon_process with
       | Err e => (Err e, w)
       | Ok pid =>
           let w := act (DaemonSpawned pid) w in
           match pid_file with
           | Err e => (Err [e], w)
           | Ok _ => (if existsb healthy (seq 1 50) then Ok tt else Err [failure], w)
           end
       end.

Definition ensure_daemon_running : World -> Effect unit := ensure_daemon "Daemon failed to start within 5 seconds".
Definition ensure_daemon_running_for_services : World -> Effect unit := ensure_daemon "Daemon failed to start".

(** *** [mik run --detach] *)

(** The working directory, and whether it has a [mik.toml] *)
Variable current_dir : list Component.
Variable config_exists : bool.

Definition config_path : list Component := join current_dir [Normal "mik.toml"].

Definition spawn_config (name : string) (port : Z) : SpawnConfig := {|
  sc_name := name; sc_port := port; sc_config_path := to_str config_path; sc_working_dir := current_dir;
  sc_hot_reload := false |}.

Definition spawn (config : SpawnConfig) (w : World) : result Z (list string) * World :=
  match spawn_instance (acts w) config with
  | Err e => (Err e, w)
  | Ok pid => (Ok pid, act (Spawned config pid) w)
  end.

Definition start_and_save (now : Instant) (config : SpawnConfig) (w : World) : Effect unit :=
  match spawn config w with
  | (Err e, w) => (Err e, w)
  | (Ok pid, w) => save (instance_new now (sc_name config) (sc_port config) pid (sc_config_path config)) w
  end.

Definition run_detached (now : Instant) (holder : option Z) (name : string) (port : Z) (w : World) : Effect unit :=
  match ensure_daemon_running w with
  | (Err e, w) => (Err e, w)
  | (Ok _, w) =>
      match open_store holder with
      | Err e => (Err e, w)
      | Ok _ =>
          match get_instance (rd db "get_instance") name (store w) with
          | Err e => (Err [e], w)
          | Ok existing =>
              let already := match existing with
                             | Some i => if bool_decide (i_status i = Running) then running w (i_pid i) else Ok false
                             | None => Ok false
                             end in
              match already with
              | Err e => (Err e, w)
              | Ok true => (Ok tt, w)
              | Ok false =>
                  if config_exists then start_and_save now (spawn_config name port) w
                  else (Err ["No mik.toml found in current directory."], w)
              end
          end
      end
  end.

(** *** [mik dev] *)

(** [get_project_name]: the value of the first line that starts with [name]. *)
Definition QUOTE : ascii := "034"%char.
Fixpoint trim_start_quotes (s : string) : string :=
  match s with String c s' => if Ascii.eqb c QUOTE then trim_start_quotes s' else s | EmptyString => EmptyString end.

Definition get_project_name (trim : string -> string) (content : result string string) : option string :=
  match content with
  | Err _ => None
  | Ok content =>
      match list_find (fun line => Str.starts_with "name" (trim line) = true) (Str.split "010" content) with
      | None => None
      | Some (_, line) =>
          match Str.split "=" line with
          | _ :: value :: _ => Some (Str.trim_end_matches QUOTE (trim_start_quotes (trim value)))
          | _ => None
          end
      end
  end.

(** The PID of the current server, which the callback replaces. *)
Record Dev := {
  current_pid : Z;
  world : World;
}.

(** [restart_instance]; [reopen] is the process that has the database open. *)
Definition restart_instance (now : Instant) (reopen : option Z) (config : SpawnConfig) (d : Dev) : Dev :=
  let w := world d in
  let '(stopped, w) :=
    match is_running (acts w) (current_pid d) with
    | Ok true => kill (current_pid d) w
    | _ => (Ok tt, w)
    end in
  match stopped with
  | Err _ => {| current_pid := current_pid d; world := w |}
  | Ok _ =>
      match spawn config w with
      | (Err _, w) => {| current_pid := current_pid d; world := w |}
      | (Ok pid, w) =>
          let w := match open_store reopen with
                   | Err _ => w
                   | Ok _ => (save (instance_new now (sc_name config) (sc_port config) pid (sc_config_path config)) w).2
                   end in
          {| current_pid := pid; world := w |}
      end
  end.

Definition handle_watch_event (reopen : option Z) (config : SpawnConfig) (d : Dev) (e : Instant * WatchEvent) : Dev :=
  match e.2 with
  | ModuleChanged _ | ConfigChanged => restart_instance e.1 reopen config d
  | ModuleRemoved _ | Error _ => d
  end.

(** After the watch loop *)
Definition dev_cleanup (no_services : bool) (name : string) (d : Dev) : Effect unit :=
  let w := world d in
  let '(r, w) :=
    match running w (current_pid d) with
    | Err e => (Err e, w)
    | Ok true => kill (current_pid d) w
    | Ok false => (Ok tt, w)
    end in
  match r with
  | Err e => (Err e, w)
  | Ok _ =>
      let w := match get_instance (rd db "get_instance") name (store w) with
               | Ok (Some i) => (save (set_status Stopped i) w).2
               | _ => w
               end in
      let w := if no_services then w else (check_daemon_auto_exit w).2 in
      (Ok tt, w)
  end.

(** [dev::execute]; [events] is what the watch loop emits until Ctrl+C, and
    [self] this process. *)
Definition dev_execute (now : Instant) (holder : option Z) (self port : Z) (no_services : bool) (name : option string)
    (modules_created watching : result unit (list string)) (events : list (Instant * WatchEvent)) (w : World)
  : Effect unit :=
  match (if no_services then (Ok tt, w) else ensure_daemon_running_for_services w) with
  | (Err e, w) => (Err e, w)
  | (Ok _, w) =>
      if negb config_exists then (Err ["No mik.toml found. Run 'mik new' to create a project."], w)
      else
        match modules_created with
        | Err e => (Err e, w)
        | Ok _ =>
            let config := spawn_config (default "dev" name) port in
            match spawn config w with
            | (Err e, w) => (Err e, w)
            | (Ok pid, w) =>
                match open_store holder with
                | Err e => (Err e, w)
                | Ok _ =>
                    match save (instance_new now (sc_name config) (sc_port config) pid (sc_config_path config)) w with
                    | (Err e, w) => (Err e, w)
                    | (Ok _, w) =>
                        match watching with
                        | Err e => (Err e, w)
                        | Ok _ =>
                            dev_cleanup no_services (sc_name config)
                              (fold_left (handle_watch_event (Some self) config) events
                                 {| current_pid := pid; world := w |})
                        end
                    end
                end
            end
        end
  end.

(** ** Lemmas *)

Lemma open_held (holder : option Z) : (is_ok (db_open holder) = false) -> exists e, open_store holder = Err e.
Proof. unfold open_store. destruct (db_open holder); [done|eauto]. Qed.

Lemma ensure_daemon_acts failure w r w' :
  ensure_daemon failure w = (r, w') ->
  store w' = store w /\ (acts w' = acts w \/ exists pid, acts w' = acts w ++ [DaemonSpawned pid]).
Proof.
  unfold ensure_daemon. destruct (healthy 0); [intros [= <- <-]; auto|].
  destruct daemon_process as [pid|e]; [|intros [= <- <-]; auto].
  destruct pid_file; intros [= <- <-]; cbn; eauto.
Qed.

(** Whatever a restart does, it leaves the database alone if it cannot open it. *)
Lemma restart_store now reopen config d :
  is_ok (db_open reopen) = false -> store (world (restart_instance now reopen config d)) = store (world d).
Proof.
  intros Ho. destruct (open_held reopen Ho) as [e He]. unfold restart_instance, spawn, kill.
  destruct (is_running _ _) as [[]|]; [destruct (kill_instance _ _)|..]; cbn [world acts act];
    try done; (destruct (spawn_instance _ _); [rewrite He|]; done).
Qed.

(** *** Processes of a development server *)

(** A server that [mik dev] started is the current one, was killed, or was not
    running when it was to be replaced. *)
Definition accounted (current : Z) (acts : list Action) (pid : Z) : Prop :=
  pid = current \/ Killed pid ∈ acts \/ exists before, is_running before pid <> Ok true.

Definition none_leaked (d : Dev) : Prop :=
  forall config pid, Spawned config pid ∈ acts (world d) -> accounted (current_pid d) (acts (world d)) pid.

Lemma accounted_app current acts acts' pid : accounted current acts pid -> accounted current (acts ++ acts') pid.
Proof. intros [?|[?|?]]; [by left|right; left; apply elem_of_app; by left|by right; right]. Qed.

Lemma save_acts i w : acts (save i w).2 = acts w.
Proof. unfold save. by destruct (save_instance _ _ _). Qed.

(** After the current process is gone, a new one takes its place. *)
Lemma spawn_no_leak current config w :
  (forall c pid, Spawned c pid ∈ acts w -> accounted current (acts w) pid) ->
  (Killed current ∈ acts w \/ exists before, is_running before current <> Ok true) ->
  let '(r, w') := spawn config w in
  (forall c pid, Spawned c pid ∈ acts w' -> accounted (match r with Ok p => p | Err _ => current end) (acts w') pid).
Proof.
  intros Hw Hgone. unfold spawn. destruct (spawn_instance (acts w) config) as [p|e]; [|done].
  cbn [acts act]. intros c pid [Hin|Hin]%elem_of_app.
  - destruct (Hw c pid Hin) as [->|[Hk|Hd]]; [|right; left; apply elem_of_app; by left|by right; right].
    destruct Hgone as [Hk|Hd]; [right; left; apply elem_of_app; by left|by right; right].
  - apply list_elem_of_singleton in Hin as [= _ ->]. by left.
Qed.

Lemma restart_no_leak now reopen config d : none_leaked d -> none_leaked (restart_instance now reopen config d).
Proof.
  intros Hd. unfold restart_instance.
  assert (forall w, (forall c pid, Spawned c pid ∈ acts w -> accounted (current_pid d) (acts w) pid) ->
    (Killed (current_pid d) ∈ acts w \/ exists before, is_running before (current_pid d) <> Ok true) ->
    none_leaked (match spawn config w with
      | (Err _, w) => {| current_pid := current_pid d; world := w |}
      | (Ok pid, w) =>
          {| current_pid := pid;
             world := match open_store reopen with
                      | Err _ => w
                      | Ok _ => (save (instance_new now (sc_name config) (sc_port config) pid (sc_config_path config)) w).2
                      end |}
      end)) as Hspawn.
  { intros w Hw Hgone. pose proof (spawn_no_leak _ config w Hw Hgone) as Hs.
    destruct (spawn config w) as [[pid|e] w']; [|exact Hs]. unfold none_leaked. cbn [current_pid world].
    destruct (open_store reopen); [rewrite save_acts|]; exact Hs. }
  destruct (is_running (acts (world d)) (current_pid d)) as [[]|e] eqn:Er.
  - unfold kill. destruct (kill_instance _ _); [|destruct d; exact Hd].
    apply Hspawn; [|left; cbn; apply elem_of_app; right; by left].
    cbn [acts act]. intros c pid [Hin|Hin]%elem_of_app; [apply accounted_app; by eapply Hd|].
    by apply list_elem_of_singleton in Hin.
  - apply Hspawn; [exact Hd|right; exists (acts (world d)); congruence].
  - apply Hspawn; [exact Hd|right; exists (acts (world d)); congruence].
Qed.

Lemma watch_no_leak reopen config events : forall d,
  none_leaked d -> none_leaked (fold_left (handle_watch_event reopen config) events d).
Proof.
  induction events as [|[t e] events IH]; intros d Hd; [done|]. cbn [fold_left]. apply IH.
  unfold handle_watch_event. destruct e; cbn [fst snd]; try done; by apply restart_no_leak.
Qed.

Lemma watch_store reopen config events : is_ok (db_open reopen) = false -> forall d,
  store (world (fold_left (handle_watch_event reopen config) events d)) = store (world d).
Proof.
  intros Ho. induction events as [|[t e] events IH]; intros d; [done|]. cbn [fold_left]. rewrite IH.
  unfold handle_watch_event. destruct e; cbn [fst snd]; try done; by apply restart_store.
Qed.

(** What may stop the daemon starts no server. *)
Lemma auto_exit_acts w : exists l, acts (check_daemon_auto_exit w).2 = acts w ++ l /\ forall c p, Spawned c p ∉ l.
Proof.
  assert (exists l, acts w = acts w ++ l /\ forall c p, Spawned c p ∉ l) as Hnil
    by (exists []; split; [by rewrite app_nil_r|set_solver]).
  unfold check_daemon_auto_exit, kill. destruct (list_instances _ _) as [l|]; [|done].
  destruct (filter _ l), daemon_pid as [p|]; try done. destruct (kill_instance _ _); [|done].
  exists [Killed p]. split; [done|]. by intros c q Hin%list_elem_of_singleton.
Qed.

Definition gone (w : World) (p : Z) : Prop := Killed p ∈ acts w \/ exists before, is_running before p <> Ok true.

Lemma dev_cleanup_no_leak no_services name d w' :
  none_leaked d -> dev_cleanup no_services name d = (Ok tt, w') -> forall c p, Spawned c p ∈ acts w' -> gone w' p.
Proof.
  intros Hd E. unfold dev_cleanup, running in E.
  assert (forall w4 w5, (forall c p, Spawned c p ∈ acts w4 -> gone w4 p) -> acts w5 = acts w4 ->
    (Ok tt : result unit (list string), if no_services then w5 else (check_daemon_auto_exit w5).2) = (Ok tt, w') ->
    forall c p, Spawned c p ∈ acts w' -> gone w' p) as Hend.
  { intros w4 w5 H4 H5 [= <-] c p. unfold gone in *. destruct no_services; [rewrite H5; apply H4|].
    destruct (auto_exit_acts w5) as (l & -> & Hl). rewrite H5. intros [Hin|Hin]%elem_of_app; [|by apply Hl in Hin].
    destruct (H4 c p Hin) as [Hk|Hn]; [left; apply elem_of_app; by left|by right]. }
  assert (forall w4, acts (match get_instance (rd db "get_instance") name (store w4) with
               | Ok (Some i) => (save (set_status Stopped i) w4).2 | _ => w4 end) = acts w4) as H5
    by (intros w4; destruct (get_instance _ _ _) as [[i|]|]; [apply save_acts|done..]).
  destruct (is_running (acts (world d)) (current_pid d)) as [[]|e] eqn:Er; [| |done].
  - unfold kill in E. destruct (kill_instance _ _); [|done]. eapply Hend; [|apply H5|exact E].
    cbn [acts act]. unfold gone. cbn [acts act]. intros c p [Hin|Hin]%elem_of_app; [|by apply list_elem_of_singleton in Hin].
    destruct (Hd c p Hin) as [->|[Hk|Hn]]; [left; apply elem_of_app; right; by left|left; apply elem_of_app; by left|by right].
  - eapply Hend; [|apply H5|exact E]. intros c p Hin. destruct (Hd c p Hin) as [->|[Hk|Hn]]; [right|by left|by right].
    exists (acts (world d)). congruence.
Qed.

(** *** Pruning *)

Lemma prune_each_spec is' : forall pruned w n w',
  prune_each is' pruned w = (Ok n, w') -> NoDup (i_name <$> is') ->
  acts w' = acts w /\ (forall k, instances (store w') !! k =
    if existsb (fun i => String.eqb (i_name i) k && negb (is_alive w i))%bool is' then None else instances (store w) !! k).
Proof.
  induction is' as [|i is' IH]; intros pruned w n w'; cbn [prune_each].
  { intros [= <- <-] _. done. }
  intros E Hnd. csimpl in Hnd. apply NoDup_cons in Hnd as [Hi Hnd].
  assert (match should_prune w i with Ok b => b = negb (is_alive w i) | Err _ => True end) as Hp.
  { unfold should_prune, is_alive, running. destruct (i_status i); cbn; try done. by destruct (is_running _ _). }
  destruct (should_prune w i) as [[]|e]; [| |done].
  - unfold remove_instance, table_remove in E. destruct (txn_result _) as [[]|e]; [|done].
    apply IH in E as [Ha Hk]; [|done]. split; [exact Ha|]. intros k. rewrite Hk. cbn [existsb]. rewrite <- Hp, andb_true_r.
    change (is_alive (set_store _ w)) with (is_alive w). cbn [set_store store instances set_instances].
    destruct (String.eqb_spec (i_name i) k) as [->|Hne]; cbn [orb].
    + rewrite lookup_delete_eq. by destruct (existsb _ _).
    + by rewrite lookup_delete_ne.
  - apply IH in E as [Ha Hk]; [|done]. split; [exact Ha|]. intros k. rewrite Hk. cbn [existsb].
    by rewrite <- Hp, andb_false_r.
Qed.

Lemma prune_spec (w w' : World) (n : nat) (k : string) (b : Bytes) (i : Instance) :
  is_ok (db_open None) = true -> rd db "list_instances" = Ok tt ->
  (forall k b i, instances (store w) !! k = Some b -> from_slice b = Ok i -> i_name i = k) ->
  prune true None w = (Ok n, w') -> instances (store w) !! k = Some b -> from_slice b = Ok i ->
  acts w' = acts w /\ instances (store w') !! k = if is_alive w i then Some b else None.
Proof.
  unfold prune, open_store. cbn [negb]. destruct (db_open None); [|done]. intros _ Hrd Hkeys E Hk Hb.
  destruct (list_instances _ _) as [l|] eqn:El; [|done]. unfold list_instances in El. rewrite Hrd in El.
  destruct (table_list_spec i_name _ _ El Hkeys) as [Hnd Hin]. apply prune_each_spec in E as [Ha Hl]; [|done].
  split; [done|]. rewrite Hl, Hk. assert (i_name i = k) as Hi by by eapply Hkeys.
  assert (i ∈ l) as Hil by (apply Hin; exists b; by rewrite Hi).
  destruct (existsb _ l) eqn:Ex.
  - apply existsb_exists in Ex as (j & Hj%list_elem_of_In & [Hjk%String.eqb_eq Hja]%andb_true_iff).
    assert (j = i) as -> by (apply Hin in Hj as (b' & Hb' & Hj); rewrite Hjk, Hk in Hb'; congruence).
    by destruct (is_alive w i).
  - destruct (is_alive w i) eqn:Hal; [done|]. exfalso.
    assert (existsb (fun i => (String.eqb (i_name i) k && negb (is_alive w i))%bool) l = true) as Ht.
    { apply existsb_exists. exists i. split; [by apply list_elem_of_In|]. by rewrite Hi, String.eqb_refl, Hal. }
    congruence.
Qed.

(** ** Properties *)

(** The commands that manage instances and the daemon exclude each other.
    The daemon keeps the state database open, and redb lets nobody else open
    it: so while the daemon [holder] runs, stopping and pruning fail and
    change nothing, starting an instance in the background fails after having
    made sure that the daemon runs, and [mik dev] fails after it has started a
    server, which is neither recorded nor killed. *)
Lemma commands_exclude_daemon (holder : Z) (w : World) :
  is_ok (db_open (Some holder)) = false ->
  (forall name, exists e, stop (Some holder) name w = (Err e, w)) /\
  (exists e, prune true (Some holder) w = (Err e, w)) /\
  (forall now name port, exists e w', run_detached now (Some holder) name port w = (Err e, w') /\ store w' = store w /\
     (acts w' = acts w \/ exists pid, acts w' = acts w ++ [DaemonSpawned pid])) /\
  (forall now self port name events pid,
     healthy 0 = true -> config_exists = true -> spawn_instance (acts w) (spawn_config (default "dev" name) port) = Ok pid ->
     exists e, dev_execute now (Some holder) self port false name (Ok tt) (Ok tt) events w =
       (Err e, {| store := store w; acts := acts w ++ [Spawned (spawn_config (default "dev" name) port) pid] |})).
Proof.
  intros Hx. destruct (open_held _ Hx) as [e He]. split; [|split; [|split]].
  - intros name. exists e. unfold stop. by rewrite He.
  - exists e. unfold prune. by rewrite He.
  - intros now name port. unfold run_detached. destruct (ensure_daemon_running w) as [r w'] eqn:E.
    apply ensure_daemon_acts in E as [Hs Ha]. destruct r as [[]|e']; [rewrite He|]; eauto.
  - intros now self port name events pid Hh Hc Hsp. exists e. unfold dev_execute, ensure_daemon_running_for_services, ensure_daemon.
    rewrite Hh, Hc. cbn [negb]. unfold spawn. rewrite Hsp, He. done.
Qed.

(** [mik dev] leaves no server behind: when it ends normally, every server
    it started, first or at one of the reloads, has been killed or was found
    not to be running when it was to be. During the watch loop the database
    is open already, so no reload is recorded: the instance keeps the process
    ID of the first server. *)
Lemma dev_stops_its_servers now holder self port no_services name modules_created watching events (w w' : World) :
  is_ok (db_open (Some self)) = false -> (forall c pid, Spawned c pid ∉ acts w) ->
  dev_execute now holder self port no_services name modules_created watching events w = (Ok tt, w') ->
  (forall c pid, Spawned c pid ∈ acts w' -> gone w' pid) /\
  (forall d, store (world (fold_left (handle_watch_event (Some self) (spawn_config (default "dev" name) port)) events d)) =
             store (world d)).
Proof.
  intros Hself Hw E. pose proof (watch_store (Some self) (spawn_config (default "dev" name) port) events Hself) as Hst.
  unfold dev_execute in E.
  destruct (if no_services then (Ok tt, w) else ensure_daemon_running_for_services w) as [r w1] eqn:Ee.
  assert (forall c pid, Spawned c pid ∉ acts w1) as Hw1.
  { destruct no_services; [by injection Ee as <- <-|]. apply ensure_daemon_acts in Ee as [_ [->|[p ->]]]; [done|].
    intros c pid [Hin|Hin]%elem_of_app; [by eapply Hw|by apply list_elem_of_singleton in Hin]. }
  destruct r as [[]|]; [|done]. destruct config_exists; [|done]. cbn [negb] in E. destruct modules_created; [|done].
  unfold spawn in E. destruct (spawn_instance _ _) as [pid|]; [|done]. destruct (open_store holder); [|done].
  destruct (save _ _) as [[[]|] w2] eqn:Es; [|done]. destruct watching; [|done].
  assert (none_leaked {| current_pid := pid; world := w2 |}) as Hd.
  { unfold none_leaked. cbn [world current_pid].
    assert (acts w2 = acts w1 ++ [Spawned (spawn_config (default "dev" name) port) pid]) as ->
      by (change w2 with (snd (Ok tt : result unit (list string), w2)); rewrite <- Es, save_acts; done).
    intros c p [Hin|Hin]%elem_of_app; [by exfalso; eapply Hw1|]. apply list_elem_of_singleton in Hin as [= _ ->]. by left. }
  apply (watch_no_leak (Some self) (spawn_config (default "dev" name) port) events) in Hd.
  change (sc_name (spawn_config (default "dev" name) port)) with (default "dev" name) in E.
  split; [|done]. by eapply dev_cleanup_no_leak.
Qed.
End Cli.

(** ** Witnesses *)

Definition toy_serde : Serde Instance Instance := {| to_vec i := Ok i; from_slice i := Ok i |}.

Definition toy_open (holder : option Z) : result unit string :=
  match holder with Some _ => Err "Database already open. Cannot acquire lock." | None => Ok tt end.

Definition toy_shell : World (Bytes := Instance) :=
  {| store := {| StateStore.instances := ∅; StateStore.cron_jobs := ∅; StateStore.cron_history := ∅ |}; acts := [] |}.

(** A process runs until it is killed. *)
Definition toy_running (acts : list Action) (pid : Z) : result bool string := 
  Ok (negb (existsb (fun a => match a with Killed p => p =? pid | _ => false end) acts)).

(** A server, a reload, and the end. *)
Definition toy_dev : result unit (list string) * World (Bytes := Instance) :=
  dev_execute (H := toy_serde) toy_running (fun _ _ => Ok tt) (fun acts _ => Ok (Z.of_nat (length acts))) db_ok toy_open
    "state.redb" (Some 1) (fun _ => true) (Ok 1) (Ok tt) [RootDir] true 0 None 2 3000 true None (Ok tt) (Ok tt)
    [(5, ConfigChanged)] toy_shell.

