(* ===== verification/Json.v ===== *)
(** Json: the [serde_json::Value] the gateway works on. An object is the
    [BTreeMap] of its members: a list with increasing keys. A number is kept
    as its text, which no code of the repository looks into. *)

From stdpp Require Import base list strings sorting.
From S2P Require Import Prelude SortBy Http.

(** ** Values *)

Unset Elimination Schemes.
Inductive Value :=
| Null
| Bool (b : bool)
| Number (text : string)
| Text (s : string)
| Array (items : list Value)
| Object (members : list (string * Value)).
Set Elimination Schemes.

Notation Map := (list (string * Value)) (only parsing).

Section Value_ind.
Variable P : Value -> Prop.
Hypothesis P_Null : P Null.
Hypothesis P_Bool : forall b, P (Bool b).
Hypothesis P_Number : forall t, P (Number t).
Hypothesis P_Text : forall s, P (Text s).
Hypothesis P_Array : forall l, Forall P l -> P (Array l).
Hypothesis P_Object : forall m, Forall (fun e => P e.2) m -> P (Object m).

Fixpoint Value_ind (v : Value) : P v :=
  match v with
  | Null => P_Null
  | Bool b => P_Bool b
  | Number t => P_Number t
  | Text s => P_Text s
  | Array l =>
      P_Array l ((fix go l : Forall P l :=
        match l with
        | [] => Forall_nil_2 P
        | x :: l => Forall_cons_2 P x l (Value_ind x) (go l)
        end) l)
  | Object m =>
      P_Object m ((fix go m : Forall (fun e => P e.2) m :=
        match m with
        | [] => Forall_nil_2 (fun e => P e.2)
        | e :: m => Forall_cons_2 (fun e => P e.2) e m (Value_ind e.2) (go m)
        end) m)
  end.
End Value_ind.

(** ** Operations *)

(** [BTreeMap::insert]: the old value of the key is replaced. *)
Fixpoint map_insert {A} (k : string) (v : A) (m : list (string * A)) : list (string * A) :=
  match m with
  | [] => [(k, v)]
  | (k', v') :: r =>
      match String.compare k k' with
      | Lt => (k, v) :: m
      | Eq => (k, v) :: r
      | Gt => (k', v') :: map_insert k v r
      end
  end.

Fixpoint map_get {A} (k : string) (m : list (string * A)) : option A :=
  match m with
  | [] => None
  | (k', v') :: r => if String.eqb k k' then Some v' else map_get k r
  end.

Definition as_object (v : Value) : option Map :=
  match v with Object m => Some m | _ => None end.
Definition as_str (v : Value) : option string :=
  match v with Text s => Some s | _ => None end.
(** [Value::get] with a string index *)
Definition get (k : string) (v : Value) : option Value := as_object v ≫= map_get k.

(** [serde_json::to_string] *)
Fixpoint to_string (v : Value) : string :=
  match v with
  | Null => "null"
  | Bool b => if b then "true" else "false"
  | Number t => t
  | Text s => json_string s
  | Array l => "[" +:+ Str.join "," (map to_string l) +:+ "]"
  | Object m =>
      "{" +:+ Str.join "," (map (fun e => json_string e.1 +:+ ":" +:+ to_string e.2) m) +:+ "}"
  end.

(** ** Maps *)

Definition key_lt {A} (a b : string * A) : Prop := String.compare a.1 b.1 = Lt.
Notation ordered := (StronglySorted key_lt).

#[export] Instance key_lt_trans {A} : Transitive (key_lt (A := A)).
Proof.
  intros [a ?] [b ?] [c ?]. unfold key_lt. simpl. revert b c.
  induction a as [|x a IH]; intros [|y b] [|z c]; simpl; try done. unfold Ascii.compare.
  destruct (N.compare_spec (N_of_ascii x) (N_of_ascii y)) as [E1|E1|E1];
    destruct (N.compare_spec (N_of_ascii y) (N_of_ascii z)) as [E2|E2|E2];
    destruct (N.compare_spec (N_of_ascii x) (N_of_ascii z)) as [E3|E3|E3];
    try done; try lia. apply IH.
Qed.

Lemma compare_refl s : String.compare s s = Eq.
Proof. induction s as [|c s IH]; [done|]. by rewrite compare_cons. Qed.

Lemma compare_Gt_Lt s t : String.compare s t = Gt -> String.compare t s = Lt.
Proof. intros E. rewrite String.compare_antisym, E. done. Qed.

(** Insertion is that of a map, on any list. *)
Lemma map_get_insert {A} j k (v : A) m :
  map_get j (map_insert k v m) = if String.eqb j k then Some v else map_get j m.
Proof.
  induction m as [|[k' v'] m IH]; simpl; [done|].
  destruct (String.compare k k') eqn:E; simpl.
  - apply String.compare_eq_iff in E as <-. by destruct (String.eqb j k).
  - done.
  - rewrite IH. destruct (String.eqb_spec j k) as [->|]; [|done].
    destruct (String.eqb_spec k k') as [->|]; [|done]. by rewrite compare_refl in E.
Qed.

Lemma elem_of_map_insert {A} (e : string * A) k v m : e ∈ map_insert k v m -> e = (k, v) \/ e ∈ m.
Proof.
  induction m as [|[k' v'] m IH]; simpl; [set_solver|].
  destruct (String.compare k k'); set_solver.
Qed.

Lemma map_insert_ordered {A} k (v : A) m : ordered m -> ordered (map_insert k v m).
Proof.
  induction 1 as [|[k' v'] m Hm IH Hf]; simpl; [by repeat constructor|].
  destruct (String.compare k k') eqn:E.
  - apply String.compare_eq_iff in E as <-. constructor; done.
  - constructor; [by constructor|]. constructor; [done|].
    eapply Forall_impl; [exact Hf|]. intros x. by apply transitivity.
  - constructor; [done|]. apply Forall_forall. intros e [->|He]%elem_of_map_insert.
    + by apply compare_Gt_Lt.
    + rewrite Forall_forall in Hf. by apply Hf.
Qed.

Lemma map_get_Some_elem {A} k (v : A) m : map_get k m = Some v -> (k, v) ∈ m.
Proof.
  induction m as [|[k' v'] m IH]; simpl; [done|].
  destruct (String.eqb_spec k k') as [->|]; [intros [= ->]; left|]. right; auto.
Qed.

Lemma map_get_elem {A} k (v : A) m : ordered m -> (k, v) ∈ m -> map_get k m = Some v.
Proof.
  induction 1 as [|[k' v'] m Hm IH Hf]; simpl; [by intros ?%elem_of_nil|].
  intros [[= <- <-]|He]%elem_of_cons; [by rewrite String.eqb_refl|].
  destruct (String.eqb_spec k k') as [->|]; [|by apply IH].
  rewrite Forall_forall in Hf. specialize (Hf _ He). unfold key_lt in Hf. simpl in Hf.
  by rewrite compare_refl in Hf.
Qed.

Lemma map_get_key {A} k (m : list (string * A)) : is_Some (map_get k m) <-> k ∈ m.*1.
Proof.
  induction m as [|[j v] m IH]; simpl; [by split; [intros [? ?]|set_solver]|].
  rewrite elem_of_cons, <- IH. destruct (String.eqb_spec k j) as [->|]; [|naive_solver].
  split; eauto.
Qed.

Lemma NoDup_fst_unique {A B} (l : list (A * B)) k v v' :
  NoDup l.*1 -> (k, v) ∈ l -> (k, v') ∈ l -> v = v'.
Proof.
  induction l as [|[j w] l IH]; simpl; [by intros _ ?%elem_of_nil|]. rewrite NoDup_cons, !elem_of_cons.
  assert (forall x, (k, x) ∈ l -> k ∈ l.*1) as Hin by (intros x Hx; by apply (list_elem_of_fmap_2 fst) in Hx).
  naive_solver.
Qed.

(** Appending an entry beyond all the others. *)
Lemma map_insert_last {A} k (v : A) m :
  Forall (fun e => key_lt e (k, v)) m -> map_insert k v m = m ++ [(k, v)].
Proof.
  induction 1 as [|[k' v'] m Hlt Hm IH]; [done|]. simpl in *. unfold key_lt in Hlt. simpl in Hlt.
  rewrite String.compare_antisym, Hlt. simpl. by rewrite IH.
Qed.

(** A loop that inserts a transformed entry for every entry of a map. *)
Lemma insert_all_ordered {A} (f : string * A -> A) m : ordered m -> forall acc,
  (forall e e', e ∈ acc -> e' ∈ m -> key_lt e e') ->
  fold_left (fun acc e => map_insert e.1 (f e) acc) m acc = acc ++ map (fun e => (e.1, f e)) m.
Proof.
  induction 1 as [|e m Hm IH Hf]; intros acc Hacc; simpl; [by rewrite app_nil_r|].
  rewrite Forall_forall in Hf.
  rewrite map_insert_last.
  2: { apply Forall_forall. intros x Hx. apply (Hacc x e); [done|left]. }
  rewrite IH; [by rewrite <- app_assoc|].
  intros x y [Hx| ->%list_elem_of_singleton]%elem_of_app Hy.
  - apply Hacc; [done|by right].
  - by apply (Hf y).
Qed.

(** ** Well-formed values: the keys of every object increase *)

Fixpoint keys_increase (ks : list string) : bool :=
  match ks with
  | k :: (k' :: _) as r => String.ltb k k' && keys_increase r
  | _ => true
  end%bool.

Fixpoint wf (v : Value) : bool :=
  match v with
  | Array l => forallb wf l
  | Object m => keys_increase (map fst m) && forallb (fun e => wf e.2) m
  | _ => true
  end%bool.

Lemma keys_increase_ordered {A} (m : list (string * A)) :
  keys_increase (map fst m) = true <-> ordered m.
Proof.
  induction m as [|[k v] m IH]; [by split; [constructor|]|].
  rewrite StronglySorted_cons, <- IH. destruct m as [|[k' v'] m]; [naive_solver|].
  change (keys_increase (map fst ((k, v) :: (k', v') :: m))) with
    (String.ltb k k' && keys_increase (map fst ((k', v') :: m)))%bool.
  rewrite andb_true_iff. unfold String.ltb.
  assert ((String.compare k k' = Lt) <-> (match String.compare k k' with Lt => true | _ => false end = true))
    as Hlt by (destruct (String.compare k k'); naive_solver).
  rewrite <- Hlt. split.
  - intros [H1 H2]. split; [|done]. apply IH in H2. apply StronglySorted_cons in H2 as [H2 _].
    constructor; [done|]. eapply Forall_impl; [exact H2|]. intros e. by apply (transitivity (y := (k', v'))).
  - intros [H1 H2]. apply Forall_cons in H1 as [H1 _]. done.
Qed.

Lemma wf_Object m : wf (Object m) = true <-> ordered m /\ Forall (fun e => wf e.2 = true) m.
Proof.
  simpl. rewrite andb_true_iff, keys_increase_ordered, forallb_forall, Forall_forall.
  by setoid_rewrite list_elem_of_In.
Qed.

Lemma wf_Array l : wf (Array l) = true <-> Forall (fun v => wf v = true) l.
Proof. simpl. rewrite forallb_forall, Forall_forall. by setoid_rewrite list_elem_of_In. Qed.

Lemma wf_get k v w : wf v = true -> get k v = Some w -> wf w = true.
Proof.
  unfold get. destruct v as [| | | | |m]; simpl; try done.
  intros [_ Hf]%wf_Object Hg%map_get_Some_elem. rewrite Forall_forall in Hf. exact (Hf _ Hg).
Qed.

(** ** Inserting a list of entries, the later ones last *)

Definition insert_list {A} (l m : list (string * A)) : list (string * A) :=
  fold_left (fun m e => map_insert e.1 e.2 m) l m.

Lemma insert_list_app {A} (l1 l2 m : list (string * A)) :
  insert_list (l1 ++ l2) m = insert_list l2 (insert_list l1 m).
Proof. apply fold_left_app. Qed.

Lemma insert_list_ordered {A} (l : list (string * A)) : forall m, ordered m -> ordered (insert_list l m).
Proof. induction l as [|e l IH]; intros m Hm; simpl; [done|]. by apply IH, map_insert_ordered. Qed.

Lemma insert_list_Forall {A} (P : string * A -> Prop) l : forall m,
  Forall P l -> Forall P m -> Forall P (insert_list l m).
Proof.
  induction l as [|[k v] l IH]; intros m Hl Hm; simpl; [done|].
  apply Forall_cons in Hl as [Hk Hl]. apply IH; [done|].
  rewrite Forall_forall in Hm |- *. intros e [->|He]%elem_of_map_insert; auto.
Qed.

(** The keys of the result are those of the entries. *)
Lemma insert_list_key {A} k (l : list (string * A)) : forall m,
  is_Some (map_get k (insert_list l m)) <-> is_Some (map_get k m) \/ k ∈ l.*1.
Proof.
  induction l as [|[j v] l IH]; intros m; simpl; [set_solver|].
  rewrite IH, map_get_insert, elem_of_cons. destruct (String.eqb_spec k j) as [->|]; [|naive_solver].
  split; eauto.
Qed.

Lemma insert_list_elem {A} k (v : A) l : map_get k (insert_list l []) = Some v -> (k, v) ∈ l.
Proof.
  intros H%map_get_Some_elem.
  assert (Forall (fun e => e ∈ l) (insert_list l [])) as Hf.
  { apply insert_list_Forall; [|done]. by apply Forall_forall. }
  rewrite Forall_forall in Hf. by apply Hf.
Qed.

(** An entry whose key no other value is inserted for is found. *)
Lemma insert_list_unique {A} k (v : A) l :
  (k, v) ∈ l -> (forall v', (k, v') ∈ l -> v' = v) -> map_get k (insert_list l []) = Some v.
Proof.
  intros Hin Hu. destruct (map_get k (insert_list l [])) as [w|] eqn:E.
  - apply insert_list_elem in E. by rewrite (Hu _ E).
  - assert (is_Some (map_get k (insert_list l []))) as [? ?]; [|congruence].
    apply insert_list_key. right. by apply (list_elem_of_fmap_2 fst) in Hin.
Qed.

(** ** [serde_json::to_string_pretty]: two spaces per level *)

Definition NL : string := String "010" EmptyString.
Fixpoint spaces (n : nat) : string :=
  match n with O => EmptyString | S n => "  " +:+ spaces n end.

(** The items of an array or an object, one per line. *)
Definition block (level : nat) (op cl : string) (items : list string) : string :=
  match items with
  | [] => op +:+ cl
  | _ => op +:+ NL +:+ Str.join ("," +:+ NL) (map (fun i => spaces (S level) +:+ i) items) +:+
         NL +:+ spaces level +:+ cl
  end.

Fixpoint pretty_at (level : nat) (v : Value) : string :=
  match v with
  | Array l => block level "[" "]" (map (pretty_at (S level)) l)
  | Object m =>
      block level "{" "}" (map (fun e => json_string e.1 +:+ ": " +:+ pretty_at (S level) e.2) m)
  | _ => to_string v
  end.
Definition to_string_pretty : Value -> string := pretty_at 0.
