(* ===== verification/Sql.v ===== *)
(** Sql: the SQL service of the daemon, of [src/src/daemon/services/sql/]
    (types.rs, backend.rs, sqlite.rs, memory.rs, service.rs) and
    [src/src/daemon/http/handlers/sql.rs]. The two backends run the same code
    on a connection, which a mutex makes available to one operation at a time;
    SQLite itself is a class, whose laws are its documented transactions. *)

From stdpp Require Import base list strings.
From S2P Require Import Prelude StdPath AppError Json.

#[local] Open Scope Z_scope.

(** ** Data *)

Section Values.
(** [f64] *)
Context {F : Type}.

Inductive SqlValue :=
| SNull
| SInteger (i : Z)
| SReal (f : F)
| SText (s : string)
| SBlob (b : string).

Record Row := {
  columns : list string;
  values : list SqlValue;
}.

(** [Row::get] *)
Definition row_get (column : string) (r : Row) : option SqlValue :=
  match list_find (fun c => c = column) (columns r) with
  | Some (idx, _) => values r !! idx
  | None => None
  end.

Record SqlQueryRequest := {
  q_sql : string;
  q_params : list Value;
}.

Record SqlQueryResponse := {
  r_columns : list string;
  r_rows : list (list Value);
}.

(** *** JSON *)

(** [serde_json::Number::as_i64] and [as_f64], and [json!] of a float *)
Variable as_i64 : string -> option Z.
Variable as_f64 : string -> option F.
Variable json_f64 : F -> Value.

Definition json_to_sql_value (v : Value) : SqlValue :=
  match v with
  | Null => SNull
  | Bool b => SInteger (if b then 1 else 0)
  | Number n =>
      match as_i64 n with
      | Some i => SInteger i
      | None => match as_f64 n with Some f => SReal f | None => SText n end
      end
  | Text s => SText s
  | _ => SText (to_string v)
  end.

(** [{byte:02x}] *)
Definition hex_digit (n : N) : ascii := if (n <? 10)%N then Str.chr (48 + n) else Str.chr (87 + n).
Fixpoint hex (b : string) : string :=
  match b with
  | EmptyString => EmptyString
  | String c b => String (hex_digit (Str.code c / 16)) (String (hex_digit (Str.code c mod 16)) (hex b))
  end.

Definition sql_to_json_value (v : SqlValue) : Value :=
  match v with
  | SNull => Null
  | SInteger i => Number (Str.of_Z i)
  | SReal f => json_f64 f
  | SText s => Text s
  | SBlob b => Object [("hex", Text (hex b))]
  end.

End Values.
Arguments SqlValue : clear implicits.
Arguments Row : clear implicits.

(** ** Connections *)

(** [rusqlite]: a statement is prepared, which gives the names of its columns;
    executed, which gives the number of rows it changed; or queried, where
    fetching a row may fail as well. *)
Class SqlEngine (C F : Type) := {
  conn_prepare : string -> C -> result (list (option string)) string;
  conn_query : string -> list (SqlValue F) -> C -> result (result (list (list (SqlValue F))) string) string * C;
  conn_execute : string -> list (SqlValue F) -> C -> result Z string * C;
  conn_execute_batch : string -> C -> result unit string * C;
}.

Section Backend.
Context {C F : Type} `{SqlEngine C F}.

(** *** Operations ([sqlite.rs], [memory.rs]) *)

Section Open.
Variable create_dir_all : Path -> result unit string.
(** [Connection::open] *)
Variable conn_open : string -> result C string.

Definition FOREIGN_KEYS : string := "PRAGMA foreign_keys = ON".

Definition enable_foreign_keys (c : C) : result C (list string) :=
  let '(r, c) := conn_execute FOREIGN_KEYS [] c in
  match r with
  | Ok _ => Ok c
  | Err e => Err ["Failed to enable foreign keys"; e]
  end.

Definition open_file (path : string) : result C (list string) :=
  let created := match parent (components path) with
                 | Some p => match create_dir_all p with
                             | Ok _ => Ok tt
                             | Err e => Err ["Failed to create database directory: " +:+ to_str p; e]
                             end
                 | None => Ok tt
                 end in
  let? _ := created in
  match conn_open path with
  | Err e => Err ["Failed to open SQLite database: " +:+ path; e]
  | Ok c => enable_foreign_keys c
  end.

Definition open_memory : result C (list string) :=
  match conn_open ":memory:" with
  | Err e => Err ["Failed to create in-memory SQLite database"; e]
  | Ok c => enable_foreign_keys c
  end.
End Open.

Definition query_sync (sql : string) (params : list (SqlValue F)) (c : C)
  : result (list (Row F)) (list string) * C :=
  match conn_prepare sql c with
  | Err e => (Err ["Failed to prepare query: " +:+ sql; e], c)
  | Ok names =>
      let column_names := map (default "unknown") names in
      let '(r, c) := conn_query sql params c in
      (match r with
       | Err e => Err ["Failed to execute query: " +:+ sql; e]
       | Ok (Err e) => Err ["Failed to fetch query results"; e]
       | Ok (Ok rows) => Ok (map (fun vs => {| columns := column_names; values := vs |}) rows)
       end, c)
  end.

Definition execute_sync (sql : string) (params : list (SqlValue F)) (c : C)
  : result Z (list string) * C :=
  let '(r, c) := conn_execute sql params c in
  (match r with
   | Ok affected => Ok affected
   | Err e => Err ["Failed to execute statement: " +:+ sql; e]
   end, c).

Definition execute_batch_sync (sql : string) (c : C) : result unit (list string) * C :=
  let '(r, c) := conn_execute_batch sql c in
  (match r with Ok _ => Ok tt | Err e => Err ["Failed to execute batch: " +:+ sql; e] end, c).

(** The loop of [execute_batch_atomic_sync]. The error is the outer message. *)
Fixpoint batch_loop (statements : list (string * list (SqlValue F))) (results : list Z) (c : C)
  : result (list Z) (list string) * C :=
  match statements with
  | [] => (Ok results, c)
  | (sql, params) :: statements =>
      let '(r, c) := conn_execute sql params c in
      match r with
      | Ok affected => batch_loop statements (results ++ [affected]) c
      | Err e => (Err [e; "Failed to execute statement: " +:+ sql], (conn_execute "ROLLBACK" [] c).2)
      end
  end.

Definition execute_batch_atomic_sync (statements : list (string * list (SqlValue F))) (c : C)
  : result (list Z) (list string) * C :=
  let '(begun, c) := conn_execute "BEGIN TRANSACTION" [] c in
  match begun with
  | Err e => (Err ["Failed to begin transaction"; e], c)
  | Ok _ =>
      match batch_loop statements [] c with
      | (Err e, c) => (Err e, c)
      | (Ok results, c) =>
          let '(committed, c) := conn_execute "COMMIT" [] c in
          match committed with
          | Err e => (Err ["Failed to commit transaction"; e], c)
          | Ok _ => (Ok results, c)
          end
      end
  end.

(** *** Handlers ([handlers/sql.rs]) *)

Variable as_i64 : string -> option Z.
Variable as_f64 : string -> option F.
Variable json_f64 : F -> Value.

Notation to_sql := (json_to_sql_value as_i64 as_f64).

(** A handler runs on the connection of the service, if it is enabled. *)
Definition with_sql {A} (sql : option C) (f : C -> result A (list string) * C)
  : result A AppError * option C :=
  match get_service "SQL" sql with
  | Err e => (Err e, sql)
  | Ok c => let '(r, c) := f c in
            (match r with Ok a => Ok a | Err e => Err (from_error (hd EmptyString e)) end, Some c)
  end.

Definition sql_query (req : SqlQueryRequest) (sql : option C) : result SqlQueryResponse AppError * option C :=
  let '(r, sql) := with_sql sql (query_sync (q_sql req) (map to_sql (q_params req))) in
  (match r with
   | Ok rows => Ok {| r_columns := match rows with r :: _ => columns r | [] => [] end;
                      r_rows := map (fun r => map (sql_to_json_value json_f64) (values r)) rows |}
   | Err e => Err e
   end, sql).

Definition sql_execute (req : SqlQueryRequest) (sql : option C) : result Z AppError * option C :=
  with_sql sql (execute_sync (q_sql req) (map to_sql (q_params req))).

Definition sql_batch (reqs : list SqlQueryRequest) (sql : option C) : result (list Z) AppError * option C :=
  with_sql sql (execute_batch_atomic_sync (map (fun r => (q_sql r, map to_sql (q_params r))) reqs)).

End Backend.

(** ** Transactions *)

(** What SQLite documents of a connection: [data] is what it sees, [durable]
    what survives it. [plain] statements do not control transactions. *)
Class Transactions (C DB F : Type) := {
  data : C -> DB;
  durable : C -> DB;
  in_transaction : C -> bool;
  plain : string -> bool;
  effect : string -> list (SqlValue F) -> DB -> Z -> DB -> Prop;
}.

Class TransactionLaws (C DB F : Type) `{SqlEngine C F, Transactions C DB F} := {
  (* In autocommit mode nothing is pending. *)
  autocommit : forall c : C, in_transaction c = false -> data c = durable c;
  begin_ok : forall (c c' : C) n, conn_execute "BEGIN TRANSACTION" [] c = (Ok n, c') ->
    in_transaction c = false /\ in_transaction c' = true /\ data c' = data c /\ durable c' = durable c;
  begin_err : forall (c c' : C) e, conn_execute "BEGIN TRANSACTION" [] c = (Err e, c') -> c' = c;
  commit_ok : forall (c c' : C) n, conn_execute "COMMIT" [] c = (Ok n, c') ->
    in_transaction c = true /\ in_transaction c' = false /\ durable c' = data c;
  (* A transaction that cannot be committed stays open. *)
  commit_err : forall (c c' : C) e, conn_execute "COMMIT" [] c = (Err e, c') ->
    in_transaction c' = in_transaction c /\ data c' = data c /\ durable c' = durable c;
  rollback_open : forall c : C, in_transaction c = true ->
    let c' := (conn_execute "ROLLBACK" [] c).2 in in_transaction c' = false /\ durable c' = durable c;
  rollback_closed : forall c : C, in_transaction c = false ->
    let c' := (conn_execute "ROLLBACK" [] c).2 in in_transaction c' = false /\ durable c' = durable c;
  plain_ok : forall sql params (c c' : C) n, plain sql = true -> conn_execute sql params c = (Ok n, c') ->
    effect sql params (data c) n (data c') /\ in_transaction c' = in_transaction c /\
    (in_transaction c = true -> durable c' = durable c);
  (* Some errors end the transaction. *)
  plain_err : forall sql params (c c' : C) e, plain sql = true -> conn_execute sql params c = (Err e, c') ->
    durable c' = durable c /\ (in_transaction c = false -> in_transaction c' = false);
}.

Section Transactions.
Context {C DB F : Type} `{TransactionLaws C DB F}.
Notation Statement := (string * list (SqlValue F))%type.

(** The statements one after the other, with the rows each affects. *)
Inductive run_all : list Statement -> DB -> list Z -> DB -> Prop :=
| run_nil db : run_all [] db [] db
| run_cons sql params rest db n db' ns db'' :
    effect sql params db n db' -> run_all rest db' ns db'' ->
    run_all ((sql, params) :: rest) db (n :: ns) db''.

Lemma run_all_length ss db ns db' : run_all ss db ns db' -> length ns = length ss.
Proof. induction 1; cbn; congruence. Qed.

(** In a transaction the loop either runs every statement, with nothing
    durable yet, or ends the transaction and has changed nothing. *)
Lemma batch_loop_spec (ss : list Statement) : forall acc (c : C) r c',
  in_transaction c = true -> Forall (fun s => plain s.1 = true) ss ->
  batch_loop ss acc c = (r, c') ->
  durable c' = durable c /\
  match r with
  | Ok ns => exists ns', ns = acc ++ ns' /\ run_all ss (data c) ns' (data c') /\ in_transaction c' = true
  | Err _ => in_transaction c' = false
  end.
Proof.
  induction ss as [|[sql params] ss IH]; intros acc c r c' Ht Hp; cbn [batch_loop].
  { intros [= <- <-]. split; [done|]. exists []. rewrite app_nil_r. split; [done|]. by split; [constructor|]. }
  apply Forall_cons in Hp as [Hs Hp]. cbn in Hs.
  destruct (conn_execute sql params c) as [[n|e] c1] eqn:E.
  - destruct (plain_ok _ _ _ _ _ Hs E) as (He & Ht1 & Hd1). rewrite Ht in Ht1.
    intros (Hd & Hr)%IH; [|done|done]. rewrite Hd, Hd1 by done. split; [done|].
    destruct r as [ns|]; [|done]. destruct Hr as (ns' & -> & Hr & Ht').
    exists (n :: ns'). rewrite <- app_assoc. split; [done|]. split; [|done]. by econstructor.
  - destruct (plain_err _ _ _ _ _ Hs E) as [Hd1 _]. intros [= <- <-].
    destruct (in_transaction c1) eqn:Ht1;
      [destruct (rollback_open c1 Ht1) as [? ?]|destruct (rollback_closed c1 Ht1) as [? ?]];
      split; congruence.
Qed.

(** ** Properties *)


(** After a commit that failed the connection stays in the transaction:
    every later batch fails, and every other statement is answered as if it
    had run but is not durable, until some statement ends the transaction.
    The same happens when a client leaves a transaction open. *)
Lemma open_transaction_blocks (c : C) :
  in_transaction c = true ->
  (forall statements, exists e,
     execute_batch_atomic_sync statements c = (Err ["Failed to begin transaction"; e], c)) /\
  (forall sql params n c', plain sql = true -> execute_sync sql params c = (Ok n, c') ->
     in_transaction c' = true /\ durable c' = durable c /\ effect sql params (data c) n (data c')).
Proof.
  intros Ht. split.
  - intros ss. unfold execute_batch_atomic_sync.
    destruct (conn_execute "BEGIN TRANSACTION" [] c) as [[n|e] c1] eqn:Eb.
    + destruct (begin_ok _ _ _ Eb) as [? _]. congruence.
    + apply begin_err in Eb as ->. by exists e.
  - intros sql params n c' Hp. unfold execute_sync.
    destruct (conn_execute sql params c) as [[m|e] c1] eqn:E; [|done]. intros [= -> ->].
    destruct (plain_ok _ _ _ _ _ Hp E) as (He & Ht' & Hd). split; [congruence|]. split; [by apply Hd|done].
Qed.
End Transactions.

(** ** Witnesses *)

(** An engine whose tables are the statements that ran. The statement [bad]
    fails, and a transaction with the statement [deferred] cannot commit. *)
Module Toy.

Record Conn := {
  pending : option (list string);
  stored : list string;
}.

Definition broken (db : list string) : bool := existsb (String.eqb "deferred") db.

Definition execute (sql : string) (params : list (SqlValue Empty_set)) (c : Conn) : result Z string * Conn :=
  if String.eqb sql "BEGIN TRANSACTION" then
    match pending c with
    | None => (Ok 0, {| pending := Some (stored c); stored := stored c |})
    | Some _ => (Err "cannot start a transaction within a transaction", c)
    end
  else if String.eqb sql "COMMIT" then
    match pending c with
    | None => (Err "no transaction is active", c)
    | Some db => if broken db then (Err "FOREIGN KEY constraint failed", c)
                 else (Ok 0, {| pending := None; stored := db |})
    end
  else if String.eqb sql "ROLLBACK" then
    match pending c with
    | None => (Err "no transaction is active", c)
    | Some _ => (Ok 0, {| pending := None; stored := stored c |})
    end
  else if String.eqb sql "bad" then (Err "syntax error", c)
  else match pending c with
       | None => (Ok 1, {| pending := None; stored := stored c ++ [sql] |})
       | Some db => (Ok 1, {| pending := Some (db ++ [sql]); stored := stored c |})
       end.

Lemma execute_commit c :
  execute "COMMIT" [] c =
    match pending c with
    | None => (Err "no transaction is active", c)
    | Some db => if broken db then (Err "FOREIGN KEY constraint failed", c)
                 else (Ok 0, {| pending := None; stored := db |})
    end.
Proof. reflexivity. Qed.

#[export] Instance toy_engine : SqlEngine Conn Empty_set := {
  conn_prepare _ _ := Ok [];
  conn_query _ _ c := (Ok (Ok []), c);
  conn_execute := execute;
  conn_execute_batch _ c := (Ok tt, c);
}.

#[export] Instance toy_transactions : Transactions Conn (list string) Empty_set := {
  data c := default (stored c) (pending c);
  durable := stored;
  in_transaction c := match pending c with Some _ => true | None => false end;
  plain sql := negb (existsb (String.eqb sql) ["BEGIN TRANSACTION"; "COMMIT"; "ROLLBACK"]);
  effect sql _ db n db' := n = 1 /\ db' = db ++ [sql];
}.

#[export] Instance toy_laws : TransactionLaws Conn (list string) Empty_set.
Proof.
  split; cbn [conn_execute toy_engine data durable in_transaction plain effect toy_transactions].
  - intros [[p|] s]; done.
  - intros [[p|] s] c' n; cbn; [done|]. by intros [= <- <-].
  - intros [[p|] s] c' e; cbn; [|done]. by intros [= <- <-].
  - intros [[p|] s] c' n; rewrite execute_commit; cbn [pending]; [|done].
    destruct (broken p); [done|]. by intros [= <- <-].
  - intros [[p|] s] c' e; rewrite execute_commit; cbn [pending]; [destruct (broken p); [|done]|];
      by intros [= <- <-].
  - intros [[p|] s]; done.
  - intros [[p|] s]; done.
  - intros sql params [p s] c' n. unfold execute. cbn [existsb].
    destruct (String.eqb sql "BEGIN TRANSACTION"), (String.eqb sql "COMMIT"), (String.eqb sql "ROLLBACK"); try done.
    intros _. destruct (String.eqb sql "bad"); [done|].
    destruct p; cbn [pending stored]; intros [= <- <-]; cbn; done.
  - intros sql params [p s] c' e. unfold execute. cbn [existsb].
    destruct (String.eqb sql "BEGIN TRANSACTION"), (String.eqb sql "COMMIT"), (String.eqb sql "ROLLBACK"); try done.
    intros _. destruct (String.eqb sql "bad"); [by intros [= <- <-]|]. by destruct p.
Qed.

Definition start : Conn := {| pending := None; stored := ["create"] |}.
End Toy.

Section Witnesses.
Import Toy.


Definition left_open : Conn := (execute_batch_atomic_sync (F := Empty_set) [("deferred", [])] start).2.

End Witnesses.
