(* ===== verification/DaemonConfig.v ===== *)
(** DaemonConfig: where the daemon keeps its files, its configuration, and
    which services it opens: [src/src/daemon/paths.rs], [config.rs],
    [services/mod.rs] and [services/builder.rs], and the start of
    [commands/daemon.rs].

    The home directory, the file system, the TOML parser and the backends'
    constructors are parameters. *)

From S2P Require Import Prelude StdPath Instances.

#[local] Open Scope Z_scope.

(** ** Paths *)

Section Paths.
(** MIK_HOME, and [dirs::home_dir] *)
Variable mik_home : option string.
Variable home_dir : option Path.

Definition get_mik_dir : result Path (list string) :=
  match mik_home with
  | Some (String _ _ as h) => Ok (components h)
  | _ => match home_dir with
         | Some home => Ok (join home [Normal ".mik"])
         | None => Err ["Failed to get home directory"]
         end
  end.

Definition in_mik_dir (name : string) : result Path (list string) :=
  let? d := get_mik_dir in Ok (join d [Normal name]).

Definition get_tools_dir : result Path (list string) := in_mik_dir "tools".
Definition get_state_path : result Path (list string) := in_mik_dir "state.redb".
Definition get_daemon_pid_path : result Path (list string) := in_mik_dir "daemon.pid".
Definition get_logs_dir : result Path (list string) := in_mik_dir "logs".
Definition get_log_path (name : string) : result Path (list string) :=
  let? d := get_logs_dir in Ok (Instances.get_log_path d name).
Definition get_daemon_config_path : result Path (list string) := in_mik_dir "daemon.toml".
Definition get_cache_dir : result Path (list string) := in_mik_dir "cache".
Definition get_bin_dir : result Path (list string) := in_mik_dir "bin".

(** The file system, [str::trim] and the parser of [u32] *)
Variable exists_ : Path -> bool.
Variable read_to_string : Path -> result string string.
Variable trim : string -> string.
Variable parse_u32 : string -> option Z.

Definition get_daemon_pid : option Z :=
  match get_daemon_pid_path with
  | Ok p =>
      if exists_ p then match read_to_string p with Ok s => parse_u32 (trim s) | Err _ => None end else None
  | Err _ => None
  end.

Variable create_dir_all : Path -> result unit string.

Definition get_data_dir : result Path (list string) :=
  let? d := get_mik_dir in
  match create_dir_all d with Ok _ => Ok d | Err e => Err [e] end.
End Paths.

(** ** Configuration *)

Record DaemonSettings := {
  port : Z;
  max_auto_restarts : Z;
  health_check_interval_secs : Z;
}.

Record ServiceSettings := {
  kv_enabled : bool;
  sql_enabled : bool;
  storage_enabled : bool;
}.

Record DaemonConfig := {
  daemon : DaemonSettings;
  services : ServiceSettings;
}.

Definition default_daemon_settings : DaemonSettings :=
  {| port := 9919; max_auto_restarts := 10; health_check_interval_secs := 10 |}.
Definition default_service_settings : ServiceSettings :=
  {| kv_enabled := true; sql_enabled := true; storage_enabled := true |}.
Definition default_daemon_config : DaemonConfig :=
  {| daemon := default_daemon_settings; services := default_service_settings |}.

Section Load.
Variable config_path : result Path (list string).
Variable exists_ : Path -> bool.
Variable read_to_string : Path -> result string string.
(** [toml::from_str], with the defaults of the fields that are absent *)
Variable from_toml : string -> result DaemonConfig string.

Definition load : result DaemonConfig (list string) :=
  let? p := config_path in
  if negb (exists_ p) then Ok default_daemon_config
  else
    match read_to_string p with
    | Err e => Err ["Failed to read daemon config from " +:+ to_str p; e]
    | Ok content =>
        match from_toml content with
        | Err e => Err ["Failed to parse daemon config from " +:+ to_str p; e]
        | Ok config => Ok config
        end
    end.

(** The port, the database and the configuration [mik daemon] serves with. *)
Definition start (state_path : result Path (list string)) (port_override : option Z)
  : result (Z * Path * DaemonConfig) (list string) :=
  let config := match load with Ok c => c | Err _ => default_daemon_config end in
  let? p := state_path in
  Ok (default (port (daemon config)) port_override, p, config).
End Load.

(** ** Services *)

Section Services.
(** Key-value, SQL and object backends *)
Context {K C O : Type}.

Record ServicesBuilder := {
  b_kv : option K;
  b_sql : option C;
  b_storage : option O;
  kv_off : bool;
  sql_off : bool;
  storage_off : bool;
}.

Record Services := {
  kv : option K;
  sql : option C;
  storage : option O;
}.

Definition builder_new : ServicesBuilder :=
  {| b_kv := None; b_sql := None; b_storage := None; kv_off := false; sql_off := false; storage_off := false |}.

Definition set_kv (x : option K) (off : bool) (b : ServicesBuilder) : ServicesBuilder :=
  {| b_kv := x; b_sql := b_sql b; b_storage := b_storage b;
     kv_off := off; sql_off := sql_off b; storage_off := storage_off b |}.
Definition set_sql (x : option C) (off : bool) (b : ServicesBuilder) : ServicesBuilder :=
  {| b_kv := b_kv b; b_sql := x; b_storage := b_storage b;
     kv_off := kv_off b; sql_off := off; storage_off := storage_off b |}.
Definition set_storage (x : option O) (off : bool) (b : ServicesBuilder) : ServicesBuilder :=
  {| b_kv := b_kv b; b_sql := b_sql b; b_storage := x;
     kv_off := kv_off b; sql_off := sql_off b; storage_off := off |}.

(** The constructors of the backends *)
Variable create_dir_all : Path -> result unit string.
Variable redb_open : Path -> result K (list string).
Variable sqlite_open : Path -> result C (list string).
Variable filesystem_open : Path -> result O (list string).
Variable kv_new : K.
Variable sqlite_memory : result C (list string).
Variable storage_new : O.

Definition with_context {A} (msg : string) (r : result A (list string)) : result A (list string) :=
  match r with Err e => Err (msg :: e) | Ok a => Ok a end.

Definition data_dir (path : Path) (b : ServicesBuilder) : result ServicesBuilder (list string) :=
  match create_dir_all path with
  | Err e => Err ["Failed to create data directory: " +:+ to_str path; e]
  | Ok _ =>
      let kv_path := join path [Normal "kv.redb"] in
      let sql_path := join path [Normal "data.db"] in
      let storage_path := join path [Normal "storage"] in
      let? k := with_context ("Failed to open KV database: " +:+ to_str kv_path) (redb_open kv_path) in
      let? c := with_context ("Failed to open SQL database: " +:+ to_str sql_path) (sqlite_open sql_path) in
      let? o := with_context ("Failed to open storage: " +:+ to_str storage_path) (filesystem_open storage_path) in
      Ok {| b_kv := Some k; b_sql := Some c; b_storage := Some o; kv_off := false; sql_off := false;
            storage_off := false |}
  end.

Definition with_kv (k : K) (b : ServicesBuilder) : ServicesBuilder := set_kv (Some k) false b.
Definition kv_file (path : Path) (b : ServicesBuilder) : result ServicesBuilder (list string) :=
  let? k := redb_open path in Ok (set_kv (Some k) false b).
Definition kv_memory : ServicesBuilder -> ServicesBuilder := set_kv (Some kv_new) false.
Definition kv_disabled : ServicesBuilder -> ServicesBuilder := set_kv None true.

Definition with_sql (c : C) (b : ServicesBuilder) : ServicesBuilder := set_sql (Some c) false b.
Definition sql_file (path : Path) (b : ServicesBuilder) : result ServicesBuilder (list string) :=
  let? c := sqlite_open path in Ok (set_sql (Some c) false b).
Definition sql_memory (b : ServicesBuilder) : result ServicesBuilder (list string) :=
  let? c := sqlite_memory in Ok (set_sql (Some c) false b).
Definition sql_disabled : ServicesBuilder -> ServicesBuilder := set_sql None true.

Definition with_storage (o : O) (b : ServicesBuilder) : ServicesBuilder := set_storage (Some o) false b.
Definition storage_file (path : Path) (b : ServicesBuilder) : result ServicesBuilder (list string) :=
  let? o := filesystem_open path in Ok (set_storage (Some o) false b).
Definition storage_memory : ServicesBuilder -> ServicesBuilder := set_storage (Some storage_new) false.
Definition storage_disabled : ServicesBuilder -> ServicesBuilder := set_storage None true.

Definition build (b : ServicesBuilder) : Services := {|
  kv := if kv_off b then None else b_kv b;
  sql := if sql_off b then None else b_sql b;
  storage := if storage_off b then None else b_storage b |}.

Definition services_file (path : Path) : result Services (list string) :=
  let? b := data_dir path builder_new in Ok (build b).
Definition services_memory : result Services (list string) :=
  let? b := sql_memory (kv_memory builder_new) in Ok (build (storage_memory b)).

Definition has_kv (s : Services) : bool := bool_decide (is_Some (kv s)).
Definition has_sql (s : Services) : bool := bool_decide (is_Some (sql s)).
Definition has_storage (s : Services) : bool := bool_decide (is_Some (storage s)).

(** [serve]: the services of the daemon *)
Definition open_if {A} (enabled : bool) (msg : string) (r : result A (list string)) : result (option A) (list string) :=
  if enabled then (let? a := with_context msg r in Ok (Some a)) else Ok None.

Definition open_services (config : DaemonConfig) (dir : Path) : result Services (list string) :=
  let s := services config in
  let? k := open_if (kv_enabled s) "Failed to open KV store" (redb_open (join dir [Normal "kv.redb"])) in
  let? c := open_if (sql_enabled s) "Failed to open SQL database" (sqlite_open (join dir [Normal "sql.db"])) in
  let? o := open_if (storage_enabled s) "Failed to open storage service" (filesystem_open (join dir [Normal "storage"])) in
  Ok {| kv := k; sql := c; storage := o |}.

(** ** Lemmas *)

(** A service is enabled exactly if the configuration says so. *)
Lemma open_services_enabled config dir s : open_services config dir = Ok s ->
  has_kv s = kv_enabled (services config) /\ has_sql s = sql_enabled (services config) /\
  has_storage s = storage_enabled (services config).
Proof.
  unfold open_services, open_if, with_context, has_kv, has_sql, has_storage.
  destruct (services config) as [[] [] []]; cbn; repeat case_match; intros [= <-]; done.
Qed.

(** What is configured last counts, in any order of the services. *)
Lemma build_last (fs : list (ServicesBuilder -> ServicesBuilder)) b k :
  Forall (fun f => forall b, b_kv (f b) = b_kv b /\ kv_off (f b) = kv_off b) fs ->
  kv (build (foldl (fun b f => f b) (with_kv k b) fs)) = Some k /\
  kv (build (foldl (fun b f => f b) (kv_disabled b) fs)) = None.
Proof.
  intros Hfs.
  assert (forall b, b_kv (foldl (fun b f => f b) b fs) = b_kv b /\ kv_off (foldl (fun b f => f b) b fs) = kv_off b) as H.
  { induction Hfs as [|f fs Hf _ IH]; intros b'; [done|]. cbn [foldl]. destruct (IH (f b')) as [-> ->]. apply Hf. }
  cbn [build kv]. destruct (H (with_kv k b)) as [-> ->]. destruct (H (kv_disabled b)) as [-> ->]. done.
Qed.
End Services.
