(* ===== verification/DaemonApi.v ===== *)
(** DaemonApi: the HTTP interface of the daemon as a whole: the routes, the
    layers around them and the extractors of
    [src/src/daemon/http/mod.rs], the request types of [http/types.rs], and the
    request counter of [daemon/metrics.rs], composed with the handlers of
    Instances.v, Daemon.v, KvStore.v, Sql.v and Storage.v.

    axum's matching of paths is a parameter with the interface [RouterLaws];
    the JSON and query parsers are parameters as well. What a handler answers is
    the status and the value that is printed as JSON. *)

From stdpp Require Import base gmap list strings.
From S2P Require Import Prelude StdPath AppError Cron StateStore Daemon Instances KvStore KvLaws Storage Json Sql DaemonProps InstanceProps KvProps StorageLaws StorageProps DaemonConfig.

#[local] Open Scope Z_scope.

(** ** Routes *)

Inductive Seg := Lit (s : string) | Param | CatchAll.

Inductive Handler :=
| h_list_instances | h_start_instance | h_get_instance | h_stop_instance | h_restart_instance | h_get_logs
| h_kv_list | h_kv_get | h_kv_set | h_kv_delete
| h_sql_query | h_sql_execute | h_sql_batch
| h_storage_list | h_storage_get | h_storage_put | h_storage_delete | h_storage_head
| h_cron_list | h_cron_create | h_cron_get | h_cron_update | h_cron_delete | h_cron_trigger | h_cron_history
| h_metrics | h_health | h_version.

#[export] Instance Seg_eq_dec : EqDecision Seg.
Proof. solve_decision. Defined.
#[export] Instance Handler_eq_dec : EqDecision Handler.
Proof. solve_decision. Defined.

(** A path and its methods *)
Record Route := { pattern : list Seg; methods : list (string * Handler) }.

Definition route (pattern : list Seg) (methods : list (string * Handler)) : Route :=
  {| pattern := pattern; methods := methods |}.

Definition ROUTES : list Route := [
  route [Lit "instances"] [("GET", h_list_instances); ("POST", h_start_instance)];
  route [Lit "instances"; Param] [("GET", h_get_instance); ("DELETE", h_stop_instance)];
  route [Lit "instances"; Param; Lit "restart"] [("POST", h_restart_instance)];
  route [Lit "instances"; Param; Lit "logs"] [("GET", h_get_logs)];
  route [Lit "kv"] [("GET", h_kv_list)];
  route [Lit "kv"; Param] [("GET", h_kv_get); ("PUT", h_kv_set); ("DELETE", h_kv_delete)];
  route [Lit "sql"; Lit "query"] [("POST", h_sql_query)];
  route [Lit "sql"; Lit "execute"] [("POST", h_sql_execute)];
  route [Lit "sql"; Lit "batch"] [("POST", h_sql_batch)];
  route [Lit "storage"] [("GET", h_storage_list)];
  route [Lit "storage"; CatchAll]
    [("GET", h_storage_get); ("PUT", h_storage_put); ("DELETE", h_storage_delete); ("HEAD", h_storage_head)];
  route [Lit "cron"] [("GET", h_cron_list); ("POST", h_cron_create)];
  route [Lit "cron"; Param] [("GET", h_cron_get); ("PATCH", h_cron_update); ("DELETE", h_cron_delete)];
  route [Lit "cron"; Param; Lit "trigger"] [("POST", h_cron_trigger)];
  route [Lit "cron"; Param; Lit "history"] [("GET", h_cron_history)];
  route [Lit "metrics"] [("GET", h_metrics)];
  route [Lit "health"] [("GET", h_health)];
  route [Lit "version"] [("GET", h_version)]
].

(** What the segments of a path put into the parameters of a pattern *)
Fixpoint match_segs (p : list Seg) (segs : list string) : option (list string) :=
  match p, segs with
  | [], [] => Some []
  | Lit s :: p, x :: segs => if String.eqb s x then match_segs p segs else None
  | Param :: p, x :: segs => if Str.is_empty x then None else cons x <$> match_segs p segs
  | [CatchAll], x :: segs => let rest := Str.join "/" (x :: segs) in if Str.is_empty rest then None else Some [rest]
  | _, _ => None
  end.

Definition segments (path : string) : option (list string) := Str.split Str.SLASH <$> Str.strip_prefix "/" path.

(** matchit, as documented: a path is routed to the pattern it matches. *)
Class RouterLaws (lookup : string -> option (Route * list string)) : Prop := {
  lookup_iff path r raws :
    lookup path = Some (r, raws) <->
    r ∈ ROUTES /\ exists segs, segments path = Some segs /\ match_segs (pattern r) segs = Some raws;
}.

Definition method_of (m : string) (r : Route) : option Handler :=
  snd <$> find (fun x => String.eqb m x.1) (methods r).

(** HEAD is served by the handler of GET unless there is one for HEAD. *)
Definition endpoint (m : string) (r : Route) : option Handler :=
  match method_of m r with
  | Some h => Some h
  | None => if String.eqb m "HEAD" then method_of "GET" r else None
  end.

(** ** Requests and answers *)

Record ApiRequest := {
  a_method : string;
  a_path : string;
  a_query : option string;
  a_api_key : option string;
  a_content_type : option string;
  a_body : string;
}.

(** [CronCreateRequest]: the fields with a default may be absent. *)
Record CronCreateRequest (Json : Type) := {
  cc_name : string;
  cc_module : string;
  cc_cron : string;
  cc_method : option string;
  cc_path : option string;
  cc_enabled : option bool;
  cc_port : option Z;
  cc_body : option Json;
  cc_headers : option (list (string * string));
  cc_health_path : option string;
}.
Arguments cc_name {Json} _.
Arguments cc_module {Json} _.
Arguments cc_cron {Json} _.
Arguments cc_method {Json} _.
Arguments cc_path {Json} _.
Arguments cc_enabled {Json} _.
Arguments cc_port {Json} _.
Arguments cc_body {Json} _.
Arguments cc_headers {Json} _.
Arguments cc_health_path {Json} _.

Definition schedule_config {Json} (req : CronCreateRequest Json) : ScheduleConfig Json := {|
  Cron.name := cc_name req; Cron.module := cc_module req; Cron.cron := cc_cron req;
  Cron.method := default "GET" (cc_method req); Cron.path := default "/" (cc_path req);
  Cron.enabled := default true (cc_enabled req); Cron.port := default 3000 (cc_port req);
  Cron.body := cc_body req; Cron.headers := cc_headers req;
  Cron.health_path := default "/health" (cc_health_path req) |}.

Inductive Payload :=
| Nothing
| Plain (text : string)
| ErrorMessage (message : string)
| InstanceList (l : list InstanceResponse)
| OneInstance (i : InstanceResponse)
| LogLines (name : string) (lines : list string)
| Keys (keys : list string)
| KeyValue (key value : string)
| Rows (r : SqlQueryResponse)
| Affected (n : Z)
| AffectedList (l : list Z)
| Objects (l : list ObjectMeta)
| Data (content_type data : string)
| Meta (content_type : string) (size : Z)
| CronJobs (l : list CronJobResponse)
| CronJob (j : CronJobResponse)
| CronCreated (name : string)
| CronDeleted (name : string)
| CronUpdated (name : string) (enabled : bool)
| CronTriggered (name id : string)
| CronHistory (name : string) (l : list JobExecution)
| Health
| Version
| HeadersOf (p : Payload).

Record Answer := { status : Z; payload : Payload }.

Definition ok_with (p : Payload) : Answer := {| status := 200; payload := p |}.

(** The rejections of axum's extractors *)
Inductive Rejection := r_bad_request | r_too_large | r_media_type | r_unprocessable | r_internal.

Definition rejection_status (r : Rejection) : Z :=
  match r with
  | r_bad_request => 400
  | r_too_large => 413
  | r_media_type => 415
  | r_unprocessable => 422
  | r_internal => 500
  end.
Definition rejected (r : Rejection) : Answer := {| status := rejection_status r; payload := Nothing |}.

Definition answer {A} (ok : A -> Answer) (r : result A AppError) : Answer :=
  match r with
  | Ok a => ok a
  | Err e => {| status := (status_and_message e).1; payload := ErrorMessage (status_and_message e).2 |}
  end.

(** ** Metrics ([metrics.rs]) *)

Definition digit_value (c : ascii) : Z := Z.of_N (Str.code c) - 48.
Definition digits_value (s : string) : Z :=
  fold_left (fun n c => n * 10 + digit_value c) (String.list_ascii_of_string s) 0.
(** [str::parse::<u64>().is_ok()] *)
Definition parses_u64 (s : string) : bool :=
  let s := match Str.strip_prefix "+" s with Some s => s | None => s end in
  (negb (Str.is_empty s) && Str.all Str.is_digit s && (digits_value s <=? u64_max))%bool.

Fixpoint trim_start_slashes (s : string) : string :=
  match s with
  | String c s' => if Ascii.eqb c Str.SLASH then trim_start_slashes s' else s
  | EmptyString => EmptyString
  end.

Definition normalize_segment (seg : string) : string :=
  if ((Str.len seg =? 36) && Str.contains_char "-" seg)%bool then ":id"
  else if parses_u64 seg then ":id"
  else seg.

Definition normalize_path (path : string) : string :=
  "/" +:+ Str.join "/" (normalize_segment <$> Str.split Str.SLASH (trim_start_slashes path)).

(** The series of [mik_http_requests_total], by method, path and status *)
Notation Series := (gmap (string * string * Z) Z).

Definition record_http_request (method path : string) (code : Z) (m : Series) : Series :=
  let key := (method, normalize_path path, code) in
  <[key := wrap_u64 (default 0 (m !! key) + 1)]> m.

(** ** The server *)

Section Api.
Context {Json Sch Bytes K C F O : Type}.
Context `{JobScheduler Sch}.
Context `{Serde Bytes Instance} `{Serde Bytes (ScheduleConfig Json)} `{Serde Bytes JobExecution}.
Context `{KvBackend K} `{SqlEngine C F} `{StorageBackend O}.

Record Api := {
  daemon : Daemon Json Sch Bytes;
  services : Services (K := K) (C := C) (O := O);
  requests : Series;
}.

Variable lookup : string -> option (Route * list string).
(** The decoding of a path parameter, if it is UTF-8 *)
Variable decode : string -> option string.
(** [Json] and [Query]: the value, or the rejection *)
Variable json_type : option string -> option Rejection.
Variable parse_start : string -> result StartInstanceRequest Rejection.
Variable parse_kv_set : string -> result (string * option Z) Rejection.
Variable parse_sql : string -> result SqlQueryRequest Rejection.
Variable parse_batch : string -> result (list SqlQueryRequest) Rejection.
Variable parse_cron : string -> result (CronCreateRequest Json) Rejection.
Variable parse_update : string -> result (option bool) Rejection.
Variable query_prefix : option string -> result (option string) Rejection.
Variable query_list : option string -> result (option string * option nat) Rejection.
Variable query_lines : option string -> result (option nat) Rejection.
(** The arguments of the handlers *)
Variable fmt : Instant -> string.
Variable iter : gmap string (JobState Json) -> list (string * JobState Json).
Variable as_i64 : string -> option Z.
Variable as_f64 : string -> option F.
Variable json_f64 : F -> Value.
Variable db : Db.
Variable os : Os (Json := Json).
Variable logs_dir : result Path string.
Variable exists_ : Path -> bool.
Variable read_lines : Path -> result (list string) string.
Variable render : Series -> string.
(** MIK_API_KEY *)
Variable api_key : option string.
(** The time, the identifier of an execution and what its call takes *)
Variable now : Instant.
Variable id : string.
Variable run : Run Json.

Definition with_daemon (d : Daemon Json Sch Bytes) (s : Api) : Api :=
  {| daemon := d; services := services s; requests := requests s |}.
Definition with_kv_store (k : option K) (s : Api) : Api :=
  {| daemon := daemon s; services := {| kv := k; sql := sql (services s); storage := storage (services s) |};
     requests := requests s |}.
Definition with_sql_service (c : option C) (s : Api) : Api :=
  {| daemon := daemon s; services := {| kv := kv (services s); sql := c; storage := storage (services s) |};
     requests := requests s |}.
Definition with_storage_service (o : option O) (s : Api) : Api :=
  {| daemon := daemon s; services := {| kv := kv (services s); sql := sql (services s); storage := o |};
     requests := requests s |}.
Definition with_requests (m : Series) (s : Api) : Api :=
  {| daemon := daemon s; services := services s; requests := m |}.

(** *** Extractors *)

(** [DefaultBodyLimit] *)
Definition BODY_LIMIT : Z := 10 * 1024 * 1024.

Definition param (raws : list string) : result string Rejection :=
  match raws with
  | [raw] => ok_or (decode raw) r_bad_request
  | _ => Err r_internal
  end.
Definition bytes (req : ApiRequest) : result string Rejection :=
  if BODY_LIMIT <? Str.len (a_body req) then Err r_too_large else Ok (a_body req).
Definition json {A} (parse : string -> result A Rejection) (req : ApiRequest) : result A Rejection :=
  match json_type (a_content_type req) with
  | Some e => Err e
  | None => let? b := bytes req in parse b
  end.

(** A handler behind its extractors *)
Definition extracted {A} (r : result A Rejection) (f : A -> Api -> Answer * Api) (s : Api) : Answer * Api :=
  match r with
  | Ok a => f a s
  | Err e => (rejected e, s)
  end.
Definition both {A B} (a : result A Rejection) (b : result B Rejection) : result (A * B) Rejection :=
  let? a := a in let? b := b in Ok (a, b).

(** *** Handlers *)

Definition on_daemon {A} (ok : A -> Answer) (f : Daemon Json Sch Bytes -> result A AppError * Daemon Json Sch Bytes)
    (s : Api) : Answer * Api :=
  let '(r, d) := f (daemon s) in (answer ok r, with_daemon d s).
Definition on_kv {A} (ok : A -> Answer) (f : option K -> result A AppError * option K) (s : Api) : Answer * Api :=
  let '(r, k) := f (kv (services s)) in (answer ok r, with_kv_store k s).
Definition on_sql {A} (ok : A -> Answer) (f : option C -> result A AppError * option C) (s : Api) : Answer * Api :=
  let '(r, c) := f (sql (services s)) in (answer ok r, with_sql_service c s).
Definition on_storage {A} (ok : A -> Answer) (f : option O -> result A AppError * option O) (s : Api) : Answer * Api :=
  let '(r, o) := f (storage (services s)) in (answer ok r, with_storage_service o s).

Definition code_only (code : Z) : Answer := {| status := code; payload := Nothing |}.

Definition run_handler (h : Handler) (raws : list string) (req : ApiRequest) (s : Api) : option (Answer * Api) :=
  match h with
  | h_list_instances => Some (answer (fun l => ok_with (InstanceList l)) (http_list_instances fmt db os now (daemon s)), s)
  | h_start_instance =>
      Some (extracted (json parse_start req) (fun r =>
        on_daemon (fun i => {| status := 201; payload := OneInstance i |}) (start_instance fmt db os now r)) s)
  | h_get_instance =>
      Some (extracted (param raws) (fun n s =>
        (answer (fun i => ok_with (OneInstance i)) (http_get_instance fmt db os now n (daemon s)), s)) s)
  | h_stop_instance =>
      Some (extracted (param raws) (fun n => on_daemon (fun i => ok_with (OneInstance i)) (stop_instance fmt iter db os now n)) s)
  | h_restart_instance =>
      Some (extracted (param raws) (fun n => on_daemon (fun i => ok_with (OneInstance i)) (restart_instance fmt iter db os now n)) s)
  | h_get_logs =>
      Some (extracted (both (param raws) (query_lines (a_query req))) (fun x s =>
        (answer (fun l => ok_with (LogLines x.1 l))
           (match logs_dir with
            | Err e => Err (Internal e)
            | Ok dir => get_logs dir exists_ read_lines x.1 x.2
            end), s)) s)
  | h_kv_list =>
      Some (extracted (query_prefix (a_query req)) (fun p => on_kv (fun ks => ok_with (Keys ks)) (http_kv_list now p)) s)
  | h_kv_get =>
      Some (extracted (param raws) (fun k => on_kv (fun kv => ok_with (KeyValue kv.1 kv.2)) (http_kv_get now k)) s)
  | h_kv_set =>
      match both (param raws) (json parse_kv_set req) with
      | Err e => Some (rejected e, s)
      | Ok (k, (v, ttl)) =>
          match http_kv_set now k v ttl (kv (services s)) with
          | None => None
          | Some (r, kv) => Some (answer code_only r, with_kv_store kv s)
          end
      end
  | h_kv_delete => Some (extracted (param raws) (fun k => on_kv code_only (http_kv_delete now k)) s)
  | h_sql_query =>
      Some (extracted (json parse_sql req) (fun q =>
        on_sql (fun r => ok_with (Rows r)) (sql_query as_i64 as_f64 json_f64 q)) s)
  | h_sql_execute =>
      Some (extracted (json parse_sql req) (fun q => on_sql (fun n => ok_with (Affected n)) (sql_execute as_i64 as_f64 q)) s)
  | h_sql_batch =>
      Some (extracted (json parse_batch req) (fun q => on_sql (fun l => ok_with (AffectedList l)) (sql_batch as_i64 as_f64 q)) s)
  | h_storage_list =>
      Some (extracted (query_list (a_query req)) (fun q s =>
        (answer (fun l => ok_with (Objects l)) (storage_list q.1 q.2 (storage (services s))), s)) s)
  | h_storage_get =>
      Some (extracted (param raws) (fun p s =>
        (answer (fun x => ok_with (Data x.1 x.2)) (storage_get now p (storage (services s))), s)) s)
  | h_storage_put =>
      Some (extracted (both (param raws) (bytes req)) (fun x =>
        on_storage code_only (storage_put now x.1 (a_content_type req) x.2)) s)
  | h_storage_delete => Some (extracted (param raws) (fun p => on_storage code_only (storage_delete p)) s)
  | h_storage_head =>
      Some (extracted (param raws) (fun p s =>
        (answer (fun x => ok_with (Meta x.1 x.2)) (storage_head now p (storage (services s))), s)) s)
  | h_cron_list => Some (ok_with (CronJobs (cron_list fmt iter (daemon s))), s)
  | h_cron_create =>
      Some (extracted (json parse_cron req) (fun c => on_daemon (fun n => ok_with (CronCreated n)) (cron_create db (schedule_config c))) s)
  | h_cron_get => Some (extracted (param raws) (fun n s => (answer (fun j => ok_with (CronJob j)) (cron_get fmt n (daemon s)), s)) s)
  | h_cron_update =>
      Some (extracted (both (param raws) (json parse_update req)) (fun x =>
        on_daemon (fun r => ok_with (CronUpdated r.1 r.2)) (cron_update db x.1 x.2)) s)
  | h_cron_delete => Some (extracted (param raws) (fun n => on_daemon (fun n => ok_with (CronDeleted n)) (cron_delete db n)) s)
  | h_cron_trigger =>
      Some (extracted (param raws) (fun n => on_daemon (fun i => ok_with (CronTriggered n i)) (cron_trigger db id n now run)) s)
  | h_cron_history =>
      Some (extracted (param raws) (fun n s => (answer (fun l => ok_with (CronHistory n l)) (cron_history db n (daemon s)), s)) s)
  | h_metrics => Some (ok_with (Plain (render (requests s))), s)
  | h_health => Some (ok_with Health, s)
  | h_version => Some (ok_with Version, s)
  end.

(** *** Layers *)

(** The router: 404 without a route, 405 without a method; an answer to HEAD
    that GET computed loses its body. *)
Definition dispatch (req : ApiRequest) (s : Api) : option (Answer * Api) :=
  match lookup (a_path req) with
  | None => Some (code_only 404, s)
  | Some (r, raws) =>
      match endpoint (a_method req) r with
      | None => Some (code_only 405, s)
      | Some h =>
          match run_handler h raws req s with
          | None => None
          | Some (a, s) =>
              Some (if String.eqb (a_method req) "HEAD" then {| status := status a; payload := HeadersOf (payload a) |} else a, s)
          end
      end
  end.

Definition authorized (req : ApiRequest) (s : Api) : option (Answer * Api) :=
  match api_key_auth_middleware api_key (a_path req) (a_api_key req) with
  | Unauthorized message => Some ({| status := 401; payload := Plain message |}, s)
  | Pass => dispatch req s
  end.

(** [metrics_middleware], around everything. [None] if the process aborts. *)
Definition handle (req : ApiRequest) (s : Api) : option (Answer * Api) :=
  match authorized req s with
  | None => None
  | Some (a, s) => Some (a, with_requests (record_http_request (a_method req) (a_path req) (status a) (requests s)) s)
  end.

(** ** Lemmas *)

(** The part of the interface a handler belongs to *)
Definition area (h : Handler) : string :=
  match h with
  | h_list_instances | h_start_instance | h_get_instance | h_stop_instance | h_restart_instance | h_get_logs => "instances"
  | h_kv_list | h_kv_get | h_kv_set | h_kv_delete => "kv"
  | h_sql_query | h_sql_execute | h_sql_batch => "sql"
  | h_storage_list | h_storage_get | h_storage_put | h_storage_delete | h_storage_head => "storage"
  | h_cron_list | h_cron_create | h_cron_get | h_cron_update | h_cron_delete | h_cron_trigger | h_cron_history => "cron"
  | h_metrics => "metrics"
  | h_health => "health"
  | h_version => "version"
  end.

Definition reads (h : Handler) : bool :=
  bool_decide (h ∈ [h_list_instances; h_get_instance; h_get_logs; h_kv_list; h_kv_get; h_storage_list; h_storage_get;
                    h_storage_head; h_cron_list; h_cron_get; h_cron_history; h_metrics; h_health; h_version]).

Definition first_segment (path : string) : string :=
  match segments path with Some (x :: _) => x | _ => EmptyString end.

Definition route_ok (r : Route) : bool :=
  match pattern r with
  | Lit a :: _ =>
      (forallb (fun x => String.eqb (area x.2) a) (methods r) &&
       forallb (fun m => match method_of m r with Some h => reads h | None => true end) ["GET"; "HEAD"])%bool
  | _ => false
  end.

Lemma routes_ok : forallb route_ok ROUTES = true.
Proof. vm_compute. reflexivity. Qed.

Lemma method_of_in m r h : method_of m r = Some h -> exists m', (m', h) ∈ methods r.
Proof.
  unfold method_of. intros E. apply fmap_Some in E as ([m' h'] & E & ->). apply find_some in E as [E _].
  exists m'. by apply list_elem_of_In.
Qed.

Lemma endpoint_method m r h : endpoint m r = Some h -> method_of m r = Some h \/ (m = "HEAD" /\ method_of "GET" r = Some h).
Proof.
  unfold endpoint. destruct (method_of m r); [by left|]. destruct (String.eqb_spec m "HEAD") as [->|]; [by right|done].
Qed.

Lemma routed_area r segs raws m h : r ∈ ROUTES -> match_segs (pattern r) segs = Some raws -> endpoint m r = Some h ->
  exists rest, segs = area h :: rest.
Proof.
  intros Hr Hm He. pose proof routes_ok as Hok. rewrite forallb_forall in Hok.
  specialize (Hok r). unfold route_ok in Hok. destruct (pattern r) as [|[a| |] p]; try (by discriminate Hok; apply list_elem_of_In).
  assert (exists m', (m', h) ∈ methods r) as [m' Hin]
    by (apply endpoint_method in He as [He|[_ He]]; by apply method_of_in in He).
  assert ((forallb (fun x => String.eqb (area x.2) a) (methods r)) = true) as Ha
    by (specialize (Hok (proj1 (list_elem_of_In _ _) Hr)); by apply andb_true_iff in Hok as [? _]).
  rewrite forallb_forall in Ha. specialize (Ha _ (proj1 (list_elem_of_In _ _) Hin)). apply String.eqb_eq in Ha. cbn in Ha.
  destruct segs as [|x segs]; [done|]. cbn in Hm. destruct (String.eqb_spec a x) as [<-|]; [|done]. exists segs. by rewrite Ha.
Qed.

Lemma safe_reads r m h : r ∈ ROUTES -> m = "GET" \/ m = "HEAD" -> endpoint m r = Some h -> reads h = true.
Proof.
  intros Hr Hm He. pose proof routes_ok as Hok. rewrite forallb_forall in Hok.
  specialize (Hok r (proj1 (list_elem_of_In _ _) Hr)). unfold route_ok in Hok. destruct (pattern r) as [|[a| |] p]; try done.
  apply andb_true_iff in Hok as [_ Hok]. rewrite forallb_forall in Hok.
  apply endpoint_method in He as [He|[_ He]].
  - specialize (Hok m). rewrite He in Hok. apply Hok. destruct Hm as [->| ->]; [by left|by right; left].
  - specialize (Hok "GET"). rewrite He in Hok. apply Hok. by left.
Qed.

(** No path has two routes. *)
Fixpoint disjoint (p q : list Seg) : bool :=
  match p, q with
  | [], [] => false
  | [], _ :: _ | _ :: _, [] => true
  | CatchAll :: _, _ :: _ | _ :: _, CatchAll :: _ => false
  | Lit a :: p, Lit b :: q => (negb (String.eqb a b) || disjoint p q)%bool
  | _ :: p, _ :: q => disjoint p q
  end.

Lemma match_nil_cons p q segs raws : match_segs (p :: q) segs = Some raws -> exists x rest, segs = x :: rest.
Proof. destruct segs as [|x rest]; [by destruct p, q|by exists x, rest]. Qed.

Lemma match_param q x segs raws : match_segs (Param :: q) (x :: segs) = Some raws ->
  exists raws', match_segs q segs = Some raws'.
Proof. cbn. destruct (Str.is_empty x); [done|]. destruct (match_segs q segs); [eauto|done]. Qed.

Lemma match_lit a q x segs raws : match_segs (Lit a :: q) (x :: segs) = Some raws -> x = a /\ match_segs q segs = Some raws.
Proof. cbn. destruct (String.eqb_spec a x); [by subst|done]. Qed.

Lemma disjoint_match p : forall q segs raws raws', disjoint p q = true ->
  match_segs p segs = Some raws -> match_segs q segs = Some raws' -> False.
Proof.
  induction p as [|x p IH]; intros [|y q] segs raws raws' Hd Hp Hq.
  - done.
  - apply match_nil_cons in Hq as (? & ? & ->). done.
  - apply match_nil_cons in Hp as (? & ? & ->). done.
  - destruct (match_nil_cons _ _ _ _ Hp) as (z & rest & ->).
    destruct x as [a| |], y as [b| |]; cbn in Hd; try done;
      repeat match goal with
      | H : match_segs (Lit _ :: _) _ = Some _ |- _ => apply match_lit in H as [? H]
      | H : match_segs (Param :: _) _ = Some _ |- _ => apply match_param in H as [? H]
      end; try by eapply IH.
    subst. rewrite String.eqb_refl in Hd. by apply (IH q rest raws raws').
Qed.

Lemma routes_disjoint r r' : r ∈ ROUTES -> r' ∈ ROUTES -> r = r' \/ disjoint (pattern r) (pattern r') = true.
Proof.
  assert (forallb (fun r => forallb (fun r' => (bool_decide (pattern r = pattern r' /\ methods r = methods r') ||
    disjoint (pattern r) (pattern r'))%bool) ROUTES) ROUTES = true) as Hok by (vm_compute; reflexivity).
  intros Hr%list_elem_of_In Hr'%list_elem_of_In. rewrite forallb_forall in Hok. specialize (Hok r Hr).
  rewrite forallb_forall in Hok. specialize (Hok r' Hr'). apply orb_true_iff in Hok as [Hok|Hok]; [left|by right].
  apply bool_decide_eq_true in Hok as [? ?]. destruct r, r'. cbn in *. by subst.
Qed.

(** A handler changes only its own service, and no counter of the requests. *)
Lemma handler_frame h raws req s a s' : run_handler h raws req s = Some (a, s') ->
  requests s' = requests s /\
  (area h <> "instances" -> area h <> "cron" -> daemon s' = daemon s) /\
  (area h <> "kv" -> kv (services s') = kv (services s)) /\
  (area h <> "sql" -> sql (services s') = sql (services s)) /\
  (area h <> "storage" -> storage (services s') = storage (services s)).
Proof.
  unfold run_handler. destruct h; unfold extracted, on_daemon, on_kv, on_sql, on_storage; intros E;
    repeat case_match; simplify_eq/=; done.
Qed.

(** The handlers of disabled services answer with an error. *)
Lemma handler_disabled h raws req s a s' : run_handler h raws req s = Some (a, s') ->
  (area h = "kv" -> kv (services s) = None -> 400 <= status a /\ kv (services s') = None) /\
  (area h = "sql" -> sql (services s) = None -> 400 <= status a /\ sql (services s') = None) /\
  (area h = "storage" -> storage (services s) = None -> 400 <= status a /\ storage (services s') = None).
Proof.
  unfold run_handler. destruct h; unfold extracted, on_daemon, on_kv, on_sql, on_storage; intros E;
    (split; [|split]); intros Ha Hn; try discriminate Ha;
    unfold http_kv_list, http_kv_get, http_kv_set, http_kv_delete, with_kv, sql_query, sql_execute, sql_batch, with_sql,
      storage_list, storage_get, storage_put, storage_delete, storage_head, get_storage in E; rewrite Hn in E; cbn in E;
    repeat case_match; simplify_eq/=; repeat match goal with r : Rejection |- _ => destruct r end; cbn; split; try done; lia.
Qed.

(** Only storing a value with a time to live can abort the process. *)
Lemma handler_total h raws req s : run_handler h raws req s = None ->
  h = h_kv_set /\ exists st k v ttl, kv (services s) = Some st /\ kv_set now k v ttl st = None.
Proof.
  unfold run_handler. destruct h; try done. destruct (both _ _) as [[k [v ttl]]|]; [|done].
  unfold http_kv_set, get_service. destruct (kv (services s)) as [st|]; [|done].
  destruct (kv_set now k v (from_secs <$> ttl) st) as [[[] ?]|] eqn:E; try done. intros _. split; [done|]. by do 4 eexists.
Qed.

(** ** The whole interface *)

Context `{KvView K} `{!KvLaws K} `{!RouterLaws lookup}.

(** A key-value store from which expired entries may have disappeared *)
Definition kv_kept (k k' : option K) : Prop :=
  match k, k' with
  | Some s, Some s' => kv_wf s -> kv_wf s' /\ purged now (kv_contents s) (kv_contents s')
  | None, None => True
  | _, _ => False
  end.

(** A key-value store that is still well formed *)
Definition kv_next (k k' : option K) : Prop :=
  match k, k' with
  | Some s, Some s' => kv_wf s -> kv_wf s'
  | None, None => True
  | _, _ => False
  end.

Lemma kv_next_refl k : kv_next k k.
Proof. unfold kv_next. by destruct k. Qed.

Lemma kv_kept_refl k : kv_kept k k.
Proof. destruct k; [|done]. intros Hwf. split; [done|apply purged_refl]. Qed.

Lemma all_kept (s : Api) :
  daemon s = daemon s /\ sql (services s) = sql (services s) /\ storage (services s) = storage (services s) /\
  kv_kept (kv (services s)) (kv (services s)).
Proof. do 3 (split; [done|]). apply kv_kept_refl. Qed.

Lemma handler_reads h raws req s a s' : 0 <= now -> reads h = true -> run_handler h raws req s = Some (a, s') ->
  daemon s' = daemon s /\ sql (services s') = sql (services s) /\ storage (services s') = storage (services s) /\
  kv_kept (kv (services s)) (kv (services s')).
Proof.
  intros Hnow Hr. unfold run_handler.
  destruct h; try (by vm_compute in Hr); unfold extracted, on_kv; intros E;
    try (repeat case_match; simplify_eq/=; apply all_kept).
  - destruct (query_prefix _) as [p|]; [|simplify_eq/=; apply all_kept].
    unfold http_kv_list, KvStore.with_kv, get_service in E. destruct (kv (services s)) as [st|] eqn:Ek; cbn in E.
    + destruct (kv_list now p st) as [r st'] eqn:El.
      assert (kv (services s') = Some st' /\ daemon s' = daemon s /\ sql (services s') = sql (services s) /\
              storage (services s') = storage (services s)) as (-> & ? & ? & ?) by (destruct r; by simplify_eq/=).
      do 3 (split; [done|]). intros Hwf.
      by pose proof (kv_list_law now p st st' r Hnow Hwf El) as (? & ? & _).
    + simplify_eq/=. do 3 (split; [done|]). by try rewrite Ek.
  - destruct (param _) as [k|]; [|simplify_eq/=; apply all_kept].
    unfold http_kv_get, KvStore.with_kv, get_service in E. destruct (kv (services s)) as [st|] eqn:Ek; cbn in E.
    + destruct (kv_get now k st) as [r st'] eqn:El.
      assert (kv (services s') = Some st' /\ daemon s' = daemon s /\ sql (services s') = sql (services s) /\
              storage (services s') = storage (services s)) as (-> & ? & ? & ?)
        by (destruct r as [|[|]]; by simplify_eq/=).
      do 3 (split; [done|]). intros Hwf.
      by pose proof (kv_get_law now k st st' r Hnow Hwf El) as (? & ? & _).
    + simplify_eq/=. do 3 (split; [done|]). by try rewrite Ek.
Qed.

(** Handlers keep the key-value store well formed, and switch no service on or off. *)
Lemma handler_services h raws req s a s' : 0 <= now -> run_handler h raws req s = Some (a, s') ->
  (is_Some (kv (services s')) <-> is_Some (kv (services s))) /\
  (is_Some (sql (services s')) <-> is_Some (sql (services s))) /\
  (is_Some (storage (services s')) <-> is_Some (storage (services s))) /\
  ((forall k, kv (services s) = Some k -> kv_wf k) -> forall k, kv (services s') = Some k -> kv_wf k).
Proof.
  intros Hnow E. destruct (handler_frame _ _ _ _ _ _ E) as (_ & _ & Hk & Hq & Ho).
  destruct (decide (area h = "kv")) as [Ha|Ha].
  - rewrite Hq, Ho by (rewrite Ha; done).
    assert (kv_next (kv (services s)) (kv (services s'))) as Hn.
    { revert E. unfold run_handler. destruct h; try (by discriminate Ha); unfold extracted, on_kv.
      - destruct (query_prefix _) as [p|]; [|intros; simplify_eq/=; apply kv_next_refl].
        unfold http_kv_list, KvStore.with_kv, get_service. destruct (kv (services s)) as [st|]; [|by intros; simplify_eq/=].
        destruct (kv_list now p st) as [r st'] eqn:El. intros E.
        assert (kv (services s') = Some st') as -> by (destruct r; by simplify_eq/=).
        intros Hwf. by apply (kv_list_law now p st st' r Hnow Hwf El).
      - destruct (param _) as [k|]; [|intros; simplify_eq/=; apply kv_next_refl].
        unfold http_kv_get, KvStore.with_kv, get_service. destruct (kv (services s)) as [st|]; [|by intros; simplify_eq/=].
        destruct (kv_get now k st) as [r st'] eqn:El. intros E.
        assert (kv (services s') = Some st') as -> by (destruct r as [[]|]; by simplify_eq/=).
        intros Hwf. by apply (kv_get_law now k st st' r Hnow Hwf El).
      - destruct (both _ _) as [[k [v ttl]]|]; [|intros; simplify_eq/=; apply kv_next_refl].
        unfold http_kv_set, get_service. destruct (kv (services s)) as [st|]; [|by intros; simplify_eq/=].
        destruct (kv_set now k v (from_secs <$> ttl) st) as [[r st']|] eqn:El; [|done]. intros E.
        assert (kv (services s') = Some st') as -> by (destruct r; by simplify_eq/=).
        intros Hwf. pose proof (kv_set_law now k v (from_secs <$> ttl) st Hnow Hwf) as Hl. rewrite El in Hl.
        destruct r; [by destruct Hl|by subst].
      - destruct (param _) as [k|]; [|intros; simplify_eq/=; apply kv_next_refl].
        unfold http_kv_delete, KvStore.with_kv, get_service. destruct (kv (services s)) as [st|]; [|by intros; simplify_eq/=].
        pose proof (kv_delete_law now k st Hnow) as Hl. destruct (kv_delete now k st) as [r st'] eqn:El. intros E.
        assert (kv (services s') = Some st') as -> by (destruct r; by simplify_eq/=).
        intros Hwf. specialize (Hl Hwf). destruct r; [by destruct Hl|by subst]. }
    unfold kv_next in Hn. destruct (kv (services s)) as [k|], (kv (services s')) as [k'|]; try done.
    split_and!; try done. intros Hwf ? [= <-]. by apply Hn, Hwf.
  - rewrite (Hk Ha). split; [done|]. split; [|split; [|done]].
    + destruct (decide (area h = "sql")) as [Hs|Hs]; [|by rewrite Hq].
      revert E. unfold run_handler. destruct h; try (by discriminate Hs); unfold extracted, on_sql; intros E;
        unfold sql_query, sql_execute, sql_batch, with_sql, get_service in E; destruct (sql (services s)) eqn:Es; cbn in E;
        repeat case_match; simplify_eq/=; by rewrite ?Es.
    + destruct (decide (area h = "storage")) as [Hs|Hs]; [|by rewrite Ho].
      revert E. unfold run_handler. destruct h; try (by discriminate Hs); unfold extracted, on_storage; intros E;
        unfold storage_put, storage_delete, get_storage, get_service in E; destruct (storage (services s)) eqn:Es; cbn in E;
        repeat case_match; simplify_eq/=; by rewrite ?Es.
Qed.

(** What the layers let through *)
Definition admitted (req : ApiRequest) : Prop :=
  api_key = None \/ a_path req = "/health" \/ a_path req = "/metrics" \/ a_api_key req = api_key.

Lemma middleware_admits req : api_key_auth_middleware api_key (a_path req) (a_api_key req) = Pass <-> admitted req.
Proof.
  unfold api_key_auth_middleware, admitted. destruct api_key as [k|]; [|by split; [left|]].
  destruct (String.eqb_spec (a_path req) "/health") as [->|Hp1]; [cbn; naive_solver|].
  destruct (String.eqb_spec (a_path req) "/metrics") as [->|Hp2]; [cbn; naive_solver|].
  cbn. destruct (a_api_key req) as [k'|]; [|naive_solver].
  destruct (String.eqb_spec k' k) as [->|Hp3].
  - rewrite Z.eqb_refl. cbn. naive_solver.
  - rewrite andb_false_r. split; [done|]. intros [?|[?|[?|?]]]; congruence.
Qed.

(** An answer comes from the handler of the endpoint, or nothing was done. *)
Lemma authorized_cases req s a s' : authorized req s = Some (a, s') ->
  (s' = s /\ (~ admitted req /\ status a = 401 \/
     admitted req /\ lookup (a_path req) = None /\ status a = 404 \/
     admitted req /\ exists r raws, lookup (a_path req) = Some (r, raws) /\ endpoint (a_method req) r = None /\ status a = 405)) \/
  (admitted req /\ exists r raws h a0, lookup (a_path req) = Some (r, raws) /\ endpoint (a_method req) r = Some h /\
     run_handler h raws req s = Some (a0, s') /\ status a = status a0 /\
     (a_method req <> "HEAD" -> a = a0)).
Proof.
  unfold authorized. pose proof (middleware_admits req) as Hadm. destruct (api_key_auth_middleware _ _ _) as [|msg].
  - destruct Hadm as [Hadm _]. specialize (Hadm eq_refl). unfold dispatch.
    destruct (lookup (a_path req)) as [[r raws]|]; [|intros [= <- <-]; left; split; [done|right; by left]].
    destruct (endpoint (a_method req) r) as [h|] eqn:He.
    2: { intros [= <- <-]. left. split; [done|]. right. right. split; [done|]. by exists r, raws. }
    destruct (run_handler h raws req s) as [[a0 s0]|] eqn:Er; [|done]. intros E. right. split; [done|]. exists r, raws, h, a0.
    destruct (String.eqb_spec (a_method req) "HEAD"); simplify_eq/=; done.
  - intros [= <- <-]. left. split; [done|]. left. split; [|done]. intros H'. by apply Hadm in H'.
Qed.

Lemma endpoint_area req r raws h : lookup (a_path req) = Some (r, raws) -> endpoint (a_method req) r = Some h ->
  r ∈ ROUTES /\ first_segment (a_path req) = area h.
Proof.
  intros Hl He. apply lookup_iff in Hl as (Hr & segs & Hs & Hm). split; [done|].
  destruct (routed_area r segs raws _ h Hr Hm He) as [rest ->]. unfold first_segment. by rewrite Hs.
Qed.

(** C21. Who may do what through the HTTP interface of the daemon. Every request is
    counted once under its method, path and final status. With a key configured,
    a request without it changes nothing and gets 401, except for /health and
    /metrics. Any other is answered by the handler of the one route its path
    matches, or with 404 or 405 and without an effect. What a path starts with
    bounds what it can change; GET and HEAD change nothing but what has expired;
    and a service that is off answers with an error and stays off. *)
Theorem api_access req s a s' : 0 <= now -> handle req s = Some (a, s') ->
  let path := a_path req in
  let unchanged := daemon s' = daemon s /\ services s' = services s in
  requests s' = record_http_request (a_method req) path (status a) (requests s) /\
  (~ admitted req -> status a = 401 /\ unchanged) /\
  (admitted req ->
     (forall r segs, r ∈ ROUTES -> segments path = Some segs -> match_segs (pattern r) segs = None) ->
     status a = 404 /\ unchanged) /\
  (admitted req -> forall r segs raws, r ∈ ROUTES -> segments path = Some segs -> match_segs (pattern r) segs = Some raws ->
     match endpoint (a_method req) r with
     | None => status a = 405 /\ unchanged
     | Some h => exists a0 s0, run_handler h raws req s = Some (a0, s0) /\ status a = status a0 /\
         (a_method req <> "HEAD" -> a = a0) /\ daemon s' = daemon s0 /\ services s' = services s0
     end) /\
  (first_segment path <> "instances" -> first_segment path <> "cron" -> daemon s' = daemon s) /\
  (first_segment path <> "kv" -> kv (services s') = kv (services s)) /\
  (first_segment path <> "sql" -> sql (services s') = sql (services s)) /\
  (first_segment path <> "storage" -> storage (services s') = storage (services s)) /\
  (a_method req = "GET" \/ a_method req = "HEAD" ->
     daemon s' = daemon s /\ sql (services s') = sql (services s) /\ storage (services s') = storage (services s) /\
     kv_kept (kv (services s)) (kv (services s'))) /\
  (first_segment path = "kv" -> kv (services s) = None -> 400 <= status a /\ kv (services s') = None) /\
  (first_segment path = "sql" -> sql (services s) = None -> 400 <= status a /\ sql (services s') = None) /\
  (first_segment path = "storage" -> storage (services s) = None -> 400 <= status a /\ storage (services s') = None).
Proof.
  intros Hnow E path unchanged. unfold unchanged, handle in *. clear unchanged.
  destruct (authorized req s) as [[a1 s1]|] eqn:Ea; [|done]. injection E as <- <-. cbn [daemon services requests with_requests].
  assert (forall r segs raws, r ∈ ROUTES -> segments path = Some segs -> match_segs (pattern r) segs = Some raws ->
    lookup path = Some (r, raws)) as Hl by (intros r segs raws ? ? ?; apply lookup_iff; eauto).
  assert (forall r raws, lookup path = Some (r, raws) ->
    exists segs, r ∈ ROUTES /\ segments path = Some segs /\ match_segs (pattern r) segs = Some raws) as Hl'
    by (intros r raws (? & segs & ? & ?)%lookup_iff; eauto).
  apply authorized_cases in Ea as [(-> & Hc)|(Hadm & r & raws & h & a0 & Hr & He & Hh & Hst & Ha)].
  - assert (400 <= status a1) by (destruct Hc as [[_ ->]|[(_ & _ & ->)|(_ & r & raws & _ & _ & ->)]]; done).
    split_and!; try done.
    + intros Hn. by destruct Hc as [[_ ->]|[(? & _)|(? & _)]].
    + intros Hadm Hnone. destruct Hc as [[? _]|[(_ & _ & ->)|(_ & r & raws & Hr & _)]]; try done.
      destruct (Hl' _ _ Hr) as (segs & Hin & Hs & Hm). by rewrite (Hnone r segs Hin Hs) in Hm.
    + intros Hadm r segs raws Hr Hs Hm. pose proof (Hl r segs raws Hr Hs Hm) as Hlk.
      destruct Hc as [[? _]|[(_ & Hnone & _)|(_ & r' & raws' & Hr' & He & ->)]]; [done| |].
      * unfold path in Hlk. congruence.
      * unfold path in Hlk. assert (r' = r) as -> by congruence. by rewrite He.
    + intros _. apply all_kept.
  - destruct (endpoint_area req r raws h Hr He) as [Hin Hfs]. fold path in Hfs.
    destruct (handler_frame h raws req s a0 s1 Hh) as (Hreq & Hd & Hk & Hq & Ho).
    destruct (handler_disabled h raws req s a0 s1 Hh) as (Hk0 & Hq0 & Ho0).
    rewrite !Hfs. split_and!; try done; [by rewrite Hreq| | | | | |]; rewrite ?Hst; try done.
    + intros _ Hnone. destruct (Hl' _ _ Hr) as (segs & _ & Hs & Hm). by rewrite (Hnone r segs Hin Hs) in Hm.
    + intros _ r' segs raws' Hr' Hs Hm. pose proof (Hl r' segs raws' Hr' Hs Hm) as Hlk. unfold path in Hlk.
      assert (r' = r /\ raws' = raws) as [-> ->] by (split; congruence). rewrite He. by exists a0, s1.
    + intros Hget. by apply (handler_reads h raws req s a0 s1 Hnow (safe_reads r _ h Hin Hget He)).
Qed.
End Api.

(** ** Concrete instances *)

Module ApiToy.
(** The first route that matches *)
Fixpoint first_route (rs : list Route) (segs : list string) : option (Route * list string) :=
  match rs with
  | [] => None
  | r :: rs => match match_segs (pattern r) segs with Some raws => Some (r, raws) | None => first_route rs segs end
  end.
Definition lookup (path : string) : option (Route * list string) := segments path ≫= first_route ROUTES.

Lemma first_route_sound rs segs r raws : first_route rs segs = Some (r, raws) ->
  r ∈ rs /\ match_segs (pattern r) segs = Some raws.
Proof.
  induction rs as [|r' rs IH]; [done|]. cbn. destruct (match_segs (pattern r') segs) as [raws'|] eqn:E.
  - intros [= -> ->]. split; [by left|done].
  - intros [? ?]%IH. split; [by right|done].
Qed.

Lemma first_route_complete rs segs r raws : r ∈ rs -> match_segs (pattern r) segs = Some raws ->
  is_Some (first_route rs segs).
Proof.
  intros Hr Hm. induction Hr as [r rs|r r' rs _ IH]; cbn; [by rewrite Hm|].
  destruct (match_segs (pattern r') segs); [done|by apply IH].
Qed.

#[export] Instance router_laws : RouterLaws lookup.
Proof.
  split. intros path r raws. unfold lookup. destruct (segments path) as [segs|] eqn:Es; split.
  - intros [? ?]%first_route_sound. split; [done|]. exists segs. split; done.
  - intros (Hr & segs' & [= <-] & Hm). destruct (first_route_complete _ _ _ _ Hr Hm) as [[r' raws'] E].
    change (first_route ROUTES segs = Some (r, raws)). rewrite E.
    apply first_route_sound in E as [Hr' Hm'].
    destruct (routes_disjoint r r' Hr Hr') as [<-|Hd]; [congruence|]. destruct (disjoint_match _ _ _ _ _ Hd Hm Hm').
  - done.
  - by intros (_ & segs & ? & _).
Qed.
End ApiToy.

Section Witnesses.
Import Toy Sql.Toy ApiToy.

#[local] Existing Instance Sql.Toy.toy_engine.
#[local] Instance api_kv : KvBackend MemoryBackend := memory_kv kv_in_order.
#[local] Instance api_view : KvView MemoryBackend := memory_view.
#[local] Instance api_kv_laws : KvLaws MemoryBackend := memory_laws kv_in_order kv_in_order_permutation.
#[local] Instance api_storage : StorageBackend (gmap string MemoryObject) := memory_backend text_plain in_order.

Definition api_start : Api (Json := unit) (Sch := gmap string (string * string)) (Bytes := Doc) (K := MemoryBackend)
    (C := Conn) (O := gmap string MemoryObject) := {|
  daemon := one;
  services := {| kv := Some ({[ "a" := {| m_value := "1"; m_expires_at := Some (from_secs 9) |} ]} : MemoryBackend);
                 sql := None; storage := Some ∅ |};
  requests := ∅ |}.

Definition request (m p : string) (key : option string) : ApiRequest :=
  {| a_method := m; a_path := p; a_query := None; a_api_key := key; a_content_type := None; a_body := "" |}.

Definition no_body {A} (_ : string) : result A Rejection := Err r_unprocessable.

Definition api_handle (req : ApiRequest) :=
  handle (Bytes := Doc) (K := MemoryBackend) (O := gmap string MemoryObject) lookup Some (fun _ => None) no_body no_body no_body no_body no_body no_body
  (fun _ => Ok None) (fun _ => Ok (None, None)) (fun _ => Ok None) (fun _ => "") map_to_list (fun _ => None)
  (fun _ => None) (fun x : Empty_set => match x with end) db_ok alive (Err "") (fun _ => false) (fun _ => Err "")
  (fun _ => "") (Some "secret") (from_secs 10) "id" {| net := {| client := true; health _ := Ok 200; call _ := Ok (200, None) |}; ms := 5; completed := from_secs 11 |} req.

Lemma kv_route : segments "/kv/a" = Some ["kv"; "a"] /\ match_segs [Lit "kv"; Param] ["kv"; "a"] = Some ["a"].
Proof. vm_compute. done. Qed.

(** A job is not deleted without the key; an expired value is not found with it. *)
Lemma api_access_witness :
  (exists a s, api_handle (request "DELETE" "/cron/report" None) api_start = Some (a, s) /\ status a = 401 /\
     daemon s = daemon api_start) /\
  (exists a s, api_handle (request "GET" "/kv/a" (Some "secret")) api_start = Some (a, s) /\
     daemon s = daemon api_start /\
     requests s = record_http_request "GET" "/kv/a" (status a) ∅).
Proof.
  split.
  - destruct (api_handle (request "DELETE" "/cron/report" None) api_start) as [[a s]|] eqn:E;
      [|exfalso; revert E; by vm_compute].
    exists a, s. split; [done|].
    destruct (fun Hn => api_access _ _ _ _ _ _ _ _ _ _ _ _ _ _ _ _ _ _ _ _ _ _ _ _ _ _ _ _ _ _ _ Hn E) as (_ & H & _); [vm_compute; discriminate|].
    destruct H as (? & ? & _); [|done]. intros [H|[H|[H|H]]]; discriminate H.
  - destruct (api_handle (request "GET" "/kv/a" (Some "secret")) api_start) as [[a s]|] eqn:E;
      [|exfalso; revert E; by vm_compute].
    exists a, s. split; [done|].
    destruct (fun Hn => api_access _ _ _ _ _ _ _ _ _ _ _ _ _ _ _ _ _ _ _ _ _ _ _ _ _ _ _ _ _ _ _ Hn E)
      as (Hr & _ & _ & _ & _ & _ & _ & _ & Hg & _);
      [vm_compute; discriminate|].
    split; [|exact Hr]. apply Hg. by left.
Defined.
End Witnesses.
