(* ===== verification/DaemonLife.v ===== *)
(** DaemonLife: the daemon as a whole, from one start to the next: requests to
    its HTTP interface (DaemonApi.v), executions of jobs and health checks
    interleaved with them (DaemonProps.v), and restarts, in which the state
    database is all that is left. *)

From stdpp Require Import base gmap list strings relations.
From S2P Require Import Prelude StdPath AppError SortBy Cron StateStore StateProps Daemon Instances DaemonProps InstanceProps KvStore KvLaws KvProps Storage StorageLaws StorageProps Json Sql DaemonConfig DaemonApi.

#[local] Open Scope Z_scope.

Section Life.
Context {Json Sch Bytes K C F O : Type}.
Context `{HS : JobScheduler Sch} `{!JobSchedulerLaws Sch}.
Context `{Serde Bytes Instance} `{HC : Serde Bytes (ScheduleConfig Json)} `{Serde Bytes JobExecution}.
Context `{KvBackend K} `{SqlEngine C F} `{StorageBackend O}.

Variable lookup : string -> option (Route * list string).
Variable decode : string -> option string.
Variable json_type : option string -> option Rejection.
Variable parse_start : string -> result StartInstanceRequest Rejection.
Variable parse_kv_set : string -> result (string * option Z) Rejection.
Variable parse_sql : string -> result SqlQueryRequest Rejection.
Variable parse_batch : string -> result (list SqlQueryRequest) Rejection.
Variable parse_cron : string -> result (CronCreateRequest Json) Rejection.
Variable parse_update : string -> result (option bool) Rejection.
Variable query_prefix : option string -> result (option string) Rejection.
Variable query_list : option string -> result (option string * option nat) Rejection.
Variable query_lines : option string -> result (option nat) Rejection.
Variable fmt : Instant -> string.
Variable iter : gmap string (JobState Json) -> list (string * JobState Json).
Variable as_i64 : string -> option Z.
Variable as_f64 : string -> option F.
Variable json_f64 : F -> Value.
Variable logs_dir : result Path string.
Variable render : Series -> string.
Variable api_key : option string.

(** What a request meets: the database's behaviour, the operating system, the
    time and what an execution makes of it. *)
Record Circumstances := {
  c_db : Db;
  c_os : Os (Json := Json);
  c_exists : Path -> bool;
  c_read_lines : Path -> result (list string) string;
  c_now : Instant;
  c_id : string;
  c_run : Run Json;
}.

Notation Api := (Api (Json := Json) (Sch := Sch) (Bytes := Bytes) (K := K) (C := C) (O := O)).

Definition serve_request (e : Circumstances) (req : ApiRequest) (s : Api) : option (Answer * Api) :=
  handle lookup decode json_type parse_start parse_kv_set parse_sql parse_batch parse_cron parse_update query_prefix
    query_list query_lines fmt iter as_i64 as_f64 json_f64 (c_db e) (c_os e) logs_dir (c_exists e) (c_read_lines e)
    render api_key (c_now e) (c_id e) (c_run e) req s.

(** The daemon, the executions in flight, and how many requests it has
    answered since it started *)
Record World := {
  api : Api;
  in_flight : list (Pending Json);
  answered : nat;
}.

(** [graceful_shutdown] and the start of the next daemon, on the same database
    and data directory *)
Definition restart (db : Db) (os : Os (Json := Json)) (fresh : Sch) (s : Api) : result Api string :=
  let? d := serve_start db fresh (graceful_shutdown db os (store (daemon s))) in
  Ok {| daemon := d; services := services s; requests := ∅ |}.

Variable allowed : Db -> Prop.

Inductive life : World -> World -> Prop :=
| life_request e req a s s' fl n : allowed (c_db e) -> 0 <= c_now e -> serve_request e req s = Some (a, s') ->
    life {| api := s; in_flight := fl; answered := n |} {| api := s'; in_flight := fl; answered := S n |}
| life_jobs s d fl fl' n :
    DaemonProps.step fmt iter allowed {| DaemonProps.daemon := daemon s; flights := fl |}
      {| DaemonProps.daemon := d; flights := fl' |} ->
    life {| api := s; in_flight := fl; answered := n |} {| api := with_daemon d s; in_flight := fl'; answered := n |}
| life_restart db os fresh s s' fl n : allowed db -> restart db os fresh s = Ok s' ->
    life {| api := s; in_flight := fl; answered := n |} {| api := s'; in_flight := []; answered := 0 |}.

(** ** The handlers are steps of the jobs *)

Lemma manual_start id n now (s : Daemon Json Sch Bytes) p : cron_trigger_start id n now s = Ok p -> p_manual p = true.
Proof. unfold cron_trigger_start. destruct (get_job n (sched s)); [|done]. by intros [= <-]. Qed.

Lemma handler_steps h raws e req (s : Api) a (s' : Api) fl : allowed (c_db e) ->
  run_handler decode json_type parse_start parse_kv_set parse_sql parse_batch parse_cron parse_update query_prefix
    query_list query_lines fmt iter as_i64 as_f64 json_f64 (c_db e) (c_os e) logs_dir (c_exists e) (c_read_lines e)
    render (c_now e) (c_id e) (c_run e) h raws req s = Some (a, s') ->
  rtc (DaemonProps.step fmt iter allowed) {| DaemonProps.daemon := daemon s; flights := fl |}
    {| DaemonProps.daemon := daemon s'; flights := fl |}.
Proof.
  intros Hdb. unfold run_handler.
  assert (forall d, DaemonProps.request fmt iter allowed (daemon s) d ->
    rtc (DaemonProps.step fmt iter allowed) {| DaemonProps.daemon := daemon s; flights := fl |}
      {| DaemonProps.daemon := d; flights := fl |}) as Hreq by (intros d Hr; by apply rtc_once, step_request).
  destruct h; unfold extracted, on_daemon, on_kv, on_sql, on_storage; intros E;
    try (repeat case_match; simplify_eq/=; apply rtc_refl).
  - destruct (json _ _ _) as [r|]; [|by simplify_eq/=; apply rtc_refl].
    pose proof (req_start fmt iter allowed (c_db e) (c_os e) (c_now e) r (daemon s) Hdb) as Hr.
    destruct (start_instance _ _ _ _ _ _) as [? d]. simplify_eq/=. by apply Hreq.
  - destruct (param _ _) as [n|]; [|by simplify_eq/=; apply rtc_refl].
    pose proof (req_stop fmt iter allowed (c_db e) (c_os e) (c_now e) n (daemon s) Hdb) as Hr.
    destruct (stop_instance _ _ _ _ _ _ _) as [? d]. simplify_eq/=. by apply Hreq.
  - destruct (param _ _) as [n|]; [|by simplify_eq/=; apply rtc_refl].
    pose proof (req_restart fmt iter allowed (c_db e) (c_os e) (c_now e) n (daemon s) Hdb) as Hr.
    destruct (restart_instance _ _ _ _ _ _ _) as [? d]. simplify_eq/=. by apply Hreq.
  - destruct (json _ _ _) as [c|]; [|by simplify_eq/=; apply rtc_refl].
    pose proof (req_create fmt iter allowed (c_db e) (schedule_config c) (daemon s) Hdb) as Hr.
    destruct (cron_create _ _ _) as [? d]. simplify_eq/=. by apply Hreq.
  - destruct (both _ _) as [[n b]|]; [|by simplify_eq/=; apply rtc_refl].
    pose proof (req_update fmt iter allowed (c_db e) n b (daemon s) Hdb) as Hr. cbn [fst snd] in E.
    destruct (cron_update _ _ _ _) as [? d]. simplify_eq/=. by apply Hreq.
  - destruct (param _ _) as [n|]; [|by simplify_eq/=; apply rtc_refl].
    pose proof (req_delete fmt iter allowed (c_db e) n (daemon s) Hdb) as Hr.
    destruct (cron_delete _ _ _) as [? d]. simplify_eq/=. by apply Hreq.
  - destruct (param _ _) as [n|]; [|by simplify_eq/=; apply rtc_refl]. unfold cron_trigger in E.
    destruct (cron_trigger_start _ n _ _) as [p|] eqn:Ep; [|by simplify_eq/=; apply rtc_refl].
    pose proof (step_trigger_finish fmt iter allowed (c_db e) (c_run e) p (daemon s) [] fl Hdb (manual_start _ _ _ _ _ Ep)) as Hf.
    destruct (cron_trigger_finish _ _ _ _) as [? d]. simplify_eq/=.
    eapply rtc_l; [by apply (step_trigger fmt iter allowed _ _ _ _ p fl Ep)|]. by apply rtc_once.
Qed.

(** ** What survives a restart *)

Context `{!@SerdeLaws Bytes (ScheduleConfig Json) HC}.
Hypothesis db_reads : forall db op, allowed db -> rd db op = Ok tt.
Hypothesis db_works : forall db op k, allowed db -> wr db op k = txn_ok.
Hypothesis serializes : forall c : ScheduleConfig Json, is_ok (to_vec (Bytes := Bytes) c) = true.
Hypothesis sch_adds : forall e (s : Sch), is_ok (sch_add e s).1 = true.
Hypothesis sch_removes : forall i (s : Sch), is_ok (sch_remove i s).1 = true.

Notation State := (Daemon Json Sch Bytes).

Definition consistent (d : State) : Prop := sched_ok (sched d) /\ synced d.

Lemma consistent_steps (y y' : sys (Json := Json) (Sch := Sch) (Bytes := Bytes)) :
  rtc (DaemonProps.step fmt iter allowed) y y' -> consistent (DaemonProps.daemon y) -> consistent (DaemonProps.daemon y').
Proof.
  intros Hr [Hok Hsy]. split.
  - exact (scheduler_closed fmt iter allowed sched_ok _ _ sched_ok_add sched_ok_remove sched_ok_enable sched_ok_finish Hr Hok).
  - exact (reachable_closed fmt iter allowed synced (synced_register allowed db_works serializes sch_adds)
      (synced_unregister allowed db_works sch_removes) (synced_cron_delete allowed db_works sch_removes)
      (synced_update allowed db_works serializes) synced_store synced_finish _ _ Hr Hsy).
Qed.

Lemma shutdown_jobs db (os : Os (Json := Json)) (st : StateStore Bytes) : cron_jobs (graceful_shutdown db os st) = cron_jobs st.
Proof.
  unfold graceful_shutdown. destruct (list_instances _ st) as [insts|]; [|done].
  apply (fold_left_inv (fun st' => cron_jobs st' = cron_jobs st)); [done|].
  intros st' i <-. unfold shutdown_instance. destruct (decide _); [|done].
  destruct (is_running os (i_pid i)); [apply save_instance_jobs|done].
Qed.

Lemma restored_ok cs (sch : Sch) : sched_ok (Json := Json) (restore_jobs cs {| scheduler := sch; jobs := ∅ |}).
Proof.
  unfold restore_jobs. apply fold_left_inv; [intros n st Hn; simpl in Hn; by rewrite lookup_empty in Hn|].
  intros s c. apply sched_ok_add.
Qed.

Lemma restart_consistent db os fresh s : allowed db -> consistent (daemon s) ->
  exists s', restart db os fresh s = Ok s' /\ consistent (daemon s') /\ services s' = services s /\
    forall n, config <$> jobs (sched (daemon s')) !! n = config <$> jobs (sched (daemon s)) !! n.
Proof.
  intros Hdb [_ [Hs1 Hs2]]. unfold restart, serve_start. rewrite (db_reads _ _ Hdb).
  set (st := graceful_shutdown db os (store (daemon s))).
  assert (forall n, config <$> jobs (sched (daemon s)) !! n = stored_config st n) as Hst
    by (intros n; rewrite Hs1; unfold stored_config, st; by rewrite shutdown_jobs).
  assert (forall n c, stored_config st n = Some c -> name c = n /\ is_ok (job_new (cron c)) = true) as Hn.
  { intros n c. rewrite <- Hst. intros (j & Hj & ->)%fmap_Some. by apply Hs2. }
  destruct (list_cron_jobs (Ok tt) st) as [cs|] eqn:E; [|done].
  destruct (listed_configs _ cs E) as [Hnd Hin]; [naive_solver|]. cbn [res_bind]. eexists. split; [done|].
  cbn [daemon services sched store].
  destruct (restore_jobs_spec sch_adds cs {| scheduler := fresh; jobs := ∅ |} Hnd) as [H1' H2'].
  { apply Forall_forall. intros c Hc. apply Hin in Hc. by apply (Hn (name c)). }
  assert (forall n, config <$> jobs (restore_jobs cs {| scheduler := fresh; jobs := ∅ |}) !! n = stored_config st n) as Hjobs.
  { intros n. destruct (stored_config st n) as [c|] eqn:Ec.
    - destruct (Hn n c Ec) as [<- _]. apply H1'. by apply Hin.
    - rewrite H2'; [by simpl; rewrite lookup_empty|]. intros (c & -> & Hc)%list_elem_of_fmap.
      apply Hin in Hc. congruence. }
  split; [split; [apply restored_ok|split; [exact Hjobs|]]|split; [done|]].
  - intros n j Hj. apply (Hn n (config j)). rewrite <- Hjobs. cbn [sched] in Hj. by rewrite Hj.
  - intros n. by rewrite Hjobs, Hst.
Qed.

(** ** The requests counted *)

Definition total (m : Series) : Z := map_fold (fun _ v n => v + n) 0 m.

Lemma total_insert (m : Series) k v : total (<[k := v]> m) = total m - default 0 (m !! k) + v.
Proof.
  assert (forall (m : Series) k v, m !! k = None -> total (<[k := v]> m) = v + total m) as Hnew
    by (intros; unfold total; apply map_fold_insert_L; [lia|done]).
  destruct (m !! k) as [w|] eqn:E; cbn [default].
  - assert (total m = w + total (delete k m)) as ->
      by (rewrite <- (insert_delete_id m k w E) at 1; apply Hnew, lookup_delete_eq).
    rewrite <- insert_delete_eq, Hnew by apply lookup_delete_eq. cbn. lia.
  - rewrite Hnew by done. cbn. lia.
Qed.

Definition counted (n : nat) (m : Series) : Prop :=
  Z.of_nat n <= u64_max -> total m = Z.of_nat n /\ forall k v, m !! k = Some v -> 0 <= v <= Z.of_nat n.

Lemma counted_request method path code n m : counted n m -> counted (S n) (record_http_request method path code m).
Proof.
  intros Hc Hn. destruct Hc as [Ht Hv]; [lia|]. unfold record_http_request.
  set (k := (method, normalize_path path, code)).
  assert (0 <= default 0 (m !! k) <= Z.of_nat n) as Hk.
  { destruct (m !! k) as [v|] eqn:E; cbn [default]; [by apply (Hv k)|lia]. }
  rewrite wrap_u64_small by ints. split; [rewrite total_insert; lia|].
  intros k' v [[<- <-]|[_ Hk']]%lookup_insert_Some; [lia|]. specialize (Hv k' v Hk'). lia.
Qed.

Context `{KvView K} `{!KvLaws K} `{!RouterLaws lookup}.

(** Which services are on, and a key-value store that is well formed *)
Definition services_ok (on : bool * bool * bool) (sv : Services (K := K) (C := C) (O := O)) : Prop :=
  on = (has_kv sv, has_sql sv, has_storage sv) /\ forall k, kv sv = Some k -> kv_wf k.

(** A daemon that has just started on an empty database *)
Record first_start (on : bool * bool * bool) (w : World) : Prop := {
  fs_jobs : jobs (sched (daemon (api w))) = ∅;
  fs_stored : cron_jobs (store (daemon (api w))) = ∅;
  fs_requests : requests (api w) = ∅ /\ answered w = 0%nat;
  fs_services : services_ok on (services (api w));
}.

(** What holds of the daemon at any time *)
Record alive (on : bool * bool * bool) (w : World) : Prop := {
  al_jobs : consistent (daemon (api w));
  al_counted : counted (answered w) (requests (api w));
  al_services : services_ok on (services (api w));
}.

Lemma has_iff (sv sv' : Services (K := K) (C := C) (O := O)) :
  (is_Some (kv sv') <-> is_Some (kv sv)) -> (is_Some (sql sv') <-> is_Some (sql sv)) ->
  (is_Some (storage sv') <-> is_Some (storage sv)) ->
  (has_kv sv', has_sql sv', has_storage sv') = (has_kv sv, has_sql sv, has_storage sv).
Proof. intros Hk Hq Ho. unfold has_kv, has_sql, has_storage. by rewrite (bool_decide_ext _ _ Hk), (bool_decide_ext _ _ Hq), (bool_decide_ext _ _ Ho). Qed.

(** A request: the handler's effect on the jobs, or none *)
Lemma request_served e req (s : Api) a s' : serve_request e req s = Some (a, s') -> exists s1,
  s' = with_requests (record_http_request (a_method req) (a_path req) (status a) (requests s)) s1 /\
  requests s1 = requests s /\
  (s1 = s \/ exists h raws a0,
     run_handler decode json_type parse_start parse_kv_set parse_sql parse_batch parse_cron parse_update query_prefix
       query_list query_lines fmt iter as_i64 as_f64 json_f64 (c_db e) (c_os e) logs_dir (c_exists e) (c_read_lines e)
       render (c_now e) (c_id e) (c_run e) h raws req s = Some (a0, s1)).
Proof.
  unfold serve_request, handle. destruct (authorized _ _ _ _ _ _ _ _ _ _ _ _ _ _ _ _ _ _ _ _ _ _ _ _ _ _ _ req s) as [[a1 s1]|] eqn:Ea; [|done].
  intros [= <- <-]. apply authorized_cases in Ea as [(-> & _)|(_ & r & raws & h & a0 & _ & _ & Hh & _)].
  - exists s. split; [done|]. split; [done|by left].
  - exists s1. apply handler_frame in Hh as Hf. destruct Hf as [Hreq _]. rewrite Hreq.
    split; [done|]. split; [done|]. right. by exists h, raws, a0.
Qed.

Lemma alive_life on w w' : life w w' -> alive on w -> alive on w'.
Proof.
  intros Hl [Hj Hc Hsv]. destruct Hl as [e req a s s' fl n Hdb Hnow Hr|s d fl fl' n Hs|db os fresh s s' fl n Hdb Hr];
    cbn [api in_flight answered] in *.
  - apply request_served in Hr as (s1 & -> & Hreq & [->|(h & raws & a0 & Hh)]).
    + split; cbn [api answered daemon services requests with_requests]; [done|by apply counted_request|done].
    + destruct (handler_services _ _ _ _ _ _ _ _ _ _ _ _ _ _ _ _ _ _ _ _ _ _ _ _ _ _ _ _ _ _ _ Hnow Hh)
        as (Hsk & Hsq & Hso & Hwf).
      split; cbn [api answered daemon services requests with_requests].
      * exact (consistent_steps _ _ (handler_steps h raws e req s a0 s1 [] Hdb Hh) Hj).
      * by apply counted_request.
      * destruct Hsv as [Hon Hk]. split; [rewrite Hon; symmetry; by apply has_iff|by apply Hwf].
  - split; cbn [api answered with_daemon daemon services requests]; [|done..].
    exact (consistent_steps _ _ (rtc_once _ _ Hs) Hj).
  - destruct (restart_consistent db os fresh s Hdb Hj) as (s1 & E & Hc' & Hsv' & _). rewrite E in Hr. injection Hr as <-.
    split; cbn [api answered]; [done| |by rewrite Hsv'].
    assert (requests s1 = ∅) as ->.
    { revert E. unfold restart. destruct (serve_start _ _ _); [|done]. by intros [= <-]. }
    intros _. split; [done|]. intros k v Hkv. by rewrite lookup_empty in Hkv.
Qed.

Lemma alive_lives on w w' : rtc life w w' -> alive on w -> alive on w'.
Proof. induction 1; eauto using alive_life. Qed.

End Life.

(** ** Concrete instances *)

Section Witnesses.
Import DaemonProps.Toy Sql.Toy ApiToy.

#[local] Existing Instance Sql.Toy.toy_engine.
#[local] Existing Instance api_kv.
#[local] Existing Instance api_view.
#[local] Existing Instance api_kv_laws.
#[local] Existing Instance api_storage.

Definition new_daemon : Api (Json := unit) (Sch := gmap string (string * string)) (Bytes := Doc) (K := MemoryBackend)
    (C := Conn) (O := gmap string MemoryObject) :=
  {| daemon := DaemonProps.Toy.empty; services := {| kv := None; sql := None; storage := Some ∅ |}; requests := ∅ |}.

(** The body of every request to /cron asks for the hourly report. *)
Definition ask_hourly (_ : string) : result (CronCreateRequest unit) Rejection := Ok {|
  cc_name := "report"; cc_module := "modules/report.wasm"; cc_cron := cron hourly; cc_method := None; cc_path := None;
  cc_enabled := None; cc_port := None; cc_body := None; cc_headers := None; cc_health_path := None |}.

Definition today : Circumstances (Json := unit) := {|
  c_db := db_ok; c_os := InstanceProps.alive; c_exists _ := false; c_read_lines _ := Err ""; c_now := from_secs 10;
  c_id := "id"; c_run := {| net := {| client := true; health _ := Ok 200; call _ := Ok (200, None) |}; ms := 5;
                            completed := from_secs 11 |} |}.

Definition toy_serve := serve_request (K := MemoryBackend) (O := gmap string MemoryObject) (Bytes := Doc)
  lookup Some (fun _ => None) no_body no_body no_body no_body ask_hourly no_body (fun _ => Ok None)
  (fun _ => Ok (None, None)) (fun _ => Ok None) (fun _ => "") map_to_list (fun _ => None) (fun _ => None)
  (fun x : Empty_set => match x with end) (Err "") (fun _ => "") None.

Definition asked : Api := default new_daemon (snd <$> toy_serve today (request "POST" "/cron" None) new_daemon).

Lemma asked_served : exists a, toy_serve today (request "POST" "/cron" None) new_daemon = Some (a, asked).
Proof.
  unfold asked. assert (is_Some (toy_serve today (request "POST" "/cron" None) new_daemon)) as [[a s'] E]
    by (vm_compute; eexists; reflexivity).
  exists a. by rewrite E.
Qed.

Lemma new_daemon_first :
  first_start (false, false, true) {| api := new_daemon; in_flight := []; answered := 0 |}.
Proof. by repeat split. Qed.

End Witnesses.
