(* ===== verification/OpenApi.v ===== *)
(** OpenApi: aggregation of the OpenAPI documents of the handlers, of
    [src/src/runtime/gateway/openapi.rs]. *)

From stdpp Require Import base list strings sorting.
From S2P Require Import Prelude SortBy Http Json.

(** ** Operations *)

Definition OPENAPI_VERSION : string := "3.0.3".
Definition SCHEMAS : string := "#/components/schemas/".

(** The schema name a member [$ref] refers to. *)
Definition schema_ref (e : string * Value) : option string :=
  if String.eqb e.1 "$ref" then as_str e.2 ≫= Str.strip_prefix SCHEMAS else None.

Fixpoint update_schema_refs (handler_name : string) (value : Value) : Value :=
  match value with
  | Object obj =>
      Object (fold_left (fun new_obj e =>
        map_insert e.1
          (match schema_ref e with
           | Some schema_name => Text (SCHEMAS +:+ handler_name +:+ "_" +:+ schema_name)
           | None => update_schema_refs handler_name e.2
           end) new_obj) obj [])
  | Array arr => Array (map (update_schema_refs handler_name) arr)
  | _ => value
  end.

Definition normalized_path (path : string) : string :=
  if Str.starts_with "/" path then path else "/" +:+ path.

Definition full_path (route_prefix handler_name path : string) : string :=
  route_prefix +:+ "/" +:+ handler_name +:+ normalized_path path.

Definition merge_paths (aggregated handler_paths : Map) (handler_name route_prefix : string) : Map :=
  fold_left (fun aggregated e =>
    map_insert (full_path route_prefix handler_name e.1) (update_schema_refs handler_name e.2) aggregated)
    handler_paths aggregated.

Definition prefixed_name (handler_name schema_name : string) : string :=
  handler_name +:+ "_" +:+ schema_name.

Definition merge_schemas (aggregated handler_schemas : Map) (handler_name : string) : Map :=
  fold_left (fun aggregated e =>
    map_insert (prefixed_name handler_name e.1) (update_schema_refs handler_name e.2) aggregated)
    handler_schemas aggregated.

Definition spec_paths (spec : Value) : option Map := get "paths" spec ≫= as_object.
Definition spec_schemas (spec : Value) : option Map :=
  (get "components" spec ≫= get "schemas") ≫= as_object.

(** One handler's part of the loop of [aggregate_specs]. *)
Definition aggregate_one (route_prefix : string) (acc : Map * Map) (e : string * Value) : Map * Map :=
  let '(paths, schemas) := acc in
  let '(handler_name, spec) := e in
  (match spec_paths spec with
   | Some m => merge_paths paths m handler_name route_prefix
   | None => paths
   end,
   match spec_schemas spec with
   | Some m => merge_schemas schemas m handler_name
   | None => schemas
   end).

Definition aggregate_specs (title : string) (specs : list (string * Value)) (route_prefix : string)
  : Value :=
  let '(paths, schemas) := fold_left (aggregate_one route_prefix) specs ([], []) in
  Object [("components", Object [("schemas", Object schemas)]);
          ("info", Object [("title", Text title); ("version", Text "1.0.0")]);
          ("openapi", Text OPENAPI_VERSION);
          ("paths", Object paths)].

(** ** Renaming the references of a value *)

(** The schemas a value refers to, at any depth. *)
Fixpoint schema_refs (v : Value) : list string :=
  match v with
  | Array l => concat (map schema_refs l)
  | Object m =>
      concat (map (fun e => match schema_ref e with Some n => [n] | None => schema_refs e.2 end) m)
  | _ => []
  end.

Definition update_member (h : string) (e : string * Value) : Value :=
  match schema_ref e with
  | Some n => Text (SCHEMAS +:+ prefixed_name h n)
  | None => update_schema_refs h e.2
  end.

Lemma map_fst_members {A B} (f : string * A -> B) m : (map (fun e => (e.1, f e)) m).*1 = m.*1.
Proof. induction m as [|[k v] m IH]; simpl; [done|]. by f_equal. Qed.

Lemma ordered_keys {A B} (m : list (string * A)) (m' : list (string * B)) :
  m.*1 = m'.*1 -> ordered m -> ordered m'.
Proof.
  rewrite <- !keys_increase_ordered. intros E.
  assert (map fst m = map fst m') as -> by exact E. done.
Qed.

(** On a well-formed object the loop is a map over the members. *)
Lemma update_Object h m : ordered m ->
  update_schema_refs h (Object m) = Object (map (fun e => (e.1, update_member h e)) m).
Proof.
  intros Hm. simpl. f_equal.
  exact (insert_all_ordered (update_member h) m Hm [] ltac:(by intros ? ? ?%elem_of_nil)).
Qed.

Lemma update_wf h v : wf v = true -> wf (update_schema_refs h v) = true.
Proof.
  induction v as [| | | |l IH|m IH] using Value_ind; try done.
  - rewrite wf_Array. intros Hl. apply wf_Array. rewrite Forall_forall in *.
    intros x (y & -> & Hy)%list_elem_of_fmap. by apply IH, Hl.
  - intros [Ho Hf]%wf_Object. rewrite update_Object by done. apply wf_Object. split.
    + eapply ordered_keys; [|exact Ho]. symmetry. apply map_fst_members.
    + rewrite Forall_forall in *. intros x (e & -> & He)%list_elem_of_fmap. simpl.
      unfold update_member. destruct (schema_ref e); [done|]. by apply IH, Hf.
Qed.

Lemma schema_ref_update h e :
  schema_ref (e.1, update_member h e) = prefixed_name h <$> schema_ref e.
Proof.
  unfold update_member. destruct (schema_ref e) as [n|] eqn:E.
  - unfold schema_ref in *. cbn [fst snd as_str]. destruct (String.eqb e.1 "$ref"); [|done].
    apply Str.strip_prefix_Some. done.
  - unfold schema_ref in *. cbn [fst snd]. destruct (String.eqb e.1 "$ref"); [|done].
    destruct e as [k []]; exact E || done.
Qed.

Lemma refs_update h v : wf v = true ->
  schema_refs (update_schema_refs h v) = map (prefixed_name h) (schema_refs v).
Proof.
  induction v as [| | | |l IH|m IH] using Value_ind; try done.
  - rewrite wf_Array. intros Hl. simpl. rewrite concat_map, !map_map. f_equal.
    apply map_ext_in. intros x Hx%list_elem_of_In. rewrite Forall_forall in *. by apply IH, Hl.
  - intros [Ho Hf]%wf_Object. rewrite update_Object by done. simpl.
    rewrite concat_map, !map_map. f_equal.
    apply map_ext_in. intros e He%list_elem_of_In. rewrite schema_ref_update.
    unfold update_member. destruct (schema_ref e) as [n|]; simpl; [done|].
    rewrite Forall_forall in *. by apply IH, Hf.
Qed.

(** ** The loops of the aggregation as lists of inserted entries *)

Definition path_entries (route_prefix h : string) (m : Map) : Map :=
  map (fun e => (full_path route_prefix h e.1, update_schema_refs h e.2)) m.
Definition schema_entries (h : string) (m : Map) : Map :=
  map (fun e => (prefixed_name h e.1, update_schema_refs h e.2)) m.

Definition all_paths (route_prefix : string) (specs : list (string * Value)) : Map :=
  concat (map (fun e => path_entries route_prefix e.1 (default [] (spec_paths e.2))) specs).
Definition all_schemas (specs : list (string * Value)) : Map :=
  concat (map (fun e => schema_entries e.1 (default [] (spec_schemas e.2))) specs).

Lemma insert_list_map {A B} (f : B -> string * A) l : forall m,
  insert_list (map f l) m = fold_left (fun m b => map_insert (f b).1 (f b).2 m) l m.
Proof. induction l as [|b l IH]; intros m; simpl; [done|apply IH]. Qed.

Lemma aggregate_fold route_prefix specs : forall paths schemas,
  fold_left (aggregate_one route_prefix) specs (paths, schemas) =
  (insert_list (all_paths route_prefix specs) paths, insert_list (all_schemas specs) schemas).
Proof.
  unfold all_paths, all_schemas.
  induction specs as [|[h spec] specs IH]; intros paths schemas; [done|].
  cbn [fold_left map concat aggregate_one fst snd]. rewrite IH, !insert_list_app.
  unfold path_entries, schema_entries. rewrite !insert_list_map.
  by destruct (spec_paths spec), (spec_schemas spec).
Qed.

Lemma aggregate_spec_paths title specs route_prefix :
  spec_paths (aggregate_specs title specs route_prefix) = Some (insert_list (all_paths route_prefix specs) []).
Proof. unfold aggregate_specs. by rewrite aggregate_fold. Qed.

Lemma aggregate_spec_schemas title specs route_prefix :
  spec_schemas (aggregate_specs title specs route_prefix) = Some (insert_list (all_schemas specs) []).
Proof. unfold aggregate_specs. by rewrite aggregate_fold. Qed.

(** *** Where an aggregated entry comes from *)

Lemma elem_of_concat_map {A B} (f : A -> list B) l b : b ∈ concat (map f l) <-> exists a, a ∈ l /\ b ∈ f a.
Proof.
  induction l as [|x l IH]; simpl.
  - split; [by intros ?%elem_of_nil|]. by intros (a & Ha%elem_of_nil & _).
  - rewrite elem_of_app, IH. setoid_rewrite elem_of_cons. naive_solver.
Qed.

Lemma elem_of_all_paths route_prefix specs k v :
  (k, v) ∈ all_paths route_prefix specs <->
  exists h spec m p ops, (h, spec) ∈ specs /\ spec_paths spec = Some m /\ (p, ops) ∈ m /\
    k = full_path route_prefix h p /\ v = update_schema_refs h ops.
Proof.
  unfold all_paths, path_entries. rewrite elem_of_concat_map. split.
  - intros ([h spec] & Hs & Hk). simpl in Hk. destruct (spec_paths spec) as [m|] eqn:E; simpl in Hk.
    + apply list_elem_of_fmap in Hk as ([p ops] & [= -> ->] & Hp). by exists h, spec, m, p, ops.
    + by apply elem_of_nil in Hk.
  - intros (h & spec & m & p & ops & Hs & E & Hp & -> & ->). exists (h, spec). split; [done|].
    cbn [fst snd]. rewrite E. apply list_elem_of_fmap. by exists (p, ops).
Qed.

Lemma elem_of_all_schemas specs k v :
  (k, v) ∈ all_schemas specs <->
  exists h spec m n schema, (h, spec) ∈ specs /\ spec_schemas spec = Some m /\ (n, schema) ∈ m /\
    k = prefixed_name h n /\ v = update_schema_refs h schema.
Proof.
  unfold all_schemas, schema_entries. rewrite elem_of_concat_map. split.
  - intros ([h spec] & Hs & Hk). simpl in Hk. destruct (spec_schemas spec) as [m|] eqn:E; simpl in Hk.
    + apply list_elem_of_fmap in Hk as ([p ops] & [= -> ->] & Hp). by exists h, spec, m, p, ops.
    + by apply elem_of_nil in Hk.
  - intros (h & spec & m & p & ops & Hs & E & Hp & -> & ->). exists (h, spec). split; [done|].
    cbn [fst snd]. rewrite E. apply list_elem_of_fmap. by exists (p, ops).
Qed.

Lemma spec_members_wf spec m : wf spec = true ->
  spec_paths spec = Some m \/ spec_schemas spec = Some m ->
  ordered m /\ Forall (fun e => wf e.2 = true) m.
Proof.
  intros Hw H. apply wf_Object. unfold spec_paths, spec_schemas in H.
  assert (forall k v x, wf v = true -> get k v ≫= as_object = Some x -> wf (Object x) = true) as Hg.
  { intros k v x Hv (w & E & Ew)%bind_Some. apply wf_get in E; [|done].
    destruct w; by simplify_eq/=. }
  destruct H as [H|H]; [by eapply Hg|].
  apply bind_Some in H as (c & (w & Ew & Hc)%bind_Some & Hm).
  eapply (Hg "schemas" w); [by eapply wf_get|]. by rewrite Hc.
Qed.

Lemma aggregate_maps_wf route_prefix specs :
  Forall (fun e => wf e.2 = true) specs ->
  Forall (fun e => wf e.2 = true) (all_paths route_prefix specs) /\
  Forall (fun e => wf e.2 = true) (all_schemas specs).
Proof.
  intros Hw. rewrite Forall_forall in Hw. split; apply Forall_forall.
  - intros [k v] (h & spec & m & p & ops & Hs & E & Hp & -> & ->)%elem_of_all_paths. apply update_wf.
    apply Hw in Hs. destruct (spec_members_wf spec m Hs (or_introl E)) as [_ Hf].
    rewrite Forall_forall in Hf. exact (Hf _ Hp).
  - intros [k v] (h & spec & m & p & ops & Hs & E & Hp & -> & ->)%elem_of_all_schemas. apply update_wf.
    apply Hw in Hs. destruct (spec_members_wf spec m Hs (or_intror E)) as [_ Hf].
    rewrite Forall_forall in Hf. exact (Hf _ Hp).
Qed.

(** ** References of a document *)

(** The schema a reference leads into: a pointer may go on below it. *)
Definition ref_target (n : string) : string := hd EmptyString (Str.split Str.SLASH n).

Definition map_refs (m : Map) : list string := concat (map (fun e => schema_refs e.2) m).
Definition spec_refs (spec : Value) : list string :=
  map_refs (default [] (spec_paths spec)) ++ map_refs (default [] (spec_schemas spec)).
Definition defined_schema (spec : Value) (n : string) : bool :=
  match spec_schemas spec with
  | Some m => match map_get (ref_target n) m with Some _ => true | None => false end
  | None => false
  end.
(** Every schema that the paths and the schemas refer to is defined. *)
Definition closed (spec : Value) : bool := forallb (defined_schema spec) (spec_refs spec).

Lemma closed_iff spec : closed spec = true <-> forall n, n ∈ spec_refs spec -> defined_schema spec n = true.
Proof. unfold closed. rewrite forallb_forall. by setoid_rewrite list_elem_of_In. Qed.

Lemma defined_schema_iff spec n :
  defined_schema spec n = true <-> exists m, spec_schemas spec = Some m /\ ref_target n ∈ m.*1.
Proof.
  unfold defined_schema. destruct (spec_schemas spec) as [m|]; [|naive_solver].
  destruct (map_get _ m) as [v|] eqn:E; split; try done.
  - intros _. exists m. rewrite <- map_get_key, E. eauto.
  - intros (? & [= <-] & [? ?]%map_get_key). congruence.
Qed.

Lemma elem_of_spec_refs spec n :
  n ∈ spec_refs spec <->
  exists m e, (spec_paths spec = Some m \/ spec_schemas spec = Some m) /\ e ∈ m /\ n ∈ schema_refs e.2.
Proof.
  unfold spec_refs, map_refs. rewrite elem_of_app, !elem_of_concat_map. split.
  - intros [(e & He & Hn)|(e & He & Hn)].
    + destruct (spec_paths spec) as [m|]; [|by apply elem_of_nil in He]. exists m, e. auto.
    + destruct (spec_schemas spec) as [m|]; [|by apply elem_of_nil in He]. exists m, e. auto.
  - intros (m & e & [E|E] & He & Hn); rewrite E; [left|right]; by exists e.
Qed.

Lemma hd_split_app c a s : Str.contains_char c a = false ->
  hd EmptyString (Str.split c (a +:+ s)) = a +:+ hd EmptyString (Str.split c s).
Proof.
  unfold Str.split, Str.contains_char. induction a as [|d a IH]; simpl; [done|].
  intros [Hd Ha]%orb_false_iff. rewrite Hd. rewrite <- (IH Ha).
  pose proof (Str.split_pred_nonempty (Ascii.eqb c) (a +:+ s)) as Hne.
  by destruct (Str.split_pred _ (a +:+ s)).
Qed.

Lemma ref_target_prefixed h n : Str.contains_char Str.SLASH h = false ->
  ref_target (prefixed_name h n) = prefixed_name h (ref_target n).
Proof.
  intros Hh. unfold ref_target, prefixed_name.
  rewrite !hd_split_app; [done| |done]. done.
Qed.

(** ** No two handlers share a path; their schemas may *)

Lemma normalized_path_slash p : exists r, normalized_path p = String Str.SLASH r.
Proof.
  unfold normalized_path. destruct (Str.starts_with "/" p) eqn:E; [|by exists p].
  apply Str.starts_with_iff in E as (r & ->). by exists r.
Qed.

Lemma full_path_inj route_prefix h p h' p' :
  Str.contains_char Str.SLASH h = false -> Str.contains_char Str.SLASH h' = false ->
  full_path route_prefix h p = full_path route_prefix h' p' ->
  h = h' /\ normalized_path p = normalized_path p'.
Proof.
  intros Hh Hh' E. unfold full_path in E. apply Str.app_inj_l, (Str.app_inj_l "/") in E.
  destruct (normalized_path_slash p) as [r Hr], (normalized_path_slash p') as [r' Hr'].
  rewrite Hr, Hr' in *.
  assert (Str.split_once Str.SLASH (h +:+ String Str.SLASH r) = Some (h, r)) as H1
    by (apply Str.split_once_Some; split; [done|exact Hh]).
  assert (Str.split_once Str.SLASH (h' +:+ String Str.SLASH r') = Some (h', r')) as H2
    by (apply Str.split_once_Some; split; [done|exact Hh']).
  rewrite E in H1. by simplify_eq.
Qed.

(** Neither name extends the other past an underscore. *)
Definition separable (h h' : string) : bool :=
  (negb (Str.starts_with (h +:+ "_") h') && negb (Str.starts_with (h' +:+ "_") h))%bool.

Lemma app_eq_app (a b c d : string) :
  a +:+ b = c +:+ d -> (exists x, c = a +:+ x) \/ (exists x, a = c +:+ x).
Proof.
  revert c. induction a as [|k a IH]; intros [|j c]; simpl; intros E.
  - left. by exists EmptyString.
  - left. by exists (String j c).
  - right. by exists (String k a).
  - injection E as -> E. destruct (IH c E) as [[x ->]|[x ->]]; [left|right]; by exists x.
Qed.

Lemma underscore_prefix (a b x : string) :
  a +:+ "_" = (b +:+ "_") +:+ x -> a = b \/ Str.starts_with (b +:+ "_") a = true.
Proof.
  revert b. induction a as [|k a IH]; intros [|j b]; simpl; intros E; [by left| | |].
  - by destruct b.
  - injection E as -> _. right. by apply (Str.starts_with_app "_").
  - injection E as -> E. apply IH in E as [->|E]; [by left|right].
    apply Str.starts_with_iff in E as (r & ->). by apply (Str.starts_with_app (String j (b +:+ "_")) r).
Qed.

Lemma prefixed_name_inj h n h' n' :
  separable h h' = true -> prefixed_name h n = prefixed_name h' n' -> h = h' /\ n = n'.
Proof.
  unfold separable, prefixed_name. intros [H1%negb_true_iff H2%negb_true_iff]%andb_true_iff E.
  rewrite !Str.app_assoc in E. assert (h = h') as <-.
  - destruct (app_eq_app _ _ _ _ E) as [[x Hx]|[x Hx]];
      apply underscore_prefix in Hx as [?|?]; congruence.
  - split; [done|]. by apply Str.app_inj_l in E.
Qed.

(** ** Properties *)

(** A value that only contains well-formed maps. *)
Lemma aggregate_wf title specs route_prefix :
  Forall (fun e => wf e.2 = true) specs -> wf (aggregate_specs title specs route_prefix) = true.
Proof.
  intros [Hp Hs]%(aggregate_maps_wf route_prefix). unfold aggregate_specs. rewrite aggregate_fold.
  assert (forall l, Forall (fun e => wf e.2 = true) l -> wf (Object (insert_list l [])) = true) as H.
  { intros l Hl. apply wf_Object. split; [by apply insert_list_ordered; constructor|by apply insert_list_Forall]. }
  apply H in Hp, Hs. revert Hp Hs.
  generalize (insert_list (all_paths route_prefix specs) []) (insert_list (all_schemas specs) []).
  intros paths schemas Hp Hs.
  change (wf (Object schemas) && true && (wf (Object paths) && true) = true)%bool.
  by rewrite Hp, Hs.
Qed.

(** C18. The aggregated document is well formed, its paths lie below those of
    the handlers, and every schema it refers to is one of its schemas,
    whenever this holds of each handler's document and handler names are file
    names. *)
Theorem aggregate_valid (title route_prefix : string) (specs : list (string * Value)) :
  Forall (fun e => wf e.2 = true /\ closed e.2 = true /\ Str.contains_char Str.SLASH e.1 = false) specs ->
  wf (aggregate_specs title specs route_prefix) = true /\
  closed (aggregate_specs title specs route_prefix) = true /\
  exists paths, spec_paths (aggregate_specs title specs route_prefix) = Some paths /\
    forall k, k ∈ paths.*1 -> exists h, h ∈ specs.*1 /\
      Str.starts_with (route_prefix +:+ "/" +:+ h +:+ "/") k = true.
Proof.
  intros Hspecs. rewrite Forall_forall in Hspecs. split_and!.
  - apply aggregate_wf, Forall_forall. intros e He. by apply Hspecs.
  - apply closed_iff. intros n (m & [k v] & Hm & He & Hn)%elem_of_spec_refs.
    rewrite aggregate_spec_paths, aggregate_spec_schemas in Hm.
    assert (exists h spec m' e', (h, spec) ∈ specs /\ (spec_paths spec = Some m' \/ spec_schemas spec = Some m') /\
      e' ∈ m' /\ v = update_schema_refs h e'.2) as (h & spec & m' & e' & Hs & Hm' & He' & ->).
    { assert (forall l, (k, v) ∈ insert_list l [] -> (k, v) ∈ l) as Hi.
      { intros l Hl. apply insert_list_elem, map_get_elem; [|exact Hl].
        apply insert_list_ordered. constructor. }
      destruct Hm as [[= <-]|[= <-]]; apply Hi in He.
      - apply elem_of_all_paths in He as (h & spec & m & p & ops & ? & ? & ? & _ & ->).
        exists h, spec, m, (p, ops). eauto.
      - apply elem_of_all_schemas in He as (h & spec & m & p & ops & ? & ? & ? & _ & ->).
        exists h, spec, m, (p, ops). eauto. }
    destruct (Hspecs _ Hs) as (Hw & Hc & Hh). cbn [fst snd] in *.
    destruct (spec_members_wf spec m' Hw Hm') as [_ Hf]. rewrite Forall_forall in Hf.
    rewrite refs_update in Hn by (by apply Hf).
    apply list_elem_of_fmap in Hn as (n' & -> & Hn').
    rewrite closed_iff in Hc. specialize (Hc n').
    rewrite elem_of_spec_refs, !defined_schema_iff in Hc.
    destruct Hc as (ms & Hms & Hin); [by exists m', e'|].
    apply defined_schema_iff. eexists. split; [apply aggregate_spec_schemas|].
    apply map_get_key, insert_list_key. right. rewrite ref_target_prefixed by done.
    apply list_elem_of_fmap in Hin as ([n0 schema] & Hn0 & Hin). cbn [fst] in Hn0. rewrite Hn0.
    apply list_elem_of_fmap. exists (prefixed_name h n0, update_schema_refs h schema). split; [done|].
    apply elem_of_all_schemas. by exists h, spec, ms, n0, schema.
  - eexists. split; [apply aggregate_spec_paths|]. intros k Hk.
    apply map_get_key, insert_list_key in Hk as [[? [=]]|Hk].
    apply list_elem_of_fmap in Hk as ([k' v] & -> & Hk). simpl.
    apply elem_of_all_paths in Hk as (h & spec & m & p & ops & Hs & _ & _ & -> & _).
    exists h. split; [by apply (list_elem_of_fmap_2 fst) in Hs|].
    destruct (normalized_path_slash p) as [r Hr]. apply Str.starts_with_iff. exists r.
    unfold full_path. rewrite Hr, <- Str.app_assoc. f_equal.
    change ("/" +:+ (h +:+ String Str.SLASH r) = "/" +:+ ((h +:+ "/") +:+ r)). by rewrite <- Str.app_assoc.
Qed.

(** What the aggregated document holds. Every path of a handler is found
    below the handler's name with its references renamed, unless another path
    of the same handler normalises to it; every schema of a handler is found
    under its prefixed name, unless the name of another handler continues the
    handler's past an underscore or the other way round. And there is nothing
    else. *)
Lemma aggregate_spec (title route_prefix : string) (specs : list (string * Value)) :
  Forall (fun e => wf e.2 = true /\ Str.contains_char Str.SLASH e.1 = false) specs ->
  NoDup specs.*1 ->
  exists paths schemas,
    spec_paths (aggregate_specs title specs route_prefix) = Some paths /\
    spec_schemas (aggregate_specs title specs route_prefix) = Some schemas /\
    (forall h spec m, (h, spec) ∈ specs -> spec_paths spec = Some m -> forall p ops, (p, ops) ∈ m ->
      (forall p', p' ∈ m.*1 -> normalized_path p' = normalized_path p -> p' = p) ->
      map_get (full_path route_prefix h p) paths = Some (update_schema_refs h ops)) /\
    (forall h spec m, (h, spec) ∈ specs -> spec_schemas spec = Some m ->
      (forall h', h' ∈ specs.*1 -> h' <> h -> separable h h' = true) ->
      forall n schema, (n, schema) ∈ m ->
        map_get (prefixed_name h n) schemas = Some (update_schema_refs h schema)) /\
    (forall k v, map_get k paths = Some v -> exists h spec m p ops, (h, spec) ∈ specs /\
      spec_paths spec = Some m /\ (p, ops) ∈ m /\ k = full_path route_prefix h p /\
      v = update_schema_refs h ops) /\
    (forall k v, map_get k schemas = Some v -> exists h spec m n schema, (h, spec) ∈ specs /\
      spec_schemas spec = Some m /\ (n, schema) ∈ m /\ k = prefixed_name h n /\
      v = update_schema_refs h schema).
Proof.
  intros Hspecs Hnd. rewrite Forall_forall in Hspecs.
  assert (forall h s s', (h, s) ∈ specs -> (h, s') ∈ specs -> s = s') as Hfun.
  { intros h s s' H1 H2. by eapply NoDup_fst_unique. }
  assert (forall (m : Map) k v v', ordered m -> (k, v) ∈ m -> (k, v') ∈ m -> v = v') as Hval.
  { intros m k v v' Ho H1 H2. apply map_get_elem in H1, H2; congruence. }
  eexists _, _. split_and!; [apply aggregate_spec_paths|apply aggregate_spec_schemas|..].
  - intros h spec m Hs Hm p ops Hp Hu. apply insert_list_unique.
    { apply elem_of_all_paths. by exists h, spec, m, p, ops. }
    intros v (h' & spec' & m' & p' & ops' & Hs' & Hm' & Hp' & E & ->)%elem_of_all_paths.
    destruct (Hspecs _ Hs) as [Hw Hh], (Hspecs _ Hs') as [_ Hh'].
    apply full_path_inj in E as [<- E]; [|done..].
    rewrite <- (Hfun _ _ _ Hs Hs') in Hm'. rewrite Hm in Hm'. injection Hm' as <-.
    assert (p' = p) as -> by (apply Hu; [by apply (list_elem_of_fmap_2 fst) in Hp'|done]).
    destruct (spec_members_wf spec m Hw (or_introl Hm)) as [Ho _].
    by rewrite (Hval m p ops ops').
  - intros h spec m Hs Hm Hsep n schema Hn. apply insert_list_unique.
    { apply elem_of_all_schemas. by exists h, spec, m, n, schema. }
    intros v (h' & spec' & m' & n' & schema' & Hs' & Hm' & Hn' & E & ->)%elem_of_all_schemas.
    assert (h = h' /\ n = n') as [<- <-].
    { destruct (decide (h' = h)) as [->|Hne].
      - unfold prefixed_name in E. rewrite !Str.app_assoc in E. by apply Str.app_inj_l in E.
      - apply prefixed_name_inj; [|done]. apply Hsep; [by apply (list_elem_of_fmap_2 fst) in Hs'|done]. }
    rewrite <- (Hfun _ _ _ Hs Hs') in Hm'. rewrite Hm in Hm'. injection Hm' as <-.
    destruct (Hspecs _ Hs) as [Hw _].
    destruct (spec_members_wf spec m Hw (or_intror Hm)) as [Ho _].
    by rewrite (Hval m n schema schema').
  - intros k v Hk%insert_list_elem. by apply elem_of_all_paths.
  - intros k v Hk%insert_list_elem. by apply elem_of_all_schemas.
Qed.

(** The aggregate drops every component but the schemas: a reference to a
    parameter, a response or a security scheme is kept and leads nowhere. *)
Lemma other_components_dropped title specs route_prefix k :
  k <> "schemas" ->
  get "components" (aggregate_specs title specs route_prefix) ≫= get k = None.
Proof.
  intros Hk. unfold aggregate_specs. rewrite aggregate_fold.
  apply String.eqb_neq in Hk. unfold get. cbn -[String.eqb]. rewrite String.eqb_refl. cbn -[String.eqb]. by rewrite Hk.
Qed.

(** Prefixing does not keep the schemas of two handlers apart: the schema
    [t_n] of handler [h] and the schema [n] of handler [h_t] have one name, and
    the handler that comes later has its schema there. *)
Lemma prefixed_schemas_collide title route_prefix h t n a b :
  let spec m := Object [("components", Object [("schemas", Object m)])] in
  spec_schemas (aggregate_specs title
    [(h, spec [(prefixed_name t n, a)]); (prefixed_name h t, spec [(n, b)])] route_prefix) =
  Some [(prefixed_name h (prefixed_name t n), update_schema_refs (prefixed_name h t) b)].
Proof.
  cbv zeta. rewrite aggregate_spec_schemas. f_equal.
  change (insert_list [(prefixed_name h (prefixed_name t n), update_schema_refs h a);
    (prefixed_name (prefixed_name h t) n, update_schema_refs (prefixed_name h t) b)] [] =
    [(prefixed_name h (prefixed_name t n), update_schema_refs (prefixed_name h t) b)]).
  assert (prefixed_name (prefixed_name h t) n = prefixed_name h (prefixed_name t n)) as ->
    by (unfold prefixed_name; by rewrite !Str.app_assoc).
  unfold insert_list. simpl. by rewrite compare_refl.
Qed.

(** ** Witnesses *)

Definition auth_spec : Value :=
  Object [("components", Object [("schemas", Object [("User", Object [("type", Text "object")])])]);
          ("paths", Object [("/login", Object [("post", Object [("$ref", Text "#/components/schemas/User")])])])].
Definition users_spec : Value :=
  Object [("components", Object [("schemas", Object
             [("Page", Object [("items", Object [("$ref", Text "#/components/schemas/User/properties")])]); ("User", Null)])]);
          ("paths", Object [("list", Array [Number "1"])])].

Lemma aggregate_valid_witness :
  let doc := aggregate_specs "Platform API" [("auth", auth_spec); ("users", users_spec)] "/run" in
  wf doc = true /\ closed doc = true.
Proof.
  destruct (aggregate_valid "Platform API" "/run" [("auth", auth_spec); ("users", users_spec)]) as (H1 & H2 & _).
  - repeat (apply Forall_cons; split; [split_and!; vm_compute; reflexivity|]). by apply Forall_nil.
  - split; [exact H1|exact H2].
Defined.

