(* ===== verification/Gateway.v ===== *)
(** Gateway: discovery of the handlers and the [/_mik/] endpoints, of
    [src/src/runtime/gateway/mod.rs], [discovery.rs] and [types.rs]. The file
    system and [serde_json]'s parser are parameters. *)

From stdpp Require Import base list strings sorting.
From S2P Require Import Prelude StdPath ModulePath SortBy Http Json OpenApi.

(** ** Data *)

Record DiscoveredModule := {
  name : string;
  wasm_file : Path;
  size_bytes : Z;
  openapi_file : option Path;
  tenant : option string;
}.

Record DiscoveredTenant := {
  id : string;
  dir_path : Path;
  module_count : nat;
}.

Record HandlerAttributes := {
  attr_name : string;
  attr_size_bytes : Z;
  has_openapi : bool;
  attr_tenant_id : option string;
}.

Record HandlerLinks := {
  self_link : string;
  openapi_link : option string;
}.

Record HandlerInfo := {
  handler_id : string;
  handler_type : string;
  attributes : HandlerAttributes;
  links : HandlerLinks;
}.

Record HandlersMetadata := {
  total : nat;
  platform_count : nat;
  tenant_count : nat;
  timestamp : string;
}.

Record HandlersResponse := {
  data : list HandlerInfo;
  meta : HandlersMetadata;
}.

Record ErrorResponse := {
  error : string;
  message : string;
  request_id : option string;
}.

Definition not_found_error (message : string) : ErrorResponse :=
  {| error := "not_found"; message := message; request_id := None |}.
Definition invalid_request (message : string) : ErrorResponse :=
  {| error := "invalid_request"; message := message; request_id := None |}.

(** *** [#[derive(Serialize)]]: the fields in the order of their declaration,
    without those that [skip_serializing_if] leaves out *)

Definition optional (k : string) (o : option string) : list (string * Value) :=
  match o with Some s => [(k, Text s)] | None => [] end.
Definition attributes_json (a : HandlerAttributes) : Value :=
  Object ([("name", Text (attr_name a)); ("size_bytes", Number (Str.of_Z (attr_size_bytes a)));
           ("has_openapi", Bool (has_openapi a))] ++ optional "tenant_id" (attr_tenant_id a)).
Definition links_json (l : HandlerLinks) : Value :=
  Object ([("self", Text (self_link l))] ++ optional "openapi" (openapi_link l)).
Definition handler_json (h : HandlerInfo) : Value :=
  Object [("id", Text (handler_id h)); ("type", Text (handler_type h));
          ("attributes", attributes_json (attributes h)); ("links", links_json (links h))].
Definition nat_json (n : nat) : Value := Number (Str.of_Z (Z.of_nat n)).
Definition metadata_json (m : HandlersMetadata) : Value :=
  Object [("total", nat_json (total m)); ("platform_count", nat_json (platform_count m));
          ("tenant_count", nat_json (tenant_count m)); ("timestamp", Text (timestamp m))].
Definition handlers_json (r : HandlersResponse) : Value :=
  Object [("data", Array (map handler_json (data r))); ("meta", metadata_json (meta r))].
Definition error_json (e : ErrorResponse) : Value :=
  Object ([("error", Text (error e)); ("message", Text (message e))] ++
          optional "request_id" (request_id e)).

(** ** Discovery *)

Definition WASM_EXT : string := "wasm".
Definition OPENAPI_EXT : string := "openapi.json".

Section Gateway.
(** [read_dir]: the names of the entries, [None] for one that is not UTF-8;
    entries that cannot be read are gone already ([flatten]). *)
Variable read_dir : Path -> result (list (option string)) string.
Variable is_file : Path -> bool.
Variable is_dir : Path -> bool.
(** [std::fs::metadata(_).len()] *)
Variable file_len : Path -> option Z.
Variable read_to_string : Path -> result string string.
(** [serde_json::from_str] *)
Variable from_str : string -> result Value string.
(** [Utc::now().to_rfc3339()] *)
Variable now : string.

(** One iteration of the loop of [discover_modules]. *)
Definition discover_entry (dir : Path) (tenant_id : option string) (entry : option string)
  : option DiscoveredModule :=
  match entry with
  | None => None
  | Some file =>
      let path := dir ++ [Normal file] in
      if negb (is_file path) then None
      else if negb (bool_decide (extension path = Some WASM_EXT)) then None
      else match file_stem path with
           | None => None
           | Some name =>
               let openapi_path := join_str dir (name +:+ "." +:+ OPENAPI_EXT) in
               Some {| name := name; wasm_file := path; size_bytes := default 0%Z (file_len path);
                       openapi_file := if is_file openapi_path then Some openapi_path else None;
                       tenant := tenant_id |}
           end
  end.

Definition discover_modules (dir : Path) (tenant_id : option string) : list DiscoveredModule :=
  match read_dir dir with
  | Err _ => []
  | Ok entries =>
      sort_by (fun a b => String.leb (name a) (name b)) (omap (discover_entry dir tenant_id) entries)
  end.

Definition discover_tenant (user_modules_dir : Path) (entry : option string) : option DiscoveredTenant :=
  match entry with
  | None => None
  | Some dir =>
      let path := user_modules_dir ++ [Normal dir] in
      if negb (is_dir path) then None
      else Some {| id := dir; dir_path := path; module_count := length (discover_modules path (Some dir)) |}
  end.

Variable exists_ : Path -> bool.

Definition discover_tenants (user_modules_dir : Path) : list DiscoveredTenant :=
  if negb (exists_ user_modules_dir) then []
  else match read_dir user_modules_dir with
       | Err _ => []
       | Ok entries =>
           sort_by (fun a b => String.leb (id a) (id b)) (omap (discover_tenant user_modules_dir) entries)
       end.

Definition discover_all_modules (modules_dir : Path) (user_modules_dir : option Path)
  : list DiscoveredModule * list DiscoveredModule :=
  (discover_modules modules_dir None,
   match user_modules_dir with
   | Some dir => concat (map (fun t => discover_modules (dir_path t) (Some (id t))) (discover_tenants dir))
   | None => []
   end).

Definition list_tenants_with_specs (user_modules_dir : Path) : list string :=
  map id (filter (fun t => (0 < module_count t)%nat) (discover_tenants user_modules_dir)).

(** ** Aggregated documents *)

Definition read_openapi_spec (path : Path) : option Value :=
  match read_to_string path with
  | Ok content => match from_str content with Ok spec => Some spec | Err _ => None end
  | Err _ => None
  end.

Definition module_spec (m : DiscoveredModule) : option (string * Value) :=
  match openapi_file m with
  | Some path => (fun spec => (name m, spec)) <$> read_openapi_spec path
  | None => None
  end.

Definition aggregate_platform_spec (modules_dir : Path) : Value :=
  aggregate_specs "Platform API" (omap module_spec (discover_modules modules_dir None)) "/run".

Definition aggregate_tenant_spec (user_modules_dir : Path) (tenant_id : string) : option Value :=
  let tenant_dir := join_str user_modules_dir tenant_id in
  if negb (is_dir tenant_dir) then None
  else Some (aggregate_specs ("Tenant " +:+ tenant_id +:+ " API")
               (omap module_spec (discover_modules tenant_dir (Some tenant_id))) "").

(** ** Endpoints *)

(** [serde_json::to_string] does not fail on these values. *)
Definition json_response (status : Z) (body : Value) : result Resp (list string) :=
  Ok (resp status [("content-type", "application/json")] (to_string body)).
Definition json_error (status : Z) (e : ErrorResponse) : result Resp (list string) :=
  json_response status (error_json e).

Definition platform_info (m : DiscoveredModule) : HandlerInfo := {|
  handler_id := name m;
  handler_type := "wasm";
  attributes := {| attr_name := name m; attr_size_bytes := size_bytes m;
                   has_openapi := match openapi_file m with Some _ => true | None => false end;
                   attr_tenant_id := None |};
  links := {| self_link := "/run/" +:+ name m +:+ "/";
              openapi_link := (fun _ => "/_mik/openapi/platform") <$> openapi_file m |} |}.

Definition tenant_info (m : DiscoveredModule) : HandlerInfo :=
  let tid := default EmptyString (tenant m) in {|
  handler_id := tid +:+ "/" +:+ name m;
  handler_type := "wasm";
  attributes := {| attr_name := name m; attr_size_bytes := size_bytes m;
                   has_openapi := match openapi_file m with Some _ => true | None => false end;
                   attr_tenant_id := Some tid |};
  links := {| self_link := "/tenant/" +:+ tid +:+ "/" +:+ name m +:+ "/";
              openapi_link := (fun _ => "/_mik/openapi/tenant/" +:+ tid) <$> openapi_file m |} |}.

(** The runtime's configuration that the gateway reads. *)
Variable modules_dir : Path.
Variable user_modules_dir : option Path.

Definition handlers_response : HandlersResponse :=
  let '(platform_modules, tenant_modules) := discover_all_modules modules_dir user_modules_dir in {|
  data := map platform_info platform_modules ++ map tenant_info tenant_modules;
  meta := {| total := (length platform_modules + length tenant_modules)%nat;
             platform_count := length platform_modules;
             tenant_count := length tenant_modules; timestamp := now |} |}.

Definition handle_handlers : result Resp (list string) :=
  json_response 200 (handlers_json handlers_response).

Definition handle_platform_openapi : result Resp (list string) :=
  json_response 200 (aggregate_platform_spec modules_dir).

Definition tenant_id_char (c : ascii) : bool :=
  (Str.is_alphanumeric c || Ascii.eqb c "-" || Ascii.eqb c "_")%bool.

Definition handle_tenant_openapi (tenant_id : string) : result Resp (list string) :=
  if Str.is_empty tenant_id then json_error 400 (invalid_request "Tenant ID is required")
  else if negb (Str.all tenant_id_char tenant_id)
  then json_error 400 (invalid_request "Invalid tenant ID format")
  else
    let spec := match user_modules_dir with
                | Some dir => if is_dir dir then aggregate_tenant_spec dir tenant_id else None
                | None => None
                end in
    match spec with
    | Some s => json_response 200 s
    | None => json_error 404 (not_found_error ("Tenant not found: " +:+ tenant_id))
    end.

Definition MIK_API_PREFIX : string := "/_mik/".

Definition handle_gateway_request (path : string) : result Resp (list string) :=
  match Str.strip_prefix MIK_API_PREFIX path with
  | None => json_error 404 (not_found_error "Invalid gateway API path")
  | Some api_path =>
      if String.eqb api_path "handlers" then handle_handlers
      else if String.eqb api_path "openapi/platform" then handle_platform_openapi
      else match Str.strip_prefix "openapi/tenant/" api_path with
           | Some tenant_id => handle_tenant_openapi tenant_id
           | None => json_error 404 (not_found_error ("Unknown gateway endpoint: " +:+ api_path))
           end
  end.

End Gateway.
