(* ===== verification/GatewayProps.v ===== *)
(** GatewayProps: what the gateway tells its clients is what the runtime does:
    the handlers it lists, the links and the documented paths, and the
    isolation of tenants. *)

From stdpp Require Import base list strings sorting.
From S2P Require Import Prelude StdPath ModulePath SortBy Http Json OpenApi Router Runtime Gateway.

(** ** Discovery *)

Section Props.
Variable read_dir : Path -> result (list (option string)) string.
Variable is_file is_dir exists_ : Path -> bool.
Variable file_len : Path -> option Z.
Variable now : string.
Variable modules_dir : Path.
Variable user_modules_dir : option Path.

(** The entries of a directory are plain names. *)
Definition plain_entries (read_dir : Path -> result (list (option string)) string) : Prop :=
  forall dir entries f, read_dir dir = Ok entries -> Some f ∈ entries -> plain f.

Notation discover_modules := (discover_modules read_dir is_file file_len).
Notation discover_tenants := (discover_tenants read_dir is_file is_dir file_len exists_).
Notation response := (handlers_response read_dir is_file is_dir file_len now exists_ modules_dir user_modules_dir).

(** The module [n] is a file of the directory. *)
Definition module_in (dir : Path) (n : string) : Prop :=
  n <> "" /\ exists entries, read_dir dir = Ok entries /\ Some (n +:+ ".wasm") ∈ entries /\
    is_file (dir ++ [Normal (n +:+ ".wasm")]) = true.

Lemma elem_of_discover_modules dir t m :
  m ∈ discover_modules dir t <->
  module_in dir (name m) /\ wasm_file m = dir ++ [Normal (name m +:+ ".wasm")] /\
  size_bytes m = default 0%Z (file_len (wasm_file m)) /\
  openapi_file m = (let p := join_str dir (name m +:+ ".openapi.json") in if is_file p then Some p else None) /\
  tenant m = t.
Proof.
  unfold Gateway.discover_modules, module_in. destruct (read_dir dir) as [entries|e] eqn:E.
  2: { split; [by intros ?%elem_of_nil|]. by intros ((_ & ? & ? & _) & _). }
  rewrite elem_of_sort_by, list_elem_of_omap. split.
  - intros ([f|] & Hf & Hm); [|done]. unfold discover_entry in Hm.
    destruct (is_file (dir ++ [Normal f])) eqn:Ef; [|done]. cbn [negb] in Hm.
    destruct (bool_decide _) eqn:Eb; [|done]. cbn [negb] in Hm. apply bool_decide_eq_true in Eb.
    destruct (file_stem (dir ++ [Normal f])) as [n|] eqn:En; [|done].
    injection Hm as <-. cbn [name wasm_file size_bytes openapi_file tenant].
    destruct (wasm_ext_spec dir f n) as [[-> Hn] _]; [done|]. by eauto 10.
  - destruct m as [n w s o t']. cbn [name wasm_file size_bytes openapi_file tenant].
    intros ((Hn & es & [= <-] & Hin & Hf) & -> & -> & -> & ->).
    exists (Some (n +:+ ".wasm")). split; [done|]. unfold discover_entry. rewrite Hf. cbn [negb].
    destruct (wasm_ext_spec dir (n +:+ ".wasm") n) as [_ [-> ->]]; [done|]. by rewrite bool_decide_true.
Qed.

Definition tenant_in (dir : Path) (t : string) : Prop :=
  exists_ dir = true /\ is_dir (dir ++ [Normal t]) = true /\
  exists entries, read_dir dir = Ok entries /\ Some t ∈ entries.

Lemma elem_of_discover_tenants dir t :
  t ∈ discover_tenants dir <->
  tenant_in dir (id t) /\ dir_path t = dir ++ [Normal (id t)] /\
  module_count t = length (discover_modules (dir_path t) (Some (id t))).
Proof.
  unfold Gateway.discover_tenants, tenant_in. destruct (exists_ dir); cbn [negb].
  2: { split; [by intros ?%elem_of_nil|]. by intros ((? & _) & _). }
  destruct (read_dir dir) as [entries|e] eqn:E.
  2: { split; [by intros ?%elem_of_nil|]. by intros ((_ & _ & ? & ? & _) & _). }
  rewrite elem_of_sort_by, list_elem_of_omap. split.
  - intros ([f|] & Hf & Hm); [|done]. unfold discover_tenant in Hm.
    destruct (is_dir (dir ++ [Normal f])) eqn:Ef; [|done]. cbn [negb] in Hm.
    injection Hm as <-. cbn [id dir_path module_count]. by eauto 10.
  - destruct t as [i p c]. cbn [id dir_path module_count].
    intros ((_ & Hd & es & [= <-] & Hin) & -> & ->).
    exists (Some i). split; [done|]. unfold discover_tenant. by rewrite Hd.
Qed.

Lemma module_in_discovered dir n t : module_in dir n ->
  exists d, d ∈ discover_modules dir t /\ name d = n /\ tenant d = t.
Proof.
  intros Hm. exists {| name := n; wasm_file := dir ++ [Normal (n +:+ ".wasm")];
    size_bytes := default 0%Z (file_len (dir ++ [Normal (n +:+ ".wasm")]));
    openapi_file := (let p := join_str dir (n +:+ ".openapi.json") in if is_file p then Some p else None);
    tenant := t |}.
  split; [|done]. by apply elem_of_discover_modules.
Qed.

Lemma tenant_in_discovered dir t : tenant_in dir t ->
  exists d, d ∈ discover_tenants dir /\ id d = t /\ dir_path d = dir ++ [Normal t].
Proof.
  intros Ht. exists {| id := t; dir_path := dir ++ [Normal t];
    module_count := length (discover_modules (dir ++ [Normal t]) (Some t)) |}.
  split; [|done]. by apply elem_of_discover_tenants.
Qed.

(** The modules on disk, as the gateway sees the two directories. *)
Definition on_disk (m : ModulePath) : Prop :=
  match m with
  | Platform n => module_in modules_dir n
  | Tenant t n => exists dir, user_modules_dir = Some dir /\ tenant_in dir t /\ module_in (dir ++ [Normal t]) n
  end.

Definition info_of (m : ModulePath) (info : HandlerInfo) : Prop :=
  handler_id info = handler_name m /\ attr_name (attributes info) = module_name m /\
  attr_tenant_id (attributes info) = tenant_id m /\
  self_link (links info) = match m with
                           | Platform n => "/run/" +:+ n +:+ "/"
                           | Tenant t n => "/tenant/" +:+ t +:+ "/" +:+ n +:+ "/"
                           end.

(** ** The routes of links and documented paths *)

Variable percent_decode : string -> string.
Notation named_module := (named_module percent_decode).
Notation no_percent s := (Str.contains_char "%" s = false).
Notation no_slash s := (Str.contains_char Str.SLASH s = false).

Lemma decode_no_escape s : no_percent s -> decode percent_decode s = s.
Proof. unfold decode. by intros ->. Qed.

Lemma named_platform n r : n <> "" -> no_slash n -> no_percent (n +:+ String Str.SLASH r) ->
  named_module ("/run/" +:+ n +:+ String Str.SLASH r) = Some (Platform n, String Str.SLASH r).
Proof.
  intros Hn Hs Hp. unfold Runtime.named_module.
  change (Str.starts_with TENANT_PREFIX _) with false. cbv iota.
  assert (Str.strip_prefix RUN_PREFIX ("/run/" +:+ n +:+ String Str.SLASH r) = Some (n +:+ String Str.SLASH r)) as ->
    by (by apply Str.strip_prefix_Some).
  csimpl. unfold parse_module_route.
  assert (Str.split_once Str.SLASH (n +:+ String Str.SLASH r) = Some (n, r)) as ->
    by (by apply Str.split_once_Some).
  rewrite Str.contains_char_app in Hp. apply orb_false_iff in Hp as [Hp1 Hp2].
  rewrite !decode_no_escape by done. by destruct n.
Qed.

(** The handler path of a tenant request: empty segments are gone. *)
Definition collapsed (r : string) : string :=
  match filter (fun s => Str.is_empty s = false) (Str.split Str.SLASH r) with
  | [] => "/"
  | segments => String Str.SLASH (Str.join "/" segments)
  end.

Lemma filter_nonempty_cons s l : s <> "" ->
  filter (fun s => Str.is_empty s = false) (s :: l) = s :: filter (fun s => Str.is_empty s = false) l.
Proof. intros Hs. rewrite filter_cons. by destruct s. Qed.

Lemma named_tenant t n r : t <> "" -> n <> "" -> no_slash t -> no_slash n -> no_percent t -> no_percent n ->
  named_module ("/tenant/" +:+ t +:+ "/" +:+ n +:+ String Str.SLASH r) = Some (Tenant t n, collapsed r).
Proof.
  intros Ht Hn Hst Hsn Hpt Hpn. unfold Runtime.named_module.
  assert (Str.strip_prefix TENANT_PREFIX ("/tenant/" +:+ t +:+ "/" +:+ n +:+ String Str.SLASH r) =
    Some (t +:+ "/" +:+ n +:+ String Str.SLASH r)) as E by (by apply Str.strip_prefix_Some).
  change (Str.starts_with TENANT_PREFIX _) with true. cbv iota. rewrite E. cbn [mbind option_bind].
  unfold parse_module_path_route.
  assert (Str.is_empty (t +:+ "/" +:+ n +:+ String Str.SLASH r) = false) as -> by (by destruct t).
  assert (Str.split Str.SLASH (t +:+ "/" +:+ n +:+ String Str.SLASH r) = t :: n :: Str.split Str.SLASH r) as ->.
  { change (t +:+ "/" +:+ n +:+ String Str.SLASH r) with (t +:+ String Str.SLASH (n +:+ String Str.SLASH r)).
    by rewrite !Str.split_app. }
  rewrite !filter_nonempty_cons by done. unfold collapsed.
  rewrite !decode_no_escape by done. by destruct (filter _ _).
Qed.

Hypothesis entries_plain : plain_entries read_dir.

Lemma module_in_slash dir n : module_in dir n -> no_slash n.
Proof.
  intros (_ & es & E & Hin & _). destruct (entries_plain _ _ _ E Hin) as (_ & _ & _ & Hs).
  rewrite Str.contains_char_app in Hs. by apply orb_false_iff in Hs as [? _].
Qed.

Lemma module_in_plain dir n : module_in dir n -> plain (n +:+ ".wasm").
Proof. intros (_ & es & E & Hin & _). by eapply entries_plain. Qed.

Lemma tenant_in_plain dir t : tenant_in dir t -> plain t.
Proof. intros (_ & _ & es & E & Hin). by eapply entries_plain. Qed.

Lemma on_disk_route m : on_disk m -> no_percent (handler_name m) ->
  named_module match m with
               | Platform n => "/run/" +:+ n +:+ "/"
               | Tenant t n => "/tenant/" +:+ t +:+ "/" +:+ n +:+ "/"
               end = Some (m, "/").
Proof.
  destruct m as [n|t n]; simpl.
  - intros Hm Hp. apply named_platform; [by destruct Hm|by eapply module_in_slash|].
    by rewrite Str.contains_char_app, Hp.
  - intros (dir & _ & Ht & Hm) Hp. pose proof (tenant_in_plain _ _ Ht) as (Ht1 & _ & _ & Ht2).
    rewrite !Str.contains_char_app in Hp. apply orb_false_iff in Hp as [Hp1 Hp2].
    apply (named_tenant t n ""); [done|by destruct Hm|done|by eapply module_in_slash|done|exact Hp2].
Qed.

Lemma elem_of_data info :
  info ∈ data response <->
  (exists d, d ∈ discover_modules modules_dir None /\ info = platform_info d) \/
  (exists dir t d, user_modules_dir = Some dir /\ t ∈ discover_tenants dir /\
     d ∈ discover_modules (dir_path t) (Some (id t)) /\ info = tenant_info d).
Proof.
  unfold handlers_response, discover_all_modules. cbn [data].
  rewrite elem_of_app, !list_elem_of_fmap. destruct user_modules_dir as [dir|].
  - setoid_rewrite elem_of_concat_map. naive_solver.
  - setoid_rewrite elem_of_nil. naive_solver.
Qed.

(** ** Documented paths *)

Variable read_to_string : Path -> result string string.
Variable from_str : string -> result Value string.

(** The OpenAPI file of the module [n] documents the path [p]. *)
Definition documents (dir : Path) (n p : string) : Prop :=
  exists spec m, let file := join_str dir (n +:+ ".openapi.json") in
    is_file file = true /\ read_openapi_spec read_to_string from_str file = Some spec /\
    spec_paths spec = Some m /\ p ∈ m.*1.

Lemma elem_of_documented dir t title route_prefix paths k :
  spec_paths (aggregate_specs title
    (omap (module_spec read_to_string from_str) (discover_modules dir t)) route_prefix) = Some paths ->
  k ∈ paths.*1 <-> exists n p, module_in dir n /\ documents dir n p /\ k = full_path route_prefix n p.
Proof.
  rewrite aggregate_spec_paths. intros [= <-]. rewrite <- map_get_key, insert_list_key.
  split.
  - intros [[? [=]]|Hk]. apply list_elem_of_fmap in Hk as ([k' v] & -> & Hk).
    apply elem_of_all_paths in Hk as (n & spec & m & p & ops & Hs & Hm & Hp & -> & _).
    apply list_elem_of_omap in Hs as (d & Hd & Hs). unfold module_spec in Hs.
    apply elem_of_discover_modules in Hd as (Hin & _ & _ & Ho & _).
    destruct (openapi_file d) as [f|] eqn:Ef; [|done].
    apply fmap_Some in Hs as (spec' & Hr & [= -> ->]). exists (name d), p. split_and!; [done| |done].
    exists spec', m. cbv zeta in *. destruct (is_file _) eqn:Hf; [|done]. injection Ho as ->.
    split_and!; [done|done|done|]. by apply (list_elem_of_fmap_2 fst) in Hp.
  - intros (n & p & Hin & (spec & m & Hf & Hr & Hm & Hp) & ->). right.
    apply list_elem_of_fmap in Hp as ([p' ops] & -> & Hp).
    apply list_elem_of_fmap. exists (full_path route_prefix n p', update_schema_refs n ops). split; [done|].
    apply elem_of_all_paths. exists n, spec, m, p', ops. split_and!; try done.
    destruct (module_in_discovered dir n t Hin) as (d & Hd & <- & _).
    apply list_elem_of_omap. exists d. split; [done|]. unfold module_spec.
    apply elem_of_discover_modules in Hd as (_ & _ & _ & -> & _). cbv zeta. rewrite Hf.
    cbv zeta in Hr. by rewrite Hr.
Qed.


End Props.

(** ** Tenants are isolated *)

Section Isolation.
Variable file_len file_len' : Path -> option Z.
Variable read_dir read_dir' : Path -> result (list (option string)) string.
Variable is_file is_file' is_dir is_dir' : Path -> bool.
Variable read_to_string read_to_string' : Path -> result string string.
Variable from_str : string -> result Value string.

(** The two file systems have the same contents below a directory. *)
Record same_below (dir : Path) : Prop := {
  same_read_dir : forall q, read_dir (dir ++ q) = read_dir' (dir ++ q);
  same_is_file : forall q, is_file (dir ++ q) = is_file' (dir ++ q);
  same_is_dir : forall q, is_dir (dir ++ q) = is_dir' (dir ++ q);
  same_file_len : forall q, file_len (dir ++ q) = file_len' (dir ++ q);
  same_contents : forall q, read_to_string (dir ++ q) = read_to_string' (dir ++ q);
}.

Lemma list_omap_ext_elem {A B} (f g : A -> option B) (l : list A) :
  (forall x, x ∈ l -> f x = g x) -> omap f l = omap g l.
Proof.
  induction l as [|x l IH]; intros H; [done|]. csimpl.
  rewrite (H x) by left. rewrite IH by (intros; apply H; by right). done.
Qed.

Lemma openapi_name_plain f n dir : plain f -> file_stem (dir ++ [Normal f]) = Some n ->
  extension (dir ++ [Normal f]) = Some WASM_EXT -> plain (n +:+ ".openapi.json").
Proof.
  intros (_ & _ & _ & Hs) H1 H2. destruct (wasm_ext_spec dir f n) as [[-> Hn] _]; [done|].
  rewrite Str.contains_char_app in Hs. apply orb_false_iff in Hs as [Hs _].
  assert (2 <= String.length (n +:+ ".openapi.json"))%nat as Hl
    by (rewrite Str.length_app; simpl; lia).
  unfold plain. split_and!.
  - by destruct n.
  - intros E. by rewrite E in Hl; simpl in Hl; lia.
  - intros E. apply (f_equal String.length) in E. rewrite Str.length_app in E. simpl in E. lia.
  - by rewrite Str.contains_char_app, Hs.
Qed.

Lemma discover_modules_same dir t : plain_entries read_dir -> same_below dir ->
  discover_modules read_dir is_file file_len dir t = discover_modules read_dir' is_file' file_len' dir t.
Proof.
  intros Hpl Hs. unfold discover_modules.
  pose proof (same_read_dir dir Hs []) as E. rewrite !app_nil_r in E. rewrite <- E.
  destruct (read_dir dir) as [es|] eqn:Er; [|done]. f_equal.
  apply list_omap_ext_elem. intros [f|] Hf; [|done]. unfold discover_entry.
  rewrite <- (same_is_file dir Hs), <- (same_file_len dir Hs).
  destruct (is_file _); [|done]. cbn [negb].
  destruct (bool_decide _) eqn:Eb; [|done]. apply bool_decide_eq_true in Eb. cbn [negb].
  destruct (file_stem _) as [n|] eqn:En; [|done].
  rewrite join_str_plain; [by rewrite (same_is_file dir Hs)|].
  eapply (openapi_name_plain f n dir); [by eapply Hpl|done|done].
Qed.

Lemma module_spec_same dir t m : plain_entries read_dir -> same_below dir ->
  m ∈ discover_modules read_dir is_file file_len dir t ->
  module_spec read_to_string from_str m = module_spec read_to_string' from_str m.
Proof.
  intros Hpl Hs (Hin & _ & _ & Ho & _)%elem_of_discover_modules. unfold module_spec. rewrite Ho. cbv zeta.
  assert (plain (name m +:+ ".openapi.json")) as Hp.
  { destruct Hin as (Hn & es & E & He & _).
    destruct (wasm_ext_spec dir (name m +:+ ".wasm") (name m)) as [_ [H1 H2]]; [done|].
    eapply openapi_name_plain; [by eapply Hpl|exact H1|exact H2]. }
  rewrite join_str_plain by done. destruct (is_file _); [|done].
  unfold read_openapi_spec. by rewrite (same_contents dir Hs).
Qed.

Lemma tenant_id_plain tid : Str.is_empty tid = false -> Str.all tenant_id_char tid = true -> plain tid.
Proof.
  intros He Ha. assert (forall c, tenant_id_char c = false -> Str.contains_char c tid = false) as Hc.
  { intros c Hc. unfold Str.contains_char. induction tid as [|d s IH]; [done|]. simpl in *. clear He.
    apply andb_true_iff in Ha as [Hd Hs]. destruct (Ascii.eqb_spec c d) as [->|]; [congruence|].
    destruct s; [done|]. by apply IH. }
  split_and!; [by intros ->| | |by apply Hc].
  - intros ->. by specialize (Hc "."%char eq_refl).
  - intros ->. by specialize (Hc "."%char eq_refl).
Qed.

(** The document of a tenant. The answer to a request for it is determined
    by the files below that tenant's directory: the contents of every other
    directory do not matter. It is 200 exactly for a non-empty id of letters,
    digits, hyphens and underscores that has a directory, 400 for another id
    and 404 for one without a directory. *)
Lemma tenant_document_isolated (dir : Path) (tid : string) :
  plain_entries read_dir -> is_dir dir = is_dir' dir -> same_below (dir ++ [Normal tid]) ->
  handle_tenant_openapi read_dir is_file is_dir file_len read_to_string from_str (Some dir) tid =
  handle_tenant_openapi read_dir' is_file' is_dir' file_len' read_to_string' from_str (Some dir) tid /\
  exists r, handle_tenant_openapi read_dir is_file is_dir file_len read_to_string from_str (Some dir) tid = Ok r /\
    rs_status r =
      if (Str.is_empty tid || negb (Str.all tenant_id_char tid))%bool then 400%Z
      else if (is_dir dir && is_dir (dir ++ [Normal tid]))%bool then 200%Z else 404%Z.
Proof.
  intros Hpl Hd Hs. unfold handle_tenant_openapi.
  destruct (Str.is_empty tid) eqn:Ee; [split; [done|]; by eexists|].
  destruct (Str.all tenant_id_char tid) eqn:Ea; cbn [negb orb]; [|split; [done|]; by eexists].
  rewrite <- Hd. destruct (is_dir dir); cbn [andb]; [|split; [done|]; by eexists].
  unfold aggregate_tenant_spec. rewrite join_str_plain by (by apply tenant_id_plain).
  pose proof (same_is_dir _ Hs []) as Ed. rewrite !app_nil_r in Ed. rewrite <- Ed.
  destruct (is_dir (dir ++ [Normal tid])); cbn [negb]; [|split; [done|]; by eexists].
  split; [|by eexists]. rewrite <- discover_modules_same by done.
  do 2 f_equal. apply list_omap_ext_elem. intros m Hm. by eapply module_spec_same.
Qed.
End Isolation.

(** ** Witnesses *)

Module Toy.
Definition modules_dir : Path := [Normal "modules"].
Definition tenants_dir : Path := [Normal "user-modules"].
Definition read_dir (p : Path) : result (list (option string)) string :=
  if bool_decide (p = modules_dir) then Ok [Some "auth.wasm"; None; Some "auth.openapi.json"]
  else if bool_decide (p = tenants_dir) then Ok [Some "acme"]
  else if bool_decide (p = tenants_dir ++ [Normal "acme"]) then Ok [Some "orders.wasm"]
  else Err "no such directory".
Definition is_dir (p : Path) : bool := is_ok (read_dir p).
Definition is_file (p : Path) : bool := negb (is_dir p).
Definition file_len (p : Path) : option Z := Some 8%Z.
Definition read_to_string (p : Path) : result string string := Ok "{}".
Definition from_str (s : string) : result Value string := Ok auth_spec.

Lemma plain_names : plain_entries read_dir.
Proof.
  intros dir entries f. unfold read_dir. repeat case_bool_decide; intros [= <-] Hf;
    repeat (apply elem_of_cons in Hf as [E|Hf]; [try discriminate E; injection E as ->; by vm_compute|]);
    by apply elem_of_nil in Hf.
Qed.
End Toy.



