(* ===== verification/Script.v ===== *)
(** Script: the script engine, of [src/src/runtime/script]: host calls of a
    script to the modules of the runtime, their effect on the circuit breaker
    and the bulkheads that they share with requests, and the handling of
    [/script/<name>]. The JavaScript interpreter is a parameter: what a script
    does is the tree of its host calls. *)

From stdpp Require Import base gmap list strings.
From S2P Require Import Prelude Store StdPath CircuitBreaker PathSecurity ModulePath SortBy Http Json RtError WebContent ModuleCache Router.

#[local] Open Scope Z_scope.

(** ** Data *)

(** What a JavaScript thread does: it ends with a value or an error message,
    panics, or calls [__host_call] with two strings and goes on with the
    returned one. *)
Inductive JsRun :=
| JsDone (r : result Value string)
| JsPanic (e : string)
| JsCall (module options_json : string) (resume : string -> JsRun).

(** [HostMessage::Call] without its reply channel *)
Record HostMessage := {
  hm_module : string;
  hm_method : string;
  hm_path : string;
  hm_headers : list (string * string);
  hm_body : option Value;
}.

Record HostCallResult := {
  hc_status : Z;
  hc_headers : list (string * string);
  hc_body : Value;
  hc_error : option string;
}.

Record ScriptResponse := {
  sr_result : Value;
  calls_executed : nat;
}.

(** [#[derive(Serialize)]] *)
Definition host_call_result_json (r : HostCallResult) : Value :=
  Object ([("status", Number (Str.of_Z (hc_status r)));
           ("headers", Array (List.map (fun h => Array [Text h.1; Text h.2]) (hc_headers r)));
           ("body", hc_body r)] ++
          match hc_error r with Some e => [("error", Text e)] | None => [] end).
Definition script_response_json (r : ScriptResponse) : Value :=
  Object [("result", sr_result r);
          ("calls_executed", Number (Str.of_Z (Z.of_nat (calls_executed r))))].

Definition circuit_error_str (e : CircuitOpenError) : string :=
  match reason e with
  | ReasonOpen =>
      "Circuit breaker open for '" +:+ key e +:+ "' (failures: " +:+ Str.of_Z (err_failure_count e) +:+ ")"
  | ProbeInFlight =>
      "Circuit breaker for '" +:+ key e +:+ "' is testing recovery (probe in flight)"
  end.

(** [anyhow::Error::to_string]: the outermost message *)
Definition load_error_str (debug_path : string -> string) (e : LoadError) : string :=
  match e with Typed e => RtError.display debug_path e | Messages msgs => hd EmptyString msgs end.

(** The literal results of [execute_handler_call]. *)
Definition call_error (status : Z) (code message : string) : HostCallResult := {|
  hc_status := status; hc_headers := [];
  hc_body := Object [("error", Text code); ("message", Text message)];
  hc_error := Some code |}.

(** ** Host calls *)

Section Script.
Context {M L Comp : Type} `{StoreLaws M CircuitState} `{ModuleLoaderLaws L Comp}.
(** [serde_json::from_str] and [from_slice] *)
Variable from_str : string -> result Value string.
(** [Builder::method] and [Builder::header] accept their arguments. *)
Variable method_ok : string -> bool.
Variable header_ok : string * string -> bool.
(** [Builder::uri]: path and query of the URI, or an error. *)
Variable parse_uri : string -> result (string * option string) string.
Variable execute : Comp -> ExecReq -> result Resp (list string).
Variable debug_path : string -> string.
Variable config : RConfig (Comp := Comp).

Notation State := (RState (M := M) (L := L)).

(** [native_host_call]: the options of a call; whatever is missing or of
    another type has a default. *)
Definition native_host_call (module options_json : string) : HostMessage :=
  let options := match from_str options_json with Ok v => v | Err _ => Object [] end in {|
  hm_module := module;
  hm_method := default "POST" (get "method" options ≫= as_str);
  hm_path := default "/" (get "path" options ≫= as_str);
  hm_headers :=
    match get "headers" options ≫= as_object with
    | Some obj => omap (fun e => (fun s => (e.1, s)) <$> as_str e.2) obj
    | None => []
    end;
  hm_body := get "body" options |}.

(** A call whose component is loaded and whose permit is held. *)
Record HostCall := {
  call_component : Comp;
  call_message : HostMessage;
}.

Inductive CallBegun :=
| CallAnswered (r : HostCallResult)
| CallRunning (c : HostCall).

(** [execute_handler_call] up to the loaded component *)
Definition call_begin (now : Instant) (msg : HostMessage) (s : State) : CallBegun * State :=
  let module := hm_module msg in
  let '(checked, m) := check_request (cb_config config) now module (circuit_breaker s) in
  let s := set_circuit m s in
  match checked with
  | Err e => (CallAnswered (call_error 503 "CIRCUIT_OPEN" (circuit_error_str e)), s)
  | Ok _ =>
      let '(acquired, s) := try_acquire config module s in
      if negb acquired then (CallAnswered (call_error 429 "RATE_LIMITED" "Module overloaded"), s)
      else
        let '(r, l) := load_name now module (loader s) in
        let s := set_loader l s in
        match r with
        | Err e =>
            let s := set_circuit (record_failure (cb_config config) now module (circuit_breaker s)) s in
            (CallAnswered (call_error 404 "MODULE_NOT_FOUND" (load_error_str debug_path e)),
             release config (Some module) s)
        | Ok comp => (CallRunning {| call_component := comp; call_message := msg |}, s)
        end
  end.

Definition call_headers (trace_id : string) (headers : list (string * string)) (body_bytes : string)
  : list (string * string) :=
  [("host", "localhost"); ("traceparent", trace_id)] ++ headers ++
  (if Str.is_empty body_bytes then [] else [("content-type", "application/json")]).

(** The request a host call makes of its module. *)
Definition build_request (trace_id : string) (msg : HostMessage) : result ExecReq (list string) :=
  let body_bytes := match hm_body msg with Some b => to_string b | None => EmptyString end in
  let headers := call_headers trace_id (hm_headers msg) body_bytes in
  match parse_uri ("http://localhost" +:+ hm_path msg) with
  | Ok (p, q) =>
      if (method_ok (hm_method msg) && forallb header_ok headers)%bool
      then Ok {| x_method := hm_method msg; x_path := p; x_query := q;
                 x_headers := List.map (fun h => (Str.to_ascii_lowercase h.1, Some h.2)) headers;
                 x_body := body_bytes |}
      else Err ["Failed to build request"]
  | Err _ => Err ["Failed to build request"]
  end.

(** The rest of [execute_handler_call]; the permit is dropped on every path.
    The circuit breaker is told nothing when the request cannot be built. *)
Definition call_finish (now : Instant) (trace_id : string) (c : HostCall) (s : State)
  : result HostCallResult (list string) * State :=
  let module := hm_module (call_message c) in
  match build_request trace_id (call_message c) with
  | Err e => (Err e, release config (Some module) s)
  | Ok req =>
      match execute (call_component c) req with
      | Ok r =>
          let s := set_circuit (record_success module (circuit_breaker s)) s in
          (Ok {| hc_status := rs_status r; hc_headers := rs_headers r;
                 hc_body := match from_str (rs_body r) with Ok v => v | Err _ => Text (rs_body r) end;
                 hc_error := None |}, release config (Some module) s)
      | Err e =>
          let s := set_circuit (record_failure (cb_config config) now module (circuit_breaker s)) s in
          (Ok (call_error 500 "HANDLER_ERROR" (hd EmptyString e)), release config (Some module) s)
      end
  end.

(** One host call from start to end, alone. *)
Definition execute_handler_call (now1 now2 : Instant) (trace_id : string) (msg : HostMessage) (s : State)
  : result HostCallResult (list string) * State :=
  match call_begin now1 msg s with
  | (CallAnswered r, s) => (Ok r, s)
  | (CallRunning c, s) => call_finish now2 trace_id c s
  end.

(** ** Scripts *)

(** The loop of [execute_script]. The [i]-th host call happens between the
    instants [clock (2 i)] and [clock (2 i + 1)]. A call whose request cannot
    be built fails the script in the end, whatever the script makes of it. *)
Fixpoint execute_script (clock : nat -> Instant) (trace_id : string) (run : JsRun)
    (call_count : nat) (last_error : option string) (s : State)
  : result ScriptResponse string * State :=
  match run with
  | JsDone (Ok result) =>
      (match last_error with
       | Some err => Err ("Handler error: " +:+ err)
       | None => Ok {| sr_result := result; calls_executed := call_count |}
       end, s)
  | JsDone (Err e) => (Err ("Script error: " +:+ e), s)
  | JsPanic e => (Err ("Script panicked: " +:+ e), s)
  | JsCall module options_json resume =>
      let '(r, s) := execute_handler_call (clock (2 * call_count)%nat) (clock (2 * call_count + 1)%nat)
                       trace_id (native_host_call module options_json) s in
      match r with
      | Ok resp =>
          execute_script clock trace_id (resume (to_string (host_call_result_json resp)))
            (S call_count) last_error s
      | Err e =>
          let e := hd EmptyString e in
          let resp := {| hc_status := 500; hc_headers := []; hc_body := Null; hc_error := Some e |} in
          execute_script clock trace_id (resume (to_string (host_call_result_json resp)))
            (S call_count) (Some e) s
      end
  end.

Fixpoint trim_start_matches (c : ascii) (s : string) : string :=
  match s with
  | String d s' => if Ascii.eqb c d then trim_start_matches c s' else s
  | EmptyString => EmptyString
  end.

Variable scripts_dir : option Path.
Variable read_to_string : Path -> result string string.
(** [run_js_script]: the run of a script on an input. *)
Variable run_js_script : string -> Value -> JsRun.

Definition script_name_of (path : string) : result string (list string) :=
  let script_path := trim_start_matches Str.SLASH (default path (Str.strip_prefix SCRIPT_PREFIX path)) in
  let script_name := hd EmptyString (Str.split Str.SLASH script_path) in
  if Str.is_empty script_name then Err ["Missing script name"]
  else match sanitize_module_name script_name with
       | Err e => Err ["Invalid script name: " +:+ module_name_error_str e]
       | Ok name => Ok name
       end.

Definition body_too_large (n : Z) : list string :=
  ["Request body too large: " +:+ Str.of_Z n +:+ " bytes (max: " +:+
   Str.of_Z (max_body_size_bytes config) +:+ " bytes)"].

Definition script_input (req : HReq) : result Value (list string) :=
  let content_length := default 0 (header_str "content-length" (req_headers req) ≫= parse_usize) in
  if max_body_size_bytes config <? content_length then Err (body_too_large content_length)
  else match req_body req with
       | Err chain => Err ("Failed to read request body" :: chain)
       | Ok body_bytes =>
           if max_body_size_bytes config <? Str.len body_bytes
           then Err (body_too_large (Str.len body_bytes))
           else if Str.is_empty body_bytes then Ok Null
           else match from_str body_bytes with
                | Ok v => Ok v
                | Err e => Err ["Invalid JSON in request body: " +:+ e]
                end
       end.

(** The checks of [handle_script_request]: the script and its input. *)
Definition script_checks (req : HReq) : result (string * Value) (list string) :=
  let? name := script_name_of (path req) in
  match scripts_dir with
  | None => Err ["Scripts not enabled (no scripts_dir configured)"]
  | Some dir =>
      match read_to_string (join_str dir (name +:+ ".js")) with
      | Err e => Err ["Script not found: " +:+ name; e]
      | Ok script => let? input := script_input req in Ok (script, input)
      end
  end.

Definition handle_script_request (clock : nat -> Instant) (trace_id : string) (req : HReq) (s : State)
  : result Resp (list string) * State :=
  match script_checks req with
  | Err e => (Err e, s)
  | Ok (script, input) =>
      match execute_script clock trace_id (run_js_script script input) 0 None s with
      | (Ok r, s) =>
          (Ok (resp 200 [("content-type", "application/json")] (to_string (script_response_json r))), s)
      | (Err e, s) => (Err [e], s)
      end
  end.

(** ** Requests and host calls, interleaved *)

Notation Sys := (sys (M := M) (L := L) (Comp := Comp)).

Record hsys := {
  requests : Sys;
  calls : list HostCall;
}.

(** A server that has just started *)
Definition hinit (m : M) (l : L) : hsys := {| requests := init m l; calls := [] |}.

Variable percent_decode : string -> string.
Variable parse_path_and_query : string -> result (string * option string) string.
Variable header_value_ok : string -> bool.
Variable gzip : string -> option string.

Notation router_step :=
  (Router.step percent_decode parse_path_and_query header_value_ok gzip execute debug_path config).

Definition set_rstate (s : State) (y : Sys) : Sys := {| rstate := s; inflight := inflight y |}.

Inductive hstep : hsys -> hsys -> Prop :=
| hstep_request y y' cs :
    router_step y y' -> hstep {| requests := y; calls := cs |} {| requests := y'; calls := cs |}
| hstep_answer now msg y s' r cs :
    call_begin now msg (rstate y) = (CallAnswered r, s') ->
    hstep {| requests := y; calls := cs |} {| requests := set_rstate s' y; calls := cs |}
| hstep_start now msg y s' c cs :
    call_begin now msg (rstate y) = (CallRunning c, s') ->
    hstep {| requests := y; calls := cs |} {| requests := set_rstate s' y; calls := c :: cs |}
| hstep_finish now trace_id y c cs1 cs2 :
    hstep {| requests := y; calls := cs1 ++ c :: cs2 |}
          {| requests := set_rstate (call_finish now trace_id c (rstate y)).2 y; calls := cs1 ++ cs2 |}
(* The script's request went away: its future is dropped. *)
| hstep_cancel y c cs1 cs2 :
    hstep {| requests := y; calls := cs1 ++ c :: cs2 |}
          {| requests := set_rstate (release config (Some (hm_module (call_message c))) (rstate y)) y;
             calls := cs1 ++ cs2 |}.

End Script.
