(* ===== verification/ScriptProps.v ===== *)
(** ScriptProps: host calls next to requests. They share the bulkheads and the
    module loader; an answer of the script endpoint is what the script
    computed from the answers of the modules it called. *)

From stdpp Require Import base gmap list strings relations.
From S2P Require Import Prelude Store StdPath CircuitBreaker PathSecurity ModulePath SortBy Http Json RtError WebContent AotCache ModuleCache Router Runtime Script.

#[local] Open Scope Z_scope.

(** ** Permits *)

Section Bulkhead.
Context {M L Comp : Type} `{StoreLaws M CircuitState} `{ModuleLoaderLaws L Comp}.
Variable from_str : string -> result Value string.
Variable method_ok : string -> bool.
Variable header_ok : string * string -> bool.
Variable parse_uri : string -> result (string * option string) string.
Variable execute : Comp -> ExecReq -> result Resp (list string).
Variable debug_path : string -> string.
Variable config : RConfig (Comp := Comp).
Variable percent_decode : string -> string.
Variable parse_path_and_query : string -> result (string * option string) string.
Variable header_value_ok : string -> bool.
Variable gzip : string -> option string.

Notation State := (RState (M := M) (L := L)).
Notation Sys := (sys (M := M) (L := L) (Comp := Comp)).
Notation HSys := (hsys (M := M) (L := L) (Comp := Comp)).
Notation step := (hstep from_str method_ok header_ok parse_uri execute debug_path config percent_decode
  parse_path_and_query header_value_ok gzip).
Notation permits k s := (get_module_semaphore config k s).

Lemma call_begin_permits now msg (s : State) :
  let '(b, s') := call_begin debug_path config now msg s in
  match b with
  | CallRunning c =>
      call_message c = msg /\ 0 < permits (hm_module msg) s /\
      forall k, permits k s' = permits k s - (if decide (k = hm_module msg) then 1 else 0)
  | CallAnswered _ => forall k, permits k s' = permits k s
  end.
Proof.
  unfold call_begin. destruct (check_request _ now _ _) as [[[]|e] m]; [|done].
  pose proof (try_acquire_permits config (hm_module msg) (set_circuit m s)) as Ha.
  destruct (try_acquire config (hm_module msg) (set_circuit m s)) as [ok s1].
  destruct Ha as (-> & _ & _ & Hp). zcase; cbn [negb].
  - destruct (load_name now _ (loader s1)) as [[comp|e] l].
    + split_and!; [done|done|]. intros k. by rewrite permits_set_loader, Hp.
    + intros k. rewrite permits_release, permits_set_circuit, permits_set_loader, Hp,
        permits_set_circuit. repeat case_decide; try congruence; lia.
  - intros k. rewrite Hp, permits_set_circuit. lia.
Qed.

Lemma call_finish_permits now trace_id c (s : State) k :
  permits k (call_finish from_str method_ok header_ok parse_uri execute config now trace_id c s).2 =
  permits k s + (if decide (k = hm_module (call_message c)) then 1 else 0).
Proof.
  unfold call_finish. destruct (build_request _ _ _ _ _) as [req|e]; [destruct (execute _ req)|];
    cbn [snd]; rewrite permits_release, ?permits_set_circuit; repeat case_decide; congruence || lia.
Qed.

(** The host calls in flight to a module. *)
Definition calling (k : string) (cs : list (HostCall (Comp := Comp))) : Z :=
  Z.of_nat (length (filter (fun c => hm_module (call_message c) = k) cs)).

Lemma calling_cons k c cs :
  calling k (c :: cs) = (if decide (k = hm_module (call_message c)) then 1 else 0) + calling k cs.
Proof.
  unfold calling. rewrite filter_cons. repeat case_decide; try congruence; rewrite ?length_cons; lia.
Qed.

Lemma calling_mid k c cs1 cs2 :
  calling k (cs1 ++ c :: cs2) =
  (if decide (k = hm_module (call_message c)) then 1 else 0) + calling k (cs1 ++ cs2).
Proof.
  rewrite <- calling_cons. unfold calling. f_equal. apply Permutation_length.
  by rewrite <- Permutation_middle.
Qed.

Definition shared_bulkhead (y : HSys) : Prop :=
  forall k, 0 <= permits k (rstate (requests y)) /\
    permits k (rstate (requests y)) + holding k (inflight (requests y)) + calling k (calls y) =
    max_per_module_requests config.

(** What a router step does to the permits and the requests holding them. *)
Lemma router_step_permits (y y' : Sys) k :
  0 <= permits k (rstate y) ->
  Router.step percent_decode parse_path_and_query header_value_ok gzip execute debug_path config y y' ->
  0 <= permits k (rstate y') /\
  permits k (rstate y') + holding k (inflight y') = permits k (rstate y) + holding k (inflight y).
Proof.
  intros Hnn Hs.
  destruct Hs as [now req s s' r fl E|now req s s' p fl E|now ms p fl1 fl2 s|p fl1 fl2 s];
    cbn [rstate inflight] in *.
  - pose proof (begin_permits percent_decode gzip debug_path config now req s) as Hp. rewrite E in Hp.
    by rewrite Hp.
  - pose proof (begin_permits percent_decode gzip debug_path config now req s) as Hp. rewrite E in Hp.
    rewrite holding_cons. unfold permits_effect in Hp. destruct (permit p) as [key|].
    + destruct Hp as [Hpos Hp]. rewrite Hp. repeat case_decide; subst; try congruence; lia.
    + rewrite Hp. case_decide; [done|lia].
  - rewrite finish_permits, permits_release, holding_mid. case_decide; lia.
  - rewrite permits_release, holding_mid. case_decide; lia.
Qed.

Lemma shared_bulkhead_step y y' : shared_bulkhead y -> step y y' -> shared_bulkhead y'.
Proof.
  intros Hb Hs k. destruct (Hb k) as [Hnn Heq].
  destruct Hs as [y y' cs Hr|now msg y s' r cs E|now msg y s' c cs E|now tid y c cs1 cs2|y c cs1 cs2];
    cbn [requests calls set_rstate rstate inflight] in *.
  - destruct (router_step_permits y y' k Hnn Hr). lia.
  - pose proof (call_begin_permits now msg (rstate y)) as Hp. rewrite E in Hp. by rewrite Hp.
  - pose proof (call_begin_permits now msg (rstate y)) as Hp. rewrite E in Hp.
    destruct Hp as (Hm & Hpos & Hp). rewrite Hp, calling_cons, Hm. case_decide as Hk; [|lia].
    rewrite <- Hk in Hpos. lia.
  - rewrite call_finish_permits. rewrite calling_mid in Heq. case_decide; lia.
  - rewrite permits_release. rewrite calling_mid in Heq. repeat case_decide; try congruence; lia.
Qed.

End Bulkhead.

(** ** Components *)

Section Components.
Context {Comp K M : Type} `{HK : StoreLaws K (CachedComponent Comp)} `{HM : StoreLaws M CircuitState}.
Variable from_binary : string -> result Comp string.
Variable serialize : Comp -> result string string.
Variable deserialize : string -> result Comp string.
Variable compute_key : string -> string.
Variable removable : string -> bool.
Variable aot_config : AotCacheConfig.
Variable fs_try_exists : Path -> result bool string.
Variable fs_len : Path -> option Z.
Variable fs_read : Path -> result string string.
Variable modules_dir : Path.
Variable user_modules_dir : option Path.

Notation Loader := (LState K).

#[local] Instance script_loader : ModuleLoader Loader Comp :=
  module_cache_loader from_binary serialize deserialize compute_key removable aot_config
    fs_try_exists fs_len fs_read modules_dir user_modules_dir.

Hypothesis deserialize_serialize :
  forall c bytes c', serialize c = Ok bytes -> deserialize bytes = Ok c' -> c' = c.
Hypothesis compute_key_inj : forall a b, compute_key a = compute_key b -> a = b.
Hypothesis compute_key_nodot : forall a, Str.contains_char Str.DOT (compute_key a) = false.

Variable from_str : string -> result Value string.
Variable method_ok : string -> bool.
Variable header_ok : string * string -> bool.
Variable parse_uri : string -> result (string * option string) string.
Variable execute : Comp -> ExecReq -> result Resp (list string).
Variable debug_path : string -> string.
Variable config : RConfig (Comp := Comp).
Variable percent_decode : string -> string.
Variable parse_path_and_query : string -> result (string * option string) string.
Variable header_value_ok : string -> bool.
Variable gzip : string -> option string.

Notation State := (RState (M := M) (L := Loader)).
Notation HSys := (hsys (M := M) (L := Loader) (Comp := Comp)).
Notation step := (hstep from_str method_ok header_ok parse_uri execute debug_path config percent_decode
  parse_path_and_query header_value_ok gzip).
Notation caches_ok := (cache_ok from_binary serialize compute_key fs_read modules_dir user_modules_dir).
Notation compiled := (compiled_from from_binary fs_read modules_dir user_modules_dir).

Definition calls_its_module (c : HostCall (Comp := Comp)) : Prop :=
  sanitized (Platform (hm_module (call_message c))) = true /\
  compiled (Platform (hm_module (call_message c))) (call_component c).

Lemma call_begin_ok now msg (s s' : State) b : caches_ok (loader s) ->
  call_begin debug_path config now msg s = (b, s') ->
  caches_ok (loader s') /\ forall c, b = CallRunning c -> calls_its_module c.
Proof.
  intros Hok. unfold call_begin.
  destruct (check_request _ _ _ _) as [[[]|e] m1]; [|by intros [= <- <-]].
  unfold try_acquire. zcase; cbn [negb]; [|by intros [= <- <-]].
  cbn [loader set_semaphores set_circuit load_name script_loader module_cache_loader].
  pose proof (name_loader_ok from_binary serialize deserialize compute_key removable aot_config
    fs_try_exists fs_len fs_read modules_dir user_modules_dir deserialize_serialize compute_key_inj
    compute_key_nodot now (hm_module msg) (loader s) Hok) as Hl.
  destruct (get_or_load _ _ _ _ _ _ _ _ _ _ _ _ _) as [[c|e] l]; destruct Hl as [Hl Hc];
    intros [= <- <-]; cbn [loader set_loader]; [|done].
  split; [done|]. intros c' [= <-]. unfold calls_its_module. cbn [call_component call_message]. by apply Hc.
Qed.

Lemma call_finish_loader now tid c (s : State) :
  loader (call_finish from_str method_ok header_ok parse_uri execute config now tid c s).2 = loader s.
Proof. unfold call_finish. destruct (build_request _ _ _ _ _) as [req|e]; [destruct (execute _ req)|]; done. Qed.

Definition all_ok (y : HSys) : Prop :=
  runtime_ok from_binary serialize compute_key fs_read modules_dir user_modules_dir percent_decode (requests y) /\
  Forall calls_its_module (calls y).

Hypothesis multi_module : single_component config = None.

Lemma all_ok_step y y' : all_ok y -> step y y' -> all_ok y'.
Proof.
  intros [Hr HF] Hs.
  destruct Hs as [y y' cs Hs|now msg y s' r cs E|now msg y s' c cs E|now tid y c cs1 cs2|y c cs1 cs2];
    unfold all_ok, runtime_ok in *; cbn [requests calls set_rstate rstate inflight] in *.
  - split; [|done].
    by apply (runtime_step from_binary serialize deserialize compute_key removable aot_config
      fs_try_exists fs_len fs_read modules_dir user_modules_dir deserialize_serialize compute_key_inj
      compute_key_nodot percent_decode parse_path_and_query header_value_ok gzip execute debug_path config
      multi_module y y').
  - apply call_begin_ok in E as [? _]; [|apply Hr]. by split; [split; [|apply Hr]|].
  - apply call_begin_ok in E as [? Hc]; [|apply Hr]. split; [split; [done|apply Hr]|].
    constructor; [by apply Hc|done].
  - rewrite call_finish_loader. apply Forall_app in HF as [? HF]. apply Forall_cons in HF as [_ ?].
    by split; [|apply Forall_app].
  - apply Forall_app in HF as [? HF]. apply Forall_cons in HF as [_ ?]. by split; [|apply Forall_app].
Qed.

(** C4. From the name to the component, for requests and for scripts: whatever
    requests and host calls arrive, finish or are cancelled, in any
    interleaving, starting from consistent caches, every request in flight
    runs the component compiled from the file of the very module its path
    names, with the handler path that follows, and every host call in flight
    runs the component compiled from the platform module it names, whose name
    passed sanitisation. *)
Theorem everything_runs_its_module (m : M) (l : Loader) (y : HSys) :
  caches_ok l -> rtc step (hinit m l) y ->
  (forall p, p ∈ inflight (requests y) -> exists md,
     named_module percent_decode (path (request p)) = Some (md, handler_path p) /\
     sanitized md = true /\ compiled md (component p) /\ module p = Some (handler_name md)) /\
  (forall c, c ∈ calls y ->
     sanitized (Platform (hm_module (call_message c))) = true /\
     compiled (Platform (hm_module (call_message c))) (call_component c)).
Proof.
  intros Hl Hr. assert (all_ok y) as [[_ HF] HC].
  { assert (all_ok (hinit m l)) as Hi by (by split; [split; [|constructor]|constructor]).
    clear Hl. revert Hi. induction Hr; eauto using all_ok_step. }
  rewrite Forall_forall in HF. rewrite Forall_forall in HC.
  split; [intros p Hp; by apply HF|intros c Hc; by apply HC].
Qed.
End Components.

(** ** Answers *)

Section Answers.
Context {M L Comp : Type} `{StoreLaws M CircuitState} `{ModuleLoaderLaws L Comp}.
Variable from_str : string -> result Value string.
Variable method_ok : string -> bool.
Variable header_ok : string * string -> bool.
Variable parse_uri : string -> result (string * option string) string.
Variable execute : Comp -> ExecReq -> result Resp (list string).
Variable debug_path : string -> string.
Variable config : RConfig (Comp := Comp).
Variable scripts_dir : option Path.
Variable read_to_string : Path -> result string string.
Variable run_js_script : string -> Value -> JsRun.
Variable clock : nat -> Instant.
Variable trace_id : string.

Notation State := (RState (M := M) (L := L)).
Notation CallResult := (result HostCallResult (list string)).
Notation handler_call := (execute_handler_call from_str method_ok header_ok parse_uri execute debug_path config).

(** What the script sees of a call. *)
Definition reply (r : CallResult) : string :=
  to_string (host_call_result_json match r with
    | Ok resp => resp
    | Err e => {| hc_status := 500; hc_headers := []; hc_body := Null; hc_error := Some (hd EmptyString e) |}
    end).

(** A run of a script, as the calls it made with their results, what it came
    to in the end, and the state it left. *)
Inductive script_run : JsRun -> nat -> State -> list (HostMessage * CallResult) -> JsRun -> State -> Prop :=
| run_done r n s : script_run (JsDone r) n s [] (JsDone r) s
| run_panic e n s : script_run (JsPanic e) n s [] (JsPanic e) s
| run_call module options resume n s r s1 tr e s2 :
    handler_call (clock (2 * n)%nat) (clock (2 * n + 1)%nat) trace_id
      (native_host_call from_str module options) s = (r, s1) ->
    script_run (resume (reply r)) (S n) s1 tr e s2 ->
    script_run (JsCall module options resume) n s
      ((native_host_call from_str module options, r) :: tr) e s2.

(** The message of the last call whose request could not be built. *)
Definition last_failure (last : option string) (tr : list (HostMessage * CallResult)) : option string :=
  fold_left (fun last c => match c.2 with Ok _ => last | Err e => Some (hd EmptyString e) end) tr last.

Definition script_outcome (e : JsRun) (last : option string) (calls : nat) : result ScriptResponse string :=
  match e with
  | JsDone (Ok v) =>
      match last with
      | Some err => Err ("Handler error: " +:+ err)
      | None => Ok {| sr_result := v; calls_executed := calls |}
      end
  | JsDone (Err m) => Err ("Script error: " +:+ m)
  | JsPanic m => Err ("Script panicked: " +:+ m)
  | JsCall _ _ _ => Err EmptyString
  end.

Lemma execute_script_run run : forall n last (s : State),
  exists tr e s', script_run run n s tr e s' /\
    execute_script from_str method_ok header_ok parse_uri execute debug_path config clock trace_id run n last s =
    (script_outcome e (last_failure last tr) (n + length tr)%nat, s').
Proof.
  induction run as [r|e|module options resume IH]; intros n last s.
  - exists [], (JsDone r), s. split; [constructor|]. cbn [last_failure fold_left length]. rewrite Nat.add_0_r.
    by destruct r.
  - exists [], (JsPanic e), s. split; [constructor|done].
  - cbn [execute_script].
    destruct (handler_call (clock (2 * n)%nat) (clock (2 * n + 1)%nat) trace_id
      (native_host_call from_str module options) s) as [r s1] eqn:E.
    destruct (IH (reply r) (S n)
      match r with Ok _ => last | Err e => Some (hd EmptyString e) end s1) as (tr & e & s' & Hr & He).
    exists ((native_host_call from_str module options, r) :: tr), e, s'.
    split; [by econstructor|]. cbn [length]. rewrite Nat.add_succ_r.
    destruct r as [resp|err]; exact He.
Qed.

Lemma script_run_end run n s tr e s' : script_run run n s tr e s' ->
  (exists r, e = JsDone r) \/ (exists m, e = JsPanic m).
Proof. induction 1; eauto. Qed.

End Answers.

(** ** Witnesses *)

Section Witness.
#[local] Existing Instance string_loader.

Definition echo (c : string) (r : ExecReq) : result Resp (list string) :=
  Ok (resp 200 [] (c +:+ " got " +:+ x_path r)).
Definition plain_uri (s : string) : result (string * option string) string :=
  match Str.strip_prefix "http://localhost" s with Some p => Ok (p, None) | None => Err "invalid uri" end.
Definition call_orders : HostMessage := native_host_call (fun _ => Err "") "orders" "".

Notation CircuitMap := (gmap string CircuitState).
Notation ToyLoader := (LState (gmap string (CachedComponent string))).
Notation toy_begin := (call_begin (M := CircuitMap) (L := ToyLoader) (fun s => s) runtime_config).
Notation start := (rstate (init (Comp := string) (∅ : CircuitMap) empty_loader)).


Lemma everything_runs_its_module_witness :
  match toy_begin 1 call_orders start with
  | (CallRunning c, s') => call_component c = "compiled /modules/orders.wasm"
  | _ => False
  end.
Proof.
  destruct (toy_begin 1 call_orders start) as [b s'] eqn:E.
  assert (exists c, b = CallRunning c /\ call_message c = call_orders) as (c & -> & Hc).
  { assert (b = (toy_begin 1 call_orders start).1) as -> by (by rewrite E). vm_compute. eauto. }
  destruct (everything_runs_its_module (fun w => Ok ("compiled " +:+ w)) (fun c => Ok c) (fun b => Ok b) hex_key
    (fun _ => true) config_default (fun _ => Ok true) (fun _ => Some 3) (fun p => Ok (to_str p))
    [RootDir; Normal "modules"] (Some [RootDir; Normal "tenants"])
    ltac:(congruence) hex_key_inj hex_key_nodot
    (fun _ => Err "") (fun _ => true) (fun _ => true) plain_uri echo (fun s => s) runtime_config
    (fun s => s) (fun s => Ok (s, None)) (fun _ => true) Some eq_refl
    (∅ : CircuitMap) empty_loader {| requests := set_rstate s' (init ∅ empty_loader); calls := [c] |})
    as [_ Hcall].
  - split; [intros w f Hf; simpl in Hf; by rewrite lookup_empty in Hf|].
    intros m c' _ Hc'. simpl in Hc'. by rewrite lookup_empty in Hc'.
  - apply rtc_once. by apply (hstep_start _ _ _ _ _ _ _ _ _ _ _ 1 call_orders).
  - destruct (Hcall c ltac:(left)) as (_ & q & w & Hq & Hw & Hcc). rewrite Hc in Hq.
    vm_compute in Hq. injection Hq as <-. cbv beta in Hw. injection Hw as <-.
    by injection Hcc as <-.
Defined.

Definition order_script : HReq := {|
  method := "POST"; path := "/script/checkout"; query := None; req_headers := []; req_body := Ok "" |}.
Definition checkout (script : string) (input : Value) : JsRun :=
  JsCall "orders" "{}" (fun answer => JsDone (Ok (Text answer))).

End Witness.
