(* ===== verification/Serve.v ===== *)
(** Serve: the front door of the runtime, of
    [src/src/runtime/request_handler.rs] ([handle_request]),
    [endpoints.rs] and [observability.rs]: the built-in endpoints and the
    headers every answer carries. *)

From stdpp Require Import base gmap list strings relations.
From S2P Require Import Prelude Store StdPath CircuitBreaker PathSecurity ModulePath SortBy Http Json TraceContext RtError WebContent ModuleCache Router Script.

#[local] Open Scope Z_scope.

(** ** Health and metrics *)

Inductive HealthDetail := Summary | Full.

Record MemoryStats := {
  allocated_bytes : option Z;
  limit_per_request_bytes : Z;
}.

Record HealthStatus := {
  status : string;
  timestamp : string;
  cache_size : Z;
  cache_capacity : Z;
  cache_bytes : Z;
  cache_max_bytes : Z;
  total_requests : Z;
  memory : MemoryStats;
  loaded_modules : option (list string);
}.

Definition z_json (z : Z) : Value := Number (Str.of_Z z).
Definition health_json (h : HealthStatus) : Value :=
  Object ([("status", Text (status h)); ("timestamp", Text (timestamp h));
           ("cache_size", z_json (cache_size h)); ("cache_capacity", z_json (cache_capacity h));
           ("cache_bytes", z_json (cache_bytes h)); ("cache_max_bytes", z_json (cache_max_bytes h));
           ("total_requests", z_json (total_requests h));
           ("memory", Object
              [("allocated_bytes", match allocated_bytes (memory h) with Some n => z_json n | None => Null end);
               ("limit_per_request_bytes", z_json (limit_per_request_bytes (memory h)))])] ++
          match loaded_modules h with Some ms => [("loaded_modules", Array (List.map Text ms))] | None => [] end).

(** What the endpoints read of the configuration, and of the module cache:
    its keys and its weighted size. *)
Record ObsConfig := {
  conf_cache_size : Z;
  conf_max_cache_bytes : Z;
  conf_memory_limit_bytes : Z;
  conf_max_concurrent_requests : Z;
}.

Record CacheView := {
  cache_keys : list string;
  cache_weight : Z;
}.

Definition HEALTH_STATUS_READY : string := "ready".

Definition get_health_status (conf : ObsConfig) (view : CacheView) (now : string) (requests : Z)
    (memory_usage : option Z) (detail : HealthDetail) : HealthStatus := {|
  status := HEALTH_STATUS_READY; timestamp := now;
  cache_size := Z.of_nat (length (cache_keys view)); cache_capacity := conf_cache_size conf;
  cache_bytes := cache_weight view; cache_max_bytes := conf_max_cache_bytes conf;
  total_requests := requests;
  memory := {| allocated_bytes := memory_usage; limit_per_request_bytes := conf_memory_limit_bytes conf |};
  loaded_modules := match detail with Full => Some (cache_keys view) | Summary => None end |}.

Definition metric (name help kind : string) : string :=
  "# HELP " +:+ name +:+ " " +:+ help +:+ NL +:+ "# TYPE " +:+ name +:+ " " +:+ kind +:+ NL.
Definition sample (name : string) (v : Z) : string := name +:+ " " +:+ Str.of_Z v +:+ NL.

Definition state_value (state : string) : Z :=
  if String.eqb state "open" then 1 else if String.eqb state "half_open" then 2 else 0.

Definition DQ : string := String QUOTE EmptyString.
Definition circuit_sample (e : string * string) : string :=
  "mik_circuit_breaker_state{module=" +:+ DQ +:+ e.1 +:+ DQ +:+ "} " +:+ Str.of_Z (state_value e.2) +:+ NL.

Definition concat_str (l : list string) : string := Str.join EmptyString l.

Definition get_prometheus_metrics (conf : ObsConfig) (view : CacheView) (requests : Z)
    (memory_usage : option Z) (circuit_states : list (string * string)) : string :=
  concat_str (
    [metric "mik_requests_total" "Total number of HTTP requests received" "counter";
     sample "mik_requests_total" requests; NL;
     metric "mik_cache_entries" "Number of modules in cache" "gauge";
     sample "mik_cache_entries" (Z.of_nat (length (cache_keys view))); NL;
     metric "mik_cache_bytes" "Total bytes used by cached modules" "gauge";
     sample "mik_cache_bytes" (cache_weight view); NL;
     metric "mik_cache_capacity_bytes" "Maximum cache size in bytes" "gauge";
     sample "mik_cache_capacity_bytes" (conf_max_cache_bytes conf); NL;
     metric "mik_max_concurrent_requests" "Maximum allowed concurrent requests" "gauge";
     sample "mik_max_concurrent_requests" (conf_max_concurrent_requests conf); NL;
     metric "mik_circuit_breaker_state"
       "Circuit breaker state per module (0=closed, 1=open, 2=half-open)" "gauge"] ++
    List.map circuit_sample circuit_states ++
    match circuit_states with [] => [] | _ => [NL] end ++
    match memory_usage with
    | Some mem => [metric "mik_memory_bytes" "Process memory usage in bytes" "gauge"; sample "mik_memory_bytes" mem]
    | None => []
    end).

(** ** Requests *)

Section Serve.
Context {M L Comp : Type} `{StoreLaws M CircuitState} `{ModuleLoaderLaws L Comp}.
Variable from_str : string -> result Value string.
Variable method_ok : string -> bool.
Variable header_ok : string * string -> bool.
Variable parse_uri : string -> result (string * option string) string.
Variable execute : Comp -> ExecReq -> result Resp (list string).
Variable debug_path : string -> string.
Variable config : RConfig (Comp := Comp).
Variable conf : ObsConfig.
Variable scripts_dir : option Path.
Variable read_to_string : Path -> result string string.
Variable run_js_script : string -> Value -> JsRun.
Variable percent_decode : string -> string.
Variable parse_path_and_query : string -> result (string * option string) string.
Variable header_value_ok : string -> bool.
Variable gzip : string -> option string.
(** The keys and the weight of the module cache. *)
Variable cache_view : L -> CacheView.

Notation State := (RState (M := M) (L := L)).

(** The runtime with [request_counter], an [AtomicU64]. *)
Record Shared := {
  runtime : State;
  request_counter : Z;
}.

(** What a request draws from its surroundings: random identifiers, clocks and
    the memory in use. *)
Record Draws := {
  request_id : string;
  uuid1 : list N;
  uuid2 : list N;
  started : Instant;
  finished : Instant;
  duration_ms : Z;
  call_clock : nat -> Instant;
  rfc3339 : string;
  memory_usage : option Z;
}.

Definition verbose_query (query : option string) : bool :=
  match query ≫= fun q => List.find (Str.starts_with "verbose=") (Str.split "&" q) with
  | Some s =>
      match Str.strip_prefix "verbose=" s with
      | Some v => (String.eqb v "true" || String.eqb v "1")%bool
      | None => false
      end
  | None => false
  end.

Definition traced_headers (d : Draws) (traceparent content_type : string) : list (string * string) :=
  [("content-type", content_type); ("x-request-id", request_id d); ("traceparent", traceparent)].

Definition handle_health_endpoint (d : Draws) (req : HReq) (traceparent : string) (s : Shared) : Resp :=
  let detail := if verbose_query (query req) then Full else Summary in
  let health := get_health_status conf (cache_view (loader (runtime s))) (rfc3339 d)
                  (request_counter s) (memory_usage d) detail in
  maybe_compress_response gzip
    (resp 200 (traced_headers d traceparent "application/json") (to_string_pretty (health_json health)))
    (accepts_gzip (req_headers req)).

Definition handle_metrics_endpoint (d : Draws) (req : HReq) (traceparent : string) (s : Shared) : Resp :=
  let metrics := get_prometheus_metrics conf (cache_view (loader (runtime s))) (request_counter s)
                   (memory_usage d) (get_all_states (circuit_breaker (runtime s))) in
  maybe_compress_response gzip
    (resp 200 (traced_headers d traceparent "text/plain; version=0.0.4; charset=utf-8") metrics)
    (accepts_gzip (req_headers req)).

(** The routed part: scripts are answered by the script engine. *)
Definition route_request (d : Draws) (trace_id : string) (req : HReq) (s : State)
  : result Resp (list string) * State :=
  match handle_request_inner percent_decode parse_path_and_query header_value_ok gzip execute debug_path config
          (started d) (finished d) (duration_ms d) req s with
  | (Some r, s) => (r, s)
  | (None, s) =>
      handle_script_request from_str method_ok header_ok parse_uri execute debug_path config
        scripts_dir read_to_string run_js_script (call_clock d) trace_id req s
  end.

Definition trace_context_of (d : Draws) (req : HReq) : TraceContext :=
  extract_trace_context (uuid1 d) (uuid2 d) (req_headers req).

Definition handle_request (d : Draws) (req : HReq) (s : Shared) : result Resp (list string) * Shared :=
  let trace_ctx := trace_context_of d req in
  let traceparent := to_traceparent trace_ctx in
  let s := {| runtime := runtime s; request_counter := wrap_u64 (request_counter s + 1) |} in
  if String.eqb (path req) HEALTH_PATH then (Ok (handle_health_endpoint d req traceparent s), s)
  else if String.eqb (path req) METRICS_PATH then (Ok (handle_metrics_endpoint d req traceparent s), s)
  else
    let '(result, rt) := route_request d (trace_id trace_ctx) req (runtime s) in
    (match result with
     | Ok r => Ok (add_header "traceparent" traceparent (add_header "x-request-id" (request_id d) r))
     | Err e => Err e
     end, {| runtime := rt; request_counter := request_counter s |}).

End Serve.

(** ** Properties *)

Lemma compressed_header gzip (r : Resp) accepts name :
  name <> "content-length" -> name <> "content-encoding" ->
  header_get name (rs_headers (maybe_compress_response gzip r accepts)) = header_get name (rs_headers r).
Proof.
  intros H1 H2. unfold maybe_compress_response, maybe_compress_body.
  destruct accepts; [|done]. cbn [negb]. cbv zeta.
  destruct (_ <? _); [done|]. destruct (is_compressible_content_type _); [|done]. cbn [negb].
  destruct (gzip (rs_body r)) as [c|]; [|done]. destruct (_ <=? _); [done|].
  cbn [rs_headers resp]. fold (header_remove (A := string) "content-length" (rs_headers r)).
  rewrite header_get_app, header_get_remove. apply String.eqb_neq in H1 as Hn. rewrite Hn.
  destruct (header_get name (rs_headers r)); [done|]. cbn [header_get].
  assert (String.eqb "content-encoding" name = false) as -> by (apply String.eqb_neq; congruence).
  assert (String.eqb "content-length" name = false) as -> by (apply String.eqb_neq; congruence). done.
Qed.

Lemma compressed_status gzip (r : Resp) accepts :
  rs_status (maybe_compress_response gzip r accepts) = rs_status r.
Proof.
  unfold maybe_compress_response, maybe_compress_body. destruct accepts; [|done]. cbn [negb]. cbv zeta.
  destruct (_ <? _); [done|]. destruct (is_compressible_content_type _); [|done]. cbn [negb].
  destruct (gzip (rs_body r)) as [c|]; [|done]. by destruct (_ <=? _).
Qed.

(** C38. The front door. Every answer carries the identifier of its request and
    the trace context the request came with, or a fresh one; every request is
    counted; health and metrics are always answered with 200, whatever the
    state of circuits and bulkheads, and change nothing else; and any other
    path is answered by the router or the script engine in the same state. *)
Theorem answers_are_traced {M L Comp : Type} `{StoreLaws M CircuitState} `{ModuleLoaderLaws L Comp}
    from_str method_ok header_ok parse_uri execute debug_path (config : RConfig (Comp := Comp)) conf
    scripts_dir read_to_string run_js_script percent_decode parse_path_and_query header_value_ok gzip
    cache_view (d : Draws) (req : HReq) (s s' : Shared (M := M) (L := L)) (r : result Resp (list string)) :
  handle_request from_str method_ok header_ok parse_uri execute debug_path config conf scripts_dir
    read_to_string run_js_script percent_decode parse_path_and_query header_value_ok gzip cache_view
    d req s = (r, s') ->
  request_counter s' = wrap_u64 (request_counter s + 1) /\
  (forall a, r = Ok a ->
     header_get "x-request-id" (rs_headers a) = Some (request_id d) /\
     header_get "traceparent" (rs_headers a) = Some (to_traceparent (trace_context_of d req))) /\
  (path req = HEALTH_PATH \/ path req = METRICS_PATH ->
     runtime s' = runtime s /\ exists a, r = Ok a /\ rs_status a = 200) /\
  (path req <> HEALTH_PATH -> path req <> METRICS_PATH ->
     exists inner, route_request from_str method_ok header_ok parse_uri execute debug_path config scripts_dir
       read_to_string run_js_script percent_decode parse_path_and_query header_value_ok gzip
       d (trace_id (trace_context_of d req)) req (runtime s) = (inner, runtime s') /\
     is_ok r = is_ok inner /\
     forall a b, r = Ok a -> inner = Ok b -> rs_status a = rs_status b /\ rs_body a = rs_body b).
Proof.
  unfold handle_request.
  destruct (String.eqb_spec (path req) HEALTH_PATH) as [Hh|Hh];
    [|destruct (String.eqb_spec (path req) METRICS_PATH) as [Hm|Hm]].
  - intros [= <- <-]. cbn [request_counter runtime]. split_and!; [done| | |by intros ?].
    + intros a [= <-]. unfold handle_health_endpoint. by rewrite !compressed_header.
    + intros _. split; [done|]. eexists. split; [done|]. unfold handle_health_endpoint.
      by rewrite compressed_status.
  - intros [= <- <-]. cbn [request_counter runtime]. split_and!; [done| | |by intros _ ?].
    + intros a [= <-]. unfold handle_metrics_endpoint. by rewrite !compressed_header.
    + intros _. split; [done|]. eexists. split; [done|]. unfold handle_metrics_endpoint.
      by rewrite compressed_status.
  - cbn [runtime]. destruct (route_request _ _ _ _ _ _ _ _ _ _ _ _ _ _ _ _ _ _) as [inner rt] eqn:E.
    intros [= <- <-]. cbn [request_counter runtime]. split_and!; [done| |by intros [?|?]|].
    + intros a Ha. destruct inner as [b|e]; [|done]. injection Ha as <-.
      unfold add_header. cbn [rs_headers]. by rewrite !header_get_insert.
    + intros _ _. exists inner. split; [done|]. split; [by destruct inner|].
      intros a b Ha ->. by injection Ha as <-.
Qed.

(** ** Witness *)

Section Witness.
#[local] Instance no_loader : ModuleLoader unit string := {|
  load_name := fun _ name l => (Err (Typed (ModuleNotFound name)), l);
  load_path := fun _ m l => (Err (Typed (ModuleNotFound (module_name m))), l) |}.
#[local] Instance no_loader_laws : ModuleLoaderLaws unit string.
Proof. by split. Qed.

Definition empty_config : RConfig (Comp := string) := {|
  cb_config := default_config; max_per_module_requests := 10; max_body_size_bytes := 100;
  single_component := None; single_component_name := None; tenants_configured := false;
  static_files := None; gateway := fun _ => Err []; schema := fun _ => not_found "" |}.
Definition draws : Draws := {|
  request_id := "id"; uuid1 := []; uuid2 := []; started := 0; finished := 1; duration_ms := 0;
  call_clock := Z.of_nat; rfc3339 := "now"; memory_usage := None |}.
Definition health_request : HReq := {|
  method := "GET"; path := "/health"; query := Some "verbose=1"; req_headers := []; req_body := Ok "" |}.

Lemma answers_are_traced_witness :
  exists a s', handle_request (M := gmap string CircuitState) (fun _ => Err "") (fun _ => true) (fun _ => true)
      (fun _ => Err "") (fun _ _ => Err []) (fun s => s) empty_config
      {| conf_cache_size := 1; conf_max_cache_bytes := 1; conf_memory_limit_bytes := 1;
         conf_max_concurrent_requests := 1 |} None (fun _ => Err "") (fun _ _ => JsPanic "")
      (fun s => s) (fun s => Ok (s, None)) (fun _ => true) Some (fun _ => {| cache_keys := []; cache_weight := 0 |})
      draws health_request
      {| runtime := rstate (init (Comp := string) ∅ tt); request_counter := 0 |} = (Ok a, s') /\
    rs_status a = 200 /\ header_get "x-request-id" (rs_headers a) = Some "id".
Proof.
  destruct (handle_request _ _ _ _ _ _ _ _ _ _ _ _ _ _ _ _ _ _ _) as [r s'] eqn:E.
  destruct (answers_are_traced (M := gmap string CircuitState) (L := unit) (Comp := string)
    _ _ _ _ _ _ _ _ _ _ _ _ _ _ _ _ _ _ _ _ _ E) as (_ & Ht & Hh & _).
  destruct Hh as (_ & a & -> & Hs); [by left|].
  exists a, s'. split; [done|]. split; [exact Hs|]. by apply Ht.
Defined.
End Witness.
