(* ===== verification/Spans.v ===== *)
(** Spans: the timing spans of [src/src/runtime/spans.rs], and the places of
    [request_handler.rs] and [script/mod.rs] that record them: a span for a
    request, one for its script and one for each host call. The functions
    here repeat those of Script.v and Serve.v with the spans they collect. *)

From stdpp Require Import base gmap list strings.
From S2P Require Import Prelude Store StdPath CircuitBreaker PathSecurity ModulePath SortBy Http Json TraceContext RtError WebContent ModuleCache Router Script Serve.

#[local] Open Scope Z_scope.

(** ** Spans ([spans.rs]) *)

Inductive SpanStatus := SpanOk | SpanError | SpanTimeout.

Definition span_status_str (s : SpanStatus) : string :=
  match s with SpanOk => "ok" | SpanError => "error" | SpanTimeout => "timeout" end.

Record Span := {
  span_id : string;
  parent_id : option string;
  span_name : string;
  span_ms : Z;
  span_status : SpanStatus;
  span_error : option string;
}.

Record SpanBuilder := {
  sb_id : string;
  sb_parent : option string;
  sb_name : string;
  sb_start : Instant;
}.

(** [{id:016x}] *)
Fixpoint hex_pad (digits : nat) (id : Z) : string :=
  match digits with
  | O => EmptyString
  | S digits => String (hex_digit (Z.to_N (id / 16 ^ Z.of_nat digits mod 16))) (hex_pad digits id)
  end.

(** [SPAN_ID_COUNTER.fetch_add(1)]: the identifier, and the counter *)
Definition generate_span_id (counter : Z) : string * Z := (hex_pad 16 counter, wrap_u64 (counter + 1)).

Definition span_new (counter : Z) (name : string) (now : Instant) : SpanBuilder :=
  {| sb_id := (generate_span_id counter).1; sb_parent := None; sb_name := name; sb_start := now |}.
Definition with_parent (counter : Z) (name parent : string) (now : Instant) : SpanBuilder :=
  {| sb_id := (generate_span_id counter).1; sb_parent := Some parent; sb_name := name; sb_start := now |}.

(** [as_millis() as u64] *)
Definition elapsed_ms (now : Instant) (b : SpanBuilder) : Z := wrap_u64 (elapsed now (sb_start b) / 1000000).

Definition finished_as (status : SpanStatus) (error : option string) (now : Instant) (b : SpanBuilder) : Span := {|
  span_id := sb_id b; parent_id := sb_parent b; span_name := sb_name b; span_ms := elapsed_ms now b;
  span_status := status; span_error := error |}.
Definition finish : Instant -> SpanBuilder -> Span := finished_as SpanOk None.
Definition finish_with_error (error : string) : Instant -> SpanBuilder -> Span := finished_as SpanError (Some error).
Definition finish_timeout : Instant -> SpanBuilder -> Span := finished_as SpanTimeout (Some "Operation timed out").

Record SpanSummary := {
  sm_trace_id : string;
  total_ms : Z;
  handler_calls : nat;
  spans : list Span;
}.

Definition summary_new (trace_id : string) (total_ms : Z) (spans : list Span) : SpanSummary := {|
  sm_trace_id := trace_id; total_ms := total_ms;
  handler_calls := length (filter (fun s => Str.starts_with "handler." (span_name s) = true) spans);
  spans := spans |}.

(** *** Identifiers are unique as long as the counter does not wrap around *)

Lemma hex_digit_inj a b : (a < 16)%N -> (b < 16)%N -> hex_digit a = hex_digit b -> a = b.
Proof.
  intros Ha Hb E. apply (f_equal N_of_ascii) in E. unfold hex_digit, Str.chr in E.
  destruct (N.ltb_spec a 10), (N.ltb_spec b 10); rewrite !N_ascii_embedding in E; lia.
Qed.

Lemma hex_pad_mod n a b : hex_pad n a = hex_pad n b -> a mod 16 ^ Z.of_nat n = b mod 16 ^ Z.of_nat n.
Proof.
  revert a b. induction n as [|n IH]; intros a b; [by rewrite !Z.mod_1_r|]. cbn [hex_pad].
  intros [= Hd Hr]. pose proof (Z.mod_pos_bound (a / 16 ^ Z.of_nat n) 16 ltac:(lia)).
  pose proof (Z.mod_pos_bound (b / 16 ^ Z.of_nat n) 16 ltac:(lia)).
  apply hex_digit_inj in Hd; [|lia..]. apply Z2N.inj in Hd; [|lia..].
  rewrite Nat2Z.inj_succ, Z.pow_succ_r, (Z.mul_comm 16), !Z.rem_mul_r by lia. by rewrite Hd, (IH a b).
Qed.

Lemma hex_pad_inj a b : is_u64 a -> is_u64 b -> hex_pad 16 a = hex_pad 16 b -> a = b.
Proof. intros Ha Hb E. apply hex_pad_mod in E. unfold is_u64, u64_max in *. rewrite !Z.mod_small in E by lia. done. Qed.

(** ** Where they are recorded *)

Section Traced.
Context {M L Comp : Type} `{StoreLaws M CircuitState} `{ModuleLoaderLaws L Comp}.
Variable from_str : string -> result Value string.
Variable method_ok : string -> bool.
Variable header_ok : string * string -> bool.
Variable parse_uri : string -> result (string * option string) string.
Variable execute : Comp -> ExecReq -> result Resp (list string).
Variable debug_path : string -> string.
Variable config : RConfig (Comp := Comp).
Variable scripts_dir : option Path.
Variable read_to_string : Path -> result string string.
Variable run_js_script : string -> Value -> JsRun.
Variable percent_decode : string -> string.
Variable parse_path_and_query : string -> result (string * option string) string.
Variable header_value_ok : string -> bool.
Variable gzip : string -> option string.

Notation State := (RState (M := M) (L := L)).

(** The values of the counter this request gets, in order: the request's,
    the script's, and those of its host calls. Other requests take values in
    between. *)
Variable counter : nat -> Z.
(** The instants at which the spans of request and script start and end *)
Record SpanClock := {
  received : Instant;
  request_start : Instant;
  script_start : Instant;
  script_end : Instant;
  request_end : Instant;
}.

Definition handler_span (clock : nat -> Instant) (parent module : string) (i : nat)
    (r : result HostCallResult (list string)) : Span :=
  let b := with_parent (counter (2 + i)) ("handler." +:+ module) parent (clock (2 * i)%nat) in
  let now := clock (2 * i + 1)%nat in
  match r with
  | Ok resp => if 400 <=? hc_status resp then finish_with_error ("HTTP " +:+ Str.of_Z (hc_status resp)) now b
               else finish now b
  | Err e => finish_with_error (hd EmptyString e) now b
  end.

Notation handler_call := (execute_handler_call from_str method_ok header_ok parse_uri execute debug_path config).

(** [execute_script] with the spans of its host calls *)
Fixpoint traced_script (clock : nat -> Instant) (trace_id parent : string) (run : JsRun)
    (call_count : nat) (last_error : option string) (s : State)
  : result ScriptResponse string * State * list Span :=
  match run with
  | JsDone (Ok result) =>
      (match last_error with
       | Some err => Err ("Handler error: " +:+ err)
       | None => Ok {| sr_result := result; calls_executed := call_count |}
       end, s, [])
  | JsDone (Err e) => (Err ("Script error: " +:+ e), s, [])
  | JsPanic e => (Err ("Script panicked: " +:+ e), s, [])
  | JsCall module options_json resume =>
      let '(r, s) := handler_call (clock (2 * call_count)%nat) (clock (2 * call_count + 1)%nat)
                       trace_id (native_host_call from_str module options_json) s in
      let span := handler_span clock parent module call_count r in
      let '(resp, error) :=
        match r with
        | Ok resp => (resp, last_error)
        | Err e =>
            let e := hd EmptyString e in
            ({| hc_status := 500; hc_headers := []; hc_body := Null; hc_error := Some e |}, Some e)
        end in
      let '(out, s, spans) :=
        traced_script clock trace_id parent (resume (to_string (host_call_result_json resp))) (S call_count) error s in
      (out, s, span :: spans)
  end.

(** [handle_script_request] with its spans: none before the script is run *)
Definition traced_script_request (c : SpanClock) (clock : nat -> Instant) (trace_id parent : string) (req : HReq)
    (s : State) : result Resp (list string) * State * list Span :=
  match script_checks from_str config scripts_dir read_to_string req with
  | Err e => (Err e, s, [])
  | Ok (script, input) =>
      let name := match script_name_of (path req) with Ok n => n | Err _ => EmptyString end in
      let b := with_parent (counter 1) ("script." +:+ name) parent (script_start c) in
      let '(out, s, spans) := traced_script clock trace_id (sb_id b) (run_js_script script input) 0 None s in
      match out with
      | Ok r => (Ok (resp 200 [("content-type", "application/json")] (to_string (script_response_json r))), s,
                 spans ++ [finish (script_end c) b])
      | Err e => (Err [e], s, spans ++ [finish_with_error e (script_end c) b])
      end
  end.

(** [handle_request] between the built-in endpoints and the headers *)
Definition traced_route (d : Draws) (c : SpanClock) (trace_id : string) (req : HReq) (s : State)
  : result Resp (list string) * State * SpanSummary :=
  let b := span_new (counter 0) "request" (request_start c) in
  let '(r, s, spans) :=
    match handle_request_inner percent_decode parse_path_and_query header_value_ok gzip execute debug_path config
            (started d) (finished d) (duration_ms d) req s with
    | (Some r, s) => (r, s, [])
    | (None, s) => traced_script_request c (call_clock d) trace_id (sb_id b) req s
    end in
  let root := match r with
              | Ok _ => finish (request_end c) b
              | Err e => finish_with_error (hd EmptyString e) (request_end c) b
              end in
  (r, s, summary_new trace_id (wrap_u64 (elapsed (request_end c) (received c) / 1000000)) (spans ++ [root])).

(** ** The spans are those of the request *)

Lemma traced_script_is_script clock trace_id parent run : forall n e s,
  (traced_script clock trace_id parent run n e s).1 =
  execute_script from_str method_ok header_ok parse_uri execute debug_path config clock trace_id run n e s.
Proof.
  induction run as [r|e0|module opts resume IH]; intros n e s; cbn [traced_script execute_script].
  - destruct r; [by destruct e|done].
  - done.
  - destruct (handler_call _ _ _ _ s) as [[r|err] s1].
    + rewrite <- (IH _ (S n) e s1). by destruct (traced_script _ _ _ (resume _) _ _ _) as [[? ?] ?].
    + rewrite <- (IH _ (S n) _ s1). by destruct (traced_script _ _ _ (resume _) _ _ _) as [[? ?] ?].
Qed.

Definition sum_ms (l : list Span) : Z := foldr (fun s n => span_ms s + n) 0 l.

(** What the spans of the host calls from the [n]-th on have in common *)
Record host_spans (clock : nat -> Instant) (parent : string) (n : nat) (l : list Span) : Prop := {
  hs_ids : span_id <$> l = (fun k => hex_pad 16 (counter (2 + k))) <$> seq n (length l);
  hs_parents : Forall (fun s => parent_id s = Some parent) l;
  hs_names : Forall (fun s => Str.starts_with "handler." (span_name s) = true) l;
  hs_sum : (forall k, clock k <= clock (S k)) ->
    0 <= sum_ms l /\ sum_ms l * 1000000 <= clock (2 * (n + length l))%nat - clock (2 * n)%nat;
}.

Lemma wrap_u64_le z : 0 <= z -> 0 <= wrap_u64 z <= z.
Proof. intros. unfold wrap_u64. split; [apply Z.mod_pos_bound; ints|apply Z.mod_le; ints]. Qed.

Lemma elapsed_ms_le now b : sb_start b <= now -> 0 <= elapsed_ms now b /\ elapsed_ms now b * 1000000 <= now - sb_start b.
Proof.
  intros Hle. unfold elapsed_ms, elapsed, sat_sub. rewrite Z.max_r by lia.
  pose proof (Z.div_pos (now - sb_start b) 1000000 ltac:(lia) ltac:(lia)) as Hp.
  pose proof (wrap_u64_le _ Hp) as [? ?]. split; [done|].
  pose proof (Z.mul_div_le (now - sb_start b) 1000000 ltac:(lia)). lia.
Qed.

Lemma handler_span_ms clock parent module i r :
  span_ms (handler_span clock parent module i r) =
  elapsed_ms (clock (2 * i + 1)%nat) (with_parent (counter (2 + i)) ("handler." +:+ module) parent (clock (2 * i)%nat)).
Proof. unfold handler_span. destruct r; [by destruct (400 <=? _)|done]. Qed.

Lemma handler_span_facts clock parent module i r : let s := handler_span clock parent module i r in
  span_id s = hex_pad 16 (counter (2 + i)) /\ parent_id s = Some parent /\ span_name s = "handler." +:+ module.
Proof. unfold handler_span. destruct r; [by destruct (400 <=? _)|done]. Qed.

Lemma host_spans_cons clock parent module n r l : host_spans clock parent (S n) l ->
  host_spans clock parent n (handler_span clock parent module n r :: l).
Proof.
  intros [Hi Hp Hn Hs]. destruct (handler_span_facts clock parent module n r) as (Fi & Fp & Fn). split.
  - cbn [fmap list_fmap length seq]. by rewrite Fi, Hi.
  - by constructor.
  - constructor; [|done]. rewrite Fn. unfold Str.starts_with. by cbn.
  - intros Hc. cbn [sum_ms foldr length]. fold (sum_ms l). destruct (Hs Hc) as [Sa Sb].
    rewrite handler_span_ms. pose proof (Hc (2 * n)%nat) as C1. pose proof (Hc (S (2 * n))%nat) as C2.
    replace (2 * n + 1)%nat with (S (2 * n)) by lia.
    destruct (elapsed_ms_le (clock (S (2 * n))) (with_parent (counter (2 + n)) ("handler." +:+ module) parent (clock (2 * n)%nat)) C1)
      as [E0 E1]. cbn [sb_start with_parent] in E1.
    replace (2 * S n)%nat with (S (S (2 * n))) in Sb by lia.
    replace (2 * (n + S (length l)))%nat with (2 * (S n + length l))%nat by lia. lia.
Qed.

Lemma traced_script_spans clock trace_id parent run : forall n e s out s' l,
  traced_script clock trace_id parent run n e s = (out, s', l) ->
  host_spans clock parent n l /\ forall r, out = Ok r -> calls_executed r = (n + length l)%nat.
Proof.
  assert (forall n, host_spans clock parent n []) as Hnil.
  { intros n. split; try done. intros _. cbn [sum_ms foldr length]. rewrite Nat.add_0_r. lia. }
  induction run as [r|e0|module opts resume IH]; intros n e s out s' l; cbn [traced_script].
  - destruct r; [destruct e|]; intros [= <- <- <-]; (split; [apply Hnil|]); intros r Hr; try done.
    injection Hr as <-. cbn. lia.
  - intros [= <- <- <-]. split; [apply Hnil|done].
  - destruct (handler_call _ _ _ _ s) as [r s1].
    match goal with |- (let '(_, _) := ?x in _) = _ -> _ => destruct x as [resp error] end.
    destruct (traced_script _ _ _ (resume _) _ _ _) as [[out1 s2] l1] eqn:E. intros [= <- <- <-].
    apply IH in E as [Hl Hr]. split; [by apply host_spans_cons|].
    intros r0 Hr0. rewrite (Hr r0 Hr0). cbn [length]. lia.
Qed.

(** A span below another one *)
Definition child_of (p s : Span) : Prop := parent_id s = Some (span_id p).
#[export] Instance child_of_dec p s : Decision (child_of p s).
Proof. unfold child_of. apply _. Defined.

Definition children (p : Span) (l : list Span) : list Span := filter (child_of p) l.

(** The spans of a request in the order in which they end: a tree below the
    last one, in which the children of a span are over before it is and do not
    overlap. *)
Record span_tree (l : list Span) : Prop := {
  st_ids : NoDup (span_id <$> l);
  st_root : exists root, last l = Some root /\ parent_id root = None;
  st_parents : forall i s, l !! i = Some s -> parent_id s = None /\ S i = length l \/
    exists j p, (i < j)%nat /\ l !! j = Some p /\ child_of p s;
  st_nested : forall p, p ∈ l -> sum_ms (children p l) <= span_ms p;
}.

Lemma children_none p l : Forall (fun s => ~ child_of p s) l -> children p l = [].
Proof.
  unfold children. induction 1 as [|s l Hs _ IH]; [done|]. rewrite filter_cons, decide_False by done. apply IH.
Qed.
Lemma children_all p l : Forall (child_of p) l -> children p l = l.
Proof.
  unfold children. induction 1 as [|s l Hs _ IH]; [done|]. rewrite filter_cons, decide_True by done. by rewrite IH.
Qed.

Lemma children_app p l l' : children p (l ++ l') = children p l ++ children p l'.
Proof. apply filter_app. Qed.

Lemma sum_ms_app l l' : sum_ms (l ++ l') = sum_ms l + sum_ms l'.
Proof. induction l as [|s l IH]; cbn; [done|]. fold (sum_ms (l ++ l')) (sum_ms l). lia. Qed.

(** Host calls below a script below a request *)
Lemma script_tree (hs : list Span) (sc root : Span) :
  NoDup (span_id <$> (hs ++ [sc; root])) -> Forall (child_of sc) hs -> child_of root sc -> parent_id root = None ->
  Forall (fun h => 0 <= span_ms h) hs -> sum_ms hs <= span_ms sc -> span_ms sc <= span_ms root -> span_tree (hs ++ [sc; root]).
Proof.
  intros Hnd Hhs Hsc Hroot Hms Hsum Hle.
  assert (Hids : span_id sc <> span_id root /\ Forall (fun h => span_id h <> span_id sc /\ span_id h <> span_id root) hs).
  { rewrite fmap_app in Hnd. apply NoDup_app in Hnd as (_ & Hd & Hn). cbn in Hn, Hd.
    apply NoDup_cons in Hn as [Hn _]. split; [intros E; apply Hn; rewrite E; by left|].
    apply Forall_forall. intros h Hh. specialize (Hd (span_id h) ltac:(by apply list_elem_of_fmap_2)).
    split; intros E; apply Hd; rewrite E; [by left|right; by left]. }
  destruct Hids as [Hne Hne']. unfold child_of in *. split.
  - done.
  - exists root. split; [|done]. by rewrite last_app.
  - intros i s Hi. apply lookup_app_Some in Hi as [Hi|[Hge Hi]].
    + right. exists (length hs), sc. split; [by apply lookup_lt_Some in Hi|]. split; [by rewrite lookup_app_r, Nat.sub_diag by done|].
      rewrite Forall_forall in Hhs. by apply Hhs, list_elem_of_lookup_2 with i.
    + rewrite length_app. destruct (i - length hs)%nat as [|[|k]] eqn:E; simplify_eq/=.
      * right. exists (S (length hs)), root. split; [lia|]. split; [|done]. by rewrite lookup_app_r, Nat.sub_succ_l, Nat.sub_diag by lia.
      * left. split; [done|lia].
  - intros p Hp. rewrite children_app, sum_ms_app.
    assert (forall q, span_id q <> span_id sc -> children q hs = []) as Hq.
    { intros q Hq. apply children_none. eapply Forall_impl; [exact Hhs|]. unfold child_of. intros h -> [= ?]. congruence. }
    apply elem_of_app in Hp as [Hp|Hp].
    + rewrite !Forall_forall in *. destruct (Hne' p Hp) as [? ?]. rewrite Hq by done.
      rewrite children_none; [by apply Hms|]. apply Forall_forall. intros q. unfold child_of.
      rewrite !elem_of_cons, elem_of_nil. intros [->|[->|[]]]; congruence.
    + rewrite !elem_of_cons, elem_of_nil in Hp. destruct Hp as [->|[->|[]]].
      * rewrite (children_all sc hs) by done. rewrite children_none; [cbn; lia|].
        apply Forall_forall. intros q. unfold child_of. rewrite !elem_of_cons, elem_of_nil. intros [->|[->|[]]]; congruence.
      * rewrite (Hq root) by congruence. unfold children. rewrite filter_cons, decide_True by done.
        rewrite filter_cons, decide_False by (unfold child_of; congruence). cbn. lia.
Qed.

Lemma root_tree root : parent_id root = None -> 0 <= span_ms root -> span_tree [root].
Proof.
  intros Hp Hm. split.
  - apply NoDup_singleton.
  - by exists root.
  - intros [|i] s Hi; [|done]. injection Hi as <-. by left.
  - intros p Hp'. apply list_elem_of_singleton in Hp' as ->. rewrite children_none; [done|].
    constructor; [|done]. unfold child_of. by rewrite Hp.
Qed.

(** The first [n] values drawn from the counter differ. *)
Definition counters_distinct (n : nat) : Prop :=
  (forall i, (i < n)%nat -> is_u64 (counter i)) /\
  (forall i j, (i < n)%nat -> (j < n)%nat -> counter i = counter j -> i = j).

(** The identifiers of host calls, script and request *)
Lemma span_ids_distinct n : counters_distinct (2 + n) ->
  NoDup (((fun k => hex_pad 16 (counter (2 + k))) <$> seq 0 n) ++ [hex_pad 16 (counter 1); hex_pad 16 (counter 0)]).
Proof.
  intros [Hu Hinj].
  assert (((fun k => hex_pad 16 (counter (2 + k))) <$> seq 0 n) ++ [hex_pad 16 (counter 1); hex_pad 16 (counter 0)] =
          (fun k => hex_pad 16 (counter k)) <$> (((fun k => 2 + k)%nat <$> seq 0 n) ++ [1; 0]%nat)) as ->
    by (rewrite fmap_app, <- list_fmap_compose; done).
  apply NoDup_fmap_2_strong.
  - assert (forall x, x ∈ ((fun k => 2 + k)%nat <$> seq 0 n) ++ [1; 0]%nat -> (x < 2 + n)%nat) as Hlt.
    { intros x [(k & -> & Hk%elem_of_seq)%list_elem_of_fmap|Hx]%elem_of_app; [lia|].
      rewrite !elem_of_cons, elem_of_nil in Hx. lia. }
    intros x y Hx%Hlt Hy%Hlt E. apply Hinj; [done..|]. apply hex_pad_inj; auto.
  - apply NoDup_app. split; [apply NoDup_fmap_2; [intros x y; lia|apply NoDup_seq]|]. split.
    + intros x (k & -> & _)%list_elem_of_fmap. rewrite !elem_of_cons, elem_of_nil. lia.
    + apply NoDup_cons. split; [rewrite elem_of_cons, elem_of_nil; lia|apply NoDup_singleton].
Qed.

Lemma elapsed_ms_ge now b n : now - sb_start b <= u64_max -> n * 1000000 <= now - sb_start b -> 0 <= n -> n <= elapsed_ms now b.
Proof.
  intros Hu Hn H0'. unfold elapsed_ms, elapsed, sat_sub. rewrite Z.max_r by lia.
  assert (n <= (now - sb_start b) / 1000000) by (apply Z.div_le_lower_bound; lia).
  rewrite wrap_u64_small; [done|]. split; [lia|]. apply Z.div_le_upper_bound; ints.
Qed.

Lemma elapsed_ms_nonneg now b : 0 <= elapsed_ms now b.
Proof. unfold elapsed_ms, wrap_u64. apply Z.mod_pos_bound. ints. Qed.

Lemma traced_script_nonneg clock trace_id parent run : forall n e s out s' l,
  traced_script clock trace_id parent run n e s = (out, s', l) -> Forall (fun h => 0 <= span_ms h) l.
Proof.
  induction run as [r|e0|module opts resume IH]; intros n e s out s' l; cbn [traced_script].
  - destruct r; [destruct e|]; by intros [= <- <- <-].
  - by intros [= <- <- <-].
  - destruct (handler_call _ _ _ _ s) as [r s1].
    match goal with |- (let '(_, _) := ?x in _) = _ -> _ => destruct x as [resp error] end.
    destruct (traced_script _ _ _ (resume _) _ _ _) as [[out1 s2] l1] eqn:E. intros [= <- <- <-].
    constructor; [rewrite handler_span_ms; apply elapsed_ms_nonneg|]. by eapply IH.
Qed.

Lemma handlers_counted hs rest :
  Forall (fun s => Str.starts_with "handler." (span_name s) = true) hs ->
  Forall (fun s => Str.starts_with "handler." (span_name s) = false) rest ->
  length (filter (fun s => Str.starts_with "handler." (span_name s) = true) (hs ++ rest)) = length hs.
Proof.
  intros Hh Hr. rewrite filter_app, length_app.
  assert (filter (fun s => Str.starts_with "handler." (span_name s) = true) rest = []) as ->
    by (induction Hr as [|s l Hs _ IH]; [done|]; by rewrite filter_cons, decide_False by congruence).
  assert (filter (fun s => Str.starts_with "handler." (span_name s) = true) hs = hs) as ->; [|cbn; lia].
  induction Hh as [|s l Hs _ IH]; [done|]. by rewrite filter_cons, decide_True, IH by done.
Qed.

(** What a script's run leaves of spans *)
Lemma traced_script_request_spans c clock trace_id parent req s out s' l :
  traced_script_request c clock trace_id parent req s = (out, s', l) ->
  (out, s') = handle_script_request from_str method_ok header_ok parse_uri execute debug_path config scripts_dir
                read_to_string run_js_script clock trace_id req s /\
  (l = [] /\ (exists e, script_checks from_str config scripts_dir read_to_string req = Err e) \/
   exists hs sc script input r,
     script_checks from_str config scripts_dir read_to_string req = Ok (script, input) /\
     execute_script from_str method_ok header_ok parse_uri execute debug_path config clock trace_id
       (run_js_script script input) 0 None s = (r, s') /\
     (forall rr, r = Ok rr -> calls_executed rr = length hs) /\
     l = hs ++ [sc] /\ host_spans clock (span_id sc) 0 hs /\ Forall (fun h => 0 <= span_ms h) hs /\
     span_id sc = hex_pad 16 (counter 1) /\ parent_id sc = Some parent /\
     Str.starts_with "handler." (span_name sc) = false /\
     (exists b, sb_start b = script_start c /\ span_ms sc = elapsed_ms (script_end c) b)).
Proof.
  unfold traced_script_request, handle_script_request.
  destruct (script_checks _ _ _ _ req) as [[script input]|e] eqn:Ec.
  2: { intros [= <- <- <-]. split; [done|]. left. split; [done|by exists e]. }
  pose proof (traced_script_is_script clock trace_id (hex_pad 16 (counter 1)) (run_js_script script input) 0 None s) as He.
  cbn [sb_id with_parent generate_span_id fst].
  destruct (traced_script _ _ _ _ 0 None s) as [[r s1] hs] eqn:Et. cbn [fst] in He. rewrite <- He.
  pose proof (traced_script_nonneg _ _ _ _ _ _ _ _ _ _ Et) as Hnn.
  apply traced_script_spans in Et as [Hhs Hcount].
  intros E. split; [destruct r; by injection E as <- <- <-|]. right.
  exists hs, (List.last l (finish 0 (span_new 0 "" 0))), script, input, r.
  destruct r as [rr|err]; injection E as <- <- <-; rewrite last_last; split_and!; try done;
    try (intros ? [= <-]; by rewrite (Hcount rr)); by exists (span_new 0 EmptyString (script_start c)).
Qed.

(** The span of a request by its result *)
Lemma outcome_span now b (r : result Resp (list string)) :
  let root := match r with Ok _ => finish now b | Err e => finish_with_error (hd EmptyString e) now b end in
  parent_id root = sb_parent b /\ span_name root = sb_name b /\ span_id root = sb_id b /\
  span_ms root = elapsed_ms now b /\ span_status root = if is_ok r then SpanOk else SpanError.
Proof. by destruct r. Qed.

Lemma clock_from_start (clock : nat -> Instant) n : (forall n, clock n <= clock (S n)) -> clock 0%nat <= clock n.
Proof. intros Hc. induction n as [|n IH]; [lia|]. specialize (Hc n). lia. Qed.

End Traced.

(** ** Witness *)

Section Witness.
#[local] Existing Instance no_loader.
#[local] Existing Instance no_loader_laws.

Definition call_once : JsRun := JsCall "auth" "{}" (fun _ => JsDone (Ok Null)).
Definition script_request : HReq := {|
  method := "POST"; path := "/script/checkout"; query := None; req_headers := []; req_body := Ok "" |}.
Definition spans_of_script :=
  traced_route (M := gmap string CircuitState) (L := unit) (Comp := string)
    (fun _ => Ok (Object [])) (fun _ => true) (fun _ => true) (fun _ => Err "") (fun _ _ => Err []) (fun s => s) empty_config
    (Some []) (fun _ => Ok "") (fun _ _ => call_once) (fun s => s) (fun s => Ok (s, None)) (fun _ => true) Some
    Z.of_nat draws {| received := 0; request_start := 0; script_start := 0; script_end := 5; request_end := 9 |}
    "trace" script_request (rstate (init (Comp := string) ∅ tt)).

End Witness.
