(* ===== verification/JsEngine.v ===== *)
(** JsEngine: how a script is run, of [src/src/runtime/script/context.rs] and
    [runtime.rs]: the text that is evaluated, the wait for the promise of an
    asynchronous script, and the conversion of its value to JSON. The engine
    is the interface [JsApi]; a conversion gets the number of frames that its
    stack holds. The results are the runs that Script.v serves. *)

From stdpp Require Import base gmap list strings sorting.
From S2P Require Import Prelude Store StdPath CircuitBreaker PathSecurity ModulePath SortBy Http Json RtError WebContent ModuleCache Router Script.

#[local] Open Scope Z_scope.

(** ** Runs of the JavaScript thread *)

(** What the thread does until it has an [A]: it makes host calls and goes on
    with the returned text, or panics. *)
Inductive JsM (A : Type) :=
| Ret (a : A)
| Panic (e : string)
| Call (module options_json : string) (resume : string -> JsM A).
Arguments Ret {A} a.
Arguments Panic {A} e.
Arguments Call {A} module options_json resume.

Fixpoint bind {A B} (m : JsM A) (k : A -> JsM B) : JsM B :=
  match m with
  | Ret a => k a
  | Panic e => Panic e
  | Call module options resume => Call module options (fun reply => bind (resume reply) k)
  end.

#[local] Notation "'let*' x := m 'in' k" := (bind m (fun x => k))
  (at level 200, x pattern, m at level 100, k at level 200).

(** A host call with its reply *)
Notation Exchange := (string * string * string)%type.

(** The run makes these calls and comes to [a]. *)
Inductive returns {A} : JsM A -> list Exchange -> A -> Prop :=
| returns_ret a : returns (Ret a) [] a
| returns_call module options resume reply tr a :
    returns (resume reply) tr a ->
    returns (Call module options resume) ((module, options, reply) :: tr) a.

(** ** The engine *)

(** What the code uses of rquickjs: a value of JavaScript, the heap it lives
    in with the jobs that wait there, and floating-point numbers. *)
Class JsApi (V H Fl : Type) := {
  runtime_new : result unit string;
  context_full : result H string;
  function_new : H -> result (V * H) string;
  globals_set : string -> V -> H -> result H string;
  (* [ctx.eval::<(), _>] and [ctx.eval::<JsValue, _>] *)
  eval_unit : string -> H -> JsM (result unit string * H);
  eval : string -> H -> JsM (result V string * H);
  execute_pending_job : H -> JsM (result bool string * H);
  is_null : V -> bool;
  is_undefined : V -> bool;
  as_bool : V -> option bool;
  as_int : V -> option Z;
  as_float : V -> option Fl;
  string_from_js : H -> V -> option string;
  (* [Array::from_js] and [Object::from_js] succeed. *)
  is_array : H -> V -> bool;
  is_object : H -> V -> bool;
  arr_len : H -> V -> nat;
  arr_get : H -> V -> nat -> option V;
  props : H -> V -> list (option (string * V));
  get_bool : H -> V -> string -> option bool;
  get_string : H -> V -> string -> option string;
  get_value : H -> V -> string -> result V string;
  (* [serde_json::Number::from_f64], as its text *)
  from_f64 : Fl -> option string;
}.

(** ** The text that is evaluated ([preprocess_script]) *)

Definition transformed (script : string) : string :=
  Str.replace "export default (" "var __default__ = function("
    (Str.replace "export default async (" "var __default__ = async function("
      (Str.replace "export default function" "var __default__ = function"
        (Str.replace "export default async function" "var __default__ = async function" script))).

Definition preprocess_script (script : string) : string :=
  if Str.contains "export default async" script then
    transformed script +:+ NL +:+
    "var __async_result__ = { resolved: false, value: null, error: null };" +:+ NL +:+
    "__default__(input).then(" +:+ NL +:+
    "function(r) { __async_result__.resolved = true; __async_result__.value = r; }," +:+ NL +:+
    "function(e) { __async_result__.resolved = true; __async_result__.error = e ? e.toString() : 'Unknown error'; }" +:+ NL +:+
    ");" +:+ NL +:+
    "__async_result__;"
  else transformed script +:+ NL +:+ "__default__(input);".

(** [run_js_script]: the wrapper that gives scripts [host.call] *)
Definition host_wrapper : string := "
            var host = {
                call: function(module, options) {
                    options = options || {};
                    var result = __host_call(module, JSON.stringify(options));
                    return JSON.parse(result);
                }
            };
        ".

Definition MAX_ASYNC_ITERATIONS : nat := 10000.
Definition ASYNC_TIMEOUT_SECS : Z := 5.

(** The outcome of a script; [None]: the stack overflows in the conversion,
    which ends the process. *)
Notation Outcome := (option (result Value string)).

Section Engine.
Context {V H Fl : Type} `{E : JsApi V H Fl}.

(** ** Conversion to JSON ([js_to_json]) *)

Inductive Kind :=
| KNull
| KBool (b : bool)
| KInt (i : Z)
| KFloat (f : Fl)
| KString (s : string)
| KArray
| KObject
| KOther.

(** The conditions of [js_to_json], in their order *)
Definition js_kind (h : H) (v : V) : Kind :=
  if (is_null v || is_undefined v)%bool then KNull
  else match as_bool v with
  | Some b => KBool b
  | None =>
  match as_int v with
  | Some i => KInt i
  | None =>
  match as_float v with
  | Some f => KFloat f
  | None =>
  match string_from_js h v with
  | Some s => KString s
  | None => if is_array h v then KArray else if is_object h v then KObject else KOther
  end end end end.

(** The loops over the items of an array and the properties of an object:
    what cannot be read is left out. *)
Fixpoint push_items (convert : V -> Outcome) (items : list (option V)) (json_arr : list Value) : Outcome :=
  match items with
  | [] => Some (Ok (Array json_arr))
  | None :: items => push_items convert items json_arr
  | Some item :: items =>
      match convert item with
      | Some (Ok j) => push_items convert items (json_arr ++ [j])
      | r => r
      end
  end.

Fixpoint insert_props (convert : V -> Outcome) (ps : list (option (string * V))) (json_obj : Map) : Outcome :=
  match ps with
  | [] => Some (Ok (Object json_obj))
  | None :: ps => insert_props convert ps json_obj
  | Some (key, val) :: ps =>
      match convert val with
      | Some (Ok j) => insert_props convert ps (map_insert key j json_obj)
      | r => r
      end
  end.

Definition items (h : H) (v : V) : list (option V) := arr_get h v <$> seq 0 (arr_len h v).

(** [stack]: the frames of [js_to_json] that the stack has room for *)
Fixpoint js_to_json (stack : nat) (h : H) (v : V) : Outcome :=
  match stack with
  | O => None
  | S stack =>
      match js_kind h v with
      | KNull => Some (Ok Null)
      | KBool b => Some (Ok (Bool b))
      | KInt i => Some (Ok (Number (Str.of_Z i)))
      | KFloat f => Some (Ok (match from_f64 f with Some t => Number t | None => Null end))
      | KString s => Some (Ok (Text s))
      | KArray => push_items (js_to_json stack h) (items h v) []
      | KObject => insert_props (js_to_json stack h) (props h v) []
      | KOther => Some (Ok Null)
      end
  end.

(** ** Running a script *)

Variable stack : nat.
(** [clock 0]: the start of the wait; [clock (S i)]: its [i]-th iteration *)
Variable clock : nat -> Instant.

Definition fail (e : string) : JsM Outcome := Ret (Some (Err e)).

Definition deadline : Instant := clock 0 + from_secs ASYNC_TIMEOUT_SECS.

(** The loop of [resolve_async_result]: [n] iterations are left. When there
    is no pending job it sleeps, or not, and goes on. *)
Fixpoint resolve_loop (n i : nat) (result_obj : V) (h : H) : JsM Outcome :=
  match n with
  | O => fail "Async script timeout: Promise did not resolve within iteration limit"
  | S n =>
      if deadline <? clock (S i)
      then fail ("Async script timeout: Promise did not resolve within " +:+ Str.of_Z ASYNC_TIMEOUT_SECS +:+
                 "s wall-clock limit")
      else if default false (get_bool h result_obj "resolved") then
        let error := default EmptyString (get_string h result_obj "error") in
        if negb (Str.is_empty error) then fail ("Async script error: " +:+ error)
        else match get_value h result_obj "value" with
             | Err e => fail ("Failed to get async result value: " +:+ e)
             | Ok value => Ret (js_to_json stack h value)
             end
      else
        let* (r, h) := execute_pending_job h in
        match r with
        | Ok _ => resolve_loop n (S i) result_obj h
        | Err e => fail ("JS job execution error: " +:+ e)
        end
  end.

Definition resolve_async_result : V -> H -> JsM Outcome := resolve_loop MAX_ASYNC_ITERATIONS 0.

Definition is_async_result (h : H) (v : V) : bool :=
  (is_object h v && match get_bool h v "resolved" with Some _ => true | None => false end)%bool.

Definition run_js_script (script : string) (input : Value) : JsM Outcome :=
  match runtime_new with
  | Err e => fail ("Failed to create JS runtime: " +:+ e)
  | Ok _ =>
  match context_full with
  | Err e => fail ("Failed to create JS context: " +:+ e)
  | Ok h =>
  match function_new h with
  | Err e => fail ("Failed to create host_call function: " +:+ e)
  | Ok (host_call_fn, h) =>
  match globals_set "__host_call" host_call_fn h with
  | Err e => fail ("Failed to set __host_call: " +:+ e)
  | Ok h =>
  let* (r, h) := eval_unit host_wrapper h in
  match r with
  | Err e => fail ("Failed to create host wrapper: " +:+ e)
  | Ok _ =>
  let* (r, h) := eval_unit ("var input = " +:+ to_string input +:+ ";") h in
  match r with
  | Err e => fail ("Failed to set input: " +:+ e)
  | Ok _ =>
  let* (r, h) := eval (preprocess_script script) h in
  match r with
  | Err e => fail ("Script error: " +:+ e)
  | Ok result =>
      if is_async_result h result then resolve_async_result result h
      else Ret (js_to_json stack h result)
  end end end end end end end.

(** The run as Script.v has it. A stack overflow is not one of its runs:
    [aborted] takes its place. *)
Fixpoint as_run (aborted : JsRun) (m : JsM Outcome) : JsRun :=
  match m with
  | Ret (Some r) => JsDone r
  | Ret None => aborted
  | Panic e => JsPanic e
  | Call module options resume => JsCall module options (fun reply => as_run aborted (resume reply))
  end.

End Engine.

(** ** What a value stands for *)

Section Conversion.
Context {V H Fl : Type} `{E : JsApi V H Fl}.

Fixpoint depth (j : Value) : nat :=
  match j with
  | Array l => S (list_max (map depth l))
  | Object m => S (list_max (map (fun e => depth e.2) m))
  | _ => 1
  end.

(** The items of the array [v] from the [i]-th on stand for those of a list,
    and properties for the members of an object. *)
Definition items_at (R : Value -> V -> Prop) (h : H) (v : V) :=
  fix go (i : nat) (l : list Value) : Prop :=
    match l with
    | [] => True
    | j :: l => (exists w, arr_get h v i = Some w /\ R j w) /\ go (S i) l
    end.
Definition members_among (R : Value -> V -> Prop) (ps : list (string * V)) :=
  fix go (m : Map) : Prop :=
    match m with
    | [] => True
    | (k, j) :: m => (exists w, (k, w) ∈ ps /\ R j w) /\ go m
    end.

(** The value [v] of the heap [h] is the JSON value [j]: arrays have its
    items in order, objects its members in any order. *)
Fixpoint represents (h : H) (j : Value) (v : V) {struct j} : Prop :=
  match j with
  | Null => js_kind h v = KNull
  | Bool b => js_kind h v = KBool b
  | Number t => (exists i, js_kind h v = KInt i /\ Str.of_Z i = t) \/
                (exists f, js_kind h v = KFloat f /\ from_f64 f = Some t)
  | Text s => js_kind h v = KString s
  | Array l =>
      js_kind h v = KArray /\ arr_len h v = length l /\ items_at (represents h) h v 0 l
  | Object m =>
      js_kind h v = KObject /\
      exists ps, props h v = Some <$> ps /\ ps.*1 ≡ₚ m.*1 /\ members_among (represents h) ps m
  end.

(** The values directly inside of a value *)
Definition children (h : H) (v : V) : list V :=
  match js_kind h v with
  | KArray => omap id (items h v)
  | KObject => omap (fmap snd) (props h v)
  | _ => []
  end.

(** An endless way leads into [v]: through a cycle, on a finite heap. *)
Definition circular (h : H) (v : V) : Prop :=
  exists C : V -> Prop, C v /\ forall u, C u -> exists w, w ∈ children h u /\ C w.

(** The values that can be reached from [v] are among those of [D]. *)
Definition reach_within (h : H) (D : list V) (v : V) : Prop :=
  v ∈ D /\ forall u w, u ∈ D -> w ∈ children h u -> w ∈ D.

(** ** Lemmas on the conversion *)

Lemma push_items_no_err (f : V -> Outcome) l acc e :
  (forall w e, f w <> Some (Err e)) -> push_items f l acc <> Some (Err e).
Proof.
  intros Hf. revert acc. induction l as [|[w|] l IH]; intros acc; simpl; [done| |apply IH].
  destruct (f w) as [[j|e']|] eqn:Ew; [apply IH|by destruct (Hf w e')|done].
Qed.

Lemma insert_props_no_err (f : V -> Outcome) l acc e :
  (forall w e, f w <> Some (Err e)) -> insert_props f l acc <> Some (Err e).
Proof.
  intros Hf. revert acc. induction l as [|[[k w]|] l IH]; intros acc; simpl; [done| |apply IH].
  destruct (f w) as [[j|e']|] eqn:Ew; [apply IH|by destruct (Hf w e')|done].
Qed.

(** No branch of [js_to_json] fails. *)
Lemma js_to_json_no_err n h v e : js_to_json n h v <> Some (Err e).
Proof.
  revert v e. induction n as [|n IH]; intros v e; simpl; [done|].
  destruct (js_kind h v); try done; [by apply push_items_no_err|by apply insert_props_no_err].
Qed.

Lemma push_items_defined (f : V -> Outcome) l acc : (forall w e, f w <> Some (Err e)) ->
  is_Some (push_items f l acc) <-> Forall (fun w => is_Some (f w)) (omap id l).
Proof.
  intros Hf. revert acc. induction l as [|[w|] l IH]; intros acc; simpl.
  - split; [constructor|by eexists].
  - rewrite Forall_cons. destruct (f w) as [[j|e]|] eqn:Ew.
    + rewrite IH. naive_solver.
    + by destruct (Hf w e).
    + split; [intros [? ?]; done|intros [[? ?] _]; done].
  - apply IH.
Qed.

Lemma insert_props_defined (f : V -> Outcome) l acc : (forall w e, f w <> Some (Err e)) ->
  is_Some (insert_props f l acc) <-> Forall (fun w => is_Some (f w)) (omap (fmap snd) l).
Proof.
  intros Hf. revert acc. induction l as [|[[k w]|] l IH]; intros acc; simpl.
  - split; [constructor|by eexists].
  - rewrite Forall_cons. destruct (f w) as [[j|e]|] eqn:Ew.
    + rewrite IH. naive_solver.
    + by destruct (Hf w e).
    + split; [intros [? ?]; done|intros [[? ?] _]; done].
  - apply IH.
Qed.

(** A value can be converted on a stack if what is inside of it can be on a
    stack with one frame less. *)
Lemma js_to_json_defined n h v :
  is_Some (js_to_json (S n) h v) <-> Forall (fun w => is_Some (js_to_json n h w)) (children h v).
Proof.
  unfold children. cbn [js_to_json]. destruct (js_kind h v);
    try (split; [constructor|by eexists]).
  - apply push_items_defined. apply js_to_json_no_err.
  - apply insert_props_defined. apply js_to_json_no_err.
Qed.

Lemma circular_overflows n h v : circular h v -> js_to_json n h v = None.
Proof.
  intros (C & Hv & HC). revert v Hv. induction n as [|n IH]; intros v Hv; [done|].
  destruct (js_to_json (S n) h v) eqn:Ev; [|done].
  assert (is_Some (js_to_json (S n) h v)) as Hs by (rewrite Ev; by eexists).
  apply js_to_json_defined in Hs. destruct (HC v Hv) as (w & Hw & HCw).
  rewrite Forall_forall in Hs. destruct (Hs w Hw) as [? Hj]. by rewrite IH in Hj.
Qed.

Lemma js_to_json_mono n m h v :
  (n <= m)%nat -> is_Some (js_to_json n h v) -> is_Some (js_to_json m h v).
Proof.
  revert m v. induction n as [|n IH]; intros m v Hm; [by intros [? ?]|].
  destruct m as [|m]; [lia|]. rewrite !js_to_json_defined.
  intros Hf. eapply Forall_impl; [exact Hf|]. intros w. apply IH. lia.
Qed.

(** ** A stack as large as the heap is enough *)

Definition converted (n : nat) (h : H) (D : list V) : nat :=
  length (filter (fun u => is_Some (js_to_json n h u)) D).

Lemma converted_grows n h D :
  Exists (fun u => is_Some (js_to_json (S n) h u) /\ ~ is_Some (js_to_json n h u)) D ->
  (converted n h D < converted (S n) h D)%nat.
Proof.
  unfold converted. intros Hx.
  assert (forall D, length (filter (fun u => is_Some (js_to_json n h u)) D) <=
                    length (filter (fun u => is_Some (js_to_json (S n) h u)) D))%nat as Hle.
  { clear. intros D. induction D as [|u D IH]; [done|]. rewrite !filter_cons.
    destruct (decide (is_Some (js_to_json n h u))) as [Hn|Hn].
    - rewrite decide_True by (by apply (js_to_json_mono n); [lia|]). cbn [length]. lia.
    - destruct (decide (is_Some (js_to_json (S n) h u))); cbn [length]; lia. }
  induction Hx as [u D [HS Hn]|u D Hx IH]; rewrite !filter_cons.
  - specialize (Hle D). destruct (decide (is_Some (js_to_json (S n) h u))); [|done].
    destruct (decide (is_Some (js_to_json n h u))); [done|]. cbn [length]. lia.
  - destruct (decide (is_Some (js_to_json n h u))) as [Hn|Hn].
    + rewrite decide_True by (by apply (js_to_json_mono n); [lia|]). cbn [length]. lia.
    + destruct (decide (is_Some (js_to_json (S n) h u))); cbn [length]; lia.
Qed.

(** With some stack of at most as many frames as there are values, one frame
    more converts nothing more. *)
Lemma converted_stable h D :
  exists n, (n <= length D)%nat /\
    Forall (fun u => is_Some (js_to_json (S n) h u) -> is_Some (js_to_json n h u)) D.
Proof.
  assert (forall k, (exists n, (n < k)%nat /\
      Forall (fun u => is_Some (js_to_json (S n) h u) -> is_Some (js_to_json n h u)) D) \/
      (k <= converted k h D)%nat) as Hk.
  { induction k as [|k [(n & Hn & Hs)|IH]]; [right; lia|left; exists n; split; [lia|done]|].
    destruct (decide (Forall (fun u => is_Some (js_to_json (S k) h u) -> is_Some (js_to_json k h u)) D))
      as [Hs|Hs]; [left; exists k; split; [lia|done]|].
    right. apply not_Forall_Exists in Hs; [|intros u; apply _].
    enough (converted k h D < converted (S k) h D)%nat by lia.
    apply converted_grows. eapply Exists_impl; [exact Hs|]. intros u Hu.
    destruct (decide (is_Some (js_to_json (S k) h u))), (decide (is_Some (js_to_json k h u))); naive_solver. }
  destruct (Hk (S (length D))) as [(n & Hn & Hs)|Hc]; [exists n; split; [lia|done]|].
  pose proof (length_filter (fun u => is_Some (js_to_json (S (length D)) h u)) D). unfold converted in Hc. lia.
Qed.

Lemma overflow_circular h D v :
  reach_within h D v -> js_to_json (length D) h v = None -> circular h v.
Proof.
  intros [Hv Hclosed] Hnone. destruct (converted_stable h D) as (n & Hn & Hs).
  rewrite Forall_forall in Hs.
  exists (fun u => u ∈ D /\ ~ is_Some (js_to_json n h u)). split.
  - split; [done|]. intros Hd. apply (js_to_json_mono n (length D)) in Hd; [|done].
    rewrite Hnone in Hd. by destruct Hd.
  - intros u [Hu Hnu].
    assert (~ is_Some (js_to_json (S n) h u)) as HnS by auto.
    rewrite js_to_json_defined in HnS. apply not_Forall_Exists in HnS; [|intros w; apply _].
    apply Exists_exists in HnS as (w & Hw & Hnw). exists w. split; [done|]. split; [|done].
    by apply (Hclosed u).
Qed.

(** ** The conversion gives the value that is represented *)

Definition gives (h : H) (n : nat) (j : Value) : Prop :=
  forall v, represents h j v -> js_to_json n h v = Some (Ok j).

Lemma push_items_at h v n l : Forall (gives h n) l -> forall i acc,
  items_at (represents h) h v i l ->
  push_items (js_to_json n h) (arr_get h v <$> seq i (length l)) acc = Some (Ok (Array (acc ++ l))).
Proof.
  induction 1 as [|j l Hj Hl IH]; intros i acc Hi.
  { simpl. by rewrite app_nil_r. }
  destruct Hi as [(w & Hw & Hr) Hi]. cbn [length seq fmap list_fmap push_items].
  rewrite Hw, (Hj w Hr), IH by done. by rewrite <- app_assoc.
Qed.

Lemma members_among_elem R ps m k j :
  members_among R ps m -> (k, j) ∈ m -> exists w, (k, w) ∈ ps /\ R j w.
Proof.
  induction m as [|[k' j'] m IH]; [by intros _ ?%elem_of_nil|].
  intros [Hx Hm] [[= -> ->]|Hin]%elem_of_cons; [done|by apply IH].
Qed.

Lemma ordered_keys_NoDup (m : Map) : ordered m -> NoDup m.*1.
Proof.
  induction 1 as [|[k j] m Hm IH Hf]; [constructor|]. cbn. constructor; [|done].
  intros (e & -> & He)%list_elem_of_fmap. rewrite Forall_forall in Hf. specialize (Hf _ He).
  unfold key_lt in Hf. cbn in Hf. by rewrite compare_refl in Hf.
Qed.

(** A map is determined by its lookups. *)
Lemma ordered_ext (m1 m2 : Map) :
  ordered m1 -> ordered m2 ->
  (forall k, map_get k m1 = map_get k m2) -> m1 = m2.
Proof.
  intros H1 H2 He. apply (StronglySorted_unique_strong key_lt); [|done|done|].
  { intros a b _ _ Hab Hba. pose proof (transitivity Hab Hba) as Haa. unfold key_lt in Haa.
    by rewrite compare_refl in Haa. }
  apply NoDup_Permutation.
  1, 2: by apply (NoDup_fmap_1 fst), ordered_keys_NoDup.
  intros [k j]. split; intros Hin; apply map_get_elem in Hin; [|done| |done];
    apply map_get_Some_elem; congruence.
Qed.

(** Properties with the keys of an object, in any order, make the object. *)
Lemma insert_props_members h n ps m :
  ordered m -> Forall (fun e => gives h n e.2) m ->
  ps.*1 ≡ₚ m.*1 -> members_among (represents h) ps m ->
  insert_props (js_to_json n h) (Some <$> ps) [] = Some (Ok (Object m)).
Proof.
  intros Hm Hg Hperm Hin.
  assert (NoDup ps.*1) as Hnd by (rewrite Hperm; by apply ordered_keys_NoDup).
  assert (forall qs acc, (forall k w, (k, w) ∈ qs -> (k, w) ∈ ps) ->
    exists js, qs.*1 = js.*1 /\ (forall e, e ∈ js -> e ∈ m) /\
      insert_props (js_to_json n h) (Some <$> qs) acc = Some (Ok (Object (insert_list js acc)))) as Hloop.
  { induction qs as [|[k w] qs IH]; intros acc Hqs; [exists []; naive_solver set_solver|].
    assert ((k, w) ∈ ps) as Hkw by (apply Hqs; left).
    assert (k ∈ m.*1) as [[k' j] [Hk Hkj]]%list_elem_of_fmap
      by (rewrite <- Hperm; by apply (list_elem_of_fmap_2 fst) in Hkw).
    cbn in Hk. subst k'. destruct (members_among_elem _ _ _ _ _ Hin Hkj) as (w' & Hw' & Hr).
    rewrite (NoDup_fst_unique ps k w' w Hnd Hw' Hkw) in Hr.
    destruct (IH (map_insert k j acc)) as (js & Hkeys & Hjs & He); [intros; apply Hqs; by right|].
    exists ((k, j) :: js). split_and!.
    - cbn. by rewrite Hkeys.
    - intros e [->|?]%elem_of_cons; [done|by apply Hjs].
    - rewrite Forall_forall in Hg. cbn [fmap list_fmap insert_props].
      rewrite (Hg _ Hkj w Hr). exact He. }
  destruct (Hloop ps []) as (js & Hkeys & Hjs & ->); [done|]. do 3 f_equal.
  apply ordered_ext; [apply insert_list_ordered; constructor|done|]. intros k.
  destruct (map_get k m) as [j|] eqn:Ek.
  - apply map_get_Some_elem in Ek as Hkj.
    assert (k ∈ js.*1) as [[k' j'] [Hk Hj']]%list_elem_of_fmap.
    { rewrite <- Hkeys, Hperm. by apply (list_elem_of_fmap_2 fst) in Hkj. }
    cbn in Hk. subst k'.
    assert (forall x, (k, x) ∈ js -> x = j) as Hu.
    { intros x Hx. pose proof (map_get_elem k x m Hm (Hjs _ Hx)). congruence. }
    apply insert_list_unique; [|exact Hu]. by rewrite <- (Hu j' Hj').
  - destruct (map_get k (insert_list js [])) as [x|] eqn:Ex; [|done].
    apply insert_list_elem, Hjs, (map_get_elem k x m Hm) in Ex. congruence.
Qed.

Lemma js_to_json_represents h j : wf j = true -> forall n, (depth j <= n)%nat -> gives h n j.
Proof.
  induction j as [|b|t|s|l IH|m IH] using Value_ind; intros Hwf n Hn v Hr;
    (destruct n as [|n]; [simpl in Hn; lia|]); cbn [js_to_json].
  1, 2, 4: cbn in Hr; by rewrite Hr.
  - destruct Hr as [(i & -> & <-)|(f & -> & Hf)]; [done|]. by rewrite Hf.
  - destruct Hr as (-> & Hlen & Hi). unfold items. rewrite Hlen.
    apply (push_items_at h v n l); [|done]. apply wf_Array in Hwf.
    rewrite Forall_forall in IH, Hwf |- *. intros j Hj. apply IH; [done|by apply Hwf|].
    cbn in Hn. pose proof (proj1 (list_max_le (map depth l) n) ltac:(lia)) as Hle.
    rewrite List.Forall_forall in Hle. apply Hle, in_map. by apply list_elem_of_In.
  - destruct Hr as (-> & ps & -> & Hperm & Hin). apply wf_Object in Hwf as [Hm Hwf].
    apply insert_props_members; [done| |done|done].
    rewrite Forall_forall in IH, Hwf |- *. intros e He. apply IH; [done|by apply Hwf|].
    cbn in Hn. pose proof (proj1 (list_max_le (map (fun e => depth e.2) m) n) ltac:(lia)) as Hle.
    rewrite List.Forall_forall in Hle. apply Hle, (in_map (fun e => depth e.2)). by apply list_elem_of_In.
Qed.

End Conversion.

(** ** Runs *)

Lemma returns_bind {A B} (m : JsM A) (k : A -> JsM B) tr a tr' b :
  returns m tr a -> returns (k a) tr' b -> returns (bind m k) (tr ++ tr') b.
Proof. induction 1; intros Hk; [done|]. cbn. constructor. auto. Qed.

Section Runs.
Context {V H Fl : Type} `{E : JsApi V H Fl}.
Variable stack : nat.
Variable clock : nat -> Instant.

(** The script has been evaluated, with these host calls, to a value of a
    heap. *)
Inductive evaluates (script : string) (input : Value) : list Exchange -> V -> H -> Prop :=
| evaluates_intro u h0 f h1 h2 tr1 u1 h3 tr2 u2 h4 tr3 v h :
    runtime_new = Ok u -> context_full = Ok h0 -> function_new h0 = Ok (f, h1) ->
    globals_set "__host_call" f h1 = Ok h2 ->
    returns (eval_unit host_wrapper h2) tr1 (Ok u1, h3) ->
    returns (eval_unit ("var input = " +:+ to_string input +:+ ";") h3) tr2 (Ok u2, h4) ->
    returns (eval (preprocess_script script) h4) tr3 (Ok v, h) ->
    evaluates script input (tr1 ++ tr2 ++ tr3) v h.

Definition resolved (h : H) (obj : V) : bool := default false (get_bool h obj "resolved").

(** [n] pending jobs run one after the other, the promise open before each;
    when there is none the heap stays. *)
Inductive waits (obj : V) : nat -> H -> list Exchange -> H -> Prop :=
| waits_done h : waits obj 0 h [] h
| waits_job n h tr b h1 tr' h2 :
    resolved h obj = false -> returns (execute_pending_job h) tr (Ok b, h1) ->
    waits obj n h1 tr' h2 -> waits obj (S n) h (tr ++ tr') h2.

Definition in_time (i n : nat) : Prop := forall k, (i <= k < n)%nat -> clock (S k) <= deadline clock.

Definition TIMED_OUT : string := "Async script timeout: Promise did not resolve within iteration limit".
Definition TOO_LATE : string := "Async script timeout: Promise did not resolve within 5s wall-clock limit".

(** The way the wait ends after [k] jobs, other than with a settled promise *)
Inductive gives_up (obj : V) (i n k : nat) (h : H) : list Exchange -> string -> Prop :=
| too_many : k = n -> in_time i (i + n) -> gives_up obj i n k h [] TIMED_OUT
| too_late : (k < n)%nat -> in_time i (i + k) -> deadline clock < clock (S (i + k)) ->
    gives_up obj i n k h [] TOO_LATE
| job_fails tr e h' : (k < n)%nat -> in_time i (i + S k) -> resolved h obj = false ->
    returns (execute_pending_job h) tr (Err e, h') ->
    gives_up obj i n k h tr ("JS job execution error: " +:+ e).

(** What a settled promise comes to *)
Definition settled_outcome (obj : V) (h : H) : Outcome :=
  let error := default EmptyString (get_string h obj "error") in
  if Str.is_empty error then
    match get_value h obj "value" with
    | Err e => Some (Err ("Failed to get async result value: " +:+ e))
    | Ok w => js_to_json stack h w
    end
  else Some (Err ("Async script error: " +:+ error)).

Lemma in_time_now i n : in_time i n -> (i < n)%nat -> (deadline clock <? clock (S i)) = false.
Proof. intros Ht Hi. apply Z.ltb_ge. apply Ht. lia. Qed.

Lemma resolve_loop_settled obj k h tr h' :
  waits obj k h tr h' -> forall n i, (k < n)%nat -> in_time i (i + S k) -> resolved h' obj = true ->
  returns (resolve_loop stack clock n i obj h) tr (settled_outcome obj h').
Proof.
  induction 1 as [h|k h tr b h1 tr' h2 Ho Hj Hw IH]; intros n i Hk Ht Hres; (destruct n as [|n]; [lia|]);
    cbn [resolve_loop]; rewrite (in_time_now i _ Ht) by lia; unfold resolved in *.
  - rewrite Hres. unfold settled_outcome. cbv zeta. destruct (Str.is_empty _); simpl; [|constructor].
    destruct (get_value h obj "value"); constructor.
  - rewrite Ho. eapply returns_bind; [exact Hj|]. cbn. apply IH; [lia| |done]. intros x Hx. apply Ht. lia.
Qed.

Lemma resolve_loop_gives_up obj k h tr h' :
  waits obj k h tr h' -> forall n i tr' e, gives_up obj i n k h' tr' e ->
  returns (resolve_loop stack clock n i obj h) (tr ++ tr') (Some (Err e)).
Proof.
  induction 1 as [h|k h tr b h1 tr' h2 Ho Hj Hw IH]; intros n i tr2 e Hg.
  - destruct Hg as [<- _|Hk _ Hl|tr e h' Hk Ht Ho Hj]; [constructor|..]; (destruct n as [|n]; [lia|]); cbn [resolve_loop].
    + rewrite Nat.add_0_r in Hl. rewrite (proj2 (Z.ltb_lt _ _) Hl). constructor.
    + rewrite (in_time_now i _ Ht) by lia. unfold resolved in Ho. rewrite Ho. cbn [app].
      rewrite <- (app_nil_r tr). eapply returns_bind; [exact Hj|]. constructor.
  - assert (exists m, n = S m /\ in_time i (S i) /\ gives_up obj (S i) m k h2 tr2 e) as (m & -> & Ht & Hg').
    { destruct n as [|n]; [destruct Hg; lia|]. exists n. split; [done|].
      destruct Hg as [Hk Ht|Hk Ht Hl|tr0 e h' Hk Ht Hr Hx]; (split; [intros x Hx'; apply Ht; lia|]).
      - apply too_many; [lia|]. intros x Hx. apply Ht. lia.
      - apply too_late; [lia|intros x Hx; apply Ht; lia|]. by replace (S i + k)%nat with (i + S k)%nat by lia.
      - eapply job_fails; [lia|intros x Hx'; apply Ht; lia|done|exact Hx]. }
    cbn [resolve_loop]. rewrite (in_time_now i _ Ht) by lia. unfold resolved in Ho. rewrite Ho, <- app_assoc.
    eapply returns_bind; [exact Hj|]. cbn. by apply IH.
Qed.

Lemma run_evaluates script input tr v h tr' r :
  evaluates script input tr v h ->
  returns (if is_async_result h v then resolve_async_result stack clock v h
           else Ret (js_to_json stack h v)) tr' r ->
  returns (run_js_script stack clock script input) (tr ++ tr') r.
Proof.
  intros [u h0 f h1 h2 tr1 u1 h3 tr2 u2 h4 tr3 w h' H1 H2 H3 H4 He1 He2 He3] Hr.
  unfold run_js_script. rewrite H1, H2, H3, H4, <- !app_assoc.
  eapply returns_bind; [exact He1|]. cbv beta iota. eapply returns_bind; [exact He2|]. cbv beta iota.
  eapply returns_bind; [exact He3|]. exact Hr.
Qed.

End Runs.

(** ** The text of a script *)

Lemma contains_cons_false needle c s :
  Str.contains needle (String c s) = false <->
  Str.starts_with needle (String c s) = false /\ Str.contains needle s = false.
Proof. cbn [Str.contains]. apply orb_false_iff. Qed.

Lemma replace_absent pat by_ s : Str.contains pat s = false -> Str.replace pat by_ s = s.
Proof.
  unfold Str.replace. induction s as [|c s IH]; [done|].
  intros [Hs Hc]%contains_cons_false. cbn [Str.replace_from]. by rewrite Hs, IH.
Qed.

Lemma contains_longer a p s :
  Str.starts_with a p = true -> Str.contains a s = false -> Str.contains p s = false.
Proof.
  intros [b ->]%Str.starts_with_iff. rewrite <- !not_true_iff_false, !Str.contains_iff.
  intros Hn (x & y & ->). apply Hn. exists x, (b +:+ y). by rewrite <- !Str.app_assoc.
Qed.

Notation KEYWORD := "export default".

(** Decides [starts_with] and [contains] where the text is given. *)
Ltac keyword_free :=
  cbn [String.append]; repeat (apply contains_cons_false; split; [reflexivity|]);
  apply (contains_longer KEYWORD); [reflexivity|assumption].

Lemma replace_first pat by_ tail :
  pat <> EmptyString -> Str.contains pat tail = false -> Str.replace pat by_ (pat +:+ tail) = by_ +:+ tail.
Proof.
  intros Hp Hc. unfold Str.replace. rewrite Str.replace_hit by done. f_equal.
  by apply replace_absent.
Qed.

Ltac replace_step :=
  match goal with
  | |- context [Str.replace ?p ?b (?w +:+ ?t)] =>
      first
        [ rewrite (replace_first p b t) by first [discriminate | keyword_free]
        | rewrite (replace_absent p b (w +:+ t)) by keyword_free ]
  end.

(** The four kinds of export that are known, in a script with one export. The
    last two keep the arrow of an arrow function, after [function(]. *)
Lemma transformed_exports body :
  Str.contains KEYWORD body = false ->
  transformed ("export default function" +:+ body) = "var __default__ = function" +:+ body /\
  transformed ("export default async function" +:+ body) = "var __default__ = async function" +:+ body /\
  transformed ("export default (" +:+ body) = "var __default__ = function(" +:+ body /\
  transformed ("export default async (" +:+ body) = "var __default__ = async function(" +:+ body.
Proof.
  intros Hb. unfold transformed. split_and!; repeat replace_step; reflexivity.
Qed.

(** Without [async] in the script, the text is the script and a call. *)
Lemma preprocess_function body :
  Str.contains KEYWORD body = false ->
  preprocess_script ("export default function" +:+ body) =
  "var __default__ = function" +:+ body +:+ NL +:+ "__default__(input);".
Proof.
  intros Hb. unfold preprocess_script.
  assert (Str.contains "export default async" ("export default function" +:+ body) = false) as -> by keyword_free.
  rewrite (proj1 (transformed_exports body Hb)). by rewrite <- !Str.app_assoc.
Qed.

(** ** Runs as Script.v serves them *)

Section Served.
Context {M L Comp : Type} `{StoreLaws M CircuitState} `{ModuleLoaderLaws L Comp}.
Context {V Hp Fl : Type} `{E : JsApi V Hp Fl}.
Variable from_str : string -> result Value string.
Variable method_ok : string -> bool.
Variable header_ok : string * string -> bool.
Variable parse_uri : string -> result (string * option string) string.
Variable execute : Comp -> ExecReq -> result Resp (list string).
Variable debug_path : string -> string.
Variable config : RConfig (Comp := Comp).
Variable clock : nat -> Instant.
Variable trace_id : string.

Notation State := (RState (M := M) (L := L)).
Notation handler_call := (execute_handler_call from_str method_ok header_ok parse_uri execute debug_path config).

(** The replies of a run are those of its calls, from the [n]-th on. *)
Inductive served : nat -> State -> list Exchange -> State -> Prop :=
| served_nil n s : served n s [] s
| served_cons n s module options resp s1 tr s2 :
    handler_call (clock (2 * n)%nat) (clock (2 * n + 1)%nat) trace_id
      (native_host_call from_str module options) s = (Ok resp, s1) ->
    served (S n) s1 tr s2 ->
    served n s ((module, options, to_string (host_call_result_json resp)) :: tr) s2.

Lemma served_inv n s module options reply tr s2 : served n s ((module, options, reply) :: tr) s2 ->
  exists resp s1,
    handler_call (clock (2 * n)%nat) (clock (2 * n + 1)%nat) trace_id
      (native_host_call from_str module options) s = (Ok resp, s1) /\
    reply = to_string (host_call_result_json resp) /\ served (S n) s1 tr s2.
Proof. inversion 1; subst. eauto. Qed.

(** The script endpoint gives the outcome of the thread, and counts its
    calls. *)
Lemma served_run aborted (m : JsM Outcome) tr r :
  returns m tr (Some r) -> forall n s s', served n s tr s' ->
  execute_script from_str method_ok header_ok parse_uri execute debug_path config clock trace_id
    (as_run aborted m) n None s =
  (match r with
   | Ok j => Ok {| sr_result := j; calls_executed := n + length tr |}
   | Err e => Err ("Script error: " +:+ e)
   end, s').
Proof.
  intros Hr. remember (Some r) as o eqn:Ho. revert Ho.
  induction Hr as [o|module options resume reply tr o Hr IH]; intros -> n s s' Hs.
  - inversion Hs; subst. cbn. rewrite Nat.add_0_r. by destruct r.
  - apply served_inv in Hs as (resp & s1 & Hc & -> & Hs'). cbn [as_run execute_script].
    rewrite Hc. rewrite (IH eq_refl _ _ _ Hs'). cbn [length]. by rewrite Nat.add_succ_r.
Qed.

End Served.

(** ** What a script comes to *)

Section Results.
Context {V H Fl : Type} `{E : JsApi V H Fl}.

(** C12. The outcome of a script, for any engine. A script that evaluates to a
    value standing for a JSON value has that value as its result, whatever
    the order of its properties, if the stack has a frame for each level. The
    conversion ends for every other value of a finite heap that is not
    circular, on a stack with a frame for each of its values; a circular
    value overflows every stack. For an asynchronous script, at most 10000
    jobs are run: if its promise has settled by then and in five seconds, the
    result is the settled value or its error; if the jobs or the time run out
    first, or a job fails, it is an error. *)
Theorem script_results (stack : nat) (clock : nat -> Instant) script input tr v h
    (Hev : evaluates script input tr v h) :
  let run := run_js_script stack clock script input in
  (is_async_result h v = false ->
   (forall j, wf j = true -> represents h j v -> (depth j <= stack)%nat -> returns run tr (Some (Ok j))) /\
   (forall D, reach_within h D v -> (length D <= stack)%nat ->
      circular h v \/ exists j, returns run tr (Some (Ok j))) /\
   (circular h v -> returns run tr None)) /\
  (is_async_result h v = true -> forall k tr' h', waits v k h tr' h' ->
   (resolved h' v = true -> (k < MAX_ASYNC_ITERATIONS)%nat -> in_time clock 0 (S k) ->
    (forall w j, default EmptyString (get_string h' v "error") = EmptyString ->
       get_value h' v "value" = Ok w -> wf j = true -> represents h' j w -> (depth j <= stack)%nat ->
       returns run (tr ++ tr') (Some (Ok j))) /\
    (forall e, get_string h' v "error" = Some e -> e <> EmptyString ->
       returns run (tr ++ tr') (Some (Err ("Async script error: " +:+ e))))) /\
   (forall tr2 e, gives_up clock v 0 MAX_ASYNC_ITERATIONS k h' tr2 e ->
      returns run (tr ++ tr' ++ tr2) (Some (Err e)))).
Proof.
  cbv zeta. split.
  - intros Hs.
    assert (forall o, js_to_json stack h v = o -> returns (run_js_script stack clock script input) tr o) as Hret.
    { intros o Ho. rewrite <- (app_nil_r tr). apply (run_evaluates _ _ _ _ _ _ _ _ _ Hev).
      rewrite Hs, Ho. constructor. }
    split_and!.
    + intros j Hw Hr Hd. by apply Hret, js_to_json_represents.
    + intros D HD Hlen. destruct (js_to_json (length D) h v) as [o|] eqn:Eo.
      * right. destruct (js_to_json_mono (length D) stack h v Hlen) as [[j|e] Ej]; [by eexists| |].
        -- exists j. by apply Hret.
        -- by apply js_to_json_no_err in Ej.
      * left. by apply (overflow_circular h D).
    + intros Hc. by apply Hret, circular_overflows.
  - intros Ha k tr' h' Hw.
    assert (forall t o, returns (resolve_async_result stack clock v h) t o ->
      returns (run_js_script stack clock script input) (tr ++ t) o) as Hret.
    { intros t o Ho. apply (run_evaluates _ _ _ _ _ _ _ _ _ Hev). by rewrite Ha. }
    split.
    + intros Hres Hk Ht.
      pose proof (resolve_loop_settled stack clock v k h tr' h' Hw MAX_ASYNC_ITERATIONS 0 Hk Ht Hres) as Hsettled.
      unfold settled_outcome in Hsettled. split.
      * intros w j He Hv Hwf Hr Hd. apply Hret. rewrite He, Hv in Hsettled. cbv beta zeta iota in Hsettled.
        by rewrite (js_to_json_represents h' j Hwf stack Hd w Hr) in Hsettled.
      * intros e He Hne. apply Hret. rewrite He in Hsettled. by destruct e.
    + intros tr2 e Hg. apply Hret. exact (resolve_loop_gives_up stack clock v k h tr' h' Hw _ 0 tr2 e Hg).
Qed.

End Results.

(** ** A small engine *)

Module ToyEngine.

Inductive TV := TNull | TBool (b : bool) | TText (s : string) | TObj (n : nat).
(** The objects of a heap, and the jobs that wait *)
Record Heap := { objs : list (list (string * TV)); pending : nat }.

Definition obj (h : Heap) (v : TV) : option (list (string * TV)) :=
  match v with TObj n => objs h !! n | _ => None end.
Definition field (h : Heap) (v : TV) (k : string) : option TV := obj h v ≫= map_get k.

(** Three scripts: one that gives an object with the reply of a host call, a
    circular one, and an asynchronous one that waits for a host call. *)
#[local] Instance toy : JsApi TV Heap unit := {
  runtime_new := Ok tt;
  context_full := Ok {| objs := []; pending := 0 |};
  function_new h := Ok (TNull, h);
  globals_set _ _ h := Ok h;
  eval_unit _ h := Ret (Ok tt, h);
  eval script h :=
    if Str.contains "async" script then
      Ret (Ok (TObj 0), {| objs := [[("resolved", TBool false)]]; pending := 1 |})
    else if Str.contains "self" script then
      Ret (Ok (TObj 0), {| objs := [[("self", TObj 0)]]; pending := 0 |})
    else Call "users" "{}" (fun reply =>
      Ret (Ok (TObj 1), {| objs := [[("found", TBool true)]; [("user", TText reply); ("state", TObj 0)]];
                           pending := 0 |}));
  execute_pending_job h :=
    match pending h with
    | O => Ret (Ok false, h)
    | S n => Call "users" "{}" (fun reply =>
        Ret (Ok true, {| objs := [[("resolved", TBool true); ("value", TText reply)]]; pending := n |}))
    end;
  is_null v := match v with TNull => true | _ => false end;
  is_undefined _ := false;
  as_bool v := match v with TBool b => Some b | _ => None end;
  as_int _ := None;
  as_float _ := None;
  string_from_js _ v := match v with TText s => Some s | _ => None end;
  is_array _ _ := false;
  is_object h v := match v with TObj _ => true | _ => false end;
  arr_len _ _ := O;
  arr_get _ _ _ := None;
  props h v := match obj h v with Some m => Some <$> m | None => [] end;
  get_bool h v k := match field h v k with Some (TBool b) => Some b | _ => None end;
  get_string h v k := match field h v k with Some (TText s) => Some s | _ => None end;
  get_value h v k := Ok (default TNull (field h v k));
  from_f64 _ := None;
}.

Definition FIND : string := "export default function(input) { return {user: host.call('users'), state: {found: true}}; }".
Definition CYCLE : string := "export default function(input) { var x = {}; x.self = x; return x; }".
Definition LATER : string := "export default async function(input) { return await later(host.call('users')); }".

Definition find_heap : Heap :=
  {| objs := [[("found", TBool true)]; [("user", TText "ann"); ("state", TObj 0)]]; pending := 0 |}.
Definition cycle_heap : Heap := {| objs := [[("self", TObj 0)]]; pending := 0 |}.
Definition open_heap : Heap := {| objs := [[("resolved", TBool false)]]; pending := 1 |}.
Definition done_heap : Heap := {| objs := [[("resolved", TBool true); ("value", TText "ann")]]; pending := 0 |}.

Lemma find_evaluates : evaluates FIND Null [("users", "{}", "ann")] (TObj 1) find_heap.
Proof.
  apply (evaluates_intro FIND Null tt {| objs := []; pending := 0 |} TNull
    {| objs := []; pending := 0 |} {| objs := []; pending := 0 |} [] tt {| objs := []; pending := 0 |} [] tt
    {| objs := []; pending := 0 |} [("users", "{}", "ann")] (TObj 1) find_heap);
    try reflexivity; repeat constructor.
Qed.

Lemma cycle_evaluates : evaluates CYCLE Null [] (TObj 0) cycle_heap.
Proof.
  apply (evaluates_intro CYCLE Null tt {| objs := []; pending := 0 |} TNull
    {| objs := []; pending := 0 |} {| objs := []; pending := 0 |} [] tt {| objs := []; pending := 0 |} [] tt
    {| objs := []; pending := 0 |} [] (TObj 0) cycle_heap); try reflexivity; repeat constructor.
Qed.

Lemma later_evaluates : evaluates LATER Null [] (TObj 0) open_heap.
Proof.
  apply (evaluates_intro LATER Null tt {| objs := []; pending := 0 |} TNull
    {| objs := []; pending := 0 |} {| objs := []; pending := 0 |} [] tt {| objs := []; pending := 0 |} [] tt
    {| objs := []; pending := 0 |} [] (TObj 0) open_heap); try reflexivity; repeat constructor.
Qed.

Lemma later_waits : waits (TObj 0) 1 open_heap [("users", "{}", "ann")] done_heap.
Proof.
  apply (waits_job (TObj 0) 0 open_heap [("users", "{}", "ann")] true done_heap [] done_heap);
    [reflexivity|repeat constructor|constructor].
Qed.

Lemma cycle_circular : circular cycle_heap (TObj 0).
Proof. exists (fun u => u = TObj 0). split; [done|]. intros u ->. exists (TObj 0). split; [by left|done]. Qed.

Lemma script_results_witness :
  returns (run_js_script 10 (fun _ => 0) FIND Null) [("users", "{}", "ann")]
    (Some (Ok (Object [("state", Object [("found", Bool true)]); ("user", Text "ann")]))) /\
  returns (run_js_script 1000 (fun _ => 0) CYCLE Null) [] None /\
  returns (run_js_script 10 (fun _ => 0) LATER Null) [("users", "{}", "ann")] (Some (Ok (Text "ann"))).
Proof.
  split; [|split].
  - apply (script_results 10 (fun _ => 0) FIND Null _ (TObj 1) find_heap find_evaluates); [reflexivity|reflexivity| |simpl; lia].
    split; [reflexivity|]. exists [("user", TText "ann"); ("state", TObj 0)].
    split; [reflexivity|]. split; [apply Permutation_swap|].
    split; [|split; [exists (TText "ann"); split; [by left|reflexivity]|done]].
    exists (TObj 0). split; [right; by left|]. split; [reflexivity|].
    exists [("found", TBool true)]. split; [reflexivity|]. split; [reflexivity|].
    split; [|done]. exists (TBool true). split; [by left|reflexivity].
  - apply (script_results 1000 (fun _ => 0) CYCLE Null _ (TObj 0) cycle_heap cycle_evaluates); [reflexivity|].
    exact cycle_circular.
  - destruct (script_results 10 (fun _ => 0) LATER Null _ (TObj 0) open_heap later_evaluates) as [_ Hasync].
    apply (Hasync eq_refl 1%nat _ done_heap later_waits) with (w := TText "ann"); try reflexivity; try (simpl; lia).
    + by apply Nat.ltb_lt.
    + intros k _. unfold deadline. vm_compute. discriminate.
Defined.

End ToyEngine.

(** An exported arrow function keeps its arrow after [function(input)], which
    is not JavaScript. *)
Example arrow_function :
  preprocess_script "export default (input) => input.name" =
  "var __default__ = function(input) => input.name" +:+ NL +:+ "__default__(input);".
Proof. reflexivity. Qed.
