(* ===== verification/Embed.v ===== *)
(** Embed: the programmatic interface [Runtime::handle_request] of
    [src/src/runtime/mod.rs], which has a routine of its own for requests, and
    its agreement with the server's. *)

From stdpp Require Import base gmap list strings.
From S2P Require Import Prelude Store StdPath CircuitBreaker PathSecurity ModulePath SortBy Http Json TraceContext RtError WebContent ModuleCache Router Serve.

#[local] Open Scope Z_scope.

Section Embed.
Context {M L Comp : Type} `{StoreLaws M CircuitState} `{ModuleLoaderLaws L Comp}.
Variable execute : Comp -> ExecReq -> result Resp (list string).
Variable debug_path : string -> string.
Variable config : RConfig (Comp := Comp).
Variable conf : ObsConfig.
Variable percent_decode : string -> string.
Variable parse_path_and_query : string -> result (string * option string) string.
Variable header_value_ok : string -> bool.
Variable gzip : string -> option string.
Variable cache_view : L -> CacheView.

Notation State := (RState (M := M) (L := L)).

(** ** Operations *)

(** Accessors of [Runtime]; health and metrics are those of Serve.v, the
    shutdown is in Cluster.v. *)
Definition is_single_component : bool :=
  match single_component config with Some _ => true | None => false end.
Definition has_static_files : bool :=
  match static_files config with Some _ => true | None => false end.

(** The part of [handle_request_internal] that resolves the module. *)
Definition embedded_resolve (now : Instant) (run_path : string) (s : State)
  : Resolution (Comp := Comp) * State :=
  let '(module, handler_path) := parse_module_route percent_decode run_path in
  if Str.is_empty module then (Respond (not_found "No module specified. Use /run/<module>/"), s)
  else match single_component config, single_component_name config with
       | Some comp, Some expected_name =>
           if String.eqb module expected_name
           then (Success comp handler_path (Some module) None, s)
           else (Respond (error_response debug_path (ModuleNotFound module)), s)
       | _, _ => resolve_multi_module debug_path config now module handler_path s
       end.

(** The body is in memory and goes to the component as it is. *)
Definition embedded_execute (now : Instant) (req : HReq) (body : string) (comp : Comp)
    (handler_path : string) (module permit : option string) (s : State)
  : result Resp (list string) * State :=
  match rewrite_request_path parse_path_and_query req handler_path body with
  | Err e => (Err e, release config permit s)
  | Ok xreq =>
      let result := execute comp xreq in
      let s := record_outcome config now module (is_ok result) s in
      (match result with
       | Ok r => Ok (maybe_compress_response gzip r (accepts_gzip (req_headers req)))
       | Err e => Err e
       end, release config permit s)
  end.

(** [handle_request_internal] after the built-in endpoints *)
Definition embedded_route (now1 now2 : Instant) (req : HReq) (body : string) (s : State)
  : result Resp (list string) * State :=
  match validate_path_length (path req) with
  | Some r => (Ok r, s)
  | None =>
  match validate_content_length (req_headers req) (max_body_size_bytes config) with
  | Some r => (Ok r, s)
  | None =>
  if Str.starts_with STATIC_PREFIX (path req) then
    match static_files config with
    | Some serve => (Ok (maybe_compress_response gzip (serve (path req)) (accepts_gzip (req_headers req))), s)
    | None => (Ok (not_found "Static file serving not enabled"), s)
    end
  else match Str.strip_prefix RUN_PREFIX (path req) with
  | None => (Ok (not_found "Not found. WASM modules are served at /run/<module>/"), s)
  | Some run_path =>
      match embedded_resolve now1 run_path s with
      | (Respond r, s) => (Ok r, s)
      | (Success comp handler_path module permit, s) =>
          embedded_execute now2 req body comp handler_path module permit s
      end
  end end end.

(** [Runtime::handle_request_internal]: unlike the server's answers, only those
    of the built-in endpoints carry the identifiers of the request. *)
Definition handle_request_internal (d : Draws) (req : HReq) (body : string) (s : Shared)
  : result Resp (list string) * Shared (M := M) (L := L) :=
  let traceparent := to_traceparent (trace_context_of d req) in
  let s := {| runtime := runtime s; request_counter := wrap_u64 (request_counter s + 1) |} in
  if String.eqb (path req) HEALTH_PATH then
    let health := get_health_status conf (cache_view (loader (runtime s))) (rfc3339 d)
                    (request_counter s) (memory_usage d) Summary in
    (Ok (maybe_compress_response gzip
       (resp 200 (traced_headers d traceparent "application/json") (to_string_pretty (health_json health)))
       (accepts_gzip (req_headers req))), s)
  else if String.eqb (path req) METRICS_PATH then
    (Ok (handle_metrics_endpoint conf gzip cache_view d req traceparent s), s)
  else
    let '(r, rt) := embedded_route (started d) (finished d) req body (runtime s) in
    (r, {| runtime := rt; request_counter := request_counter s |}).

(** ** Agreement with the server *)

Lemma compress_added_header n v (r : Resp) accepts :
  n <> "content-type" -> n <> "content-length" -> n <> "content-encoding" ->
  let a := maybe_compress_response gzip (add_header n v r) accepts in
  let b := maybe_compress_response gzip r accepts in
  rs_status a = rs_status b /\ rs_body a = rs_body b /\
  forall m, m <> n -> header_get m (rs_headers a) = header_get m (rs_headers b).
Proof.
  intros N1 N2 N3. cbv zeta. unfold maybe_compress_response, maybe_compress_body, add_header.
  assert (forall m, m <> n -> header_get m (header_insert n v (rs_headers r)) = header_get m (rs_headers r)) as Hget.
  { intros m Hm. rewrite header_get_insert. by apply String.eqb_neq in Hm as ->. }
  destruct accepts; cbn [negb rs_headers rs_body rs_status]; [|done].
  rewrite (Hget "content-type") by congruence.
  destruct (_ <? _); [done|]. destruct (is_compressible_content_type _); cbn [negb]; [|done].
  destruct (gzip (rs_body r)) as [c|]; [|done]. destruct (_ <=? _); [done|].
  cbn [rs_headers rs_body rs_status resp]. split_and!; [done|done|]. intros m Hm.
  rewrite !header_get_app.
  fold (header_remove (A := string) "content-length" (header_insert n v (rs_headers r))).
  fold (header_remove (A := string) "content-length" (rs_headers r)).
  rewrite !header_get_remove. destruct (String.eqb m "content-length"); [done|]. by rewrite Hget.
Qed.

(** The same answer up to the two headers the server adds. *)
Definition same_answer (a b : Resp) : Prop :=
  rs_status a = rs_status b /\ rs_body a = rs_body b /\
  forall m, m <> "x-mik-duration-ms" -> m <> "x-mik-handler" ->
    header_get m (rs_headers a) = header_get m (rs_headers b).

Definition same_result (a b : result Resp (list string)) : Prop :=
  match a, b with
  | Ok x, Ok y => same_answer x y
  | Err x, Err y => x = y
  | _, _ => False
  end.

Lemma same_answer_refl r : same_answer r r.
Proof. by split_and!. Qed.

Lemma server_headers_compress (r : Resp) ms (module : option string) accepts :
  same_answer
    (maybe_compress_response gzip
       (let r := add_header "x-mik-duration-ms" ms r in
        match module with
        | Some name => if header_value_ok name then add_header "x-mik-handler" name r else r
        | None => r
        end) accepts)
    (maybe_compress_response gzip r accepts).
Proof.
  pose proof (compress_added_header "x-mik-duration-ms" ms r accepts ltac:(done) ltac:(done) ltac:(done)) as (A1 & A2 & A3).
  cbv zeta. destruct module as [name|]; [destruct (header_value_ok name)|].
  - pose proof (compress_added_header "x-mik-handler" name (add_header "x-mik-duration-ms" ms r) accepts
      ltac:(done) ltac:(done) ltac:(done)) as (B1 & B2 & B3).
    split_and!; [congruence|congruence|]. intros m N1 N2. by rewrite B3, A3.
  - split_and!; [done|done|]. intros m N1 _. by apply A3.
  - split_and!; [done|done|]. intros m N1 _. by apply A3.
Qed.

Lemma run_path_prefixes p r : Str.strip_prefix RUN_PREFIX p = Some r ->
  Str.starts_with STATIC_PREFIX p = false /\ Str.starts_with Router.MIK_API_PREFIX p = false /\
  Str.strip_prefix OPENAPI_PREFIX p = None /\ Str.starts_with SCRIPT_PREFIX p = false /\
  Str.starts_with TENANT_PREFIX p = false.
Proof. intros ->%Str.strip_prefix_Some. done. Qed.

Lemma embedded_resolve_eq now p r (s : State) : Str.strip_prefix RUN_PREFIX p = Some r ->
  resolve_module percent_decode debug_path config now p s = embedded_resolve now r s.
Proof. intros E. unfold resolve_module, embedded_resolve. by rewrite E. Qed.

(** The embedding interface serves platform modules as the server does:
    for a path below [/run/] and a body within the limit, it leaves circuits,
    permits and caches in the same state, and gives the same status, body and
    headers, except for the duration and the handler name, which only the
    server adds. Everything else but static files and the two endpoints is not
    found there: no tenants, scripts, documents or gateway. *)
Lemma embedding_agrees (now1 now2 : Instant) (ms : Z) (req : HReq) (body : string) (s : State) :
  (Str.starts_with RUN_PREFIX (path req) = true -> req_body req = Ok body ->
   Str.len body <= max_body_size_bytes config ->
   exists r s', handle_request_inner percent_decode parse_path_and_query header_value_ok gzip execute
        debug_path config now1 now2 ms req s = (Some r, s') /\
     exists r', embedded_route now1 now2 req body s = (r', s') /\ same_result r r') /\
  (Str.starts_with RUN_PREFIX (path req) = false -> Str.starts_with STATIC_PREFIX (path req) = false ->
   exists r, embedded_route now1 now2 req body s = (Ok r, s) /\ rs_status r ∈ [404; 413; 414]).
Proof.
  split.
  - intros Hrun Hbody Hlen. unfold Str.starts_with in Hrun.
    destruct (Str.strip_prefix RUN_PREFIX (path req)) as [r|] eqn:Er; [|done].
    destruct (run_path_prefixes _ _ Er) as (P1 & P2 & P3 & P4 & P5).
    unfold handle_request_inner, begin, embedded_route. rewrite P1, P2, P3, P4, P5, Er.
    rewrite (embedded_resolve_eq now1 _ _ s Er).
    destruct (validate_path_length _); [by eexists _, _; split; [done|]; eexists; split; [done|apply same_answer_refl]|].
    destruct (validate_content_length _ _); [by eexists _, _; split; [done|]; eexists; split; [done|apply same_answer_refl]|].
    destruct (embedded_resolve now1 r s) as [[comp hp mo pe|resp] s1];
      [|by eexists _, _; split; [done|]; eexists; split; [done|apply same_answer_refl]].
    unfold finish, embedded_execute. cbn [Router.handler_path Router.request Router.component Router.module Router.permit].
    rewrite Hbody. unfold collect_request_body.
    destruct (Z.ltb_spec (max_body_size_bytes config) (Str.len body)) as [|_]; [lia|].
    unfold rewrite_request_path.
    destruct (parse_path_and_query hp) as [[p q]|e]; [|by eexists _, _; split; [done|]; eexists; split].
    cbv zeta. destruct (execute comp _) as [a|e]; cbn [is_ok].
    + eexists _, _. split; [done|]. eexists. split; [done|]. apply server_headers_compress.
    + by eexists _, _; split; [done|]; eexists; split.
  - intros Hrun Hst. unfold embedded_route. rewrite Hst. unfold Str.starts_with in Hrun.
    destruct (Str.strip_prefix RUN_PREFIX (path req)); [done|].
    unfold validate_path_length, validate_content_length.
    destruct (_ <? Str.len (path req)); [eexists; split; [done|set_solver]|].
    destruct (header_str _ _) as [len|]; [|eexists; split; [done|set_solver]].
    destruct (parse_usize len) as [n|]; [|eexists; split; [done|set_solver]].
    destruct (_ <? n); eexists; (split; [done|set_solver]).
Qed.
End Embed.

(** ** Witness *)

Section Witness.
#[local] Existing Instance no_loader.
#[local] Existing Instance no_loader_laws.

End Witness.
