(* ===== verification/Api.v ===== *)
(** Api: requests and responses of the embedding interface, of
    [src/src/runtime/request.rs], and [Runtime::handle_request] of
    [src/src/runtime/mod.rs], which turns them into those of hyper and back.

    The checks of method, URI, header names and header values are hyper's, and
    parameters here. *)

From stdpp Require Import base gmap list strings.
From S2P Require Import Prelude Store StdPath CircuitBreaker PathSecurity ModulePath SortBy Http Json TraceContext RtError WebContent ModuleCache Router Serve Embed.

#[local] Open Scope Z_scope.

Definition lower_eq (a b : string) : bool := String.eqb (Str.to_lowercase a) (Str.to_lowercase b).

(** [find] by name, then the value *)
Definition find_header (name : string) (hs : list (string * string)) : option string :=
  snd <$> find (fun h => lower_eq h.1 name) hs.

(** ** Requests *)

Module Request.
Record t := {
  method : string;
  path : string;
  headers : list (string * string);
  body : string;
}.

Definition new (m p : string) : t := {| method := m; path := p; headers := []; body := EmptyString |}.
Definition with_header (name v : string) (r : t) : t :=
  {| method := method r; path := path r; headers := headers r ++ [(name, v)]; body := body r |}.
Definition with_headers (hs : list (string * string)) (r : t) : t :=
  fold_left (fun r h => with_header h.1 h.2 r) hs r.
Definition with_body (b : string) (r : t) : t :=
  {| method := method r; path := path r; headers := headers r; body := b |}.
Definition with_body_str (b : string) (r : t) : t := with_body b r.
Definition header (name : string) (r : t) : option string := find_header name (headers r).
Definition content_type (r : t) : option string := header "content-type" r.
Definition accepts_gzip (r : t) : bool :=
  match header "accept-encoding" r with Some v => Str.contains "gzip" v | None => false end.
Definition content_length (r : t) : option Z :=
  match header "content-length" r with Some v => parse_usize v | None => None end.
Definition default : t := new "GET" "/".
End Request.

(** ** Responses *)

Module Response.
Record t := {
  status : Z;
  headers : list (string * string);
  body : string;
}.

Definition new (s : Z) : t := {| status := s; headers := []; body := EmptyString |}.
Definition ok : t := new 200.
Definition created : t := new 201.
Definition no_content : t := new 204.
Definition with_header (name v : string) (r : t) : t :=
  {| status := status r; headers := headers r ++ [(name, v)]; body := body r |}.
Definition with_headers (hs : list (string * string)) (r : t) : t :=
  fold_left (fun r h => with_header h.1 h.2 r) hs r.
Definition with_body (b : string) (r : t) : t :=
  {| status := status r; headers := headers r; body := b |}.
Definition with_body_str (b : string) (r : t) : t := with_body b r.
Definition with_json (b : string) (r : t) : t := with_body_str b (with_header "Content-Type" "application/json" r).

(** The message goes into the JSON text as it is. *)
Definition error_body (message : string) : string :=
  "{" +:+ String QUOTE ("error" +:+ String QUOTE (": " +:+ String QUOTE (message +:+ String QUOTE "}"))).
Definition error_json (s : Z) (message : string) : t :=
  with_body_str (error_body message) (with_header "Content-Type" "application/json" (new s)).
Definition bad_request : string -> t := error_json 400.
Definition not_found : string -> t := error_json 404.
Definition internal_error : string -> t := error_json 500.
Definition bad_gateway : string -> t := error_json 502.
Definition service_unavailable : string -> t := error_json 503.
Definition header (name : string) (r : t) : option string := find_header name (headers r).
Definition is_success (r : t) : bool := (200 <=? status r) && (status r <? 300).
Definition is_redirect (r : t) : bool := (300 <=? status r) && (status r <? 400).
Definition is_client_error (r : t) : bool := (400 <=? status r) && (status r <? 500).
Definition is_server_error (r : t) : bool := (500 <=? status r) && (status r <? 600).
Definition default : t := ok.
End Response.

(** ** Conversions *)

Section Convert.
(** [Method::from_bytes], [Uri::from_str], [HeaderName], [HeaderValue], and
    [HeaderValue::to_str] of a value *)
Variable parse_method : string -> result string string.
Variable parse_uri : string -> result (string * option string) string.
Variable header_name : string -> result string string.
Variable value_ok : string -> result unit string.
Variable visible : string -> bool.
(** [StatusCode::from_u16] *)
Variable status_ok : Z -> result unit string.

(** [builder.header], one after the other; the first error is kept. *)
Fixpoint append_headers (hs : list (string * string)) : result (list (string * string)) string :=
  match hs with
  | [] => Ok []
  | (name, v) :: hs =>
      match header_name name with
      | Err e => Err e
      | Ok n =>
          match value_ok v with
          | Err e => Err e
          | Ok _ => let? rest := append_headers hs in Ok ((n, v) :: rest)
          end
      end
  end.

Definition to_str (h : string * string) : string * option string := (h.1, if visible h.2 then Some h.2 else None).

Definition hyper_request (r : Request.t) : result HReq (list string) :=
  match parse_method (Request.method r) with
  | Err e => Err [e]
  | Ok m =>
      match parse_uri (Request.path r) with
      | Err e => Err [e]
      | Ok (p, q) =>
          match append_headers (Request.headers r) with
          | Err e => Err [e]
          | Ok hs => Ok {| method := m; path := p; query := q; req_headers := to_str <$> hs;
                           req_body := Ok (Request.body r) |}
          end
      end
  end.

(** The headers whose values are not visible ASCII are left out. *)
Definition visible_headers (hs : list (string * string)) : list (string * string) :=
  filter (fun h => visible h.2 = true) hs.

Definition from_hyper (r : Resp) : Response.t :=
  {| Response.status := rs_status r; Response.headers := visible_headers (rs_headers r); Response.body := rs_body r |}.

(** [TryFrom<Response> for hyper::Response<Full<Bytes>>] *)
Definition try_from (r : Response.t) : result Resp string :=
  match status_ok (Response.status r) with
  | Err e => Err e
  | Ok _ =>
      match append_headers (Response.headers r) with
      | Err e => Err e
      | Ok hs => Ok (resp (Response.status r) hs (Response.body r))
      end
  end.

(** [From<hyper::Response<Full<Bytes>>> for Response] *)
Definition from (r : Resp) : Response.t :=
  {| Response.status := rs_status r; Response.headers := visible_headers (rs_headers r); Response.body := EmptyString |}.
End Convert.

(** ** Requests through the interface *)

Section Handle.
Context {M L Comp : Type} `{StoreLaws M CircuitState} `{ModuleLoaderLaws L Comp}.
Variable execute : Comp -> ExecReq -> result Resp (list string).
Variable debug_path : string -> string.
Variable config : RConfig (Comp := Comp).
Variable conf : ObsConfig.
Variable percent_decode : string -> string.
Variable parse_path_and_query : string -> result (string * option string) string.
Variable header_value_ok : string -> bool.
Variable gzip : string -> option string.
Variable cache_view : L -> CacheView.
Variable parse_method : string -> result string string.
Variable parse_uri : string -> result (string * option string) string.
Variable header_name : string -> result string string.
Variable value_ok : string -> result unit string.
Variable visible : string -> bool.

(** [Runtime::handle_request] *)
Definition handle_request (d : Draws) (req : Request.t) (s : Shared (M := M) (L := L))
  : result Response.t (list string) * Shared (M := M) (L := L) :=
  match hyper_request parse_method parse_uri header_name value_ok visible req with
  | Err e => (Err e, s)
  | Ok h =>
      let '(r, s) := handle_request_internal execute debug_path config conf percent_decode parse_path_and_query
                       gzip cache_view d h (Request.body req) s in
      (match r with Ok r => Ok (from_hyper visible r) | Err e => Err e end, s)
  end.
End Handle.

(** ** Lemmas *)

(** What the [http] crate promises of header names: they are compared without
    regard to case, and kept in lower case. *)
Class HeaderNameLaws (header_name : string -> result string string) : Prop := {
  header_name_lower : forall s n, header_name s = Ok n -> n = Str.to_lowercase s;
}.

Section Laws.
Context (header_name : string -> result string string) {LAWS : HeaderNameLaws header_name}.
Variable value_ok : string -> result unit string.

Lemma append_headers_names hs hs' : append_headers header_name value_ok hs = Ok hs' ->
  hs' = (fun h => (Str.to_lowercase h.1, h.2)) <$> hs.
Proof using LAWS.
  revert hs'. induction hs as [|[n v] hs IH]; intros hs'; cbn; [by intros [= <-]|].
  destruct (header_name n) as [m|] eqn:En; [|done]. destruct (value_ok v); [|done].
  destruct (append_headers header_name value_ok hs) as [rest|]; [|done]. cbn. intros [= <-].
  rewrite (IH _ eq_refl). by rewrite (header_name_lower _ _ En).
Qed.

(** The lookup of the interface and the one of hyper agree. *)
Lemma find_header_get name hs hs' : Str.to_lowercase name = name ->
  append_headers header_name value_ok hs = Ok hs' -> header_get name hs' = find_header name hs.
Proof using LAWS.
  intros Hn ->%append_headers_names. unfold find_header.
  induction hs as [|[n v] hs IH]; [done|]. cbn. unfold lower_eq at 1. cbn [fst]. rewrite Hn.
  destruct (String.eqb (Str.to_lowercase n) name); [done|]. exact IH.
Qed.
End Laws.

Lemma header_get_to_str visible name (hs : list (string * string)) :
  header_get name (to_str visible <$> hs) =
  (fun v => if visible v then Some v else None) <$> header_get name hs.
Proof. induction hs as [|[n v] hs IH]; [done|]. cbn. by destruct (String.eqb n name). Qed.

Lemma header_get_visible visible name v (hs : list (string * string)) :
  header_get name hs = Some v -> visible v = true -> header_get name (visible_headers visible hs) = Some v.
Proof.
  intros Hg Hv. unfold visible_headers. induction hs as [|[n w] hs IH]; [done|]. cbn in Hg. rewrite filter_cons. cbn [snd].
  destruct (String.eqb_spec n name) as [->|Hne].
  - injection Hg as ->. rewrite decide_True by done. cbn. by rewrite String.eqb_refl.
  - case_decide; cbn; [|by apply IH]. apply String.eqb_neq in Hne. rewrite Hne. by apply IH.
Qed.

(** ** Property *)

Section Property.
Context {M L Comp : Type} `{StoreLaws M CircuitState} `{ModuleLoaderLaws L Comp}.

End Property.

(** ** Witness *)

Section Witness.
#[local] Existing Instance no_loader.
#[local] Existing Instance no_loader_laws.

Definition greeter_config : RConfig (Comp := string) := {|
  cb_config := default_config; max_per_module_requests := 10; max_body_size_bytes := 100;
  single_component := Some "Hello"; single_component_name := Some "hello"; tenants_configured := false;
  static_files := None; gateway := fun _ => Err []; schema := fun _ => not_found "" |}.

Definition greeting : Request.t :=
  Request.with_body_str "Ann" (Request.with_header "Accept-Encoding" "gzip" (Request.new "POST" "/run/hello/greet")).

#[local] Instance lower_names : HeaderNameLaws (fun s => Ok (Str.to_lowercase s)).
Proof. split. by intros s n [= <-]. Qed.

Definition greeted : result Response.t (list string) * Shared (M := gmap string CircuitState) (L := unit) :=
  handle_request (M := gmap string CircuitState) (L := unit)
    (fun c x => Ok (resp 201 [("x-from", c)] (c +:+ ", " +:+ x_body x))) (fun s => s) greeter_config
    {| conf_cache_size := 1; conf_max_cache_bytes := 1; conf_memory_limit_bytes := 1;
       conf_max_concurrent_requests := 1 |} (fun s => s) (fun s => Ok (s, None)) Some
    (fun _ => {| cache_keys := []; cache_weight := 0 |}) (fun m => Ok m) (fun u => Ok (u, None))
    (fun s => Ok (Str.to_lowercase s)) (fun _ => Ok tt) (fun _ => true) draws greeting
    {| runtime := rstate (init (Comp := string) ∅ tt); request_counter := 0 |}.

End Witness.

(** A message with a quotation mark breaks the JSON text of an error. *)
Example error_body_not_escaped :
  Response.body (Response.bad_request (String QUOTE "x")) =
  "{" +:+ json_string "error" +:+ ": " +:+ String QUOTE (String QUOTE ("x" +:+ String QUOTE "}")).
Proof. reflexivity. Qed.
