(* ===== verification/HttpServer.v ===== *)
(** HttpServer: the accept loop of [src/src/runtime/server.rs] with its
    connection limit and its graceful shutdown, as a labelled transition
    system. What happens on a connection is Serve.v. *)

From stdpp Require Import base list relations.
From S2P Require Import Prelude.

#[local] Open Scope Z_scope.

(** ** State *)

Inductive Phase :=
| Accepting                       (* in [select!] *)
| AwaitingPermit                  (* accepted a connection, in [acquire_owned] *)
| Draining (deadline : Instant)   (* in the timeout around the drain *)
| Stopped (graceful : bool)
| Failed.                         (* [accept] failed: [serve] returns the error *)

(** [active] is [active_connections]; a task that has decremented it still
    holds its permit and its sender until it ends: it is [closing]. [flag] is
    [shared.shutdown]; [signalled], that the signal task has completed. *)
Record Server := {
  clock : Instant;
  phase : Phase;
  permits : Z;
  active : Z;
  closing : Z;
  flag : bool;
  signalled : bool;
}.

Inductive Label :=
| Tick (dt : Duration)
| Signal              (* SIGTERM or SIGINT *)
| ShutdownCall        (* Runtime::shutdown *)
| Accept
| AcceptError
| Acquire
| ConnectionEnd
| TaskEnd
| SignalSeen
| Drained
| DrainTimeout.

(** ** Steps *)

Section Steps.
Variable max_concurrent_requests : Z.
Variable shutdown_timeout_secs : Z.

Definition init : Server := {|
  clock := 0; phase := Accepting; permits := max_concurrent_requests; active := 0; closing := 0;
  flag := false; signalled := false |}.

Definition set_phase (p : Phase) (s : Server) : Server := {|
  clock := clock s; phase := p; permits := permits s; active := active s; closing := closing s;
  flag := flag s; signalled := signalled s |}.

Definition elapse (dt : Duration) (s : Server) : Server := {|
  clock := clock s + dt; phase := phase s; permits := permits s; active := active s;
  closing := closing s; flag := flag s; signalled := signalled s |}.

(** The shutdown sequence after the loop is left. *)
Definition leave_loop (s : Server) : Server :=
  if 0 <? active s
  then set_phase (Draining (clock s + from_secs shutdown_timeout_secs)) s
  else set_phase (Stopped true) s.

Definition spawn (s : Server) : Server := {|
  clock := clock s; phase := Accepting; permits := permits s - 1; active := active s + 1;
  closing := closing s; flag := flag s; signalled := signalled s |}.

(** [fire l s]: the server after [l], if it can happen. *)
Definition fire (l : Label) (s : Server) : option Server :=
  match l with
  | Tick dt =>
      if 0 <=? dt
      then Some (elapse dt s)
      else None
  | Signal =>
      Some {| clock := clock s; phase := phase s; permits := permits s; active := active s;
              closing := closing s; flag := true; signalled := true |}
  | ShutdownCall =>
      Some {| clock := clock s; phase := phase s; permits := permits s; active := active s;
              closing := closing s; flag := true; signalled := signalled s |}
  | Accept =>
      match phase s with
      | Accepting => Some (if flag s then leave_loop s else set_phase AwaitingPermit s)
      | _ => None
      end
  | AcceptError =>
      match phase s with
      | Accepting => Some (set_phase Failed s)
      | _ => None
      end
  | Acquire =>
      match phase s with
      | AwaitingPermit => if 0 <? permits s then Some (spawn s) else None
      | _ => None
      end
  | ConnectionEnd =>
      if 0 <? active s
      then Some {| clock := clock s; phase := phase s; permits := permits s; active := active s - 1;
                   closing := closing s + 1; flag := flag s; signalled := signalled s |}
      else None
  | TaskEnd =>
      if 0 <? closing s
      then Some {| clock := clock s; phase := phase s; permits := permits s + 1; active := active s;
                   closing := closing s - 1; flag := flag s; signalled := signalled s |}
      else None
  | SignalSeen =>
      match phase s with
      | Accepting => if signalled s then Some (leave_loop s) else None
      | _ => None
      end
  | Drained =>
      match phase s with
      | Draining _ => if ((active s =? 0) && (closing s =? 0))%bool then Some (set_phase (Stopped true) s) else None
      | _ => None
      end
  | DrainTimeout =>
      match phase s with
      | Draining deadline => if deadline <=? clock s then Some (set_phase (Stopped false) s) else None
      | _ => None
      end
  end.

(** A run of labels. *)
Fixpoint run (ls : list Label) (s : Server) : option Server :=
  match ls with
  | [] => Some s
  | l :: ls => fire l s ≫= run ls
  end.

(** ** Invariant *)

Definition leaving (s : Server) : bool :=
  match phase s with Draining _ | Stopped _ | Failed => true | _ => false end.

Record good (s : Server) : Prop := {
  good_permits : 0 <= permits s;
  good_active : 0 <= active s;
  good_closing : 0 <= closing s;
  good_sum : permits s + active s + closing s = max_concurrent_requests;
  good_stopped : phase s = Stopped true -> active s = 0;
  good_deadline : forall d, phase s = Draining d -> d <= clock s + from_secs shutdown_timeout_secs;
}.

Ltac fire_cases :=
  repeat match goal with
         | H : None = Some _ |- _ => discriminate H
         | H : context [match phase ?s with _ => _ end] |- _ => destruct (phase s) eqn:?
         | H : context [if ?a <? ?b then _ else _] |- _ => destruct (Z.ltb_spec a b)
         | H : context [if ?a <=? ?b then _ else _] |- _ => destruct (Z.leb_spec a b)
         | H : context [((?a =? ?b) && (?c =? ?d))%bool] |- _ =>
             destruct (Z.eqb_spec a b), (Z.eqb_spec c d); cbn [andb] in H
         | H : context [if flag ?s then _ else _] |- _ => destruct (flag s)
         | H : context [if signalled ?s then _ else _] |- _ => destruct (signalled s)
         | H : Some _ = Some _ |- _ => injection H as <-
         end.

Lemma leave_loop_good s : good s -> good (leave_loop s).
Proof.
  intros [H1 H2 H3 H4 H5 H6]. unfold leave_loop.
  destruct (Z.ltb_spec 0 (active s)); split; cbn; try done; try lia.
  intros d [= <-]. lia.
Qed.

Lemma fire_good l s s' : good s -> fire l s = Some s' -> good s'.
Proof.
  intros Hg Hf. pose proof Hg as [H1 H2 H3 H4 H5 H6].
  destruct l; cbn in Hf; fire_cases; try (by apply leave_loop_good); split; cbn; try done; try lia;
    try (intros d Hd; specialize (H6 d Hd); lia); try (intros Hd; specialize (H5 Hd); lia).
Qed.

Lemma run_invariant (P : Server -> Prop) :
  (forall l s s', P s -> fire l s = Some s' -> P s') ->
  forall ls s s', P s -> run ls s = Some s' -> P s'.
Proof.
  intros Hp ls. induction ls as [|l ls IH]; intros s s' Hs; cbn; [by intros [= <-]|].
  intros (s1 & Hf & Hr)%bind_Some. eauto.
Qed.

(** Once the loop is left no connection is added, and the deadline stands. *)
Lemma leaving_step l s s' : leaving s = true -> fire l s = Some s' ->
  leaving s' = true /\ active s' <= active s.
Proof.
  unfold leaving. intros Hl Hf. destruct (phase s) as [| |dl|g|] eqn:Hp; try done;
    destruct l; cbn in Hf; rewrite ?Hp in Hf; fire_cases; cbn; rewrite ?Hp;
    (split; [done|]); lia.
Qed.

Lemma stopping_step l s s' d : (phase s = Draining d \/ exists g, phase s = Stopped g) -> fire l s = Some s' ->
  phase s' = Draining d \/ exists g, phase s' = Stopped g.
Proof.
  intros [Hp|[g Hp]] Hf; destruct l; cbn in Hf; rewrite ?Hp in Hf; fire_cases; cbn; eauto.
Qed.

(** Between two ends of tasks the permits only go down, and a server that
    waits for one with none left goes on waiting. *)
Lemma waiting_step l s s' :
  phase s = AwaitingPermit -> permits s = 0 -> l <> TaskEnd -> fire l s = Some s' ->
  phase s' = AwaitingPermit /\ permits s' = 0.
Proof.
  intros Hp H0 Hl Hf. destruct l; cbn in Hf; try done; rewrite ?Hp in Hf; fire_cases; try done; cbn; try lia; done.
Qed.

End Steps.

(** ** Properties *)

(** C37. The connection limit and the shutdown. In every reachable state the
    connections being served and those closing, with the free permits, add up
    to the configured maximum, which they never exceed. Once the accept loop
    is left, no connection is added and the server can always come to a stop:
    at the latest when the drain timeout, counted from leaving the loop, is
    over; and a server that stopped gracefully serves no connection. *)
Theorem connections_bounded (max timeout_secs : Z) (ls : list Label) (s : Server) :
  0 <= max -> 0 <= timeout_secs -> run timeout_secs ls (init max) = Some s ->
  0 <= permits s /\ 0 <= active s /\ active s + closing s = max - permits s /\
  active s + closing s <= max /\
  (phase s = Stopped true -> active s = 0) /\
  (leaving s = true -> forall ls' s', run timeout_secs ls' s = Some s' -> leaving s' = true /\ active s' <= active s) /\
  (forall d, phase s = Draining d ->
     d <= clock s + from_secs timeout_secs /\
     (forall ls' s', run timeout_secs ls' s = Some s' ->
        phase s' = Draining d \/ exists g, phase s' = Stopped g) /\
     exists dt g s', 0 <= dt <= from_secs timeout_secs /\
       run timeout_secs [Tick dt; DrainTimeout] s = Some s' /\ phase s' = Stopped g).
Proof.
  intros Hmax Ht Hr.
  assert (good max timeout_secs s) as [H1 H2 H3 H4 H5 H6].
  { assert (good max timeout_secs (init max)) as Hi by (split; cbn; try done; lia).
    revert Hi Hr. apply run_invariant. intros l x x'. apply fire_good. }
  split_and!; [done|done|lia|lia|done| |].
  - intros Hl ls' s' Hr'.
    apply (run_invariant timeout_secs (fun x => leaving x = true /\ active x <= active s)) in Hr'; [done| |by split].
    intros l x x' [Hx Ha] Hf. destruct (leaving_step _ l x x' Hx Hf) as [? ?]. split; [done|lia].
  - intros d Hd. specialize (H6 d Hd). split; [done|]. split.
    + intros ls' s' Hr'.
      apply (run_invariant timeout_secs (fun x => phase x = Draining d \/ exists g, phase x = Stopped g)) in Hr';
        [done| |by left].
      intros l x x' Hx Hf.
      destruct (stopping_step _ l x x' d Hx Hf) as [?|?]; [by left|by right].
    + assert (0 <= from_secs timeout_secs) by (unfold from_secs; lia).
      exists (Z.max 0 (d - clock s)), false,
        (set_phase (Stopped false) (elapse (Z.max 0 (d - clock s)) s)).
      split; [lia|]. split; [|reflexivity].
      cbn. destruct (Z.leb_spec 0 (Z.max 0 (d - clock s))); [|lia]. cbn. rewrite Hd.
      destruct (Z.leb_spec d (clock s + Z.max 0 (d - clock s))); [done|lia].
Qed.

(** A full server does not notice that it is to stop. When it has accepted
    a connection beyond the limit, it waits for a permit outside the select of
    the accept loop: whatever signals arrive and however long it takes, it
    goes on waiting until a task ends. And the flag that [Runtime::shutdown]
    sets is only looked at when the next connection arrives. *)
Lemma shutdown_waits (timeout_secs : Z) (s s' : Server) (ls : list Label) :
  run timeout_secs ls s = Some s' ->
  (phase s = AwaitingPermit -> permits s = 0 -> TaskEnd ∉ ls -> phase s' = AwaitingPermit) /\
  (phase s = Accepting -> signalled s = false -> Accept ∉ ls -> AcceptError ∉ ls -> Signal ∉ ls ->
     phase s' = Accepting).
Proof.
  revert s. induction ls as [|l ls IH]; intros s; cbn [run]; [by intros [= <-]|].
  intros (s1 & Hf & Hr)%bind_Some. destruct (IH s1 Hr) as [IH1 IH2]. split.
  - intros Hp H0 Hl. rewrite elem_of_cons in Hl.
    destruct (waiting_step timeout_secs l s s1 Hp H0) as [? ?]; [intros ->; by apply Hl; left|done|].
    apply IH1; [done|done|]. intros ?. apply Hl. by right.
  - intros Hp Hsig Ha He Hs. rewrite elem_of_cons in Ha, He, Hs.
    assert (phase s1 = Accepting /\ signalled s1 = false) as [? ?].
    { destruct l; cbn in Hf; rewrite ?Hp, ?Hsig in Hf; try discriminate Hf;
        try (exfalso; by apply Ha; left); try (exfalso; by apply He; left); try (exfalso; by apply Hs; left);
        repeat match type of Hf with (if ?b then _ else _) = _ => destruct b end;
        try discriminate Hf; by injection Hf as <-. }
    apply IH2; [done|done| | |]; intros ?; [apply Ha|apply He|apply Hs]; by right.
Qed.

(** ** Witnesses *)

Lemma connections_bounded_witness :
  exists s, run 30 [Accept; Acquire; Signal; SignalSeen] (init 1) = Some s /\
    active s + closing s = 1 /\ exists d, phase s = Draining d.
Proof.
  eexists. split; [reflexivity|].
  destruct (connections_bounded 1 30 [Accept; Acquire; Signal; SignalSeen] _ ltac:(lia) ltac:(lia) eq_refl)
    as (_ & _ & Hsum & _). split; [exact Hsum|]. eexists. reflexivity.
Defined.

