(* ===== verification/ManifestTypes.v ===== *)
(** ManifestTypes: the data of [mik.toml] and its defaults, of
    [src/src/manifest/types.rs] and [defaults.rs], and the parts of
    [mod.rs] that read a section or edit the dependencies. Reading and parsing
    the file is a parameter. *)

From stdpp Require Import base list strings.
From S2P Require Import Prelude HostAllow LbServer Json.

#[local] Open Scope Z_scope.

(** ** Defaults *)

Definition default_tracing_enabled : bool := true.
Definition default_service_name : string := "mik".
Definition default_auto : bool := true.
Definition default_port : Z := 3000.
Definition default_modules_dir : string := "modules/".
Definition default_max_body_size_mb : Z := 10.
Definition default_execution_timeout : Z := 30.
Definition default_shutdown_timeout : Z := 30.
Definition default_log_max_size_mb : Z := 10.
Definition default_log_max_files : Z := 5.
Definition default_watch_debounce_ms : Z := 300.
Definition default_http_handler : bool := true.
Definition default_lb_enabled : bool := false.
Definition default_health_check_type : string := "http".
Definition default_health_check_interval_ms : Z := 5000.
Definition default_health_check_timeout_ms : Z := 2000.
Definition default_health_check_path : string := "/health".
Definition default_unhealthy_threshold : Z := 3.
Definition default_healthy_threshold : Z := 2.
Definition default_request_timeout_secs : Z := 30.
Definition default_max_connections_per_backend : Z := 100.
Definition default_pool_idle_timeout_secs : Z := 90.
Definition default_tcp_keepalive_secs : Z := 60.
Definition default_http2_only : bool := false.
Definition default_version : string := "0.1.0".

(** ** Sections *)

Record TracingConfig := {
  enabled : bool;
  otlp_endpoint : option string;
  service_name : string;
}.

Record ServerConfig := {
  auto : bool;
  port : Z;
  modules : string;
  user_modules : option string;
  scripts : option string;
  static : option string;
  cache_size : Z;
  max_cache_mb : Z;
  max_body_size_mb : Z;
  execution_timeout_secs : Z;
  max_concurrent_requests : Z;
  max_per_module_requests : Z;
  shutdown_timeout_secs : Z;
  log_max_size_mb : Z;
  log_max_files : Z;
  watch_debounce_ms : Z;
  logging : bool;
  http_allowed : list string;
}.

Record CompositionConfig := {
  http_handler : bool;
  bridge : option string;
}.

Record Author := {
  author_name : string;
  email : option string;
}.

Record Project := {
  project_name : string;
  project_version : string;
  description : option string;
  authors : list Author;
  language : option string;
}.

Record DependencyDetail := {
  version : option string;
  git : option string;
  branch : option string;
  tag : option string;
  rev : option string;
  path : option string;
  registry : option string;
}.

(** [#\[serde(untagged)\]] *)
Inductive Dependency :=
| Simple (version : string)
| Detailed (detail : DependencyDetail).

(** The [BTreeMap]s of dependencies are lists in the order of their keys. *)
Record Manifest := {
  project : Project;
  server : ServerConfig;
  tracing : TracingConfig;
  composition : CompositionConfig;
  lb : option LbConfig;
  dependencies : list (string * Dependency);
  dev_dependencies : list (string * Dependency);
}.

#[global] Instance dependency_detail_eq_dec : EqDecision DependencyDetail.
Proof. solve_decision. Defined.
#[global] Instance dependency_eq_dec : EqDecision Dependency.
Proof. solve_decision. Defined.
#[global] Instance author_eq_dec : EqDecision Author.
Proof. solve_decision. Defined.
#[global] Instance project_eq_dec : EqDecision Project.
Proof. solve_decision. Defined.
#[global] Instance server_config_eq_dec : EqDecision ServerConfig.
Proof. solve_decision. Defined.
#[global] Instance tracing_config_eq_dec : EqDecision TracingConfig.
Proof. solve_decision. Defined.
#[global] Instance composition_config_eq_dec : EqDecision CompositionConfig.
Proof. solve_decision. Defined.
#[global] Instance lb_config_eq_dec : EqDecision LbConfig.
Proof. solve_decision. Defined.
#[global] Instance manifest_eq_dec : EqDecision Manifest.
Proof. solve_decision. Defined.

(** *** [Default] *)

Definition default_tracing_config : TracingConfig := {|
  enabled := default_tracing_enabled; otlp_endpoint := None; service_name := default_service_name |}.

(** A cache size or request limit of 0 is detected. *)
Definition default_server_config : ServerConfig := {|
  auto := default_auto; port := default_port; modules := default_modules_dir; user_modules := None;
  scripts := None; static := None; cache_size := 0; max_cache_mb := 0;
  max_body_size_mb := default_max_body_size_mb; execution_timeout_secs := default_execution_timeout;
  max_concurrent_requests := 0; max_per_module_requests := 0;
  shutdown_timeout_secs := default_shutdown_timeout; log_max_size_mb := default_log_max_size_mb;
  log_max_files := default_log_max_files; watch_debounce_ms := default_watch_debounce_ms;
  logging := false; http_allowed := [] |}.

Definition default_composition_config : CompositionConfig := {|
  http_handler := default_http_handler; bridge := None |}.

Definition default_lb_config : LbConfig := {|
  LbServer.enabled := default_lb_enabled; health_check_type := default_health_check_type;
  health_check_interval_ms := default_health_check_interval_ms;
  health_check_timeout_ms := default_health_check_timeout_ms; health_check_path := default_health_check_path;
  cfg_unhealthy_threshold := default_unhealthy_threshold; cfg_healthy_threshold := default_healthy_threshold;
  request_timeout_secs := default_request_timeout_secs;
  cfg_max_connections_per_backend := default_max_connections_per_backend;
  cfg_pool_idle_timeout_secs := default_pool_idle_timeout_secs;
  cfg_tcp_keepalive_secs := default_tcp_keepalive_secs; cfg_http2_only := default_http2_only |}.

Definition default_manifest : Manifest := {|
  project := {| project_name := "my-component"; project_version := default_version; description := None;
                authors := []; language := None |};
  server := default_server_config; tracing := default_tracing_config;
  composition := default_composition_config; lb := None; dependencies := []; dev_dependencies := [] |}.

(** ** Operations *)

Definition http_enabled (s : ServerConfig) : bool :=
  match http_allowed s with [] => false | _ => true end.
Definition http_allows_all (s : ServerConfig) : bool := existsb (String.eqb "*") (http_allowed s).
Definition is_host_allowed (host : string) (s : ServerConfig) : bool := is_http_host_allowed host (http_allowed s).

Definition dep_version (v : string) : Dependency := Simple v.
Definition dep_git (url : string) : Dependency := Detailed {|
  version := None; git := Some url; branch := None; tag := None; rev := None; path := None; registry := None |}.
Definition dep_registry (r v : string) : Dependency := Detailed {|
  version := Some v; git := None; branch := None; tag := None; rev := None; path := None; registry := Some r |}.
Definition dep_path (p : string) : Dependency := Detailed {|
  version := None; git := None; branch := None; tag := None; rev := None; path := Some p; registry := None |}.

Definition set_dependencies (deps : list (string * Dependency)) (m : Manifest) : Manifest := {|
  project := project m; server := server m; tracing := tracing m; composition := composition m; lb := lb m;
  dependencies := deps; dev_dependencies := dev_dependencies m |}.

Definition set_dev_dependencies (deps : list (string * Dependency)) (m : Manifest) : Manifest := {|
  project := project m; server := server m; tracing := tracing m; composition := composition m; lb := lb m;
  dependencies := dependencies m; dev_dependencies := deps |}.

(** [Manifest::add_dependency] and [remove_dependency] *)
Definition add_dependency (name : string) (dep : Dependency) (m : Manifest) : Manifest :=
  set_dependencies (map_insert name dep (dependencies m)) m.
Definition remove_dependency (name : string) (m : Manifest) : option Dependency * Manifest :=
  (map_get name (dependencies m),
   set_dependencies (filter (fun e => String.eqb e.1 name = false) (dependencies m)) m).

(** ** Loading *)

Section Load.
Variable exists_ : string -> bool.
Variable read_to_string : string -> result string string.
(** [toml::from_str] of the section alone, and of the whole manifest *)
Variable parse_server : string -> result ServerConfig string.
Variable parse_tracing : string -> result TracingConfig string.
Variable parse_manifest : string -> result Manifest string.
Variable validate : Manifest -> string -> result unit string.

(** [fs::read_to_string] with its context *)
Definition read_manifest (path : string) : result string (list string) :=
  match read_to_string path with Ok c => Ok c | Err e => Err ["Failed to read " +:+ path; e] end.

Definition load_from (path : string) : result Manifest (list string) :=
  let? content := read_manifest path in
  match parse_manifest content with
  | Err e => Err ["Failed to parse " +:+ path; e]
  | Ok manifest => match validate manifest path with Err e => Err [e] | Ok _ => Ok manifest end
  end.

Definition load_server_config_from (path : string) : result ServerConfig (list string) :=
  if negb (exists_ path) then Ok default_server_config
  else
    let? content := read_manifest path in
    match parse_server content with
    | Err e => Err ["Failed to parse server config from " +:+ path; e]
    | Ok s => Ok s
    end.

Definition load_tracing_config_from (path : string) : result TracingConfig (list string) :=
  if negb (exists_ path) then Ok default_tracing_config
  else
    let? content := read_manifest path in
    match parse_tracing content with
    | Err e => Err ["Failed to parse tracing config from " +:+ path; e]
    | Ok t => Ok t
    end.

Definition load_port : option Z :=
  match load_server_config_from "mik.toml" with Ok c => Some (port c) | Err _ => None end.
End Load.
