(* ===== verification/HostConfig.v ===== *)
(** HostConfig: the configuration of the runtime, of
    [src/src/runtime/host_config.rs], [builder.rs] and [host.rs]: validation,
    the values detected from the machine, what a manifest makes of them, and
    the choice between one component and a directory of modules. A [usize] has
    64 bits and wraps as in a release build. *)

From stdpp Require Import base list strings.
From S2P Require Import Prelude StdPath ModulePath ManifestTypes.

#[local] Open Scope Z_scope.

(** ** Constants *)

Definition MB : Z := 1024 * 1024.
Definition MAX_EXECUTION_TIMEOUT_SECS : Z := 300.
Definition DEFAULT_MEMORY_LIMIT_BYTES : Z := 128 * 1024 * 1024.
Definition MIN_MEMORY_LIMIT_BYTES : Z := 1024 * 1024.
Definition MAX_MEMORY_LIMIT_BYTES : Z := 4 * 1024 * 1024 * 1024.
Definition DEFAULT_SHUTDOWN_TIMEOUT_SECS : Z := 30.
Definition MAX_BODY_SIZE_BYTES : Z := 10 * 1024 * 1024.
Definition MAX_WASM_TIMEOUT_SECS : Z := 30.
Definition DEFAULT_CACHE_SIZE : Z := 100.
Definition DEFAULT_CACHE_MB : Z := 256.
Definition DEFAULT_MAX_CONCURRENT_REQUESTS : Z := 1000.
Definition DEFAULT_MAX_PER_MODULE_REQUESTS : Z := 10.
Definition DEFAULT_PORT : Z := 3000.
Definition DEFAULT_AOT_CACHE_SIZE_BYTES : Z := 1024 * 1024 * 1024.

(** ** Data *)

Inductive ConfigError :=
| Timeout (value : Z) (reason : string)
| MemoryLimit (value : Z) (reason : string)
| Concurrency (reason : string).

Record HostConfig := {
  modules_path : string;
  user_modules_path : option string;
  cache_size : Z;
  max_cache_bytes : Z;
  static_dir : option string;
  port : Z;
  execution_timeout_secs : Z;
  memory_limit_bytes : Z;
  max_concurrent_requests : Z;
  max_body_size_bytes : Z;
  max_per_module_requests : Z;
  shutdown_timeout_secs : Z;
  logging_enabled : bool;
  http_allowed : list string;
  scripts_dir : option string;
  hot_reload : bool;
  aot_cache_max_mb : Z;
  fuel_budget : option Z;
}.

Definition default_host_config : HostConfig := {|
  modules_path := "modules"; user_modules_path := None; cache_size := DEFAULT_CACHE_SIZE;
  max_cache_bytes := DEFAULT_CACHE_MB * 1024 * 1024; static_dir := None; port := DEFAULT_PORT;
  execution_timeout_secs := MAX_WASM_TIMEOUT_SECS; memory_limit_bytes := DEFAULT_MEMORY_LIMIT_BYTES;
  max_concurrent_requests := DEFAULT_MAX_CONCURRENT_REQUESTS; max_body_size_bytes := MAX_BODY_SIZE_BYTES;
  max_per_module_requests := DEFAULT_MAX_PER_MODULE_REQUESTS;
  shutdown_timeout_secs := DEFAULT_SHUTDOWN_TIMEOUT_SECS; logging_enabled := false; http_allowed := [];
  scripts_dir := None; hot_reload := false; aot_cache_max_mb := 0; fuel_budget := None |}.

(** The [server] section as the builder reads it from the file: unlike
    [manifest::ServerConfig] it has a memory limit. *)
Record TomlServerConfig := {
  toml_auto : bool;
  toml_port : Z;
  toml_modules : string;
  toml_user_modules : option string;
  toml_static : option string;
  toml_cache_size : Z;
  toml_max_cache_mb : Z;
  toml_execution_timeout_secs : Z;
  toml_memory_limit_bytes : Z;
  toml_max_concurrent_requests : Z;
  toml_max_body_size_mb : Z;
  toml_max_per_module_requests : Z;
  toml_shutdown_timeout_secs : Z;
  toml_logging : bool;
  toml_http_allowed : list string;
  toml_scripts : option string;
}.

(** ** Validation *)

(** [modules_path] that does not exist is only a warning. *)
Definition validate (c : HostConfig) : result unit ConfigError :=
  if execution_timeout_secs c =? 0 then Err (Timeout 0 "must be greater than 0")
  else if MAX_EXECUTION_TIMEOUT_SECS <? execution_timeout_secs c
  then Err (Timeout (execution_timeout_secs c) "must be <= 300 seconds (5 minutes)")
  else if memory_limit_bytes c <? MIN_MEMORY_LIMIT_BYTES
  then Err (MemoryLimit (memory_limit_bytes c) "must be >= 1MB (1048576 bytes)")
  else if MAX_MEMORY_LIMIT_BYTES <? memory_limit_bytes c
  then Err (MemoryLimit (memory_limit_bytes c) "must be <= 4GB (4294967296 bytes)")
  else if max_concurrent_requests c =? 0
  then Err (Concurrency "max_concurrent_requests must be greater than 0")
  else if max_concurrent_requests c <? max_per_module_requests c
  then Err (Concurrency "max_per_module_requests cannot exceed max_concurrent_requests")
  else Ok tt.

(** ** Detection *)

Record SystemConfig := {
  sys_total_memory_bytes : Z;
  sys_cpu_cores : Z;
  sys_cache_size : Z;
  sys_max_cache_bytes : Z;
  sys_max_concurrent_requests : Z;
  sys_max_per_module_requests : Z;
}.

Definition clamp (lo hi x : Z) : Z := if x <? lo then lo else if hi <? x then hi else x.

Definition detect (total_memory_bytes : Z) (available_parallelism : option Z) : SystemConfig :=
  let cpu_cores := default 4 available_parallelism in
  let max_concurrent_requests := clamp 100 10000 (wrap_u64 (cpu_cores * 150)) in {|
  sys_total_memory_bytes := total_memory_bytes;
  sys_cpu_cores := cpu_cores;
  sys_cache_size := clamp 10 1000 (total_memory_bytes / (10 * 1024 * 1024));
  sys_max_cache_bytes := clamp (64 * 1024 * 1024) (1024 * 1024 * 1024) (total_memory_bytes / 10);
  sys_max_concurrent_requests := max_concurrent_requests;
  sys_max_per_module_requests := clamp 10 500 (max_concurrent_requests / 10) |}.

(** ** Builders *)

(** A value of 0 stands for the default. *)
Definition explicit (value default : Z) : Z := if 0 <? value then value else default.

(** [cache_size], [max_cache_bytes], [max_concurrent_requests] and
    [max_per_module_requests], from the section or the machine. *)
Definition limits (sys : SystemConfig) (auto : bool) (cache max_cache_mb concurrent per_module : Z)
  : Z * Z * Z * Z :=
  let cache_bytes d := if 0 <? max_cache_mb then wrap_u64 (max_cache_mb * 1024 * 1024) else d in
  if auto
  then (explicit cache (sys_cache_size sys), cache_bytes (sys_max_cache_bytes sys),
        explicit concurrent (sys_max_concurrent_requests sys),
        explicit per_module (sys_max_per_module_requests sys))
  else (explicit cache DEFAULT_CACHE_SIZE, cache_bytes (DEFAULT_CACHE_MB * 1024 * 1024),
        explicit concurrent DEFAULT_MAX_CONCURRENT_REQUESTS,
        explicit per_module DEFAULT_MAX_PER_MODULE_REQUESTS).

(** Both builders replace the configuration the builder had. *)
Definition from_server_config (sys : SystemConfig) (server : ServerConfig) : HostConfig :=
  let '(cache, cache_bytes, concurrent, per_module) :=
    limits sys (auto server) (ManifestTypes.cache_size server) (max_cache_mb server)
      (ManifestTypes.max_concurrent_requests server) (ManifestTypes.max_per_module_requests server) in {|
  modules_path := modules server; user_modules_path := user_modules server; cache_size := cache;
  max_cache_bytes := cache_bytes; static_dir := static server; port := ManifestTypes.port server;
  execution_timeout_secs := ManifestTypes.execution_timeout_secs server;
  memory_limit_bytes := DEFAULT_MEMORY_LIMIT_BYTES; max_concurrent_requests := concurrent;
  max_body_size_bytes := wrap_u64 (max_body_size_mb server * 1024 * 1024);
  max_per_module_requests := per_module;
  shutdown_timeout_secs := ManifestTypes.shutdown_timeout_secs server; logging_enabled := logging server;
  http_allowed := ManifestTypes.http_allowed server; scripts_dir := scripts server;
  hot_reload := false; aot_cache_max_mb := 0; fuel_budget := None |}.

Definition apply_manifest_server_config (sys : SystemConfig) (server : TomlServerConfig) : HostConfig :=
  let '(cache, cache_bytes, concurrent, per_module) :=
    limits sys (toml_auto server) (toml_cache_size server) (toml_max_cache_mb server)
      (toml_max_concurrent_requests server) (toml_max_per_module_requests server) in {|
  modules_path := toml_modules server; user_modules_path := toml_user_modules server; cache_size := cache;
  max_cache_bytes := cache_bytes; static_dir := toml_static server; port := toml_port server;
  execution_timeout_secs := toml_execution_timeout_secs server;
  memory_limit_bytes := toml_memory_limit_bytes server; max_concurrent_requests := concurrent;
  max_body_size_bytes := wrap_u64 (toml_max_body_size_mb server * 1024 * 1024);
  max_per_module_requests := per_module; shutdown_timeout_secs := toml_shutdown_timeout_secs server;
  logging_enabled := toml_logging server; http_allowed := toml_http_allowed server;
  scripts_dir := toml_scripts server; hot_reload := false; aot_cache_max_mb := 0; fuel_budget := None |}.

(** [TomlServerConfig]'s derived [Default]: the defaults of the types, not
    those [serde] gives to the fields that a section leaves out. It is used
    when the file has no [server] section at all. *)
Definition toml_default : TomlServerConfig := {|
  toml_auto := false; toml_port := 0; toml_modules := EmptyString; toml_user_modules := None;
  toml_static := None; toml_cache_size := 0; toml_max_cache_mb := 0; toml_execution_timeout_secs := 0;
  toml_memory_limit_bytes := 0; toml_max_concurrent_requests := 0; toml_max_body_size_mb := 0;
  toml_max_per_module_requests := 0; toml_shutdown_timeout_secs := 0; toml_logging := false;
  toml_http_allowed := []; toml_scripts := None |}.

Section Files.
Variable exists_ : string -> bool.
Variable read_to_string : string -> result string string.
(** [toml::from_str::<PartialManifest>]: the [server] section, if there is one. *)
Variable from_str : string -> result (option TomlServerConfig) string.

Definition from_manifest_file (sys : SystemConfig) (path : string) : result HostConfig (list string) :=
  match read_to_string path with
  | Err e => Err ["Failed to read " +:+ path; e]
  | Ok content =>
      match from_str content with
      | Err e => Err ["Failed to parse " +:+ path; e]
      | Ok server => Ok (apply_manifest_server_config sys (default toml_default server))
      end
  end.

Definition from_manifest_file_or_default (sys : SystemConfig) (c : HostConfig) : HostConfig :=
  if exists_ "mik.toml"
  then match from_manifest_file sys "mik.toml" with Ok c => c | Err _ => c end
  else c.
End Files.

(** ** Host *)

Section Host.
Variable is_file : Path -> bool.
Variable is_dir : Path -> bool.
(** [Component::from_file] *)
Variable Comp : Type.
Variable from_file : Path -> result Comp string.
Variable read_dir : Path -> result (list string) string.

Definition COMPOSED : string := "-composed".

(** The name of the single component: the file's stem without the suffix of
    composition. *)
Definition component_name (p : Path) : string :=
  match file_stem p with
  | Some s => default s (Str.strip_suffix COMPOSED s)
  | None => "component"
  end.

Definition available (entries : list string) : list string :=
  omap (fun f => let path := [Normal f] in
    if bool_decide (extension path = Some "wasm") then file_stem path else None) entries.

(** The directory of the modules, and the component with its name in
    single-component mode. *)
Definition determine_module_mode (modules_path : Path) : result (Path * option (Comp * string)) string :=
  if is_file modules_path then
    match from_file modules_path with
    | Err _ => Err "Failed to load component"
    | Ok component =>
        Ok (default modules_path (parent modules_path), Some (component, component_name modules_path))
    end
  else if is_dir modules_path then
    match read_dir modules_path with
    | Err e => Err e
    | Ok entries =>
        match available entries with
        | [] => Err ("No .wasm files found in " +:+ to_str modules_path)
        | _ => Ok (modules_path, None)
        end
    end
  else Err ("Path does not exist: " +:+ to_str modules_path).

(** [create_aot_cache]: [None] when the cache is bypassed, else its size. *)
Definition aot_cache_max_bytes (c : HostConfig) : option Z :=
  if hot_reload c then None
  else Some (if 0 <? aot_cache_max_mb c then wrap_u64 (aot_cache_max_mb c * 1024 * 1024)
             else DEFAULT_AOT_CACHE_SIZE_BYTES).
End Host.

(** ** Lemmas *)

Lemma clamp_range lo hi x : lo <= hi -> lo <= clamp lo hi x <= hi.
Proof. intros. unfold clamp. destruct (Z.ltb_spec x lo); [lia|]. destruct (Z.ltb_spec hi x); lia. Qed.

(** Validation, declaratively. *)
Definition valid (c : HostConfig) : Prop :=
  0 < execution_timeout_secs c <= 300 /\
  MIN_MEMORY_LIMIT_BYTES <= memory_limit_bytes c <= MAX_MEMORY_LIMIT_BYTES /\
  0 < max_concurrent_requests c /\ max_per_module_requests c <= max_concurrent_requests c.

Lemma validate_iff c :
  0 <= execution_timeout_secs c -> 0 <= max_concurrent_requests c ->
  validate c = Ok tt <-> valid c.
Proof.
  intros Ht Hc. unfold validate, valid, MAX_EXECUTION_TIMEOUT_SECS.
  repeat match goal with
    | |- context [if ?a =? ?b then _ else _] => destruct (Z.eqb_spec a b)
    | |- context [if ?a <? ?b then _ else _] => destruct (Z.ltb_spec a b)
    end; split; intros Hv; try done; lia.
Qed.

Lemma detected_ranges mem cores :
  let sys := detect mem cores in
  10 <= sys_cache_size sys <= 1000 /\ 64 * MB <= sys_max_cache_bytes sys <= 1024 * MB /\
  100 <= sys_max_concurrent_requests sys <= 10000 /\
  10 <= sys_max_per_module_requests sys <= 500 /\
  sys_max_per_module_requests sys <= sys_max_concurrent_requests sys.
Proof.
  cbn [detect sys_cache_size sys_max_cache_bytes sys_max_concurrent_requests sys_max_per_module_requests].
  set (k := clamp 100 10000 _). assert (100 <= k <= 10000) as Hk by (by apply clamp_range).
  pose proof (clamp_range 10 1000 (mem / (10 * 1024 * 1024)) ltac:(lia)).
  pose proof (clamp_range (64 * 1024 * 1024) (1024 * 1024 * 1024) (mem / 10) ltac:(lia)).
  pose proof (clamp_range 10 500 (k / 10) ltac:(lia)).
  unfold MB. split_and!; try lia.
  assert (k / 10 <= k) by (apply Z.div_le_upper_bound; lia).
  unfold clamp. destruct (Z.ltb_spec (k / 10) 10); [lia|]. destruct (Z.ltb_spec 500 (k / 10)); lia.
Qed.

(** Which limits of requests a section ends up with. *)
Definition concurrent_of (sys : SystemConfig) (s : TomlServerConfig) : Z :=
  if 0 <? toml_max_concurrent_requests s then toml_max_concurrent_requests s
  else if toml_auto s then sys_max_concurrent_requests sys else DEFAULT_MAX_CONCURRENT_REQUESTS.
Definition per_module_of (sys : SystemConfig) (s : TomlServerConfig) : Z :=
  if 0 <? toml_max_per_module_requests s then toml_max_per_module_requests s
  else if toml_auto s then sys_max_per_module_requests sys else DEFAULT_MAX_PER_MODULE_REQUESTS.

Lemma configured_limits sys s :
  max_concurrent_requests (apply_manifest_server_config sys s) = concurrent_of sys s /\
  max_per_module_requests (apply_manifest_server_config sys s) = per_module_of sys s.
Proof.
  unfold apply_manifest_server_config, limits, concurrent_of, per_module_of, explicit. by destruct (toml_auto s).
Qed.

(** The section of a [Manifest], as the file builder would read it: what it
    has no field for is dropped, and the memory limit is the default. *)
Definition toml_of (s : ServerConfig) : TomlServerConfig := {|
  toml_auto := auto s; toml_port := ManifestTypes.port s; toml_modules := modules s;
  toml_user_modules := user_modules s; toml_static := static s;
  toml_cache_size := ManifestTypes.cache_size s; toml_max_cache_mb := max_cache_mb s;
  toml_execution_timeout_secs := ManifestTypes.execution_timeout_secs s;
  toml_memory_limit_bytes := DEFAULT_MEMORY_LIMIT_BYTES;
  toml_max_concurrent_requests := ManifestTypes.max_concurrent_requests s;
  toml_max_body_size_mb := max_body_size_mb s;
  toml_max_per_module_requests := ManifestTypes.max_per_module_requests s;
  toml_shutdown_timeout_secs := ManifestTypes.shutdown_timeout_secs s; toml_logging := logging s;
  toml_http_allowed := ManifestTypes.http_allowed s; toml_scripts := scripts s |}.

(** ** Properties *)

(** What configuration a manifest gives. For every machine and every
    section, the runtime is accepted exactly when the timeout is between 1 and
    300 seconds, the memory limit between 1 MB and 4 GB, and the limit of a
    module does not exceed that of the runtime, where both are detected or
    default when the section leaves them out; so a section without explicit
    request limits is always accepted, with at least ten requests to a module,
    while one that only lowers the runtime's limit below ten is not. A file
    without a [server] section is never accepted. The two builders differ in
    the memory limit alone. *)
Lemma manifest_configuration (total_memory : Z) (cores : option Z) (s : TomlServerConfig) :
  is_u64 (toml_execution_timeout_secs s) ->
  let sys := detect total_memory cores in
  let c := apply_manifest_server_config sys s in
  (validate c = Ok tt <->
     1 <= toml_execution_timeout_secs s <= 300 /\
     MB <= toml_memory_limit_bytes s <= 4096 * MB /\
     per_module_of sys s <= concurrent_of sys s) /\
  (toml_max_concurrent_requests s = 0 -> toml_max_per_module_requests s = 0 ->
     per_module_of sys s <= concurrent_of sys s /\
     10 <= max_per_module_requests c <= 500 /\ 100 <= max_concurrent_requests c <= 10000) /\
  (0 < toml_max_concurrent_requests s < 10 -> toml_max_per_module_requests s = 0 ->
     exists reason, validate c = Err reason) /\
  (forall read_to_string from_str path content,
     read_to_string path = Ok content -> from_str content = Ok None ->
     exists c, from_manifest_file read_to_string from_str sys path = Ok c /\
       validate c = Err (Timeout 0 "must be greater than 0")) /\
  (forall m, from_server_config sys m = apply_manifest_server_config sys (toml_of m)).
Proof.
  intros [Ht _] sys c.
  pose proof (detected_ranges total_memory cores) as (_ & _ & Hc & Hp & Hpc). fold sys in Hc, Hp, Hpc.
  destruct (configured_limits sys s) as [Ec Ep]. fold c in Ec, Ep.
  assert (0 < concurrent_of sys s) as Hpos.
  { unfold concurrent_of, DEFAULT_MAX_CONCURRENT_REQUESTS.
    destruct (Z.ltb_spec 0 (toml_max_concurrent_requests s)); [done|]. destruct (toml_auto _); lia. }
  assert (execution_timeout_secs c = toml_execution_timeout_secs s /\ memory_limit_bytes c = toml_memory_limit_bytes s)
    as [Et Em] by (unfold c, apply_manifest_server_config; by destruct (limits _ _ _ _ _ _) as [[[? ?] ?] ?]).
  assert (validate c = Ok tt <->
     1 <= toml_execution_timeout_secs s <= 300 /\ MB <= toml_memory_limit_bytes s <= 4096 * MB /\
     per_module_of sys s <= concurrent_of sys s) as Hv.
  { rewrite validate_iff by lia. unfold valid, MIN_MEMORY_LIMIT_BYTES, MAX_MEMORY_LIMIT_BYTES, MB.
    rewrite Et, Em, Ec, Ep. lia. }
  split; [exact Hv|]. split; [|split; [|split; [|done]]].
  - intros H1 H2. rewrite Ec, Ep. unfold concurrent_of, per_module_of. rewrite H1, H2. cbn [Z.ltb Z.compare].
    unfold DEFAULT_MAX_CONCURRENT_REQUESTS, DEFAULT_MAX_PER_MODULE_REQUESTS. destruct (toml_auto _); lia.
  - intros H1 H2. destruct (validate c) as [[]|e]; [|by exists e]. exfalso.
    destruct (proj1 Hv eq_refl) as (_ & _ & Hle). revert Hle. unfold per_module_of, concurrent_of. rewrite H2.
    cbn [Z.ltb Z.compare]. destruct (Z.ltb_spec 0 (toml_max_concurrent_requests s)); [|lia].
    unfold DEFAULT_MAX_PER_MODULE_REQUESTS. destruct (toml_auto _); lia.
  - intros read_to_string from_str path content Hr Hf. eexists. unfold from_manifest_file. by rewrite Hr, Hf.
Qed.

(** ** Witness *)

