(* ===== verification/Builders.v ===== *)
(** Builders: the methods that configure a runtime, a server, a proxy and a load
    balancer one field at a time, of [src/src/runtime/builder.rs], [server.rs],
    [lb/proxy.rs] and [lb/server.rs]: a call replaces what an earlier call on
    the same field set, whatever is called in between; backends add up; and a
    manifest replaces everything. *)

From stdpp Require Import base list.
From S2P Require Import Prelude LbBreaker LbBackend LbHealth LbProxy LbServer ManifestTypes HostConfig.

#[local] Open Scope Z_scope.

(** ** Setters

    What makes methods setters: two on the same field override each other, two
    on different fields commute. *)
Class Setters (St B : Type) := {
  set_field : St -> B -> B;
  field : St -> nat;
  set_field_override s s' b : field s = field s' -> set_field s (set_field s' b) = set_field s b;
  set_field_commute s s' b : field s <> field s' -> set_field s (set_field s' b) = set_field s' (set_field s b);
}.

Section Setters.
Context {St B : Type} `{Setters St B}.

Definition sets (b : B) (ss : list St) : B := foldl (fun b s => set_field s b) b ss.

(** The last call on each field *)
Fixpoint effective (ss : list St) : list St :=
  match ss with
  | [] => []
  | s :: ss => if existsb (fun s' => Nat.eqb (field s) (field s')) ss then effective ss else s :: effective ss
  end.

Lemma sets_absorb ss s b : existsb (fun s' => Nat.eqb (field s) (field s')) ss = true -> sets (set_field s b) ss = sets b ss.
Proof.
  revert b. induction ss as [|s' ss IH]; intros b; [done|]. cbn.
  destruct (Nat.eqb_spec (field s) (field s')) as [He|Hne]; cbn.
  - intros _. by rewrite set_field_override.
  - intros Hex. rewrite set_field_commute by congruence. by apply IH.
Qed.

(** Only the last call on each field counts. *)
Lemma effective_sets ss b : sets b (effective ss) = sets b ss.
Proof.
  revert b. induction ss as [|s ss IH]; intros b; [done|]. cbn.
  destruct (existsb _ ss) eqn:E; [by rewrite IH; symmetry; apply sets_absorb|]. cbn. apply IH.
Qed.

(** Calls on different fields may come in any order. *)
Lemma sets_permutation ss ss' b : NoDup (field <$> ss) -> ss ≡ₚ ss' -> sets b ss = sets b ss'.
Proof.
  intros Hnd Hp. revert b Hnd. induction Hp as [|s ss ss' Hp IH|s s' ss|ss ss' ss'' Hp IH Hp' IH']; intros b Hnd.
  - done.
  - cbn. apply IH. by apply NoDup_cons in Hnd as [_ ?].
  - cbn. rewrite set_field_commute; [done|]. apply NoDup_cons in Hnd as [Hs _]. intros E. apply Hs. rewrite E. left.
  - rewrite (IH b Hnd). apply IH'. by rewrite <- Hp.
Qed.
End Setters.

(** ** [RuntimeBuilder] *)

(** The methods that set a field, with their arguments *)
Inductive Setter :=
| s_modules_dir (path : string)
| s_cache_size (size : Z)
| s_max_cache_bytes (bytes : Z)
| s_static_dir (path : string)
| s_scripts_dir (path : string)
| s_user_modules_dir (path : string)
| s_port (port : Z)
| s_execution_timeout (timeout : Duration)
| s_execution_timeout_secs (timeout_secs : Z)
| s_memory_limit (limit_bytes : Z)
| s_max_concurrent_requests (max : Z)
| s_max_body_size (max_bytes : Z)
| s_max_per_module_requests (max : Z)
| s_shutdown_timeout (timeout : Duration)
| s_logging (enabled : bool)
| s_http_allowed (hosts : list string)
| s_hot_reload (enabled : bool)
| s_aot_cache_max_mb (max_mb : Z)
| s_fuel_budget (budget : Z).

Definition set_host (s : Setter) (c : HostConfig) : HostConfig := {|
  modules_path := match s with s_modules_dir p => p | _ => modules_path c end;
  user_modules_path := match s with s_user_modules_dir p => Some p | _ => user_modules_path c end;
  cache_size := match s with s_cache_size n => n | _ => cache_size c end;
  max_cache_bytes := match s with s_max_cache_bytes n => n | _ => max_cache_bytes c end;
  static_dir := match s with s_static_dir p => Some p | _ => static_dir c end;
  port := match s with s_port p => p | _ => port c end;
  execution_timeout_secs :=
    match s with
    | s_execution_timeout d => as_secs d
    | s_execution_timeout_secs n => n
    | _ => execution_timeout_secs c
    end;
  memory_limit_bytes := match s with s_memory_limit n => n | _ => memory_limit_bytes c end;
  max_concurrent_requests := match s with s_max_concurrent_requests n => n | _ => max_concurrent_requests c end;
  max_body_size_bytes := match s with s_max_body_size n => n | _ => max_body_size_bytes c end;
  max_per_module_requests := match s with s_max_per_module_requests n => n | _ => max_per_module_requests c end;
  shutdown_timeout_secs := match s with s_shutdown_timeout d => as_secs d | _ => shutdown_timeout_secs c end;
  logging_enabled := match s with s_logging b => b | _ => logging_enabled c end;
  http_allowed := match s with s_http_allowed l => l | _ => http_allowed c end;
  scripts_dir := match s with s_scripts_dir p => Some p | _ => scripts_dir c end;
  hot_reload := match s with s_hot_reload b => b | _ => hot_reload c end;
  aot_cache_max_mb := match s with s_aot_cache_max_mb n => n | _ => aot_cache_max_mb c end;
  fuel_budget := match s with s_fuel_budget n => Some n | _ => fuel_budget c end |}.

(** A chain of calls: [from_manifest] and [from_server_config] start anew. *)
Inductive Call := Set_ (s : Setter) | FromManifest (server : ServerConfig).

Section Chain.
Variable sys : SystemConfig.

Definition call (c : HostConfig) (k : Call) : HostConfig :=
  match k with
  | Set_ s => set_host s c
  | FromManifest server => from_server_config sys server
  end.
Definition configured (ks : list Call) : HostConfig := foldl call default_host_config ks.
End Chain.

(** ** [Server] and [ServerBuilder] *)

Section Server.
Context {Addr R : Type}.
(** [str::parse::<SocketAddr>], and the address with a port on all interfaces *)
Variable parse : string -> result Addr string.
Variable any_host : Z -> Addr.
Variable localhost : Z -> Addr.

Record Server := { runtime : R; addr : Addr }.
Record ServerBuilder := { sb_runtime : R; sb_addr : option Addr }.

Definition bind (r : R) (a : string) : result Server string :=
  let? a := parse a in Ok {| runtime := r; addr := a |}.

Definition server_builder (r : R) : ServerBuilder := {| sb_runtime := r; sb_addr := None |}.
Definition builder_bind (a : string) (b : ServerBuilder) : result ServerBuilder string :=
  let? a := parse a in Ok {| sb_runtime := sb_runtime b; sb_addr := Some a |}.
Definition builder_addr (a : Addr) (b : ServerBuilder) : ServerBuilder :=
  {| sb_runtime := sb_runtime b; sb_addr := Some a |}.
Definition builder_port (p : Z) (b : ServerBuilder) : ServerBuilder :=
  {| sb_runtime := sb_runtime b; sb_addr := Some (any_host p) |}.
Definition builder_build (b : ServerBuilder) : Server :=
  {| runtime := sb_runtime b; addr := default (localhost 3000) (sb_addr b) |}.

(** Binding through the builder is binding directly. *)
Lemma builder_bind_is_bind r a :
  (let? b := builder_bind a (server_builder r) in Ok (builder_build b)) = bind r a.
Proof. unfold builder_bind, bind. by destruct (parse a). Qed.
End Server.

(** ** [Backend] *)

Definition backend_http (address : string) : Backend := Http (http_new address).
Definition backend_http_with_options (address : string) (weight max_connections : Z) : Backend :=
  Http (LbBackend.http_with_options address weight max_connections).
Definition backend_http_with_circuit_breaker (address : string) (config : LbBreaker.Config) : Backend :=
  Http (LbBackend.http_with_circuit_breaker address config).
Definition backend_runtime (handler : string) : Backend := Runtime (runtime_new handler).
Definition backend_runtime_with_options (handler : string) (weight max_connections : Z) : Backend :=
  Runtime (LbBackend.runtime_with_options handler weight max_connections).

Definition backend_active_requests (b : Backend) : Z := active_requests (counters b).
Definition backend_success_count (b : Backend) : Z := success_count (counters b).
Definition backend_failure_count (b : Backend) : Z := failure_count (counters b).

(** ** [ProxyBuilder] *)

Inductive ProxySetter :=
| ps_strategy (strategy : LoadBalanceStrategy)
| ps_health_check (config : option HealthCheckConfig)
| ps_request_timeout (timeout : Duration)
| ps_max_connections_per_backend (max : Z)
| ps_pool_idle_timeout (timeout : Duration)
| ps_tcp_keepalive (interval : Duration)
| ps_http2_only (enabled : bool).

Definition set_proxy (s : ProxySetter) (b : ProxyBuilder) : ProxyBuilder := {|
  pb_backends := pb_backends b;
  pb_strategy := match s with ps_strategy x => x | _ => pb_strategy b end;
  pb_health_check := match s with ps_health_check x => x | _ => pb_health_check b end;
  pb_request_timeout := match s with ps_request_timeout x => x | _ => pb_request_timeout b end;
  pb_max_connections_per_backend :=
    match s with ps_max_connections_per_backend x => x | _ => pb_max_connections_per_backend b end;
  pb_pool_idle_timeout := match s with ps_pool_idle_timeout x => x | _ => pb_pool_idle_timeout b end;
  pb_tcp_keepalive := match s with ps_tcp_keepalive x => x | _ => pb_tcp_keepalive b end;
  pb_http2_only := match s with ps_http2_only x => x | _ => pb_http2_only b end |}.

Definition http_backend (address : string) : ProxyBuilder -> ProxyBuilder := pb_backend (backend_http address).

(** ** [LoadBalancerBuilder] *)

Section LoadBalancer.
Context {Addr : Type}.

Inductive LbSetter :=
| ls_listen (addr : Addr)
| ls_strategy (strategy : LoadBalanceStrategy)
| ls_health_check_path (path : string)
| ls_health_check (config : option HealthCheckConfig)
| ls_request_timeout (timeout : Duration)
| ls_max_connections_per_backend (max : Z)
| ls_pool_idle_timeout (timeout : Duration)
| ls_tcp_keepalive (interval : Duration)
| ls_http2_only (enabled : bool).

Definition set_lb (s : LbSetter) (b : LoadBalancerBuilder Addr) : LoadBalancerBuilder Addr := {|
  LbServer.addr := match s with ls_listen x => x | _ => LbServer.addr b end;
  lb_backends := lb_backends b;
  lb_strategy := match s with ls_strategy x => x | _ => lb_strategy b end;
  lb_health_check :=
    match s with
    | ls_health_check_path p => Some (config_http p)
    | ls_health_check x => x
    | _ => lb_health_check b
    end;
  lb_request_timeout := match s with ls_request_timeout x => x | _ => lb_request_timeout b end;
  lb_max_connections_per_backend :=
    match s with ls_max_connections_per_backend x => x | _ => lb_max_connections_per_backend b end;
  lb_pool_idle_timeout := match s with ls_pool_idle_timeout x => x | _ => lb_pool_idle_timeout b end;
  lb_tcp_keepalive := match s with ls_tcp_keepalive x => x | _ => lb_tcp_keepalive b end;
  lb_http2_only := match s with ls_http2_only x => x | _ => lb_http2_only b end |}.

(** [backends] *)
Definition lb_add_backends (l : list string) (b : LoadBalancerBuilder Addr) : LoadBalancerBuilder Addr := {|
  LbServer.addr := LbServer.addr b; lb_backends := lb_backends b ++ l; lb_strategy := lb_strategy b;
  lb_health_check := lb_health_check b; lb_request_timeout := lb_request_timeout b;
  lb_max_connections_per_backend := lb_max_connections_per_backend b;
  lb_pool_idle_timeout := lb_pool_idle_timeout b; lb_tcp_keepalive := lb_tcp_keepalive b;
  lb_http2_only := lb_http2_only b |}.

(** A call on the builder, and a chain of them *)
Inductive LbCall := LSet (s : LbSetter) | LBackend (a : string) | LBackends (l : list string).

Definition lb_call (b : LoadBalancerBuilder Addr) (c : LbCall) : LoadBalancerBuilder Addr :=
  match c with
  | LSet s => set_lb s b
  | LBackend a => lb_backend a b
  | LBackends l => lb_add_backends l b
  end.
Definition lb_configured (default_listen_addr : Addr) (cs : list LbCall) : LoadBalancerBuilder Addr :=
  foldl lb_call (lb_builder_new default_listen_addr) cs.

(** [LoadBalancer::new] *)
Definition load_balancer_new (p : Proxy RoundRobin) (addr : Addr) : LoadBalancer Addr :=
  {| proxy := p; lb_addr := addr; http2_only := false |}.

Definition lb_field (s : LbSetter) : nat :=
  match s with
  | ls_listen _ => 0 | ls_strategy _ => 1 | ls_health_check_path _ | ls_health_check _ => 2 | ls_request_timeout _ => 3
  | ls_max_connections_per_backend _ => 4 | ls_pool_idle_timeout _ => 5 | ls_tcp_keepalive _ => 6 | ls_http2_only _ => 7
  end%nat.

#[export] Instance lb_setters : Setters LbSetter (LoadBalancerBuilder Addr).
Proof. refine {| set_field := set_lb; field := lb_field |}; by intros [] []. Defined.

(** The backends and the settings of a chain *)
Definition call_backends (c : LbCall) : list string :=
  match c with LSet _ => [] | LBackend a => [a] | LBackends l => l end.
Definition call_setting (c : LbCall) : option LbSetter := match c with LSet s => Some s | _ => None end.

Lemma lb_add_sets l ss b : lb_add_backends l (sets b ss) = sets (lb_add_backends l b) ss.
Proof.
  revert b. induction ss as [|s ss IH]; intros b; [done|]. cbn [sets foldl]. fold (sets (set_field s b) ss).
  by rewrite IH.
Qed.

Lemma lb_add_add l l' b : lb_add_backends l' (lb_add_backends l b) = lb_add_backends (l ++ l') b.
Proof. unfold lb_add_backends. cbn. by rewrite app_assoc. Qed.

(** A chain is its backends in the order in which they were given, and the
    last call on each field. *)
Lemma lb_configured_spec default_addr cs :
  lb_configured default_addr cs =
  lb_add_backends (mjoin (call_backends <$> cs)) (sets (lb_builder_new default_addr) (effective (omap call_setting cs))).
Proof.
  rewrite effective_sets. unfold lb_configured. generalize (lb_builder_new default_addr). induction cs as [|c cs IH]; intros b.
  - cbn. destruct b. unfold lb_add_backends. cbn. by rewrite app_nil_r.
  - cbn [foldl]. rewrite IH. destruct c as [s|a|l]; cbn [lb_call call_backends call_setting fmap list_fmap mjoin list_join app].
    + done.
    + change (omap call_setting (LBackend a :: cs)) with (omap call_setting cs).
      change (lb_backend a b) with (lb_add_backends [a] b). by rewrite <- lb_add_sets, lb_add_add.
    + change (omap call_setting (LBackends l :: cs)) with (omap call_setting cs). by rewrite <- lb_add_sets, lb_add_add.
Qed.
End LoadBalancer.

(** ** Lemmas *)

(** The fields; [execution_timeout] and [execution_timeout_secs] share one. *)
Definition host_field (s : Setter) : nat :=
  match s with
  | s_modules_dir _ => 0 | s_cache_size _ => 1 | s_max_cache_bytes _ => 2 | s_static_dir _ => 3 | s_scripts_dir _ => 4
  | s_user_modules_dir _ => 5 | s_port _ => 6 | s_execution_timeout _ | s_execution_timeout_secs _ => 7
  | s_memory_limit _ => 8 | s_max_concurrent_requests _ => 9 | s_max_body_size _ => 10
  | s_max_per_module_requests _ => 11 | s_shutdown_timeout _ => 12 | s_logging _ => 13 | s_http_allowed _ => 14
  | s_hot_reload _ => 15 | s_aot_cache_max_mb _ => 16 | s_fuel_budget _ => 17
  end%nat.

#[export] Instance host_setters : Setters Setter HostConfig.
Proof. refine {| set_field := set_host; field := host_field |}; by intros [] []. Defined.

Definition proxy_field (s : ProxySetter) : nat :=
  match s with
  | ps_strategy _ => 0 | ps_health_check _ => 1 | ps_request_timeout _ => 2 | ps_max_connections_per_backend _ => 3
  | ps_pool_idle_timeout _ => 4 | ps_tcp_keepalive _ => 5 | ps_http2_only _ => 6
  end%nat.

#[export] Instance proxy_setters : Setters ProxySetter ProxyBuilder.
Proof. refine {| set_field := set_proxy; field := proxy_field |}; by intros [] []. Defined.

(** What was configured before a manifest is lost. *)
Lemma configured_manifest sys ks server ss :
  configured sys (ks ++ FromManifest server :: (Set_ <$> ss)) = sets (from_server_config sys server) (effective ss).
Proof.
  unfold configured. rewrite foldl_app. cbn [foldl call]. rewrite effective_sets.
  generalize (from_server_config sys server). induction ss as [|s ss IH]; intros c; [done|apply IH].
Qed.
