(* ===== verification/Manifest.v ===== *)
(** Manifest: validation of [mik.toml], of [src/src/manifest/validation.rs],
    on the data of ManifestTypes.v. Parsing versions and URLs, and the file
    system are parameters. *)

From stdpp Require Import base list strings.
From S2P Require Import Prelude StdPath ModulePath Json ManifestTypes.

#[local] Open Scope Z_scope.

(** ** Data *)

Inductive ValidationError :=
| EmptyProjectName
| InvalidProjectName (name : string)
| EmptyVersion
| InvalidVersion (version : string)
| InvalidPort
| EmptyModulesDir
| DependencyError (message : string).

(** ** Names *)

Definition name_char (c : ascii) : bool :=
  (Str.is_alphanumeric c || Ascii.eqb c "-" || Ascii.eqb c "_")%bool.

Definition is_valid_name (name : string) : bool :=
  if (Str.is_empty name || (64 <? Str.len name))%bool then false
  else if (Str.contains_char Str.SLASH name || Str.contains_char Str.BACKSLASH name || Str.contains ".." name)%bool
  then false
  else match name with
       | String first rest =>
           if (negb (Str.is_alpha first) && negb (Ascii.eqb first "_"))%bool then false
           else Str.all name_char rest
       | EmptyString => true
       end.

(** ** Dependencies *)

(** A string between double quotes. *)
Definition json_dq (s : string) : string := String "034" (s +:+ String "034" EmptyString).

(** A line break and the indentation of the messages. *)
Definition BR : string := NL +:+ "  ".
Definition quoted (dep_type name : string) : string := dep_type +:+ " '" +:+ name +:+ "'".

(** The field is there, and empty. *)
Definition is_blank (o : option string) : bool :=
  match o with Some s => Str.is_empty s | None => false end.
Definition is_set (o : option string) : bool :=
  match o with Some s => negb (Str.is_empty s) | None => false end.
Definition is_some (o : option string) : bool := match o with Some _ => true | None => false end.

Definition validate_detail_empty_fields (name : string) (detail : DependencyDetail) (dep_type : string)
  : result unit string :=
  if is_blank (version detail)
  then Err (quoted dep_type name +:+ " has empty version string" +:+ BR +:+
            "Fix: Specify a version like: " +:+ name +:+ " = " +:+ json_dq "1.0")
  else if is_blank (git detail)
  then Err (quoted dep_type name +:+ " has empty git URL" +:+ BR +:+
            "Fix: Specify a git URL like: git = " +:+ json_dq "https://github.com/user/repo.git")
  else if is_blank (path detail)
  then Err (quoted dep_type name +:+ " has empty path" +:+ BR +:+
            "Fix: Specify a path like: path = " +:+ json_dq "../component.wasm")
  else if is_blank (registry detail)
  then Err (quoted dep_type name +:+ " has empty registry URL" +:+ BR +:+
            "Fix: Specify a registry like: registry = " +:+ json_dq "ghcr.io/user/component")
  else Ok tt.

Definition validate_dependency_sources (name : string) (detail : DependencyDetail) (dep_type : string)
  : result unit string :=
  let has_version := is_set (version detail) in
  let has_git := is_set (git detail) in
  let has_path := is_set (path detail) in
  let has_registry := is_set (registry detail) in
  match has_version, has_git, has_path, has_registry with
  | true, false, false, _ | false, true, false, false | false, false, true, false
  | false, false, false, true => Ok tt
  | false, false, false, false =>
      Err (quoted dep_type name +:+ " must specify at least one source:" +:+
           BR +:+ "- version = " +:+ json_dq "1.0" +:+ " (from default registry)" +:+
           BR +:+ "- git = " +:+ json_dq "https://github.com/..." +:+
           BR +:+ "- path = " +:+ json_dq "../local/path" +:+
           BR +:+ "- registry = " +:+ json_dq "ghcr.io/user/component" +:+ " (requires version)")
  | _, _, _, _ =>
      let sources_list :=
        (if has_version then ["version"] else []) ++ (if has_git then ["git"] else []) ++
        (if has_path then ["path"] else []) ++ (if has_registry then ["registry"] else []) in
      if (has_registry && has_version && negb has_git && negb has_path)%bool then Ok tt
      else Err (quoted dep_type name +:+ " specifies multiple sources: " +:+ Str.join ", " sources_list +:+
                BR +:+ "Only one source type is allowed per dependency" +:+
                BR +:+ "Note: registry requires both 'registry' and 'version' fields")
  end.

Section Validation.
Variable exists_ : Path -> bool.
Variable is_dir : Path -> bool.
(** [semver::Version::parse(_).is_ok()] *)
Variable is_valid_version : string -> bool.
(** [Url::parse(_)]: the scheme and whether there is a host. *)
Variable parse_url : string -> option (string * bool).

Definition validate_path_dependency (name path : string) (manifest_dir : Path) (dep_type : string)
  : result unit string :=
  let dep_path := join_str manifest_dir path in
  if negb (exists_ dep_path)
  then Err (quoted dep_type name +:+ " references non-existent path: " +:+ path +:+
            BR +:+ "Current directory: " +:+ to_str manifest_dir +:+
            BR +:+ "Resolved path: " +:+ to_str dep_path +:+
            BR +:+ "Fix: Ensure the component file exists or update the path")
  else
    let has_wasm_ext := match extension (components path) with
                        | Some e => String.eqb (Str.to_ascii_lowercase e) "wasm"
                        | None => false
                        end in
    if (negb has_wasm_ext && negb (is_dir dep_path))%bool
    then Err (quoted dep_type name +:+ " path '" +:+ path +:+ "' should be a .wasm file or directory" +:+
              BR +:+ "Current: " +:+ to_str dep_path +:+
              BR +:+ "Expected: " +:+ name +:+ ".wasm or a directory containing mik.toml")
    else Ok tt.

Definition is_valid_git_url (git : string) : bool :=
  if Str.starts_with "git@" git
  then match Str.find_char Str.COLON git with
       | Some pos => pos + 1 <? Str.len git
       | None => false
       end
  else match parse_url git with
       | Some (scheme, has_host) =>
           ((String.eqb scheme "http" || String.eqb scheme "https" || String.eqb scheme "git" ||
             String.eqb scheme "ssh") && has_host)%bool
       | None => false
       end.

Definition git_refs (detail : DependencyDetail) : list string :=
  (if is_some (branch detail) then ["branch"] else []) ++ (if is_some (tag detail) then ["tag"] else []) ++
  (if is_some (rev detail) then ["rev"] else []).

Definition validate_git_dependency (name : string) (detail : DependencyDetail) (dep_type : string)
  : result unit string :=
  match git detail with
  | None => Ok tt
  | Some git =>
      if negb (is_valid_git_url git)
      then Err (quoted dep_type name +:+ " has invalid git URL: " +:+ git +:+
                BR +:+ "Valid formats:" +:+
                BR +:+ "- https://github.com/user/repo.git" +:+
                BR +:+ "- git://github.com/user/repo.git" +:+
                BR +:+ "- ssh://git@github.com/user/repo.git" +:+
                BR +:+ "- git@github.com:user/repo.git")
      else if (1 <? length (git_refs detail))%nat
      then Err (quoted dep_type name +:+ " specifies multiple git refs: " +:+ Str.join ", " (git_refs detail) +:+
                BR +:+ "Only one of branch, tag, or rev is allowed")
      else Ok tt
  end.

Definition validate_dependency (name : string) (dep : Dependency) (manifest_dir : Path) (is_dev : bool)
  : result unit string :=
  let dep_type := if is_dev then "dev-dependency" else "dependency" in
  if Str.is_empty name
  then Err ("Empty " +:+ dep_type +:+ " name found. Dependency names must be non-empty")
  else match dep with
       | Simple version =>
           if Str.is_empty version
           then Err (quoted dep_type name +:+ " has empty version string" +:+ BR +:+
                     "Fix: Specify a version like: " +:+ name +:+ " = " +:+ json_dq "1.0")
           else Ok tt
       | Detailed detail =>
           let? _ := validate_detail_empty_fields name detail dep_type in
           let? _ := validate_dependency_sources name detail dep_type in
           let? _ := match path detail with
                     | Some path => validate_path_dependency name path manifest_dir dep_type
                     | None => Ok tt
                     end in
           let? _ := validate_git_dependency name detail dep_type in
           if (is_some (registry detail) && negb (is_set (version detail)))%bool
           then Err (quoted dep_type name +:+ " with registry must specify a version" +:+ BR +:+
                     "Fix: Add version = " +:+ json_dq "1.0" +:+ " alongside registry")
           else Ok tt
       end.

(** ** Manifests *)

Definition dependency_errors (manifest_dir : Path) (is_dev : bool) (deps : list (string * Dependency))
  : list ValidationError :=
  omap (fun d => match validate_dependency d.1 d.2 manifest_dir is_dev with
                 | Err e => Some (DependencyError e)
                 | Ok _ => None
                 end) deps.

(** The errors [validate] collects, in order. *)
Definition validation_errors (m : Manifest) (manifest_path : Path) : list ValidationError :=
  let manifest_dir := default [CurDir] (parent manifest_path) in
  (if Str.is_empty (project_name (project m)) then [EmptyProjectName]
   else if negb (is_valid_name (project_name (project m))) then [InvalidProjectName (project_name (project m))] else []) ++
  (if Str.is_empty (project_version (project m)) then [EmptyVersion]
   else if negb (is_valid_version (project_version (project m))) then [InvalidVersion (project_version (project m))] else []) ++
  (if port (server m) =? 0 then [InvalidPort] else []) ++
  (if Str.is_empty (modules (server m)) then [EmptyModulesDir] else []) ++
  dependency_errors manifest_dir false (dependencies m) ++
  dependency_errors manifest_dir true (dev_dependencies m).

Definition error_str (e : ValidationError) : string :=
  match e with
  | EmptyProjectName => "Project name is required in [project] section"
  | InvalidProjectName name =>
      "Invalid project name '" +:+ name +:+ "'. Names must:" +:+
      BR +:+ "- Start with a letter or underscore" +:+
      BR +:+ "- Contain only letters, numbers, hyphens, and underscores" +:+
      BR +:+ "- Be between 1 and 64 characters" +:+
      BR +:+ "Example: 'my-component' or 'my_component'"
  | EmptyVersion => "Project version is required in [project] section"
  | InvalidVersion v =>
      "Invalid version '" +:+ v +:+ "'. Version must follow semantic versioning (e.g., '0.1.0', '1.2.3')" +:+
      BR +:+ "Format: MAJOR.MINOR.PATCH" +:+ BR +:+ "See: https://semver.org/"
  | InvalidPort =>
      "Server port cannot be 0. Use a valid port number (1-65535)" +:+
      BR +:+ "Common ports: 3000 (default), 8080, 8000"
  | EmptyModulesDir =>
      "Server modules directory cannot be empty" +:+
      BR +:+ "Fix: Set modules = " +:+ json_dq "modules/" +:+ " in [server] section"
  | DependencyError e => e
  end.

Definition numbered (errors : list ValidationError) : list string :=
  imap (fun i e => "  " +:+ Str.of_Z (Z.of_nat i + 1) +:+ ". " +:+ error_str e) errors.

Definition validate (m : Manifest) (manifest_path : Path) : result unit string :=
  match validation_errors m manifest_path with
  | [] => Ok tt
  | errors =>
      Err ("Validation failed for " +:+ to_str manifest_path +:+ ":" +:+ NL +:+ NL +:+
           Str.join (NL +:+ NL) (numbered errors) +:+ NL +:+ NL +:+
           "Run 'mik new --help' to see valid configuration options.")
  end.

(** ** Valid manifests, declaratively *)

Definition valid_name (s : string) : Prop :=
  1 <= Str.len s <= 64 /\ Str.all name_char s = true /\
  exists c rest, s = String c rest /\ (Str.is_alpha c = true \/ c = "_"%char).

(** The one source a dependency comes from. *)
Inductive Source :=
| FromRegistry (version : string) (registry : option string)
| FromGit (url : string)
| FromPath (path : string).

Definition source_of (d : DependencyDetail) (src : Source) : Prop :=
  match src with
  | FromRegistry v r => version d = Some v /\ v <> "" /\ registry d = r /\ r <> Some "" /\ git d = None /\ path d = None
  | FromGit u => git d = Some u /\ u <> "" /\ version d = None /\ path d = None /\ registry d = None
  | FromPath p => path d = Some p /\ p <> "" /\ version d = None /\ git d = None /\ registry d = None
  end.

Definition source_usable (manifest_dir : Path) (d : DependencyDetail) (src : Source) : Prop :=
  match src with
  | FromRegistry _ _ => True
  | FromGit u => is_valid_git_url u = true /\ (length (git_refs d) <= 1)%nat
  | FromPath p =>
      exists_ (join_str manifest_dir p) = true /\
      (is_dir (join_str manifest_dir p) = true \/
       exists e, extension (components p) = Some e /\ Str.to_ascii_lowercase e = "wasm")
  end.

Definition valid_dependency (manifest_dir : Path) (name : string) (dep : Dependency) : Prop :=
  name <> "" /\
  match dep with
  | Simple v => v <> ""
  | Detailed d => exists src, source_of d src /\ source_usable manifest_dir d src
  end.

(** ** Lemmas *)

Lemma valid_name_iff s : is_valid_name s = true <-> valid_name s.
Proof.
  unfold is_valid_name, valid_name. destruct s as [|c rest]; [split; [done|by intros (_ & _ & ? & ? & ? & _)]|].
  cbn [Str.is_empty orb].
  assert (forall d, name_char d = false -> Str.all name_char (String c rest) = true ->
    Str.contains_char d (String c rest) = false) as Hno.
  { intros d Hd. generalize (String c rest). intros s. unfold Str.contains_char.
    induction s as [|e s IH]; [done|]. cbn [Str.all Str.any]. intros [He Hs]%andb_true_iff.
    rewrite (IH Hs), orb_false_r. by destruct (Ascii.eqb_spec d e) as [<-|]; [congruence|]. }
  destruct (Z.ltb_spec 64 (Str.len (String c rest))) as [Hlen|Hlen].
  { split; [done|]. intros ([_ ?] & _). lia. }
  assert (1 <= Str.len (String c rest)) as Hpos by (unfold Str.len; cbn [String.length]; lia).
  assert (Str.contains ".." (String c rest) = true -> Str.contains_char "." (String c rest) = true) as Hdot.
  { intros (a & b & E)%Str.contains_iff. rewrite E, !Str.contains_char_app. cbn. by rewrite orb_true_r. }
  split.
  - destruct (Str.contains_char Str.SLASH _ || _ || _)%bool; [done|].
    destruct (Str.is_alpha c) eqn:Hc; cbn [negb andb].
    + intros Hr. split; [lia|]. split.
      * cbn [Str.all]. rewrite Hr. unfold name_char, Str.is_alphanumeric. by rewrite Hc.
      * exists c, rest. auto.
    + destruct (Ascii.eqb_spec c "_") as [->|]; [|done]. cbn [negb]. intros Hr. split; [lia|].
      split; [cbn [Str.all]; by rewrite Hr|]. exists "_"%char, rest. auto.
  - intros (_ & Ha & c' & rest' & [= <- <-] & Hc).
    rewrite (Hno Str.SLASH), (Hno Str.BACKSLASH) by done. cbn [orb].
    destruct (Str.contains ".." _) eqn:Ed; [rewrite (Hno "."%char) in Hdot by done; discriminate (Hdot eq_refl)|].
    cbn [Str.all] in Ha. apply andb_true_iff in Ha as [_ Ha].
    destruct Hc as [->| ->]; exact Ha.
Qed.

(** The checks on the fields alone amount to having one source. *)
Definition fields_ok (name dep_type : string) (d : DependencyDetail) : bool :=
  (is_ok (validate_detail_empty_fields name d dep_type) && is_ok (validate_dependency_sources name d dep_type) &&
   negb (is_some (registry d) && negb (is_set (version d))))%bool.

Lemma fields_ok_iff name dep_type d : fields_ok name dep_type d = true <-> exists src, source_of d src.
Proof.
  unfold fields_ok, validate_detail_empty_fields, validate_dependency_sources. cbv zeta.
  destruct d as [v g b t r p reg]. cbn [version git path registry].
  split.
  - intros Hf.
    destruct v as [[|vc vs]|], g as [[|gc gs]|], p as [[|pc ps]|], reg as [[|rc rs]|];
      cbn [is_blank is_set is_some Str.is_empty negb is_ok andb] in Hf; try discriminate Hf.
    + by exists (FromRegistry (String vc vs) (Some (String rc rs))).
    + by exists (FromRegistry (String vc vs) None).
    + by exists (FromGit (String gc gs)).
    + by exists (FromPath (String pc ps)).
  - intros [[w q|u|q] Hs]; cbn [source_of version git path registry] in Hs.
    + destruct Hs as (-> & Hw & -> & Hq & -> & ->). destruct w; [done|].
      destruct q as [[|]|]; [done|done|done].
    + destruct Hs as (-> & Hu & -> & -> & ->). by destruct u.
    + destruct Hs as (-> & Hu & -> & -> & ->). by destruct q.
Qed.

Lemma source_unique d src src' : source_of d src -> source_of d src' -> src = src'.
Proof.
  destruct src, src'; cbn [source_of]; intros; destruct_and?; simplify_eq; try done; congruence.
Qed.

Lemma path_usable name p dir dep_type :
  validate_path_dependency name p dir dep_type = Ok tt <->
  exists_ (join_str dir p) = true /\
  (is_dir (join_str dir p) = true \/ exists e, extension (components p) = Some e /\ Str.to_ascii_lowercase e = "wasm").
Proof.
  unfold validate_path_dependency. destruct (exists_ _); cbn [negb]; [|by split; [|intros [? _]]].
  destruct (extension (components p)) as [e|].
  - destruct (String.eqb_spec (Str.to_ascii_lowercase e) "wasm") as [He|He]; cbn [negb andb].
    + split; [|done]. intros _. split; [done|]. right. by exists e.
    + destruct (is_dir _); cbn [negb]; [by split; [|done]; intros _; split; [|left]|].
      split; [done|]. intros [_ [?|(e' & [= <-] & ?)]]; done.
  - cbn [negb andb]. destruct (is_dir _); cbn [negb]; [by split; [|done]; intros _; split; [|left]|].
    split; [done|]. intros [_ [?|(e' & ? & _)]]; done.
Qed.

Lemma git_usable name d dep_type u : git d = Some u ->
  validate_git_dependency name d dep_type = Ok tt <-> is_valid_git_url u = true /\ (length (git_refs d) <= 1)%nat.
Proof.
  intros Hg. unfold validate_git_dependency. rewrite Hg. destruct (is_valid_git_url u); cbn [negb]; [|by split; [|intros [? _]]].
  destruct (Nat.ltb_spec 1 (length (git_refs d))); (split; [intros Hx|intros [_ Hx]]); try done; try lia.
Qed.

Lemma valid_dependency_iff name dep dir is_dev :
  validate_dependency name dep dir is_dev = Ok tt <-> valid_dependency dir name dep.
Proof.
  unfold validate_dependency, valid_dependency. set (ty := if is_dev then _ else _). cbv zeta.
  destruct name as [|nc ns]; [split; [done|by intros [? _]]|]. cbn [Str.is_empty]. set (nm := String nc ns).
  destruct dep as [v|d].
  - destruct v; cbn [Str.is_empty]; [split; [done|by intros [_ ?]]|done].
  - pose proof (fields_ok_iff nm ty d) as Hf. unfold fields_ok in Hf.
    destruct (validate_detail_empty_fields nm d ty) as [[]|e1]; cbn [is_ok andb res_bind] in Hf |- *.
    2: { split; [done|]. intros [_ (src & Hs & _)]. discriminate (proj2 Hf (ex_intro _ src Hs)). }
    destruct (validate_dependency_sources nm d ty) as [[]|e2]; cbn [is_ok andb res_bind] in Hf |- *.
    2: { split; [done|]. intros [_ (src & Hs & _)]. discriminate (proj2 Hf (ex_intro _ src Hs)). }
    destruct (is_some (registry d) && negb (is_set (version d)))%bool; cbn [negb] in Hf.
    { split.
      - unfold res_bind. by repeat case_match.
      - intros [_ (src & Hs & _)]. discriminate (proj2 Hf (ex_intro _ src Hs)). }
    destruct (proj1 Hf eq_refl) as [src Hs].
    assert ((exists s, source_of d s /\ source_usable dir d s) <-> source_usable dir d src) as ->.
    { split; [|by exists src]. intros (s' & Hs' & Hu). by rewrite (source_unique d src s'). }
    assert (forall P : Prop, (nm <> "" /\ P) <-> P) as -> by (intros P; split; [by intros [_ ?]|done]).
    destruct src as [v r|u|p]; cbn [source_of source_usable] in *.
    + destruct Hs as (_ & _ & _ & _ & Hg & Hp). rewrite Hp. cbn [res_bind].
      unfold validate_git_dependency. by rewrite Hg.
    + destruct Hs as (Hg & _ & _ & Hp & _). rewrite Hp, <- (git_usable nm d ty u Hg). cbn [res_bind].
      by destruct (validate_git_dependency nm d ty) as [[]|].
    + destruct Hs as (Hp & _ & _ & Hg & _). rewrite Hp, <- (path_usable nm p dir ty).
      destruct (validate_path_dependency nm p dir ty) as [[]|]; cbn [res_bind]; [|done].
      unfold validate_git_dependency. by rewrite Hg.
Qed.

Lemma dependency_errors_nil dir is_dev deps :
  dependency_errors dir is_dev deps = [] <-> Forall (fun d => valid_dependency dir d.1 d.2) deps.
Proof.
  induction deps as [|[n d] deps IH]; [done|]. rewrite Forall_cons, <- IH, <- (valid_dependency_iff n d dir is_dev).
  unfold dependency_errors. csimpl. destruct (validate_dependency n d dir is_dev) as [[]|e]; csimpl; [naive_solver|].
  split; [done|]. by intros [? _].
Qed.

(** Adding a dependency to a valid manifest keeps it valid exactly when the
    dependency is. *)
Lemma errors_insert dir is_dev deps n d :
  dependency_errors dir is_dev deps = [] ->
  dependency_errors dir is_dev (map_insert n d deps) = [] <-> valid_dependency dir n d.
Proof.
  rewrite !dependency_errors_nil, !Forall_forall. intros Hd. split.
  - intros Hi. apply (Hi (n, d)). apply map_get_Some_elem. by rewrite map_get_insert, String.eqb_refl.
  - intros Hv e [->|He]%elem_of_map_insert; [done|by apply Hd].
Qed.

Lemma validate_nil m p : validate m p = Ok tt <-> validation_errors m p = [].
Proof. unfold validate. by destruct (validation_errors m p). Qed.

Lemma validate_insert m p n d :
  validate m p = Ok tt ->
  (validate (add_dependency n d m) p = Ok tt <-> valid_dependency (default [CurDir] (parent p)) n d) /\
  (validate (set_dev_dependencies (map_insert n d (dev_dependencies m)) m) p = Ok tt <->
     valid_dependency (default [CurDir] (parent p)) n d).
Proof.
  rewrite !validate_nil. unfold validation_errors. cbv zeta. cbn [add_dependency set_dependencies set_dev_dependencies
    project server dependencies dev_dependencies].
  rewrite !app_nil. intros (H1 & H2 & H3 & H4 & H5 & H6). rewrite H1, H2, H3, H4, H5, H6.
  rewrite !errors_insert by done. naive_solver.
Qed.

(** A registry without a version is not a source. *)
Lemma bare_registry_invalid dir n reg :
  ~ valid_dependency dir n (Detailed {| version := None; git := None; branch := None; tag := None; rev := None;
                                        path := None; registry := Some reg |}).
Proof. intros [_ ([v r|u|p] & Hs & _)]; cbn in Hs; naive_solver. Qed.

(** ** Properties *)

(** C29. Validation of a manifest accepts exactly the valid ones: the name has 1
    to 64 letters, digits, hyphens and underscores and starts with a letter or
    an underscore; the version is a semantic one; the port is not 0 and there
    is a modules directory; and every dependency and development dependency
    has a name and exactly one source, a version (with or without a registry),
    a well-formed git URL with at most one of branch, tag and revision, or a
    path that exists and is a directory or a .wasm file. *)
Theorem manifest_valid_iff (m : Manifest) (manifest_path : Path) :
  let dir := default [CurDir] (parent manifest_path) in
  validate m manifest_path = Ok tt <->
  valid_name (project_name (project m)) /\
  (project_version (project m) <> "" /\ is_valid_version (project_version (project m)) = true) /\
  port (server m) <> 0 /\ modules (server m) <> "" /\
  Forall (fun d => valid_dependency dir d.1 d.2) (dependencies m) /\
  Forall (fun d => valid_dependency dir d.1 d.2) (dev_dependencies m).
Proof.
  intros dir. rewrite <- !dependency_errors_nil, <- valid_name_iff.
  rewrite validate_nil. unfold validation_errors. fold dir.
  assert ((if Str.is_empty (project_name (project m)) then [EmptyProjectName]
     else if negb (is_valid_name (project_name (project m))) then [InvalidProjectName (project_name (project m))] else []) = [] <->
    is_valid_name (project_name (project m)) = true) as Hn
    by (destruct (project_name (project m)) as [|c s]; [done|]; cbn [Str.is_empty]; by destruct (is_valid_name _)).
  assert ((if Str.is_empty (project_version (project m)) then [EmptyVersion]
     else if negb (is_valid_version (project_version (project m))) then [InvalidVersion (project_version (project m))] else []) = [] <->
    project_version (project m) <> "" /\ is_valid_version (project_version (project m)) = true) as Hv.
  { destruct (project_version (project m)) as [|c s]; [split; [done|by intros [? _]]|]. cbn [Str.is_empty].
    destruct (is_valid_version _); cbn [negb]; split; try done. by intros [_ ?]. }
  assert ((if port (server m) =? 0 then [InvalidPort] else []) = [] <-> port (server m) <> 0) as Hp
    by (destruct (Z.eqb_spec (port (server m)) 0); done).
  assert ((if Str.is_empty (modules (server m)) then [EmptyModulesDir] else []) = [] <-> modules (server m) <> "") as Hm
    by (by destruct (modules (server m))).
  rewrite !app_nil, Hn, Hv, Hp, Hm. done.
Qed.
End Validation.

(** ** Witness *)

Definition example_manifest : Manifest := {|
  project := {| project_name := "shop"; project_version := "0.1.0"; description := None; authors := [];
                language := None |};
  server := default_server_config; tracing := default_tracing_config;
  composition := default_composition_config; lb := None;
  dependencies := [("auth", dep_registry "ghcr.io/acme/auth" "1.0"); ("local", dep_path "../local.wasm")];
  dev_dependencies := [("mock", dep_git "git@github.com:acme/mock.git")] |}.

Example example_manifest_ok :
  validate (fun _ => true) (fun _ => false) (fun _ => true) (fun _ => None) example_manifest [Normal "mik.toml"] = Ok tt.
Proof. vm_compute. reflexivity. Qed.
