(* ===== verification/WasmExec.v ===== *)
(** WasmExec: the execution of a component and the limits around it, of
    [src/src/runtime/host.rs], [host_state.rs], [wasm_executor.rs] and
    [Runtime::from_host] of [runtime/mod.rs].

    The compiled component, run by wasmtime, is a parameter: a machine that
    computes for a while, burning fuel, and then calls the host, waits, or
    ends. It may run forever. What the host answers, when it yields and what
    becomes of the request are modelled here. Of wasmtime and tokio the model
    uses what they document: fuel that runs out traps; a computation yields
    when the engine's epoch has reached the store's deadline, which then moves
    by the configured delta; a timeout polls the work before its own timer, so
    it can only expire while the work is suspended; memories and tables grow,
    from their creation on, only when the limiter agrees. *)

From S2P Require Import Prelude StdPath HostAllow ModulePath Http ManifestTypes HostConfig.

#[local] Open Scope Z_scope.

Definition DEFAULT_FUEL_BUDGET : Z := 1000000000.
Definition DEFAULT_AOT_CACHE_TTI_SECS : Z := 3600.
Definition MAX_TABLE_ELEMENTS : Z := 10000.

(** ** The host's answers to a component *)

Record HostState := {
  hs_http_allowed : list string;
  hs_memory_limit : Z;
}.

Definition memory_growing (h : HostState) (desired : Z) : bool :=
  if hs_memory_limit h <? desired then false else true.

Definition table_growing (desired : Z) : bool := desired <=? MAX_TABLE_ELEMENTS.

(** Whether the request is delegated to the network, by the host of its URI;
    [false] is [ErrorCode::HttpRequestDenied]. *)
Definition send_request (h : HostState) (uri_host : option string) : bool :=
  match hs_http_allowed h with
  | [] => false
  | allowed => is_http_host_allowed (default EmptyString uri_host) allowed
  end.

(** ** Components *)

(** How reading the body of a response ends: with its bytes, with an error, or
    never, when the component kept it open. *)
Inductive BodyEnd := Collected (bytes : string) | BodyFailed | BodyOpen.

Record GuestResponse := {
  g_status : Z;
  g_headers : list (string * string);
  g_body : BodyEnd;
}.

(** What a component does at the end of a stretch of computation. *)
Inductive Act (S : Type) :=
| GrowMemory (memory : nat) (desired : Z) (k : bool -> S)
| GrowTable (table : nat) (desired : Z) (k : bool -> S)
| SendRequest (uri_host : option string) (k : bool -> S)
| Await (d : Duration) (k : S)
| SetResponse (r : result GuestResponse string) (k : S)
| DropOutparam (k : S)
| Return (k : S)
| Trap (e : list string).
#[global] Arguments GrowMemory {S}. #[global] Arguments GrowTable {S}.
#[global] Arguments SendRequest {S}. #[global] Arguments Await {S}.
#[global] Arguments SetResponse {S}. #[global] Arguments DropOutparam {S}.
#[global] Arguments Return {S}. #[global] Arguments Trap {S}.

(** The code between two of the checks that wasmtime inserts. *)
Record Stretch (S : Type) := {
  cost : Z;
  time : Duration;
  act : Act S;
}.
#[global] Arguments cost {S}. #[global] Arguments time {S}. #[global] Arguments act {S}.
#[global] Arguments Build_Stretch {S}.

(** The sender of the response: in the store's table until the component sets
    the response or drops it. *)
Inductive Outparam := Held | Dropped | Sent (r : result GuestResponse string).

(** The store and the rest of what an execution changes. *)
Record World := {
  now : Instant;
  epoch_deadline : Z;
  fuel : Z;
  memories : gmap nat Z;
  tables : gmap nat Z;
  network : list string;
  outparam : Outparam;
}.

Definition advance (d : Duration) (burnt : Z) (w : World) : World := {|
  now := now w + d; epoch_deadline := epoch_deadline w; fuel := fuel w - burnt; memories := memories w;
  tables := tables w; network := network w; outparam := outparam w |}.
Definition set_deadline (e : Z) (w : World) : World := {|
  now := now w; epoch_deadline := e; fuel := fuel w; memories := memories w; tables := tables w;
  network := network w; outparam := outparam w |}.
Definition set_memory (i : nat) (n : Z) (w : World) : World := {|
  now := now w; epoch_deadline := epoch_deadline w; fuel := fuel w; memories := <[i := n]> (memories w);
  tables := tables w; network := network w; outparam := outparam w |}.
Definition set_table (i : nat) (n : Z) (w : World) : World := {|
  now := now w; epoch_deadline := epoch_deadline w; fuel := fuel w; memories := memories w;
  tables := <[i := n]> (tables w); network := network w; outparam := outparam w |}.
Definition delegate (host : string) (w : World) : World := {|
  now := now w; epoch_deadline := epoch_deadline w; fuel := fuel w; memories := memories w;
  tables := tables w; network := network w ++ [host]; outparam := outparam w |}.
Definition set_outparam (o : Outparam) (w : World) : World := {|
  now := now w; epoch_deadline := epoch_deadline w; fuel := fuel w; memories := memories w;
  tables := tables w; network := network w; outparam := o |}.

(** ** The epoch thread *)

Definition EPOCH : Duration := from_millis 10.

(** The epoch of an engine started at [started]: one more every 10 ms, until
    the round of the thread in which [epoch_shutdown] was set. *)
Record EpochThread := {
  started : Instant;
  stopped : option Instant;
}.

Definition epoch (t : EpochThread) (now : Instant) : Z :=
  let ticks i := (i - started t) / EPOCH in
  match stopped t with
  | None => ticks now
  | Some s => Z.min (ticks now) (ticks s + 1)
  end.

(** ** Host::new *)

Record EngineConfig := {
  total_component_instances : Z;
  total_stacks : Z;
  max_component_instance_size : Z;
  max_memory_size : Z;
  max_memories_per_component : Z;
  max_tables_per_component : Z;
}.

Definition create_engine (c : HostConfig) : EngineConfig := {|
  total_component_instances := wrap_u32 (max_concurrent_requests c);
  total_stacks := wrap_u32 (max_concurrent_requests c);
  max_component_instance_size := 2 * 1024 * 1024; max_memory_size := memory_limit_bytes c;
  max_memories_per_component := 10; max_tables_per_component := 10 |}.

Definition config_error (e : ConfigError) : string :=
  match e with
  | Timeout v reason => "invalid execution_timeout_secs=" +:+ Str.of_Z v +:+ ": " +:+ reason
  | MemoryLimit v reason => "invalid memory_limit_bytes=" +:+ Str.of_Z v +:+ ": " +:+ reason
  | Concurrency reason => "invalid concurrency configuration: " +:+ reason
  end.

Section Host.
Context {Comp : Type}.
Variable is_file : Path -> bool.
Variable is_dir : Path -> bool.
Variable read_dir : Path -> result (list string) string.
(** [Engine::new], [Component::from_file] and [AotCache::new] *)
Variable engine_new : EngineConfig -> result unit (list string).
Variable from_file : Path -> result Comp string.
Variable aot_cache_new : Z -> result unit (list string).

Record SharedState := {
  modules_dir : Path;
  user_modules_dir : option string;
  single_component : option (Comp * string);
  static_files : option string;
  cache_capacity : Z;
  time_to_idle : Duration;
  execution_timeout : Duration;
  timeout_secs : Z;
  memory_limit : Z;
  max_body : Z;
  permits : Z;
  allowed : list string;
  scripts : option string;
  aot_max_bytes : option Z;
  budget : Z;
}.

Definition keep_dir (d : option string) : option string :=
  match d with Some p => if is_dir (components p) then Some p else None | None => None end.

Definition create_aot_cache (c : HostConfig) : result (option Z) (list string) :=
  match aot_cache_max_bytes c with
  | None => Ok None
  | Some n => let? _ := aot_cache_new n in Ok (Some n)
  end.

Definition host_new (c : HostConfig) : result SharedState (list string) :=
  match validate c with
  | Err e => Err ["Invalid host configuration"; config_error e]
  | Ok _ =>
      match engine_new (create_engine c) with
      | Err e => Err ("Failed to create wasmtime engine" :: e)
      | Ok _ =>
          match determine_module_mode is_file is_dir Comp from_file read_dir (components (modules_path c)) with
          | Err e => Err [e]
          | Ok (dir, single) =>
              let? aot := create_aot_cache c in
              Ok {| modules_dir := dir; user_modules_dir := keep_dir (user_modules_path c);
                    single_component := single; static_files := keep_dir (static_dir c);
                    cache_capacity := max_cache_bytes c; time_to_idle := from_secs DEFAULT_AOT_CACHE_TTI_SECS;
                    execution_timeout := from_secs (execution_timeout_secs c);
                    timeout_secs := execution_timeout_secs c; memory_limit := memory_limit_bytes c;
                    max_body := max_body_size_bytes c; permits := max_concurrent_requests c;
                    allowed := http_allowed c; scripts := scripts_dir c; aot_max_bytes := aot;
                    budget := default DEFAULT_FUEL_BUDGET (fuel_budget c) |}
          end
      end
  end.
End Host.
#[global] Arguments SharedState : clear implicits.

(** [Runtime::from_host] takes the host by value and clones its parts; the
    host itself is dropped at its end, and [Drop for Host] stops the thread. *)
Definition from_host {Comp} (built : Instant) (returned : Instant) (shared : SharedState Comp)
  : SharedState Comp * EpochThread :=
  (shared, {| started := built; stopped := Some returned |}).

(** ** execute_wasm_request *)

Section Execution.
Context {Comp S Req : Type}.
(** The component: where its instantiation begins, where the handler begins,
    and the next stretch. *)
Variable instantiate : Comp -> S.
Variable call_handle : S -> Req -> S.
Variable next : S -> Stretch S.
Variable thread : EpochThread.

Inductive Outcome := Returned (s : S) | TimedOut | Trapped (e : list string).

Definition timeout_epochs (sh : SharedState Comp) : Z := Z.min u64_max (timeout_secs sh * 100).

(** What an action does at once; waiting is cut off at the deadline. *)
Definition perform (h : HostState) (deadline : Instant) (a : Act S) (w : World) : World * (S + Outcome) :=
  match a with
  | GrowMemory i desired k =>
      if memory_growing h desired then (set_memory i desired w, inl (k true)) else (w, inl (k false))
  | GrowTable i desired k =>
      if table_growing desired then (set_table i desired w, inl (k true)) else (w, inl (k false))
  | SendRequest uri_host k =>
      if send_request h uri_host then (delegate (default EmptyString uri_host) w, inl (k true))
      else (w, inl (k false))
  | Await d k =>
      if deadline <? now w + d then (advance (Z.max 0 (deadline - now w)) 0 w, inr TimedOut)
      else (advance d 0 w, inl k)
  | SetResponse r k => (set_outparam (Sent r) w, inl k)
  | DropOutparam k => (set_outparam Dropped w, inl k)
  | Return k => (w, inr (Returned k))
  | Trap e => (w, inr (Trapped e))
  end.

Definition guest_step (h : HostState) (delta : Z) (deadline : Instant) (w : World) (s : S)
  : World * (S + Outcome) :=
  let yields := epoch_deadline w <=? epoch thread (now w) in
  if (yields && (deadline <=? now w))%bool then (w, inr TimedOut)
  else
    let w := if yields then set_deadline (epoch thread (now w) + delta) w else w in
    let st := next s in
    if fuel w <? cost st then (w, inr (Trapped ["all fuel consumed by WebAssembly"]))
    else perform h deadline (act st) (advance (time st) (cost st) w).

Fixpoint guest_run (n : nat) (h : HostState) (delta : Z) (deadline : Instant) (w : World) (s : S)
  : option (World * Outcome) :=
  match n with
  | O => None
  | Datatypes.S n =>
      match guest_step h delta deadline w s with
      | (w, inl s) => guest_run n h delta deadline w s
      | (w, inr o) => Some (w, o)
      end
  end.

Definition host_state (sh : SharedState Comp) : HostState :=
  {| hs_http_allowed := allowed sh; hs_memory_limit := memory_limit sh |}.

(** [Store::new] with its fuel and its epoch deadline. *)
Definition new_store (sh : SharedState Comp) (at_ : Instant) : World := {|
  now := at_; epoch_deadline := epoch thread at_ + timeout_epochs sh; fuel := budget sh;
  memories := ∅; tables := ∅; network := []; outparam := Held |}.

(** The [Debug] form of a [Duration] of whole seconds. *)
Definition show_timeout (sh : SharedState Comp) : string := Str.of_Z (timeout_secs sh) +:+ "s".

(** The receiver of the response, and the conversion of what it delivers.
    [None] is an await that never ends: the store still holds the sender, or
    the component still holds the body. *)
Definition receive (o : Outparam) : option (result Resp (list string)) :=
  match o with
  | Held => None
  | Dropped => Some (Err ["No response received"; "channel closed"])
  | Sent (Err e) => Some (Err ["Response error"; e])
  | Sent (Ok r) =>
      match g_body r with
      | Collected bytes => Some (Ok (resp (g_status r) (g_headers r) bytes))
      | BodyFailed => Some (Ok (resp (g_status r) (g_headers r) EmptyString))
      | BodyOpen => None
      end
  end.

(** The outer [option] is the fuel [n] of each of the two runs. *)
Definition execute_wasm_request (n : nat) (sh : SharedState Comp) (component : Comp) (req : result Req (list string))
    (at_ : Instant) : option (World * option (result Resp (list string))) :=
  let w := new_store sh at_ in
  match req with
  | Err e => Some (w, Some (Err e))
  | Ok req =>
      let timeout w := now w + execution_timeout sh in
      match guest_run n (host_state sh) (timeout_epochs sh) (timeout w) w (instantiate component) with
      | None => None
      | Some (w, TimedOut) =>
          Some (w, Some (Err ["WASM instantiation timed out after " +:+ show_timeout sh]))
      | Some (w, Trapped e) => Some (w, Some (Err ("Failed to instantiate proxy" :: e)))
      | Some (w, Returned s) =>
          match guest_run n (host_state sh) (timeout_epochs sh) (timeout w) w (call_handle s req) with
          | None => None
          | Some (w, TimedOut) =>
              Some (w, Some (Err ["WASM execution timed out after " +:+ show_timeout sh]))
          | Some (w, Trapped e) => Some (w, Some (Err ("Handler call failed" :: e)))
          | Some (w, Returned _) => Some (w, receive (outparam w))
          end
      end
  end.
End Execution.

(** ** Lemmas *)

(** What the limits keep, whatever the component does. *)
Record confined (h : HostState) (w : World) : Prop := {
  confined_network : Forall (fun host => is_http_host_allowed host (hs_http_allowed h) = true) (network w);
  confined_memory : map_Forall (fun _ n => n <= hs_memory_limit h) (memories w);
  confined_tables : map_Forall (fun _ n => n <= MAX_TABLE_ELEMENTS) (tables w);
}.

Section Runs.
Context {Comp S Req : Type}.
Variable instantiate : Comp -> S.
Variable call_handle : S -> Req -> S.
Variable next : S -> Stretch S.
Variable thread : EpochThread.

Lemma send_request_allowed h uri_host :
  send_request h uri_host = true ->
  is_http_host_allowed (default EmptyString uri_host) (hs_http_allowed h) = true.
Proof. unfold send_request. by destruct (hs_http_allowed h). Qed.

Lemma perform_confined h deadline (a : Act S) w :
  confined h w -> confined h (perform h deadline a w).1.
Proof.
  intros [Hn Hm Ht]. destruct a as [i n k|i n k|u k|d k|r k|k|k|e]; cbn [perform]; try (split; assumption).
  - unfold memory_growing. destruct (Z.ltb_spec (hs_memory_limit h) n); [by split|].
    split; [done| |done]. by apply map_Forall_insert_2.
  - unfold table_growing. destruct (Z.leb_spec n MAX_TABLE_ELEMENTS); [|by split].
    split; [done|done|]. by apply map_Forall_insert_2.
  - destruct (send_request h u) eqn:E; [|by split]. split; [|done|done].
    apply Forall_app_2; [done|]. by constructor; [apply send_request_allowed|].
  - by destruct (Z.ltb_spec deadline (now w + d)).
Qed.

(** The cases of a step: the timeout, a trap for want of fuel, an action. The
    epoch deadline [e] of the last two is new only before the deadline. *)
Lemma guest_step_cases h delta deadline w s :
  (epoch_deadline w <= epoch thread (now w) /\ deadline <= now w /\ guest_step next thread h delta deadline w s = (w, inr TimedOut)) \/
  exists e,
    (e = epoch_deadline w /\ epoch thread (now w) < e \/
     e = epoch thread (now w) + delta /\ epoch_deadline w <= epoch thread (now w) < e - delta + 1 /\
     now w < deadline) /\
    ((fuel w < cost (next s) /\ guest_step next thread h delta deadline w s =
        (set_deadline e w, inr (Trapped ["all fuel consumed by WebAssembly"]))) \/
     (cost (next s) <= fuel w /\ guest_step next thread h delta deadline w s =
        perform h deadline (act (next s)) (advance (time (next s)) (cost (next s)) (set_deadline e w)))).
Proof.
  unfold guest_step. set (w1 := if epoch_deadline w <=? epoch thread (now w) then _ else w).
  assert (forall e, w1 = set_deadline e w ->
    (fuel w < cost (next s) /\ (if fuel w1 <? cost (next s) then (w1, inr (Trapped ["all fuel consumed by WebAssembly"]))
       else perform h deadline (act (next s)) (advance (time (next s)) (cost (next s)) w1)) =
        (set_deadline e w, inr (Trapped ["all fuel consumed by WebAssembly"]))) \/
    (cost (next s) <= fuel w /\ (if fuel w1 <? cost (next s) then (w1, inr (Trapped ["all fuel consumed by WebAssembly"]))
       else perform h deadline (act (next s)) (advance (time (next s)) (cost (next s)) w1)) =
        perform h deadline (act (next s)) (advance (time (next s)) (cost (next s)) (set_deadline e w)))) as Hrest.
  { intros e ->. cbn [fuel set_deadline]. destruct (Z.ltb_spec (fuel w) (cost (next s))); auto. }
  subst w1. destruct (Z.leb_spec (epoch_deadline w) (epoch thread (now w))); cbn [andb].
  - destruct (Z.leb_spec deadline (now w)); [left; auto|]. right. eexists. split; [right; split_and!; [done|lia|lia|done]|]. by apply Hrest.
  - right. exists (epoch_deadline w). split; [by left|]. apply Hrest. by destruct w.
Qed.

Lemma guest_step_confined h delta deadline w s :
  confined h w -> confined h (guest_step next thread h delta deadline w s).1.
Proof.
  intros Hw. destruct (guest_step_cases h delta deadline w s) as [(_ & _ & ->)|(e & _ & [[_ ->]|[_ ->]])]; [done| |].
  - by destruct Hw.
  - apply perform_confined. by destruct Hw.
Qed.

(** Time and fuel: a stretch burns fuel and lasts at most [rate] per unit. *)
Definition paced (rate : Z) : Prop := forall s, 1 <= cost (next s) /\ 0 <= time (next s) <= rate * cost (next s).

(** The clock, counting the fuel left as time, stays below the deadline plus
    the time of the fuel there was. *)
Definition on_time (rate b : Z) (deadline : Instant) (w : World) : Prop :=
  now w + rate * fuel w <= deadline + rate * b /\ 0 <= fuel w <= b.

Lemma perform_fuel h deadline (a : Act S) w : fuel (perform h deadline a w).1 = fuel w.
Proof.
  destruct a as [| |u k|d k| | | |]; cbn; try done.
  - by destruct (memory_growing _ _).
  - by destruct (table_growing _).
  - by destruct (send_request _ _).
  - destruct (deadline <? now w + d); cbn; lia.
Qed.

Lemma perform_on_time rate b h deadline (a : Act S) w :
  0 <= rate -> on_time rate b deadline w -> on_time rate b deadline (perform h deadline a w).1.
Proof.
  unfold on_time. intros Hr [Ht Hf]. rewrite perform_fuel. split; [|done].
  destruct a as [| |u k|d k| | | |]; cbn; try done.
  - by destruct (memory_growing _ _).
  - by destruct (table_growing _).
  - by destruct (send_request _ _).
  - destruct (Z.ltb_spec deadline (now w + d)); cbn; nia.
Qed.

Lemma guest_step_on_time rate b h delta deadline w s :
  0 <= rate -> paced rate -> on_time rate b deadline w ->
  on_time rate b deadline (guest_step next thread h delta deadline w s).1.
Proof.
  intros Hr Hp Hw. destruct (Hp s) as [Hc Ht].
  destruct (guest_step_cases h delta deadline w s) as [(_ & _ & ->)|(e & _ & [[_ ->]|[? ->]])]; [done|exact Hw|].
  apply perform_on_time; [done|]. destruct Hw. unfold on_time. cbn. split; nia.
Qed.

Lemma guest_step_burns h delta deadline w w' s s' rate :
  paced rate -> guest_step next thread h delta deadline w s = (w', inl s') ->
  0 <= fuel w' <= fuel w - 1.
Proof.
  intros Hp. destruct (Hp s) as [Hc _].
  destruct (guest_step_cases h delta deadline w s) as [(_ & _ & ->)|(e & _ & [[_ ->]|[? ->]])]; [done|done|].
  intros E. apply (f_equal fst) in E. cbn [fst] in E. rewrite <- E, perform_fuel. cbn. lia.
Qed.

(** A run ends, at the latest when the fuel has run out. *)
Lemma guest_run_ends rate n h delta deadline w s :
  paced rate -> (Z.to_nat (fuel w) < n)%nat -> exists r, guest_run next thread n h delta deadline w s = Some r.
Proof.
  intros Hp. revert w s. induction n as [|n IH]; intros w s Hn; [lia|]. cbn [guest_run].
  destruct (guest_step next thread h delta deadline w s) as [w' [s'|o]] eqn:E; [|eauto].
  apply IH. apply (guest_step_burns _ _ _ _ _ _ _ rate Hp) in E. lia.
Qed.

(** What every step keeps, a run keeps. *)
Lemma guest_run_inv (P : World -> Prop) n h delta deadline w s w' o :
  (forall w s, P w -> P (guest_step next thread h delta deadline w s).1) ->
  P w -> guest_run next thread n h delta deadline w s = Some (w', o) -> P w'.
Proof.
  intros Hstep. revert w s. induction n as [|n IH]; intros w s Hw; cbn [guest_run]; [done|].
  specialize (Hstep w s Hw). destruct (guest_step next thread h delta deadline w s) as [w1 [s1|o1]].
  - by apply IH.
  - by intros [= <- <-].
Qed.

Lemma perform_epoch_deadline h deadline (a : Act S) w :
  epoch_deadline (perform h deadline a w).1 = epoch_deadline w.
Proof.
  destruct a as [| |u k|d k| | | |]; cbn; try done.
  - by destruct (memory_growing _ _).
  - by destruct (table_growing _).
  - by destruct (send_request _ _).
  - by destruct (deadline <? now w + d).
Qed.

Lemma perform_now h deadline (a : Act S) w B :
  deadline <= B -> now w <= B -> now (perform h deadline a w).1 <= B.
Proof.
  intros HD Hn. destruct a as [| |u k|d k| | | |]; cbn; try done.
  - by destruct (memory_growing _ _).
  - by destruct (table_growing _).
  - by destruct (send_request _ _).
  - destruct (Z.ltb_spec deadline (now w + d)); cbn; lia.
Qed.

(** With a running epoch thread, a computation goes on for at most one more
    timeout, [delta] epochs, and a stretch. *)
Definition prompt (B stretch : Z) (w : World) : Prop :=
  started thread + epoch_deadline w * EPOCH <= B /\ now w <= B + stretch.

Lemma epoch_running t : stopped thread = None -> epoch thread t = (t - started thread) / EPOCH.
Proof. unfold epoch. by intros ->. Qed.

Lemma guest_step_prompt B stretch h delta deadline w s :
  stopped thread = None -> (forall s, time (next s) <= stretch) -> 0 <= stretch ->
  deadline + delta * EPOCH <= B -> 0 <= delta ->
  prompt B stretch w -> prompt B stretch (guest_step next thread h delta deadline w s).1.
Proof.
  intros Hrun Hst H0 HB Hd [He Hn]. assert (0 < EPOCH) as HE by (unfold EPOCH, from_millis; lia).
  destruct (guest_step_cases h delta deadline w s) as [(_ & _ & ->)|(e & Hcase & Hrest)]; [done|].
  assert (now w <= B /\ started thread + e * EPOCH <= B) as [Hnow HeB].
  { rewrite (epoch_running _ Hrun) in Hcase.
    pose proof (Z.div_mod (now w - started thread) EPOCH ltac:(lia)) as Hdm.
    pose proof (Z.mod_pos_bound (now w - started thread) EPOCH HE).
    set (q := (now w - started thread) / EPOCH) in *. destruct Hcase as [[-> Hlt]|(-> & _ & Hlt)].
    - split; [|done]. assert ((q + 1) * EPOCH <= epoch_deadline w * EPOCH) by (apply Z.mul_le_mono_nonneg_r; lia). lia.
    - split; nia. }
  destruct Hrest as [[_ ->]|[_ ->]]; [split; cbn; lia|]. specialize (Hst s).
  split; [by rewrite perform_epoch_deadline|]. apply perform_now; [nia|]. cbn. lia.
Qed.

(** When the thread has stopped before the store's deadline, nothing yields. *)
Definition unyielding (w : World) : Prop := forall t, epoch thread t < epoch_deadline w.

Lemma guest_step_unyielding h delta deadline w s :
  unyielding w -> (forall s d k, act (next s) <> Await d k) ->
  unyielding (guest_step next thread h delta deadline w s).1 /\
  (guest_step next thread h delta deadline w s).2 <> inr TimedOut.
Proof.
  intros Hw Hno. pose proof (Hw (now w)) as Hnow.
  destruct (guest_step_cases h delta deadline w s) as [(? & _)|(e & [[-> _]|(_ & ? & _)] & Hrest)]; [lia| |lia].
  destruct Hrest as [[_ ->]|[_ ->]]; [by split|]. specialize (Hno s). split.
  - intros t. rewrite perform_epoch_deadline. apply Hw.
  - destruct (act (next s)) as [| |u k|d k| | | |]; cbn; try done.
    + by destruct (memory_growing _ _).
    + by destruct (table_growing _).
    + by destruct (send_request _ _).
    + by edestruct Hno.
Qed.

Lemma guest_run_unyielding n h delta deadline w s w' o :
  (forall s d k, act (next s) <> Await d k) -> unyielding w ->
  guest_run next thread n h delta deadline w s = Some (w', o) -> unyielding w' /\ o <> TimedOut.
Proof.
  intros Hno. revert w s. induction n as [|n IH]; intros w s Hw; cbn [guest_run]; [done|].
  destruct (guest_step_unyielding h delta deadline w s Hw Hno) as [Hw1 Ho].
  destruct (guest_step next thread h delta deadline w s) as [w1 [s1|o1]]; [by apply IH|].
  intros [= <- <-]. split; [done|]. intros ->. by apply Ho.
Qed.
End Runs.

(** The two runs of an execution: what every step keeps under both deadlines
    holds at its end. *)
Section Executions.
Context {Comp S Req : Type}.
Variable instantiate : Comp -> S.
Variable call_handle : S -> Req -> S.
Variable next : S -> Stretch S.
Variable thread : EpochThread.

(** How a call of the handler ended. *)
Definition answer_of (sh : SharedState Comp) (w : World) (o : Outcome (S := S)) : option (result Resp (list string)) :=
  match o with
  | TimedOut => Some (Err ["WASM execution timed out after " +:+ show_timeout sh])
  | Trapped e => Some (Err ("Handler call failed" :: e))
  | Returned _ => receive (outparam w)
  end.

Lemma execute_cases n (sh : SharedState Comp) component (req : Req) t0 w r :
  execute_wasm_request instantiate call_handle next thread n sh component (Ok req) t0 = Some (w, r) ->
  let run := guest_run next thread n (host_state sh) (timeout_epochs sh) in
  let w0 := new_store thread sh t0 in
  exists w1 o1, run (t0 + execution_timeout sh) w0 (instantiate component) = Some (w1, o1) /\
    match o1 with
    | Returned s =>
        exists o, run (now w1 + execution_timeout sh) w1 (call_handle s req) = Some (w, o) /\ r = answer_of sh w o
    | TimedOut => w = w1 /\ r = Some (Err ["WASM instantiation timed out after " +:+ show_timeout sh])
    | Trapped e => w = w1 /\ r = Some (Err ("Failed to instantiate proxy" :: e))
    end.
Proof.
  unfold execute_wasm_request. cbn [now new_store]. intros E.
  destruct (guest_run next thread n _ _ (t0 + _) _ _) as [[w1 o1]|]; [|done].
  exists w1, o1. split; [done|]. destruct o1 as [s| |e]; [|by simplify_eq|by simplify_eq].
  destruct (guest_run next thread n _ _ (now w1 + _) _ _) as [[w2 o2]|]; [|done].
  exists o2. destruct o2; simplify_eq; done.
Qed.

(** What the steps keep under the deadline of the instantiation holds at its
    end, which is the end of the execution or the start of the handler. *)
Lemma execute_inv (P : World -> Prop) (sh : SharedState Comp) component (req : Req) n t0 w r :
  let step := guest_step next thread (host_state sh) (timeout_epochs sh) in
  (forall w s, P w -> P (step (t0 + execution_timeout sh) w s).1) -> P (new_store thread sh t0) ->
  execute_wasm_request instantiate call_handle next thread n sh component (Ok req) t0 = Some (w, r) ->
  P w \/
  exists w1, P w1 /\ forall Q : World -> Prop,
    (forall w s, Q w -> Q (step (now w1 + execution_timeout sh) w s).1) -> Q w1 -> Q w.
Proof.
  intros step Hstep H0 E. apply execute_cases in E as (w1 & o1 & Hrun & Hcase).
  apply (guest_run_inv next thread P) in Hrun; [|apply Hstep|done].
  destruct o1 as [s| |e]; [|by left; destruct Hcase as [-> _]|by left; destruct Hcase as [-> _]].
  right. exists w1. split; [done|]. intros Q HQ H1. destruct Hcase as (o & Hrun2 & _).
  by apply (guest_run_inv next thread Q) in Hrun2.
Qed.

Lemma execute_ends rate (sh : SharedState Comp) component (req : Req) n t0 :
  0 <= budget sh -> 0 <= execution_timeout sh -> 0 <= rate -> paced next rate ->
  (Z.to_nat (budget sh) < n)%nat ->
  exists w r, execute_wasm_request instantiate call_handle next thread n sh component (Ok req) t0 = Some (w, r).
Proof.
  intros Hb HT Hrate Hp Hn. unfold execute_wasm_request.
  destruct (guest_run_ends next thread rate n (host_state sh) (timeout_epochs sh)
    (now (new_store thread sh t0) + execution_timeout sh) (new_store thread sh t0) (instantiate component) Hp Hn)
    as [[w1 o1] E1]. rewrite E1.
  destruct o1 as [s| |e]; [|by eauto|by eauto].
  apply (guest_run_inv next thread (on_time rate (budget sh) (t0 + execution_timeout sh))) in E1.
  - destruct (guest_run_ends next thread rate n (host_state sh) (timeout_epochs sh)
      (now w1 + execution_timeout sh) w1 (call_handle s req) Hp) as [[w2 o2] E2].
    { destruct E1 as [_ ?]. lia. }
    rewrite E2. destruct o2; eauto.
  - intros w s1. by apply guest_step_on_time.
  - unfold on_time. cbn. lia.
Qed.

Lemma execute_time rate (sh : SharedState Comp) component (req : Req) n t0 w r :
  0 <= budget sh -> 0 <= execution_timeout sh -> 0 <= rate -> paced next rate ->
  execute_wasm_request instantiate call_handle next thread n sh component (Ok req) t0 = Some (w, r) ->
  now w <= t0 + 2 * execution_timeout sh + rate * budget sh /\ 0 <= fuel w <= budget sh.
Proof.
  intros Hb HT Hr Hp E.
  apply (execute_inv (on_time rate (budget sh) (t0 + execution_timeout sh))) in E
    as [[Ht Hf]|(w1 & [Ht Hf] & HQ)].
  - split; nia.
  - destruct (HQ (on_time rate (fuel w1) (now w1 + execution_timeout sh))) as [Ht2 Hf2].
    + intros w2 s. by apply guest_step_on_time.
    + split; lia.
    + split; nia.
  - intros w2 s. by apply guest_step_on_time.
  - unfold on_time. cbn. lia.
Qed.

Lemma execute_confined (sh : SharedState Comp) component (req : Req) n t0 w r :
  execute_wasm_request instantiate call_handle next thread n sh component (Ok req) t0 = Some (w, r) ->
  confined (host_state sh) w.
Proof.
  intros E. apply (execute_inv (confined (host_state sh))) in E as [Hw|(w1 & Hw & HQ)].
  - done.
  - apply (HQ (confined (host_state sh))); [|done]. intros w2 s. apply guest_step_confined.
  - intros w2 s. apply guest_step_confined.
  - split; cbn; [constructor|apply map_Forall_empty|apply map_Forall_empty].
Qed.

Lemma execute_prompt stretch (sh : SharedState Comp) component (req : Req) n t0 w r :
  stopped thread = None -> (forall s, time (next s) <= stretch) -> 0 <= stretch ->
  0 <= timeout_epochs sh -> timeout_epochs sh * EPOCH = execution_timeout sh ->
  execute_wasm_request instantiate call_handle next thread n sh component (Ok req) t0 = Some (w, r) ->
  now w <= t0 + 4 * execution_timeout sh + 2 * stretch.
Proof.
  intros Hrun Hst H0 Hd HT E. assert (0 < EPOCH) as HE by (unfold EPOCH, from_millis; lia).
  set (T := execution_timeout sh) in *.
  apply (execute_inv (prompt thread (t0 + 2 * T) stretch)) in E as [[_ Hw]|(w1 & [He Hw] & HQ)].
  - nia.
  - destruct (HQ (prompt thread (t0 + 4 * T + stretch) stretch)) as [_ Hw2].
    + intros w2 s. apply guest_step_prompt; auto. fold T. lia.
    + split; nia.
    + lia.
  - intros w2 s. apply guest_step_prompt; auto. fold T. lia.
  - split; cbn; [|nia]. rewrite (epoch_running _ _ Hrun).
    pose proof (Z.mul_div_le (t0 - started thread) EPOCH HE). lia.
Qed.

Lemma execute_unyielding (sh : SharedState Comp) component (req : Req) n t0 w r :
  (forall s d k, act (next s) <> Await d k) -> (forall t, epoch thread t < epoch thread t0 + timeout_epochs sh) ->
  execute_wasm_request instantiate call_handle next thread n sh component (Ok req) t0 = Some (w, r) ->
  (exists e, r = Some (Err ("Failed to instantiate proxy" :: e))) \/
  exists o, r = answer_of sh w o /\ o <> TimedOut.
Proof.
  intros Hno Hepoch E. apply execute_cases in E as (w1 & o1 & Hrun & Hcase).
  apply guest_run_unyielding in Hrun as [Hw1 Ho1]; [|done|exact Hepoch].
  destruct o1 as [s| |e]; [|done|left; destruct Hcase as [_ ->]; eauto].
  destruct Hcase as (o & Hrun2 & ->). apply guest_run_unyielding in Hrun2 as [_ Ho]; eauto.
Qed.
End Executions.

(** A thread stopped when [from_host] returned counts at most one more epoch. *)
Lemma epoch_from_host {Comp} built returned (sh : SharedState Comp) t0 t :
  returned + EPOCH <= t0 ->
  epoch (from_host built returned sh).2 t <= epoch (from_host built returned sh).2 t0.
Proof.
  intros Ht. unfold epoch. cbn. assert (0 < EPOCH) as HE by (unfold EPOCH, from_millis; lia).
  assert ((returned - built) / EPOCH + 1 <= (t0 - built) / EPOCH); [|lia].
  rewrite <- (Z.div_add _ 1) by lia. apply Z.div_le_mono; lia.
Qed.

(** What an accepted configuration makes of the limits. *)
Lemma host_new_limits {Comp} is_file is_dir read_dir engine_new from_file aot_cache_new c (sh : SharedState Comp) :
  host_new is_file is_dir read_dir engine_new from_file aot_cache_new c = Ok sh ->
  validate c = Ok tt /\ allowed sh = http_allowed c /\ memory_limit sh = memory_limit_bytes c /\
  budget sh = default DEFAULT_FUEL_BUDGET (fuel_budget c) /\ timeout_secs sh = execution_timeout_secs c /\
  execution_timeout sh = from_secs (execution_timeout_secs c).
Proof.
  unfold host_new. destruct (validate c) as [[]|]; [|done]. destruct (engine_new _); [|done].
  destruct (determine_module_mode _ _ _ _ _ _) as [[dir single]|]; [|done].
  intros (aot & _ & [= <-])%res_bind_Ok. done.
Qed.

(** The configuration's integers have their width. *)
Definition typed (c : HostConfig) : Prop :=
  is_u64 (execution_timeout_secs c) /\ is_u64 (max_concurrent_requests c) /\
  is_u64 (default DEFAULT_FUEL_BUDGET (fuel_budget c)).

(** ** Properties *)

(** C7. The sandbox. For every accepted configuration and every component,
    whatever it does in its instantiation and its handler: each request that
    reaches the network goes to a host that an entry of [http_allowed] matches,
    so none does when the list is empty; no linear memory ever exceeds the
    configured limit, which is at most 4 GB, and no table 10,000 elements; and
    it burns no more than the fuel budget. *)
Theorem sandbox {Comp S Req : Type} (is_file is_dir : Path -> bool) (read_dir : Path -> result (list string) string)
    (engine_new : EngineConfig -> result unit (list string)) (from_file : Path -> result Comp string)
    (aot_cache_new : Z -> result unit (list string)) (c : HostConfig) (sh : SharedState Comp)
    (instantiate : Comp -> S) (call_handle : S -> Req -> S) (next : S -> Stretch S) (thread : EpochThread)
    (rate : Z) (n : nat) (component : Comp) (req : Req) (t0 : Instant) (w : World)
    (r : option (result Resp (list string))) :
  typed c -> 0 <= rate -> paced next rate ->
  host_new is_file is_dir read_dir engine_new from_file aot_cache_new c = Ok sh ->
  execute_wasm_request instantiate call_handle next thread n sh component (Ok req) t0 = Some (w, r) ->
  (forall host, host ∈ network w -> exists p, p ∈ http_allowed c /\ HostAllow.matches host p) /\
  (http_allowed c = [] -> network w = []) /\
  (forall i size, memories w !! i = Some size -> size <= memory_limit_bytes c <= MAX_MEMORY_LIMIT_BYTES) /\
  (forall i size, tables w !! i = Some size -> size <= MAX_TABLE_ELEMENTS) /\
  0 <= fuel w <= default DEFAULT_FUEL_BUDGET (fuel_budget c).
Proof.
  intros ([Ht _] & [Hc _] & [Hb _]) Hr Hp Hnew E.
  apply host_new_limits in Hnew as (Hv & Ha & Hm & Hbud & _ & HT).
  apply validate_iff in Hv as (_ & Hmem & _); [|done|done].
  pose proof (execute_confined _ _ _ _ _ _ _ _ _ _ _ E) as [Hn Hmm Htt]. cbn in Hn, Hmm.
  apply (execute_time _ _ _ _ rate) in E as [_ Hf]; [|lia|rewrite HT; unfold from_secs; lia|done|done].
  rewrite Forall_forall in Hn. rewrite Ha in Hn. rewrite Hm in Hmm. rewrite Hbud in Hf.
  assert (forall host, host ∈ network w -> exists p, p ∈ http_allowed c /\ HostAllow.matches host p) as Hnet.
  { intros host Hh. apply Hn in Hh. apply is_http_host_allowed_matches in Hh. done. }
  split; [exact Hnet|]. split; [|split; [|split; [exact Htt|exact Hf]]].
  - intros Hnil. rewrite Hnil in Hnet. destruct (network w) as [|h l]; [done|].
    destruct (Hnet h (list_elem_of_here _ _)) as (p & Hin & _). by apply not_elem_of_nil in Hin.
  - intros i size Hi. split; [by apply (Hmm i)|apply Hmem].
Qed.

(** C8. An execution ends. For every accepted configuration and every
    component whose computations burn fuel, enough steps always give the end of
    the execution, within two timeouts and the time the fuel lasts; it is
    answered, unless the component returned without setting or dropping its
    response, or keeps the response's body open, and then the request hangs for
    good. With a running epoch thread four timeouts and two stretches bound the
    time as well. But a runtime made by [from_host] has none: from 10 ms after
    it was built, a component that only computes never times out. *)
Theorem execution_ends {Comp S Req : Type} (is_file is_dir : Path -> bool)
    (read_dir : Path -> result (list string) string) (engine_new : EngineConfig -> result unit (list string))
    (from_file : Path -> result Comp string) (aot_cache_new : Z -> result unit (list string)) (c : HostConfig)
    (sh : SharedState Comp) (instantiate : Comp -> S) (call_handle : S -> Req -> S) (next : S -> Stretch S)
    (thread : EpochThread) (rate : Z) (n : nat) (component : Comp) (req : Req) (t0 : Instant) :
  typed c -> 0 <= rate -> paced next rate ->
  host_new is_file is_dir read_dir engine_new from_file aot_cache_new c = Ok sh ->
  (Z.to_nat (default DEFAULT_FUEL_BUDGET (fuel_budget c)) < n)%nat ->
  let T := from_secs (execution_timeout_secs c) in
  exists w r,
    execute_wasm_request instantiate call_handle next thread n sh component (Ok req) t0 = Some (w, r) /\
    now w <= t0 + 2 * T + rate * default DEFAULT_FUEL_BUDGET (fuel_budget c) /\
    (r = None -> outparam w = Held \/ exists g, outparam w = Sent (Ok g) /\ g_body g = BodyOpen) /\
    (forall stretch, stopped thread = None -> 0 <= stretch -> (forall s, time (next s) <= stretch) ->
       now w <= t0 + 4 * T + 2 * stretch) /\
    (forall built returned, thread = (from_host built returned sh).2 -> returned + EPOCH <= t0 ->
       (forall s d k, act (next s) <> Await d k) ->
       r <> Some (Err ["WASM instantiation timed out after " +:+ show_timeout sh]) /\
       r <> Some (Err ["WASM execution timed out after " +:+ show_timeout sh])).
Proof.
  intros ([Ht _] & [Hc _] & [Hb _]) Hr Hp Hnew Hn T.
  apply host_new_limits in Hnew as (Hv & _ & _ & Hbud & Hts & HT).
  apply validate_iff in Hv as (Hsecs & _); [|done|done].
  assert (0 <= execution_timeout sh) as HT0 by (rewrite HT; unfold from_secs; lia).
  assert (timeout_epochs sh = execution_timeout_secs c * 100) as Hdelta
    by (unfold timeout_epochs, u64_max; rewrite Hts; lia).
  rewrite <- Hbud in *. destruct (execute_ends instantiate call_handle next thread rate sh component req n t0)
    as (w & r & E); [done..|]. exists w, r. split; [done|].
  split; [|split; [|split]].
  - apply (execute_time _ _ _ _ rate) in E as [Hw _]; [|done..]. subst T. by rewrite <- HT.
  - intros ->. apply execute_cases in E as (w1 & o1 & _ & Hcase).
    destruct o1 as [s| |e]; [|by destruct Hcase|by destruct Hcase].
    destruct Hcase as (o & _ & Ho). destruct o; [|done|done]. cbn in Ho. unfold receive in Ho.
    destruct (outparam w) as [| |[g|]] eqn:Eo; [by left|done| |done]. right. exists g. split; [done|].
    by destruct (g_body g).
  - intros stretch Hrun H0 Hst. subst T. rewrite <- HT.
    apply (execute_prompt _ _ _ _ stretch) in E; [done|done|done|done|lia|].
    rewrite Hdelta, HT. unfold EPOCH, from_millis, from_secs. lia.
  - intros built returned Hth Hret Hno.
    apply execute_unyielding in E; [|done|].
    + destruct E as [[e ->]|(o & -> & Ho)]; [done|].
      destruct o as [s| |e]; [|done|done]. cbn. unfold receive.
      destruct (outparam w) as [| |[g|]]; [done..| |done]. by destruct (g_body g).
    + intros t. rewrite Hdelta. subst thread.
      pose proof (epoch_from_host built returned sh t0 t Hret). lia.
Qed.

(** A component that grows its memory to 64 KB, sends a request to [host],
    waits for [d] if it was let, computes [k] stretches of a second each, and
    answers, if it is one that does. *)
Inductive DemoState := Init | Start | Sending | Waiting | Computing (k : nat) | Leaving.

Definition demo (host : option string) (d : Duration) (answers : bool) (k : nat) (s : DemoState)
  : Stretch DemoState :=
  let st time a := {| cost := 100; time := time; act := a |} in
  match s with
  | Init => st 1000 (GrowMemory 0 65536 (fun _ => Start))
  | Start => st 1000 (Return Sending)
  | Sending => st 1000 (SendRequest host (fun ok => if ok then Waiting else Computing k))
  | Waiting => st 1000 (Await d (Computing k))
  | Computing 0 =>
      if answers
      then st 1000 (SetResponse (Ok {| g_status := 200; g_headers := []; g_body := Collected "done" |}) Leaving)
      else st 1000 (Return Leaving)
  | Computing (Datatypes.S k) => st (from_secs 1) (GrowTable 0 10 (fun _ => Computing k))
  | Leaving => st 1000 (Return Leaving)
  end.

Lemma demo_paced host d answers k : paced (demo host d answers k) 10000000.
Proof. intros s. unfold from_secs. destruct s as [| | | |[|j]|]; [..|cbn]; cbn; unfold from_secs; try lia.
  destruct answers; cbn; lia. Qed.

(** The answer of an execution of that component, and when it came, in a
    runtime with a timeout of one second. *)
Definition demo_config (allowed : list string) : HostConfig := {|
  modules_path := "modules"; user_modules_path := None; cache_size := 100; max_cache_bytes := 1024;
  static_dir := None; HostConfig.port := 3000; execution_timeout_secs := 1; memory_limit_bytes := MIN_MEMORY_LIMIT_BYTES;
  max_concurrent_requests := 10; max_body_size_bytes := 1024; max_per_module_requests := 5;
  shutdown_timeout_secs := 30; logging_enabled := false; http_allowed := allowed; scripts_dir := None;
  hot_reload := false; aot_cache_max_mb := 0; fuel_budget := Some 5000 |}.

Definition demo_host (allowed : list string) : result (SharedState string) (list string) :=
  host_new (fun _ => false) (fun _ => true) (fun _ => Ok ["a.wasm"]) (fun _ => Ok tt) (fun _ => Err EmptyString)
    (fun _ => Ok tt) (demo_config allowed).

Definition demo_run (allowed : list string) (stopped : option Instant) (host : option string) (d : Duration)
    (answers : bool) (k : nat) : option (Instant * list string * option (result Resp (list string))) :=
  match demo_host allowed with
  | Ok sh =>
      match execute_wasm_request (fun _ => Init) (fun s (_ : unit) => s) (demo host d answers k)
              {| started := 0; stopped := stopped |} 100 sh "a" (Ok tt) (from_secs 10) with
      | Some (w, r) => Some (now w / from_secs 1, network w, r)
      | None => None
      end
  | Err _ => None
  end.

Example answered :
  demo_run ["*.example.com"] None (Some "api.example.com") 0 true 0 =
  Some (10, ["api.example.com"], Some (Ok (resp 200 [] "done"))).
Proof. vm_compute. reflexivity. Qed.
Example waits_too_long :
  demo_run ["*.example.com"] None (Some "api.example.com") (from_secs 5) true 0 =
  Some (11, ["api.example.com"], Some (Err ["WASM execution timed out after 1s"])).
Proof. vm_compute. reflexivity. Qed.
Example computes_too_long :
  demo_run [] None (Some "api.example.com") 0 true 20 =
  Some (11, [], Some (Err ["WASM execution timed out after 1s"])).
Proof. vm_compute. reflexivity. Qed.
(** The runtime as it is built: the thread has stopped. *)
Example computes_past_the_timeout :
  demo_run [] (Some 0) (Some "api.example.com") 0 true 20 = Some (30, [], Some (Ok (resp 200 [] "done"))).
Proof. vm_compute. reflexivity. Qed.
Example out_of_fuel :
  demo_run [] (Some 0) (Some "api.example.com") 0 true 60 =
  Some (57, [], Some (Err ["Handler call failed"; "all fuel consumed by WebAssembly"])).
Proof. vm_compute. reflexivity. Qed.
Example never_answered : demo_run [] None None 0 false 0 = Some (10, [], None).
Proof. vm_compute. reflexivity. Qed.

Lemma demo_typed allowed : typed (demo_config allowed).
Proof. unfold typed, is_u64, u64_max. cbn. lia. Qed.

Lemma sandbox_witness :
  exists sh w r, demo_host ["*.example.com"] = Ok sh /\
    execute_wasm_request (fun _ => Init) (fun s (_ : unit) => s) (demo (Some "api.example.com") 0 true 0)
      {| started := 0; stopped := None |} 100 sh "a" (Ok tt) (from_secs 10) = Some (w, r) /\
    network w = ["api.example.com"] /\
    exists p, p ∈ ["*.example.com"] /\ HostAllow.matches "api.example.com" p.
Proof.
  eexists _, _, _. split; [vm_compute; reflexivity|]. split; [vm_compute; reflexivity|].
  split; [reflexivity|].
  refine (proj1 (sandbox (fun _ => false) (fun _ => true) (fun _ => Ok ["a.wasm"]) (fun _ => Ok tt)
    (fun _ => Err EmptyString) (fun _ => Ok tt) (demo_config ["*.example.com"]) _
    (fun _ => Init) (fun s (_ : unit) => s) (demo (Some "api.example.com") 0 true 0)
    {| started := 0; stopped := None |} 10000000 100 "a" tt (from_secs 10) _ _
    (demo_typed _) ltac:(lia) (demo_paced _ _ _ _) _ _) "api.example.com" _).
  - vm_compute. reflexivity.
  - vm_compute. reflexivity.
  - apply list_elem_of_here.
Defined.

Lemma execution_ends_witness :
  exists sh w r, demo_host [] = Ok sh /\
    execute_wasm_request (fun _ => Init) (fun s (_ : unit) => s) (demo None 0 false 0)
      {| started := 0; stopped := Some 0 |} 6000 sh "a" (Ok tt) (from_secs 10) = Some (w, r) /\
    now w <= from_secs 10 + 2 * from_secs 1 + 10000000 * 5000.
Proof.
  destruct (demo_host []) as [sh|e] eqn:Hsh; [|discriminate Hsh].
  destruct (execution_ends (fun _ => false) (fun _ => true) (fun _ => Ok ["a.wasm"]) (fun _ => Ok tt)
    (fun _ => Err EmptyString) (fun _ => Ok tt) (demo_config []) sh
    (fun _ => Init) (fun s (_ : unit) => s) (demo None 0 false 0)
    {| started := 0; stopped := Some 0 |} 10000000 6000 "a" tt (from_secs 10)
    (demo_typed _) ltac:(lia) (demo_paced _ _ _ _) Hsh ltac:(cbn; lia)) as (w & r & E & Hw & _).
  exists sh, w, r. split; [reflexivity|]. split; [exact E|exact Hw].
Defined.
