(* ===== verification/Build.v ===== *)
(** Build: [mik build], of [src/src/commands/build.rs]: the language, the
    compilation, the composition with the bridge and with the dependencies,
    the optimisation, and the package in [dist/].

    The tools (cargo, npm, wkg, wac, wasm-tools, wasm-opt) are a parameter that
    acts on the files; what is printed is left out. *)

From S2P Require Import Prelude StdPath Fs HostAllow LbServer Json ManifestTypes HostConfig.

#[local] Open Scope Z_scope.
#[local] Open Scope fs_scope.

(** ** Pure parts *)

Inductive Lang := Rust | TypeScript.

#[export] Instance Lang_eq_dec : EqDecision Lang.
Proof. solve_decision. Defined.

Definition normalize_language (lang : string) : Lang :=
  let l := Str.to_lowercase lang in
  if (String.eqb l "rust" || String.eqb l "rs")%bool then Rust
  else if (String.eqb l "typescript" || String.eqb l "ts")%bool then TypeScript
  else Rust.

Definition BRIDGE_OCI_REF : string := "ghcr.io/dufeutech/mik-sdk-bridge".

Definition replace_dash (s : string) : string := Str.map (fun c => if Ascii.eqb c "-" then "_"%char else c) s.

(** Where a dependency is looked for. *)
Definition resolve_dependency_path (name : string) (dep : Dependency) : string :=
  match dep with
  | Simple _ => "modules/" +:+ name +:+ ".wasm"
  | Detailed d =>
      match path d with
      | None => "modules/" +:+ name +:+ ".wasm"
      | Some p =>
          match extension (components p) with
          | Some e =>
              if String.eqb (Str.to_ascii_lowercase e) "wasm" then p
              else p +:+ "/target/wasm32-wasip2/release/" +:+ name +:+ ".wasm"
          | None => p +:+ "/target/wasm32-wasip2/release/" +:+ name +:+ ".wasm"
          end
      end
  end.

Definition build_wac_args (main_component output_path : Path) (dep_paths : list string) : list string :=
  ["plug"] ++ mjoin ((fun p => ["--plug"; p]) <$> dep_paths) ++ [to_str main_component; "-o"; to_str output_path].

(** [is_wasm_component], on what the file holds *)
Definition WASM_MAGIC : string := String "000" "asm".
Definition is_component (header : string) : bool :=
  if Str.len header <? 8 then false
  else if negb (Str.starts_with WASM_MAGIC header) then false
  else match String.get 4 header with Some c => Ascii.eqb c "013" | None => false end.

(** ** Steps *)

Section Build.
Variable cwd : Path.
Variable writable : Path -> bool.
(** A command: whether it could be started and succeeded, and what it did. *)
Variable run : string -> list string -> Fs -> result bool string * Fs.
(** [check_tool]: [<name> --version] succeeds. *)
Variable tool : string -> bool.
(** [daemon::paths::get_tools_dir] *)
Variable tools_dir : result Path (list string).
(** [pull::pull_oci] *)
Variable pull_oci : string -> Path -> M unit.
(** gzip and tar: the archive of named files, if the names can be stored *)
Variable tar_gz : list (string * string) -> result string string.
(** The name in Cargo.toml *)
Variable cargo_name : string -> option string.

Definition exec (program : string) (args : list string) : M bool := fun fs =>
  match run program args fs with
  | (Ok b, fs) => (Ok b, fs)
  | (Err e, fs) => (Err [e], fs)
  end.

Definition has (p : string) : M bool := fun fs => (Ok (exists_ cwd (components p) fs), fs).
Definition has_path (p : Path) : M bool := fun fs => (Ok (exists_ cwd p fs), fs).

Definition host_target : string := "x86_64-unknown-linux-gnu".

Definition extract_schema : M (option Path) :=
  do cargo <- has "Cargo.toml";
  if negb cargo then ret None
  else
    do success <- context "Failed to run cargo test for schema extraction"
      (exec "cargo" ["test"; "__mik_write_schema"; "--target"; host_target; "--"; "--exact"; "--nocapture"]);
    if success : bool
    then do schema <- has "openapi.json";
         ret (if schema : bool then Some (components "openapi.json") else None)
    else ret None.

(** *** The target directory *)

Definition WASI : Path := [Normal "wasm32-wasip2"].

(** The loop over the directories, [fuel] of them at most. *)
Fixpoint search_target (fuel : nat) (current : Path) (fs : Fs) : Path :=
  let target := join current [Normal "target"] in
  if exists_ cwd (join target WASI) fs then target
  else
    let cargo_toml := join current [Normal "Cargo.toml"] in
    let workspace := match files fs !! key cwd cargo_toml with
                     | Some content => Str.contains "[workspace]" content
                     | None => false
                     end in
    if workspace then target
    else match fuel, pop current with
         | S fuel, (true, up) => search_target fuel up fs
         | _, _ => [Normal "target"]
         end.

Definition find_target_dir : M Path := fun fs =>
  let local_target := [Normal "target"] in
  if exists_ cwd (join local_target WASI) fs then (Ok local_target, fs)
  else (Ok (search_target (length cwd) cwd fs), fs).

(** *** Languages *)

Definition build_rust (name : string) (release : bool) : M (Path * Path) :=
  do cargo <- has "Cargo.toml";
  if negb cargo then bail "No Cargo.toml found. Run from a Rust project directory or use --lang flag."
  else if negb (tool "cargo-component") then bail "Missing required tool: cargo-component"
  else
    do success <- context "Failed to run cargo component build"
      (exec "cargo" (["component"; "build"; "--target"; "wasm32-wasip2"] ++ if release then ["--release"] else []));
    if negb success then bail "Rust compilation failed"
    else
      do target_base <- find_target_dir;
      let wasm_path := join (join (join target_base WASI) [Normal (if release then "release" else "debug")])
        (components (replace_dash name +:+ ".wasm")) in
      do found <- has_path wasm_path;
      if found : bool then ret (wasm_path, target_base)
      else bail ("WASM output not found: " +:+ to_str wasm_path).

Definition fetch_wit : M unit :=
  do toml <- has "wit/deps.toml";
  do deps <- has "wit/deps";
  if (toml && negb deps)%bool
  then do _ <- context "Failed to run wkg wit fetch. Install wkg: cargo install wkg" (exec "wkg" ["wit"; "fetch"]); ret tt
  else ret tt.

Definition npm_install : M unit :=
  do present <- has "node_modules";
  if present : bool then ret tt
  else
    do success <- context "Failed to run npm install" (exec "npm" ["install"]);
    if success : bool then ret tt else bail "npm install failed: ".

Definition build_typescript (name : string) : M (Path * Path) :=
  do package <- has "package.json";
  if negb package then bail "No package.json found. Run from a TypeScript project directory."
  else if negb (tool "npm") then bail "npm not found. Install Node.js to build TypeScript projects."
  else
    fetch_wit ;; npm_install ;;
    do success <- context "Failed to run npm run build" (exec "npm" ["run"; "build"]);
    if negb success then bail "TypeScript build failed"
    else
      let wasm_path := components (name +:+ ".wasm") in
      do found <- has_path wasm_path;
      if found : bool then ret (wasm_path, [CurDir])
      else
        do fallback <- has "handler.wasm";
        if fallback : bool then ret ([Normal "handler.wasm"], [CurDir])
        else bail ("WASM output not found: " +:+ name +:+ ".wasm or handler.wasm").

(** *** Optimisation *)

Definition optimize_component (p : Path) : M unit :=
  if negb (tool "wasm-tools") then ret tt
  else do _ <- context "Failed to run wasm-tools strip"
         (exec "wasm-tools" ["strip"; "--all"; "-o"; to_str p; to_str p]); ret tt.

Definition optimize_core_module (p : Path) : M unit :=
  if negb (tool "wasm-opt") then ret tt
  else do _ <- context "Failed to run wasm-opt" (exec "wasm-opt" ["-Oz"; "-o"; to_str p; to_str p]); ret tt.

Definition optimize_wasm (p : Path) : M unit :=
  do header <- read cwd p;
  if is_component header then optimize_component p else optimize_core_module p.

(** *** The bridge *)

Definition download_bridge : M Path :=
  do dir <- lift tools_dir;
  let bridge_dir := join dir [Normal "bridge"] in
  let output_path := join bridge_dir [Normal "latest.wasm"] in
  context "Failed to create ~/.mik/tools/bridge directory" (create_dir_all cwd writable bridge_dir) ;;
  (fun fs => match pull_oci BRIDGE_OCI_REF output_path fs with
             | (Ok _, fs) => (Ok output_path, fs)
             | (Err e, fs) => (Err ["Failed to download bridge: " +:+ hd EmptyString e], fs)
             end).

Definition find_bridge (configured_path : option string) : M Path :=
  match configured_path with
  | Some p =>
      do found <- has p;
      if found : bool then ret (components p)
      else bail ("Configured bridge path does not exist: " +:+ p +:+ NL +:+
                 "Fix: Update [composition].bridge in mik.toml")
  | None =>
      do local <- has "modules/bridge.wasm";
      if local : bool then ret (components "modules/bridge.wasm")
      else
        match tools_dir with
        | Ok dir =>
            let tools_path := join dir (components "bridge/latest.wasm") in
            do found <- has_path tools_path;
            if found : bool then ret tools_path else download_bridge
        | Err _ => download_bridge
        end
  end.

Definition compose_http_handler (handler target_base : Path) (m : Manifest) : M (option Path) :=
  if negb (http_handler (composition m)) then ret None
  else if negb (tool "wac") then bail "Missing required tool: wac"
  else
    do bridge <- find_bridge (ManifestTypes.bridge (composition m));
    let service := join target_base [Normal "service.wasm"] in
    do success <- context "Failed to run wac for bridge composition"
      (exec "wac" ["plug"; to_str bridge; "--plug"; to_str handler; "-o"; to_str service]);
    if negb success then bail "Bridge composition failed"
    else optimize_wasm service ;; ret (Some service).

(** *** Dependencies *)

(** The paths of the dependencies that are there *)
Definition present (m : Manifest) (fs : Fs) : list string :=
  filter (fun p => exists_ cwd (components p) fs = true)
    ((fun d => resolve_dependency_path d.1 d.2) <$> dependencies m).

Definition collect_dependency_paths (m : Manifest) : M (list string) := fun fs => (Ok (present m fs), fs).

Definition compose_all (main_component target_base : Path) (m : Manifest) : M (option Path) :=
  match dependencies m with
  | [] => ret None
  | _ =>
      if negb (tool "wac") then bail "Missing required tool: wac"
      else
        do dep_paths <- collect_dependency_paths m;
        match dep_paths with
        | [] => ret None
        | _ =>
            let output_path := join target_base [Normal "composed.wasm"] in
            create_dir_all cwd writable target_base ;;
            do success <- context "Failed to run wac" (exec "wac" (build_wac_args main_component output_path dep_paths));
            if negb success then bail "Component composition failed"
            else optimize_wasm output_path ;; ret (Some output_path)
        end
  end.

(** *** The package *)

Record PackageNames := {
  wasm_name : string;
  tar_name : string;
  schema_name : string;
}.

Definition package_names (name : string) (release composed : bool) : PackageNames :=
  let suffix := if composed then "-composed" else EmptyString in
  let mode := if release then "release" else "debug" in {|
  wasm_name := name +:+ suffix +:+ ".wasm";
  tar_name := name +:+ suffix +:+ "-" +:+ mode +:+ ".tar.gz";
  schema_name := name +:+ ".openapi.json" |}.

Definition DIST : Path := [Normal "dist"].
Definition in_dist (name : string) : Path := join DIST (components name).

Definition package_to_dist (wasm_path : Path) (name : string) (release composed : bool) (schema_path : option Path)
  : M unit :=
  create_dir_all cwd writable DIST ;;
  let names := package_names name release composed in
  let dist_wasm := in_dist (wasm_name names) in
  let dist_schema := in_dist (schema_name names) in
  context "Failed to copy wasm to dist/" (copy cwd writable wasm_path dist_wasm) ;;
  match schema_path with
  | Some schema => context "Failed to copy schema to dist/" (copy cwd writable schema dist_schema)
  | None => ret tt
  end ;;
  context "Failed to create tar.gz" (write cwd writable (in_dist (tar_name names)) EmptyString) ;;
  do wasm <- read cwd dist_wasm;
  do schema <- match schema_path with
               | Some _ => do s <- read cwd dist_schema; ret [(schema_name names, s)]
               | None => ret []
               end;
  match tar_gz ((wasm_name names, wasm) :: schema) with
  | Ok archive => write cwd writable (in_dist (tar_name names)) archive
  | Err e => bail e
  end.

(** *** The command *)

Definition project_lang (lang_override : option string) (manifest : option Manifest) : Lang :=
  match (match lang_override with
         | Some l => Some l
         | None => match manifest with Some m => language (project m) | None => None end
         end) with
  | Some l => normalize_language l
  | None => Rust
  end.

Definition get_cargo_name (fs : Fs) : option string :=
  match files fs !! key cwd [Normal "Cargo.toml"] with Some content => cargo_name content | None => None end.

Definition component_name_of (manifest : option Manifest) (fs : Fs) : string :=
  match manifest with
  | Some m => project_name (project m)
  | None => default "component" (get_cargo_name fs)
  end.

(** [manifest] is what [Manifest::load] gave; its errors leave [None]. *)
Definition execute (manifest : option Manifest) (release compose : bool) (lang_override : option string)
    (no_schema : bool) : M unit := fun fs =>
  let lang := project_lang lang_override manifest in
  let name := component_name_of manifest fs in
  (do schema_path <- (if (negb no_schema && bool_decide (lang = Rust))%bool then extract_schema else ret None);
   do ' (wasm_path, target_base) <- match lang with
                                     | Rust => build_rust name release
                                     | TypeScript => build_typescript name
                                     end;
   (if (release && bool_decide (lang = Rust))%bool then optimize_wasm wasm_path else ret tt) ;;
   do http_composed <- match manifest with
                       | Some m => compose_http_handler wasm_path target_base m
                       | None => ret None
                       end;
   let handler_wasm := default wasm_path http_composed in
   do final_wasm <- (if compose then
                       match manifest with
                       | Some m => do composed <- compose_all handler_wasm target_base m;
                                   ret (default handler_wasm composed)
                       | None => ret handler_wasm
                       end
                     else ret handler_wasm);
   let did_compose := (compose || bool_decide (is_Some http_composed))%bool in
   package_to_dist final_wasm name release did_compose schema_path) fs.
End Build.

(** ** What the tools do *)

(** The arguments of [wac plug]: plugs, socket and output. *)
Definition dashed (s : string) : bool := Str.starts_with "-" s.

Fixpoint wac_options (args : list string) : option (list string * list string * list string) :=
  match args with
  | [] => Some ([], [], [])
  | a :: rest =>
      if (String.eqb a "--plug" || String.eqb a "-o")%bool then
        match rest with
        | v :: rest =>
            if dashed v then None
            else match wac_options rest with
                 | Some (plugs, sockets, outs) =>
                     Some (if String.eqb a "-o" then (plugs, sockets, v :: outs) else (v :: plugs, sockets, outs))
                 | None => None
                 end
        | [] => None
        end
      else if dashed a then None
      else match wac_options rest with
           | Some (plugs, sockets, outs) => Some (plugs, a :: sockets, outs)
           | None => None
           end
  end.

Definition wac_plug (args : list string) : option (list string * string * string) :=
  match args with
  | subcommand :: rest =>
      if String.eqb subcommand "plug" then
        match wac_options rest with
        | Some (plugs, [socket], [out]) => Some (plugs, socket, out)
        | _ => None
        end
      else None
  | [] => None
  end.

(** The tools that change a component: a failing command leaves the files as
    they are, one that succeeds writes its output. *)
Class ToolLaws (cwd : Path) (run : string -> list string -> Fs -> result bool string * Fs)
    (strip optz : string -> string) (plug : string -> list string -> string) : Prop := {
  strip_law : forall p fs r fs', run "wasm-tools" ["strip"; "--all"; "-o"; p; p] fs = (r, fs') ->
    fs' = fs \/ exists b, files fs !! key cwd (components p) = Some b /\ fs' = put cwd (components p) (strip b) fs;
  optz_law : forall p fs r fs', run "wasm-opt" ["-Oz"; "-o"; p; p] fs = (r, fs') ->
    fs' = fs \/ exists b, files fs !! key cwd (components p) = Some b /\ fs' = put cwd (components p) (optz b) fs;
  wac_law : forall args fs fs', run "wac" args fs = (Ok true, fs') ->
    exists plugs socket out s ps, wac_plug args = Some (plugs, socket, out) /\
      files fs !! key cwd (components socket) = Some s /\
      Forall2 (fun p b => files fs !! key cwd (components p) = Some b) plugs ps /\
      fs' = put cwd (components out) (plug s ps) fs;
}.

Section Spec.
Variable strip optz : string -> string.
Variable plug : string -> list string -> string.

(** What optimising may make of a component. *)
Definition optimised (b b' : string) : Prop :=
  b' = b \/ (is_component b = true /\ b' = strip b) \/ (is_component b = false /\ b' = optz b).

(** The bridge with the handler plugged in, if the manifest asks for it. *)
Definition bridged (manifest : option Manifest) (bridge handler b : string) : Prop :=
  match manifest with
  | Some m => if http_handler (composition m) then optimised (plug bridge [handler]) b else b = handler
  | None => b = handler
  end.

(** The component with the given dependencies plugged in, if there are any. *)
Definition composed_with (ps : list string) (b b' : string) : Prop :=
  match ps with [] => b' = b | _ => optimised (plug b ps) b' end.
End Spec.

Definition bridge_wanted (manifest : option Manifest) : bool :=
  match manifest with Some m => http_handler (composition m) | None => false end.

(** ** Lemmas *)

Lemma wac_options_plugs deps rest :
  wac_options (mjoin ((fun p => ["--plug"; p]) <$> deps) ++ rest) =
  if existsb dashed deps then None
  else match wac_options rest with
       | Some (plugs, sockets, outs) => Some (deps ++ plugs, sockets, outs)
       | None => None
       end.
Proof.
  induction deps as [|d deps IH].
  - cbn. by destruct (wac_options rest) as [[[? ?] ?]|].
  - csimpl. cbn [wac_options app]. rewrite IH. cbn [existsb].
    change (String.eqb "--plug" "--plug") with true. change (String.eqb "--plug" "-o") with false. cbn [orb].
    destruct (dashed d); [done|]. cbn [orb]. destruct (existsb dashed deps); [done|].
    by destruct (wac_options rest) as [[[? ?] ?]|].
Qed.

(** The arguments are read as they are meant, or refused. *)
Lemma wac_socket_out socket out r :
  wac_options [socket; "-o"; out] = Some r -> r = ([], [socket], [out]).
Proof.
  cbn [wac_options]. change (String.eqb "-o" "--plug") with false. change (String.eqb "-o" "-o") with true.
  cbn [orb]. destruct (String.eqb_spec socket "--plug") as [->|]; [by cbn|].
  destruct (String.eqb_spec socket "-o") as [->|]; [by cbn|]. cbn [orb].
  destruct (dashed socket); [done|]. destruct (dashed out); [done|]. by intros [= <-].
Qed.

Lemma build_wac_args_read main out deps r :
  wac_plug (build_wac_args main out deps) = Some r -> r = (deps, to_str main, to_str out).
Proof.
  unfold build_wac_args, wac_plug. cbn [app]. change (String.eqb "plug" "plug") with true. cbn iota.
  rewrite wac_options_plugs. destruct (existsb dashed deps); [done|].
  destruct (wac_options [to_str main; "-o"; to_str out]) as [x|] eqn:E; [|done].
  apply wac_socket_out in E as ->. rewrite app_nil_r. by intros [= <-].
Qed.

Lemma bridge_args_read bridge handler out r :
  wac_plug ["plug"; bridge; "--plug"; handler; "-o"; out] = Some r -> r = ([handler], bridge, out).
Proof.
  unfold wac_plug. change (String.eqb "plug" "plug") with true. cbn iota. intros E.
  destruct (wac_options [bridge; "--plug"; handler; "-o"; out]) as [x|] eqn:Ex; [|done].
  assert (x = ([handler], [bridge], [out])) as ->; [|by simplify_eq].
  clear E. revert Ex. cbn [wac_options]. change (String.eqb "--plug" "--plug") with true.
  change (String.eqb "--plug" "-o") with false. change (String.eqb "-o" "--plug") with false.
  change (String.eqb "-o" "-o") with true. cbn [orb].
  destruct (String.eqb_spec bridge "--plug") as [->|]; [by cbn|].
  destruct (String.eqb_spec bridge "-o") as [->|]; [by cbn|]. cbn [orb].
  destruct (dashed bridge); [done|]. destruct (dashed handler); [done|]. destruct (dashed out); [done|]. by intros [= <-].
Qed.

Lemma plain_dotted a suf :
  Str.contains_char Str.SLASH a = false -> Str.contains_char Str.SLASH suf = false -> 3 <= Str.len suf ->
  plain (a +:+ suf).
Proof.
  intros Ha Hs Hl. assert (3 <= Str.len (a +:+ suf)) as Hlen
    by (unfold Str.len in *; rewrite Str.length_app; lia).
  split_and!; [intros E; by rewrite E in Hlen..|]. by rewrite Str.contains_char_app, Ha, Hs.
Qed.

Fixpoint last_char (s : string) : option ascii :=
  match s with
  | EmptyString => None
  | String c EmptyString => Some c
  | String _ s => last_char s
  end.

Lemma last_char_app a c b : last_char (a +:+ String c b) = last_char (String c b).
Proof. induction a as [|d a IH]; [done|]. cbn [String.append]. rewrite <- IH. by destruct a. Qed.

Lemma package_names_plain name release composed :
  Str.contains_char Str.SLASH name = false ->
  let names := package_names name release composed in
  plain (wasm_name names) /\ plain (tar_name names) /\ plain (schema_name names).
Proof.
  intros Hn. cbn. split_and!; apply plain_dotted; try done; destruct composed, release; cbn; try done; lia.
Qed.

Lemma package_names_distinct name release composed :
  let names := package_names name release composed in
  wasm_name names <> tar_name names /\ wasm_name names <> schema_name names /\
  tar_name names <> schema_name names.
Proof.
  cbn. split_and!; intros E%(f_equal last_char); destruct composed, release; cbn [String.append] in E;
    rewrite !last_char_app in E; discriminate.
Qed.

#[local] Set Default Proof Using "Type*".

Section Package.
Variable cwd : Path.
Variable writable : Path -> bool.
Variable tar_gz : list (string * string) -> result string string.

(** Names in [dist]. *)
Lemma in_dist_key name : plain name -> key cwd (in_dist name) = key cwd [Normal "dist"; Normal name].
Proof.
  intros Hn. unfold in_dist. pose proof (components_to_str [name] ltac:(done) ltac:(by constructor)) as Hc.
  cbn in Hc. by rewrite Hc.
Qed.

Lemma in_dist_inj n1 n2 :
  plain n1 -> plain n2 -> key cwd (in_dist n1) = key cwd (in_dist n2) -> n1 = n2.
Proof.
  intros H1 H2. rewrite !in_dist_key by done. unfold key, join. cbn [is_absolute has_root].
  assert (forall n : string, filter dot [Normal "dist"; Normal n] = [Normal "dist"; Normal n]) as Hf by done.
  destruct cwd as [|c cs]; [rewrite !Hf; by intros [= ->]|].
  rewrite !filter_app, !Hf. intros [_ [= ->]]%app_inj_2; done.
Qed.

Lemma package_Ok wasm name release composed schema fs fs' :
  Str.contains_char Str.SLASH name = false ->
  let names := package_names name release composed in
  key cwd wasm <> key cwd (in_dist (wasm_name names)) ->
  (forall s n, schema = Some s -> plain n -> key cwd s <> key cwd (in_dist n)) ->
  package_to_dist cwd writable tar_gz wasm name release composed schema fs = (Ok tt, fs') ->
  exists b docs archive,
    files fs !! key cwd wasm = Some b /\ files fs' !! key cwd (in_dist (wasm_name names)) = Some b /\
    match schema with
    | Some s => exists d, docs = [(schema_name names, d)] /\ files fs !! key cwd s = Some d /\
                  files fs' !! key cwd (in_dist (schema_name names)) = Some d
    | None => docs = []
    end /\
    tar_gz ((wasm_name names, b) :: docs) = Ok archive /\
    files fs' !! key cwd (in_dist (tar_name names)) = Some archive.
Proof.
  intros Hname names Hwasm Hschema. destruct (package_names_plain name release composed Hname) as (Pw & Pt & Ps).
  destruct (package_names_distinct name release composed) as (Dwt & Dws & Dts). fold names in Pw, Pt, Ps, Dwt, Dws, Dts.
  assert (forall n1 n2, plain n1 -> plain n2 -> n1 <> n2 -> key cwd (in_dist n1) <> key cwd (in_dist n2)) as Hne
    by (intros n1 n2 H1 H2 Hn E; by apply Hn, in_dist_inj).
  unfold package_to_dist. fold names. intros ([] & fs1 & [Hfiles _]%create_dir_all_Ok & H)%bind_Ok.
  apply bind_Ok in H as ([] & fs2 & Hcopy & H). apply context_Ok, copy_Ok in Hcopy as (b & Hb & ->).
  rewrite Hfiles in Hb. rewrite (copied_ne _ _ _ _ Hwasm) in H.
  apply bind_Ok in H as ([] & fs3 & Hdoc & H). apply bind_Ok in H as ([] & fs4 & Htar & H).
  apply context_Ok, write_Ok in Htar as ->.
  apply bind_Ok in H as (b2 & fs5 & [-> Hb2]%read_Ok & H). apply bind_Ok in H as (docs & fs6 & Hdocs & H).
  destruct (tar_gz _) as [archive|] eqn:Earch; [|done]. apply write_Ok in H as ->.
  destruct schema as [s|].
  - apply context_Ok, copy_Ok in Hdoc as (d & Hd & ->).
    rewrite (copied_ne _ _ _ _ (Hschema _ _ eq_refl Ps)) in Hb2, Hdocs.
    rewrite put_lookup_ne in Hd by (by apply not_eq_sym, Hschema). rewrite Hfiles in Hd.
    rewrite !put_lookup_ne, put_lookup in Hb2 by (by apply Hne). simplify_eq.
    apply bind_Ok in Hdocs as (d2 & fs7 & [-> Hd2]%read_Ok & Hret). injection Hret as <- <-.
    rewrite put_lookup_ne, put_lookup in Hd2 by (by apply Hne). simplify_eq.
    exists b2, [(schema_name names, d2)], archive. split; [done|].
    split; [by rewrite !put_lookup_ne, put_lookup by (by apply Hne)|].
    split; [|by rewrite put_lookup].
    exists d2. split; [done|]. split; [done|]. by rewrite !put_lookup_ne, put_lookup by (by apply Hne).
  - injection Hdoc as <-. injection Hdocs as <- <-.
    rewrite put_lookup_ne, put_lookup in Hb2 by (by apply Hne). simplify_eq.
    exists b2, [], archive. split; [done|].
    split; [by rewrite !put_lookup_ne, put_lookup by (by apply Hne)|]. split; [done|]. by rewrite put_lookup.
Qed.
End Package.

(** *** No output is in [dist/] before it is packaged *)

Definition outside (cwd p : Path) : Prop := forall n, plain n -> key cwd p <> key cwd (in_dist n).

Lemma key_tail cwd P a b : exists X, key cwd (P ++ [Normal a; Normal b]) = X ++ [Normal a; Normal b].
Proof.
  set (l := [Normal a; Normal b]).
  assert (exists Y, match P ++ l with CurDir :: q => q | _ => P ++ l end = Y ++ l) as [Y HY].
  { destruct P as [|x P]; [by exists []|]. destruct x; try (by exists P); by eexists (_ :: P). }
  unfold key, join. destruct (is_absolute _); [exists (filter dot P); by rewrite filter_app|].
  destruct cwd as [|c cs]; [exists (filter dot P); by rewrite filter_app|].
  exists (filter dot (c :: cs ++ Y)).
  transitivity (filter dot ((c :: cs) ++ Y ++ l)); [f_equal; f_equal; exact HY|].
  by rewrite app_assoc, filter_app.
Qed.

Lemma outside_tail cwd P a b : a <> "dist" -> outside cwd (P ++ [Normal a; Normal b]).
Proof.
  intros Ha n Hn E. rewrite in_dist_key in E by done.
  destruct (key_tail cwd P a b) as [X HX], (key_tail cwd [] "dist" n) as [Y HY]. cbn [app] in HY.
  rewrite HX, HY in E. apply app_inj_2 in E as [_ [= -> _]]; done.
Qed.

Lemma outside_file cwd f : f <> EmptyString -> outside cwd [Normal f].
Proof.
  intros Hf n Hn E. rewrite in_dist_key in E by done. unfold key, join in E. cbn in E.
  destruct cwd as [|c cs]; [done|]. rewrite !filter_app in E. by apply app_inv_head in E.
Qed.

Lemma join_target P a f : join (P ++ [Normal a]) [Normal f] = P ++ [Normal a; Normal f].
Proof. unfold join. cbn. destruct (P ++ [Normal a]) eqn:E; [by destruct P|]. rewrite <- E. by rewrite <- app_assoc. Qed.

(** The target directories *)
Definition target_dir (base : Path) : Prop := base = [CurDir] \/ exists P, base = P ++ [Normal "target"].

Lemma target_dir_file cwd base f : target_dir base -> outside cwd (join base [Normal f]).
Proof.
  intros [->|[P ->]].
  - intros n Hn E. rewrite in_dist_key in E by done. unfold key, join in E. cbn in E.
    destruct cwd as [|c cs]; [done|]. rewrite !filter_app in E. by apply app_inv_head in E.
  - rewrite join_target. by apply outside_tail.
Qed.

Lemma replace_dash_slash s : Str.contains_char Str.SLASH (replace_dash s) = Str.contains_char Str.SLASH s.
Proof.
  induction s as [|c s IH]; [done|].
  change (replace_dash (String c s)) with (String (if Ascii.eqb c "-" then "_"%char else c) (replace_dash s)).
  change (String (if Ascii.eqb c "-" then "_"%char else c) (replace_dash s)) with
    (String (if Ascii.eqb c "-" then "_"%char else c) EmptyString +:+ replace_dash s).
  change (String c s) with (String c EmptyString +:+ s). rewrite !Str.contains_char_app, IH. f_equal.
  destruct (Ascii.eqb_spec c "-") as [->|]; done.
Qed.

(** Where the steps look and write. *)
Section Places.
Variable cwd : Path.
Variable writable : Path -> bool.
Variable run : string -> list string -> Fs -> result bool string * Fs.
Variable tool : string -> bool.
Variable tools_dir : result Path (list string).
Variable pull_oci : string -> Path -> M unit.

Lemma find_bridge_canonical c fs bridge fs' :
  (forall d, tools_dir = Ok d -> canonical d) ->
  find_bridge cwd writable tools_dir pull_oci c fs = (Ok bridge, fs') -> canonical bridge.
Proof.
  intros Htools. assert (forall fs, download_bridge cwd writable tools_dir pull_oci fs = (Ok bridge, fs') -> canonical bridge) as Hdl.
  { clear fs. intros fs. unfold download_bridge, lift. intros (dir & fs1 & [= Hd <-] & H)%bind_Ok.
    apply bind_Ok in H as ([] & fs2 & _ & H). destruct (pull_oci _ _ _) as [[]]; simplify_eq.
    repeat apply canonical_join; auto; by apply canonical_plain. }
  unfold find_bridge. destruct c as [p|]; intros (found & fs1 & [= <- <-] & H)%bind_Ok.
  - destruct (exists_ _ _ _); [|done]. injection H as <- _. apply components_canonical.
  - destruct (exists_ _ _ _); [injection H as <- _; apply components_canonical|].
    destruct tools_dir as [dir|e] eqn:Ed; [|by eapply Hdl].
    apply bind_Ok in H as (found & fs2 & [= <- <-] & H). destruct (exists_ _ _ _); [|by eapply Hdl].
    injection H as <- _. apply canonical_join; [auto|apply components_canonical].
Qed.

(** Finding the bridge touches no file but the one it downloads. *)
Lemma find_bridge_frame c fs r fs' q :
  (forall ref p fs q, q <> key cwd p -> files (pull_oci ref p fs).2 !! q = files fs !! q) ->
  (forall d, tools_dir = Ok d -> q <> key cwd (join (join d [Normal "bridge"]) [Normal "latest.wasm"])) ->
  find_bridge cwd writable tools_dir pull_oci c fs = (Ok r, fs') -> files fs' !! q = files fs !! q.
Proof.
  intros Hpull Hq. assert (forall fs, download_bridge cwd writable tools_dir pull_oci fs = (Ok r, fs') ->
    files fs' !! q = files fs !! q) as Hdl.
  { clear fs. intros fs. unfold download_bridge, lift. intros (dir & fs1 & [= Hd <-] & H)%bind_Ok.
    apply bind_Ok in H as ([] & fs2 & Hdir & H). apply context_Ok, create_dir_all_Ok in Hdir as [<- _].
    pose proof (Hpull BRIDGE_OCI_REF (join (join dir [Normal "bridge"]) [Normal "latest.wasm"]) fs2 q (Hq dir Hd)) as Hf.
    destruct (pull_oci _ _ _) as [[]]; [|done]. by injection H as _ <-. }
  unfold find_bridge. destruct c as [p|]; intros (found & fs1 & [= <- <-] & H)%bind_Ok.
  - destruct (exists_ _ _ _); [by injection H as _ <-|done].
  - destruct (exists_ _ _ _); [by injection H as _ <-|].
    destruct tools_dir as [dir|e]; [|by apply Hdl].
    apply bind_Ok in H as (found & fs2 & [= <- <-] & H). destruct (exists_ _ _ _); [by injection H as _ <-|by apply Hdl].
Qed.

Lemma search_target_canonical fuel fs : forall current,
  canonical current -> canonical (search_target cwd fuel current fs).
Proof.
  assert (forall p, canonical p -> canonical (join p [Normal "target"])) as Hj
    by (intros p Hp; apply canonical_join; [done|by apply canonical_plain]).
  induction fuel as [|fuel IH]; intros current Hc; cbn [search_target];
    (destruct (exists_ _ _ _); [by apply Hj|]);
    (destruct (match files fs !! key cwd _ with Some _ => _ | None => _ end); [by apply Hj|]);
    try by apply canonical_plain.
  destruct (pop current) as [[] up] eqn:E; [|by apply canonical_plain].
  apply IH. by eapply canonical_pop.
Qed.

Lemma search_target_dir fuel fs : forall current, target_dir (search_target cwd fuel current fs).
Proof.
  assert (forall p, target_dir (join p [Normal "target"])) as Hj
    by (intros [|c p]; right; [by exists []|by exists (c :: p)]).
  induction fuel as [|fuel IH]; intros current; cbn [search_target];
    (destruct (exists_ _ _ _); [apply Hj|]);
    (destruct (match files fs !! key cwd _ with Some _ => _ | None => _ end); [apply Hj|]);
    try (right; by exists []).
  destruct (pop current) as [[] up]; [apply IH|right; by exists []].
Qed.

Lemma build_rust_Ok name release fs wasm base fs' :
  canonical cwd -> Str.contains_char Str.SLASH name = false ->
  build_rust cwd run tool name release fs = (Ok (wasm, base), fs') ->
  canonical wasm /\ canonical base /\ outside cwd wasm /\ target_dir base.
Proof.
  intros Hcwd Hname. unfold build_rust. intros (cargo & fs1 & [= <- <-] & H)%bind_Ok.
  destruct (exists_ _ _ _); [|done]. cbn [negb] in H. destruct (tool "cargo-component"); [|done]. cbn [negb] in H.
  apply bind_Ok in H as (success & fs2 & _ & H). destruct success; [|done]. cbn [negb] in H.
  apply bind_Ok in H as (target & fs3 & Ht & H). apply bind_Ok in H as (found & fs4 & _ & H).
  destruct found; [|done]. injection H as <- <- _.
  assert (canonical target) as Hc.
  { unfold find_target_dir in Ht. destruct (exists_ _ _ _); injection Ht as <- _; [by apply canonical_plain|].
    by apply search_target_canonical. }
  assert (target_dir target) as Htd.
  { unfold find_target_dir in Ht. destruct (exists_ _ _ _); injection Ht as <- _; [right; by exists []|].
    apply search_target_dir. }
  rewrite components_plain by (apply plain_dotted; [by rewrite replace_dash_slash|done|done]).
  split; [|split; [done|split; [|done]]].
  - repeat apply canonical_join; try done; try by apply canonical_plain.
    + destruct release; by apply canonical_plain.
    + apply canonical_plain, plain_dotted; [by rewrite replace_dash_slash|done|done].
  - assert (target <> []) as Hne by (by destruct Htd as [->|[[] ->]]).
    assert (exists P, join (join target WASI) [Normal (if release then "release" else "debug")] =
              P ++ [Normal (if release then "release" else "debug")]) as (P & ->).
    { exists (target ++ WASI). by destruct target. }
    rewrite join_target. by apply outside_tail; destruct release.
Qed.

Lemma build_typescript_Ok name fs wasm base fs' :
  Str.contains_char Str.SLASH name = false ->
  build_typescript cwd run tool name fs = (Ok (wasm, base), fs') ->
  canonical wasm /\ canonical base /\ outside cwd wasm /\ target_dir base.
Proof.
  intros Hname. unfold build_typescript. intros (package & fs1 & [= <- <-] & H)%bind_Ok.
  destruct (exists_ _ _ _); [|done]. cbn [negb] in H. destruct (tool "npm"); [|done]. cbn [negb] in H.
  apply bind_Ok in H as ([] & fs2 & _ & H). apply bind_Ok in H as ([] & fs3 & _ & H).
  apply bind_Ok in H as (success & fs4 & _ & H). destruct success; [|done]. cbn [negb] in H.
  assert (canonical [CurDir]) as Hdot by (split; auto).
  apply bind_Ok in H as (found & fs5 & _ & H). destruct found.
  - injection H as <- <- _. split; [apply components_canonical|]. split; [done|]. split; [|by left].
    rewrite components_plain by (by apply plain_dotted). apply outside_file. by destruct name.
  - apply bind_Ok in H as (fallback & fs6 & _ & H). destruct fallback; [|done]. injection H as <- <- _.
    split; [by apply canonical_plain|]. split; [done|]. split; [by apply outside_file|by left].
Qed.
Lemma bridge_outside manifest wasm base fs r fs' :
  match manifest with
  | Some m => compose_http_handler cwd writable run tool tools_dir pull_oci wasm base m
  | None => ret None
  end fs = (Ok r, fs') -> outside cwd wasm -> target_dir base -> outside cwd (default wasm r).
Proof.
  intros H Hw Ht. assert (r = None \/ r = Some (join base [Normal "service.wasm"])) as [->| ->]; [|done|by apply target_dir_file].
  destruct manifest as [m|]; [|injection H as <- _; by left]. unfold compose_http_handler in H.
  destruct (http_handler (composition m)); [|injection H as <- _; by left]. destruct (tool "wac"); [|done]. cbn [negb] in H.
  apply bind_Ok in H as (bridge & fs1 & _ & H). apply bind_Ok in H as (success & fs2 & _ & H).
  destruct success; [|done]. apply bind_Ok in H as ([] & fs3 & _ & [= <- <-]). by right.
Qed.

Lemma compose_outside manifest compose handler base fs final fs' :
  (if compose : bool then
     match manifest with
     | Some m => bind (compose_all cwd writable run tool handler base m) (fun c => ret (default handler c))
     | None => ret handler
     end
   else ret handler) fs = (Ok final, fs') -> outside cwd handler -> target_dir base -> outside cwd final.
Proof.
  intros H Hh Ht. destruct compose, manifest as [m|]; try (by injection H as <- _).
  apply bind_Ok in H as (c & fs1 & H & [= <- <-]).
  assert (c = None \/ c = Some (join base [Normal "composed.wasm"])) as [->| ->]; [|done|by apply target_dir_file].
  unfold compose_all in H. destruct (dependencies m); [injection H as <- _; by left|].
  destruct (tool "wac"); [|done]. cbn [negb] in H. apply bind_Ok in H as (deps & fs2 & _ & H).
  destruct deps; [injection H as <- _; by left|]. apply bind_Ok in H as ([] & fs3 & _ & H).
  apply bind_Ok in H as (success & fs4 & _ & H). destruct success; [|done].
  apply bind_Ok in H as ([] & fs5 & _ & [= <- <-]). by right.
Qed.
End Places.

Section Steps.
Variable cwd : Path.
Variable writable : Path -> bool.
Variable run : string -> list string -> Fs -> result bool string * Fs.
Variable tool : string -> bool.
Variable tools_dir : result Path (list string).
Variable pull_oci : string -> Path -> M unit.
Variable tar_gz : list (string * string) -> result string string.
Variable strip optz : string -> string.
Variable plug : string -> list string -> string.
Context `{!ToolLaws cwd run strip optz plug}.

Lemma exec_Ok program args fs b fs' :
  exec run program args fs = (Ok b, fs') <-> run program args fs = (Ok b, fs').
Proof. unfold exec. destruct (run program args fs) as [[x|e] fs1]; by split; intros [=]; subst. Qed.

Lemma put_same p b fs : files fs !! key cwd p = Some b -> put cwd p b fs = fs.
Proof. intros Hb. unfold put. rewrite insert_id by done. by destruct fs. Qed.

(** Optimising a file that is there changes it, at most. *)
Lemma optimize_wasm_Ok p fs fs' :
  canonical p -> optimize_wasm cwd run tool p fs = (Ok tt, fs') ->
  exists b b', files fs !! key cwd p = Some b /\ optimised strip optz b b' /\ fs' = put cwd p b' fs.
Proof.
  intros Hp. unfold optimize_wasm. intros (b & fs1 & [-> Hb]%read_Ok & H)%bind_Ok.
  exists b.
  assert (fs' = fs -> exists b', files fs !! key cwd p = Some b /\ optimised strip optz b b' /\ fs' = put cwd p b' fs)
    as Hsame by (intros ->; exists b; split; [done|]; split; [by left|rewrite put_same by done; done]).
  destruct (is_component b) eqn:Ec; revert H; unfold optimize_component, optimize_core_module.
  - destruct (tool "wasm-tools"); [|intros [= <-]; by apply Hsame].
    intros (x & fs2 & Hx & [= <-])%bind_Ok. apply context_Ok, exec_Ok, strip_law in Hx as [->|(b1 & Hb1 & ->)]; [by apply Hsame|].
    rewrite components_to_str_canonical in Hb1 |- * by done. exists (strip b). simplify_eq. split; [done|].
    split; [right; by left|done].
  - destruct (tool "wasm-opt"); [|intros [= <-]; by apply Hsame].
    intros (x & fs2 & Hx & [= <-])%bind_Ok. apply context_Ok, exec_Ok, optz_law in Hx as [->|(b1 & Hb1 & ->)]; [by apply Hsame|].
    rewrite components_to_str_canonical in Hb1 |- * by done. exists (optz b). simplify_eq. split; [done|].
    split; [right; by right|done].
Qed.

(** A composition writes its output, which is then optimised. *)
Lemma wac_optimised args plugs socket out fs fs1 fs' :
  (forall r, wac_plug args = Some r -> r = (plugs, to_str socket, to_str out)) ->
  canonical socket -> canonical out ->
  run "wac" args fs = (Ok true, fs1) -> optimize_wasm cwd run tool out fs1 = (Ok tt, fs') ->
  exists s ps b, files fs !! key cwd socket = Some s /\
    Forall2 (fun p b => files fs !! key cwd (components p) = Some b) plugs ps /\
    optimised strip optz (plug s ps) b /\ files fs' !! key cwd out = Some b.
Proof.
  intros Hargs Hs Ho (plugs' & socket' & out' & s & ps & Hr & Hsb & Hps & ->)%wac_law Hopt.
  apply Hargs in Hr. simplify_eq. rewrite !components_to_str_canonical in * by done.
  apply optimize_wasm_Ok in Hopt as (b & b' & Hb & Hopt & ->); [|done].
  rewrite put_lookup in Hb. simplify_eq. exists s, ps, b'. rewrite put_lookup. done.
Qed.

Lemma compose_http_handler_Ok handler base m fs r fs' :
  canonical handler -> canonical base -> (forall d, tools_dir = Ok d -> canonical d) ->
  compose_http_handler cwd writable run tool tools_dir pull_oci handler base m fs = (Ok r, fs') ->
  (http_handler (composition m) = false /\ r = None /\ fs' = fs) \/
  exists bridge fs1 h s b,
    http_handler (composition m) = true /\
    find_bridge cwd writable tools_dir pull_oci (ManifestTypes.bridge (composition m)) fs = (Ok bridge, fs1) /\
    files fs1 !! key cwd bridge = Some s /\ files fs1 !! key cwd handler = Some h /\
    r = Some (join base [Normal "service.wasm"]) /\ optimised strip optz (plug s [h]) b /\
    files fs' !! key cwd (join base [Normal "service.wasm"]) = Some b.
Proof.
  intros Hh Hbase Htools. unfold compose_http_handler.
  destruct (http_handler (composition m)); [|intros [= <- <-]; by left].
  destruct (tool "wac"); [|done]. cbn [negb].
  intros (bridge & fs1 & Hbridge & Hx)%bind_Ok. right.
  apply bind_Ok in Hx as (success & fs2 & Hx & H'). apply context_Ok, exec_Ok in Hx.
  destruct success; [|done]. cbn [negb] in H'. apply bind_Ok in H' as ([] & fs3 & Hopt & [= <- <-]).
  eapply (wac_optimised _ _ _ _ _ _ _ (bridge_args_read _ _ _)) in Hx as (s & ps & b & Hs & Hps & Hb & Hout);
    [|exact (find_bridge_canonical _ _ _ _ _ _ _ _ Htools Hbridge)|by apply canonical_join; [|apply canonical_plain]|exact Hopt].
  apply Forall2_cons_inv_l in Hps as (h & ps' & Hh1 & Hnil & ->). apply Forall2_nil_inv_l in Hnil as ->.
  rewrite components_to_str_canonical in Hh1 by done. exists bridge, fs1, h, s, b. done.
Qed.

Lemma compose_all_Ok main base m fs r fs' :
  canonical main -> canonical base ->
  compose_all cwd writable run tool main base m fs = (Ok r, fs') ->
  (present cwd m fs = [] /\ r = None /\ fs' = fs) \/
  exists s ps b, present cwd m fs <> [] /\ files fs !! key cwd main = Some s /\
    Forall2 (fun p b => files fs !! key cwd (components p) = Some b) (present cwd m fs) ps /\
    r = Some (join base [Normal "composed.wasm"]) /\ optimised strip optz (plug s ps) b /\
    files fs' !! key cwd (join base [Normal "composed.wasm"]) = Some b.
Proof.
  intros Hm Hb. unfold compose_all. destruct (dependencies m) as [|d ds] eqn:Ed.
  { intros [= <- <-]. left. unfold present. by rewrite Ed. }
  destruct (tool "wac"); [|done]. cbn [negb].
  intros (deps & fs1 & [= <- <-] & H)%bind_Ok.
  destruct (present cwd m fs) as [|p ps] eqn:Ef; [injection H as <- <-; by left|]. right.
  apply bind_Ok in H as ([] & fs1 & [Hfiles _]%create_dir_all_Ok & H).
  apply bind_Ok in H as (success & fs2 & Hx & H). apply context_Ok, exec_Ok in Hx.
  destruct success; [|done]. cbn [negb] in H. apply bind_Ok in H as ([] & fs3 & Hopt & [= <- <-]).
  eapply (wac_optimised _ _ main _ _ _ _ (build_wac_args_read _ _ _)) in Hx as (s & bs & b & Hs & Hbs & Hopt' & Hout);
    [|done|by apply canonical_join; [|apply canonical_plain]|exact Hopt].
  exists s, bs, b. rewrite <- Hfiles. done.
Qed.

(** The bridge stage of a build *)
Lemma bridge_stage manifest wasm base fs r fs' b1 :
  canonical wasm -> canonical base -> (forall d, tools_dir = Ok d -> canonical d) ->
  (forall ref p fs q, q <> key cwd p -> files (pull_oci ref p fs).2 !! q = files fs !! q) ->
  (forall d, tools_dir = Ok d -> key cwd wasm <> key cwd (join (join d [Normal "bridge"]) [Normal "latest.wasm"])) ->
  files fs !! key cwd wasm = Some b1 ->
  match manifest with
  | Some m => compose_http_handler cwd writable run tool tools_dir pull_oci wasm base m
  | None => ret None
  end fs = (Ok r, fs') ->
  exists s b2, bridged strip optz plug manifest s b1 b2 /\ files fs' !! key cwd (default wasm r) = Some b2 /\
    canonical (default wasm r) /\ bool_decide (is_Some r) = bridge_wanted manifest.
Proof.
  intros Hw Hb Htools Hpull Hne Hb1. destruct manifest as [m|]; [|intros [= <- <-]; by exists EmptyString, b1].
  intros H. apply compose_http_handler_Ok in H as [(Hhttp & -> & ->)|(bridge & fs1 & h & s & b2 & Hhttp & Hf & Hs & Hh & -> & Hopt & Hout)];
    [..|done|done|done]; unfold bridged, bridge_wanted; rewrite Hhttp.
  - by exists EmptyString, b1.
  - apply (find_bridge_frame _ _ _ _ _ _ _ _ _ Hpull Hne) in Hf. rewrite Hh, Hb1 in Hf. simplify_eq.
    exists s, b2. split_and!; [done|done| |done]. by apply canonical_join; [|apply canonical_plain].
Qed.

Lemma bridge_stage_none manifest wasm base fs r fs' :
  canonical wasm -> canonical base -> (forall d, tools_dir = Ok d -> canonical d) ->
  (forall ref p fs q, q <> key cwd p -> files (pull_oci ref p fs).2 !! q = files fs !! q) ->
  (forall d, tools_dir = Ok d -> key cwd wasm <> key cwd (join (join d [Normal "bridge"]) [Normal "latest.wasm"])) ->
  files fs !! key cwd wasm = None ->
  match manifest with
  | Some m => compose_http_handler cwd writable run tool tools_dir pull_oci wasm base m
  | None => ret None
  end fs = (Ok r, fs') -> r = None /\ fs' = fs.
Proof.
  intros Hw Hb Htools Hpull Hne Hb1. destruct manifest as [m|]; [|by intros [= <- <-]].
  intros H. apply compose_http_handler_Ok in H as [(_ & -> & ->)|(bridge & fs1 & h & s & b2 & _ & Hf & _ & Hh & _)];
    [done| |done..].
  apply (find_bridge_frame _ _ _ _ _ _ _ _ _ Hpull Hne) in Hf. congruence.
Qed.

(** The stage of the dependencies *)
Lemma compose_stage manifest compose handler base fs final fs' b2 :
  canonical handler -> canonical base -> files fs !! key cwd handler = Some b2 ->
  (if compose : bool then
     match manifest with
     | Some m => bind (compose_all cwd writable run tool handler base m) (fun c => ret (default handler c))
     | None => ret handler
     end
   else ret handler) fs = (Ok final, fs') ->
  exists ps b3, composed_with strip optz plug ps b2 b3 /\ files fs' !! key cwd final = Some b3 /\
    Forall2 (fun p b => files fs !! key cwd (components p) = Some b)
      (match manifest with Some m => if compose then present cwd m fs else [] | None => [] end) ps.
Proof.
  intros Hh Hb Hb2. destruct compose, manifest as [m|];
    try (intros [= <- <-]; exists [], b2; split_and!; [done|done|by constructor]).
  intros (c & fs1 & H & [= <- <-])%bind_Ok.
  apply compose_all_Ok in H as [(Hp & -> & ->)|(s & ps & b3 & Hp & Hs & Hps & -> & Hopt & Hout)]; [..|done|done].
  - exists [], b2. rewrite Hp. split_and!; [done|done|by constructor].
  - simplify_eq. exists ps, b3. split_and!; [|done|done].
    destruct ps; [by apply Forall2_nil_inv_r in Hps|done].
Qed.

Lemma compose_stage_none manifest compose handler base fs final fs' :
  canonical handler -> canonical base -> files fs !! key cwd handler = None ->
  (if compose : bool then
     match manifest with
     | Some m => bind (compose_all cwd writable run tool handler base m) (fun c => ret (default handler c))
     | None => ret handler
     end
   else ret handler) fs = (Ok final, fs') -> final = handler /\ fs' = fs.
Proof.
  intros Hh Hb Hb2. destruct compose, manifest as [m|]; try (by intros [= <- <-]).
  intros (c & fs1 & H & [= <- <-])%bind_Ok.
  apply compose_all_Ok in H as [(_ & -> & ->)|(s & ps & b3 & _ & Hs & _)]; [done|congruence|done..].
Qed.
End Steps.

Lemma schema_not_in_dist cwd n : plain n -> key cwd (components "openapi.json") <> key cwd (in_dist n).
Proof.
  intros Hn. rewrite in_dist_key by done. unfold key, join.
  change (components "openapi.json") with [Normal "openapi.json"]. cbn [is_absolute has_root].
  destruct cwd as [|c cs]; [done|]. rewrite !filter_app. by intros E%app_inv_head.
Qed.

Lemma extract_schema_Ok cwd run fs schema fs' :
  extract_schema cwd run fs = (Ok schema, fs') -> schema = None \/ schema = Some (components "openapi.json").
Proof.
  unfold extract_schema. intros (cargo & fs1 & _ & H)%bind_Ok.
  destruct cargo; [|injection H as <- _; by left]. cbn [negb] in H.
  apply bind_Ok in H as (success & fs2 & _ & H). destruct success; [|injection H as <- _; by left].
  apply bind_Ok in H as (found & fs3 & _ & H). injection H as <- _. destruct found; auto.
Qed.

(** ** Properties *)


(** ** A toolchain *)

(** Tools that mark what they did at the end of the component. *)
Definition demo_strip (b : string) : string := b +:+ "S".
Definition demo_optz (b : string) : string := b +:+ "O".
Definition demo_plug (b : string) (ps : list string) : string := b +:+ "(" +:+ Str.join "," ps +:+ ")".

Definition in_place (cwd : Path) (f : string -> string) (p q : string) (fs : Fs) : result bool string * Fs :=
  if String.eqb p q then
    match files fs !! key cwd (components p) with
    | Some b => (Ok true, put cwd (components p) (f b) fs)
    | None => (Ok false, fs)
    end
  else (Ok false, fs).

Definition demo_wac (cwd : Path) (args : list string) (fs : Fs) : result bool string * Fs :=
  match wac_plug args with
  | Some (plugs, socket, out) =>
      match files fs !! key cwd (components socket), mapM (fun p => files fs !! key cwd (components p)) plugs with
      | Some s, Some ps => (Ok true, put cwd (components out) (demo_plug s ps) fs)
      | _, _ => (Ok false, fs)
      end
  | None => (Ok false, fs)
  end.

(** cargo writes the component [wasm]. *)
Definition demo_tools (cwd : Path) (wasm : Path) (program : string) (args : list string) (fs : Fs)
  : result bool string * Fs :=
  if String.eqb program "wac" then demo_wac cwd args fs
  else if String.eqb program "cargo"
  then (Ok true, put cwd wasm (String "000" "asm" +:+ String "013" "xyz") fs)
  else match args with
       | [_; _; _; p; q] => if String.eqb program "wasm-tools" then in_place cwd demo_strip p q fs else (Ok false, fs)
       | [_; _; p; q] => if String.eqb program "wasm-opt" then in_place cwd demo_optz p q fs else (Ok false, fs)
       | _ => (Ok false, fs)
       end.

#[export] Instance demo_laws cwd wasm : ToolLaws cwd (demo_tools cwd wasm) demo_strip demo_optz demo_plug.
Proof.
  assert (forall f p fs r fs', in_place cwd f p p fs = (r, fs') ->
    fs' = fs \/ exists b, files fs !! key cwd (components p) = Some b /\ fs' = put cwd (components p) (f b) fs) as Hin.
  { intros f p fs r fs'. unfold in_place. rewrite String.eqb_refl.
    destruct (files fs !! key cwd (components p)) as [b|]; intros [= <- <-]; [right; eauto|by left]. }
  split.
  - intros p fs r fs' H. exact (Hin _ _ _ _ _ H).
  - intros p fs r fs' H. exact (Hin _ _ _ _ _ H).
  - intros args fs fs' H. change (demo_wac cwd args fs = (Ok true, fs')) in H. unfold demo_wac in H.
    destruct (wac_plug args) as [[[plugs socket] out]|]; [|done].
    destruct (files fs !! key cwd (components socket)) as [b|] eqn:Hb; [|done].
    destruct (mapM _ plugs) as [ps|] eqn:Hps; [|done]. injection H as <-.
    apply mapM_Some in Hps. by exists plugs, socket, out, b, ps.
Qed.

Definition demo_cwd : Path := [RootDir; Normal "app"].
Definition demo_manifest : Manifest := {|
  project := {| project_name := "app"; project_version := "0.1.0"; description := None; authors := []; language := None |};
  server := default_server_config; tracing := default_tracing_config;
  composition := {| http_handler := true; bridge := None |}; lb := None;
  dependencies := [("log", Simple "1.0"); ("gone", Simple "1.0")]; dev_dependencies := [] |}.
Definition demo_fs : Fs := {|
  files := list_to_map [([RootDir; Normal "app"; Normal "Cargo.toml"], "[package]");
                        ([RootDir; Normal "app"; Normal "modules"; Normal "bridge.wasm"], "bridge");
                        ([RootDir; Normal "app"; Normal "modules"; Normal "log.wasm"], "log")];
  dirs := list_to_set [[RootDir]; [RootDir; Normal "app"]; [RootDir; Normal "app"; Normal "modules"];
                       [RootDir; Normal "app"; Normal "target"];
                       [RootDir; Normal "app"; Normal "target"; Normal "wasm32-wasip2"]] |}.
Definition demo_wasm : Path := components "target/wasm32-wasip2/release/app.wasm".
Definition demo_build : M unit :=
  execute demo_cwd (fun _ => true) (demo_tools demo_cwd demo_wasm) (fun _ => true) (Err ["no home"])
    (fun _ _ => ret tt) (fun l => Ok (Str.join ";" (fst <$> l))) (fun _ => None)
    (Some demo_manifest) true true None true.

Example demo_result :
  (fun r => (r.1, files r.2 !! key demo_cwd (components "dist/app-composed.wasm"))) (demo_build demo_fs) =
  (Ok tt, Some ("bridge(" +:+ String "000" "asm" +:+ String "013" "xyzS)O(log)O")).
Proof. vm_compute. reflexivity. Qed.

