(* ===== verification/GitCache.v ===== *)
(** GitCache: dependencies from git repositories, of [pull_git_dependency] in
    [src/src/commands/pull.rs]: the repositories that are kept in the cache
    directory, their updates and what is checked out. libgit2 is the interface
    [Git], with the laws of detached heads in [GitLaws]. *)

From stdpp Require Import base gmap list strings.
From S2P Require Import Prelude Retry.

#[local] Open Scope Z_scope.

(** ** Names *)

(** [rsplit_once] *)
Fixpoint rsplit_once (c : ascii) (s : string) : option (string * string) :=
  match s with
  | EmptyString => None
  | String d s' =>
      match rsplit_once c s' with
      | Some (a, b) => Some (String d a, b)
      | None => if Ascii.eqb c d then Some (EmptyString, s') else None
      end
  end.

(** [rsplit(c).next()] *)
Definition last_piece (c : ascii) (s : string) : string :=
  match rsplit_once c s with Some (_, b) => b | None => s end.

(** [trim_end_matches] of a non-empty string; the length bounds the rounds. *)
Fixpoint trim_suffixes (fuel : nat) (suf s : string) : string :=
  match fuel with
  | O => s
  | S fuel => match Str.strip_suffix suf s with Some r => trim_suffixes fuel suf r | None => s end
  end.
Definition trim_end_str (suf s : string) : string := trim_suffixes (String.length s) suf s.

(** [sanitize_url_for_path]'s readable part *)
Definition repo_name (url : string) : string :=
  last_piece Str.SLASH (trim_end_str ".git" (Str.trim_end_matches Str.SLASH url)).

(** ** Repositories *)

(** The working tree of a repository, in the order in which directories are
    read. *)
Inductive Node :=
| File (name data : string)
| Dir (name : string) (children : list Node).

Inductive GitRef :=
| Branch (b : string)
| Tag (t : string)
| Rev (r : string)
| DefaultRef.

(** A repository with its working tree, an object of it, and the repository
    at the other end *)
Class Git (Repo Obj Remote : Type) := {
  (* [Repository::open] of a directory that is there *)
  git_open : Repo -> result unit (list string);
  git_clone : Remote -> result Repo (list string);
  find_remote : Repo -> result unit (list string);
  (* [fetch] of [refs/heads/*:refs/heads/*] *)
  git_fetch : Remote -> Repo -> result unit (list string) * Repo;
  revparse_single : Repo -> string -> result Obj (list string);
  repo_head : Repo -> result Obj (list string);
  peel_commit : Repo -> Obj -> result Obj (list string);
  checkout_tree : Repo -> Obj -> result unit (list string) * Repo;
  set_head_detached : Repo -> Obj -> result unit (list string) * Repo;
  worktree : Repo -> list Node;
}.

(** [context] of an error *)
Definition context {A} (c : string) (r : result A (list string)) : result A (list string) :=
  match r with Ok v => Ok v | Err e => Err (c :: e) end.

Section Cache.
Context {Repo Obj Remote : Type} `{Git Repo Obj Remote}.
(** [dirs::cache_dir()], and whether the directory can be created *)
Variable cache_dir : option string.
Variable cache_created : result unit string.
(** The hash of a URL, in hexadecimal *)
Variable hash : string -> string.
(** The repository at a URL, at each attempt to reach it *)
Variable remote : string -> nat -> Remote.

Definition sanitize_url_for_path (url : string) : string := repo_name url +:+ "-" +:+ hash url.

(** The [n]-th attempt of [fetch_updates], and the repository before it *)
Definition fetch_attempt (url : string) (n : nat) (repo : Repo) : result unit (list string) * Repo :=
  match find_remote repo with
  | Err e => (Err ("Failed to find 'origin' remote" :: e), repo)
  | Ok _ => let '(r, repo) := git_fetch (remote url n) repo in
            (context "Failed to fetch updates from remote" r, repo)
  end.
Fixpoint fetched (url : string) (n : nat) (repo : Repo) : Repo :=
  match n with O => repo | S n => (fetch_attempt url n (fetched url n repo)).2 end.

Definition fetch_updates (url : string) (repo : Repo) : result unit (list string) * Repo :=
  match retry_sync network (fun n => (fetch_attempt url n (fetched url n repo)).1) 5 with
  | Some (Returned r, sleeps) => (r, fetched url (S (length sleeps)) repo)
  | _ => (Err [], repo)
  end.

(** The object that is checked out, and what the error says of it *)
Definition resolve_ref (repo : Repo) (r : GitRef) : result (Obj * string) (list string) :=
  match r with
  | Branch branch =>
      let refname := "refs/heads/" +:+ branch in
      let? obj := context ("Branch '" +:+ branch +:+ "' not found")
        (match revparse_single repo refname with
         | Ok obj => Ok obj
         | Err _ => revparse_single repo ("origin/" +:+ branch)
         end) in
      Ok (obj, refname)
  | Tag tag =>
      let refname := "refs/tags/" +:+ tag in
      let? obj := context ("Tag '" +:+ tag +:+ "' not found") (revparse_single repo refname) in
      Ok (obj, refname)
  | Rev rev =>
      let? obj := context ("Revision '" +:+ rev +:+ "' not found") (revparse_single repo rev) in
      Ok (obj, rev)
  | DefaultRef =>
      let? head := context "Failed to get HEAD" (repo_head repo) in
      let? obj := peel_commit repo head in
      Ok (obj, "HEAD")
  end.

Definition checkout_ref (repo : Repo) (r : GitRef) : result unit (list string) * Repo :=
  match resolve_ref repo r with
  | Err e => (Err e, repo)
  | Ok (obj, reference) =>
      let '(c, repo) := checkout_tree repo obj in
      match context ("Failed to checkout " +:+ reference) c with
      | Err e => (Err e, repo)
      | Ok _ => let '(d, repo) := set_head_detached repo obj in (context "Failed to set HEAD" d, repo)
      end
  end.

Notation Repos := (gmap string Repo).

(** The repository of a URL, cloned or brought up to date *)
Definition repository (url : string) (repos : Repos) : result Repo (list string) * Repos :=
  let key := sanitize_url_for_path url in
  match repos !! key with
  | Some repo =>
      match context "Failed to open cached git repository" (git_open repo) with
      | Err e => (Err e, repos)
      | Ok _ => match fetch_updates url repo with
                | (Err e, repo) => (Err e, <[key := repo]> repos)
                | (Ok _, repo) => (Ok repo, <[key := repo]> repos)
                end
      end
  | None =>
      match cache_created with
      | Err e => (Err [e], repos)
      | Ok _ => match context ("Failed to clone git repository: " +:+ url) (git_clone (remote url 0)) with
                | Err e => (Err e, repos)
                | Ok repo => (Ok repo, <[key := repo]> repos)
                end
      end
  end.

(** [pull_git_dependency] up to the search for the module: the directory of
    the repository, and its working tree *)
Definition checkout (url : string) (r : GitRef) (repos : Repos)
  : result (string * list Node) (list string) * Repos :=
  match cache_dir with
  | None => (Err ["Failed to determine cache directory"], repos)
  | Some dir =>
      match repository url repos with
      | (Err e, repos) => (Err e, repos)
      | (Ok repo, repos) =>
          let key := sanitize_url_for_path url in
          let '(c, repo) := checkout_ref repo r in
          (match c with
           | Err e => Err e
           | Ok _ => Ok (dir +:+ "/mik/git/" +:+ key, worktree repo)
           end, <[key := repo]> repos)
      end
  end.
End Cache.

(** libgit2's documentation, on repositories whose HEAD is detached: where a
    successful [set_head_detached] leaves it, and what does not move it. *)
Class GitLaws (Repo Obj Remote : Type) `{Git Repo Obj Remote} := {
  detached : Repo -> Obj -> Prop;
  detached_head : forall repo c, detached repo c -> repo_head repo = Ok c /\ peel_commit repo c = Ok c;
  detached_set : forall repo o, (set_head_detached repo o).1 = Ok tt ->
    exists c, peel_commit repo o = Ok c /\ detached (set_head_detached repo o).2 c;
  detached_fetch : forall rem repo c, detached repo c -> detached (git_fetch rem repo).2 c;
  detached_checkout : forall repo o c, detached repo c -> detached (checkout_tree repo o).2 c;
  (* The commit of an object does not depend on the state of the repository. *)
  peel_checkout : forall repo o o', peel_commit (checkout_tree repo o').2 o = peel_commit repo o;
}.

(** ** The commit that is checked out *)

Section Laws.
Context {Repo Obj Remote : Type} `{HG : Git Repo Obj Remote}.
Variable cache_dir : option string.
Variable cache_created : result unit string.
Variable hash : string -> string.

(** Every error of an attempt has a context without a word that makes it
    transient. *)
Lemma fetch_updates_once remote url (repo : Repo) : fetch_updates remote url repo = fetch_attempt remote url 0 repo.
Proof.
  unfold fetch_updates. rewrite retry_sync_permanent; [cbn [length fetched]; by destruct (fetch_attempt remote url 0 repo)|].
  intros e. unfold fetch_attempt. destruct (find_remote _); [|by intros [= <-]].
  cbn [fetched]. destruct (git_fetch _ _) as [[[]|c] r]; [done|by intros [= <-]].
Qed.

(** Only the first attempt to reach a repository counts. *)
Lemma checkout_first_attempt remote remote' url r (repos : gmap string Repo) :
  remote url 0%nat = remote' url 0%nat ->
  checkout cache_dir cache_created hash remote url r repos = checkout cache_dir cache_created hash remote' url r repos.
Proof.
  intros Hr. unfold checkout, repository. destruct cache_dir; [|done]. destruct (repos !! _) as [repo|].
  - rewrite !fetch_updates_once. unfold fetch_attempt. by rewrite Hr.
  - by rewrite Hr.
Qed.

Context `{!GitLaws Repo Obj Remote}.

Lemma fetch_updates_detached remote url (repo : Repo) c :
  detached repo c -> detached (fetch_updates remote url repo).2 c.
Proof.
  intros Hd. rewrite fetch_updates_once. unfold fetch_attempt. destruct (find_remote repo); [|done].
  pose proof (detached_fetch (remote url 0%nat) repo c Hd) as Hf. by destruct (git_fetch _ _).
Qed.

Lemma repository_kept remote url (repos repos' : gmap string Repo) repo :
  repository cache_created hash remote url repos = (Ok repo, repos') ->
  match repos !! sanitize_url_for_path hash url with
  | Some old => repo = (fetch_updates remote url old).2
  | None => git_clone (remote url 0%nat) = Ok repo
  end.
Proof.
  unfold repository. destruct (repos !! _) as [old|].
  - destruct (context _ (git_open old)); [|done]. destruct (fetch_updates _ _ old) as [[u|e] r]; [|done].
    by intros [= <- _].
  - destruct cache_created; [|done]. unfold context. destruct (git_clone _); [|done]. by intros [= <- _].
Qed.

(** A successful checkout detaches HEAD at the commit of the object that the
    reference resolves to. *)
Lemma checkout_commit remote url r (repos repos' : gmap string Repo) x :
  checkout cache_dir cache_created hash remote url r repos = (Ok x, repos') ->
  exists repo repos1 obj name repo' c,
    repository cache_created hash remote url repos = (Ok repo, repos1) /\
    resolve_ref repo r = Ok (obj, name) /\ peel_commit repo obj = Ok c /\
    repos' !! sanitize_url_for_path hash url = Some repo' /\ detached repo' c.
Proof.
  unfold checkout. destruct cache_dir as [dir|]; [|done].
  destruct (repository _ _ _ url repos) as [[repo|e] repos1] eqn:Er; [|done].
  unfold checkout_ref. destruct (resolve_ref repo r) as [[obj name]|e] eqn:Eo; [|done].
  pose proof (peel_checkout repo obj obj) as Hp. destruct (checkout_tree repo obj) as [[[]|e] repo2]; [|done].
  pose proof (detached_set repo2 obj) as Hd. cbn [context fst snd] in *.
  destruct (set_head_detached repo2 obj) as [[[]|e] repo3]; [|done]. cbn [context fst snd] in *.
  destruct (Hd eq_refl) as (c & Hc & Hdet). intros [= _ <-].
  exists repo, repos1, obj, name, repo3, c. split_and!; [done|done|congruence|apply lookup_insert_eq|done].
Qed.

(** A dependency without a branch, tag or revision stays at the commit that
    was last checked out of its repository, for whichever dependency, wherever
    the remote has moved to. *)
Lemma default_stays remote remote' url r (repos repos1 repos2 : gmap string Repo) x y :
  checkout cache_dir cache_created hash remote url r repos = (Ok x, repos1) ->
  checkout cache_dir cache_created hash remote' url DefaultRef repos1 = (Ok y, repos2) ->
  exists repo1 repo2 c, repos1 !! sanitize_url_for_path hash url = Some repo1 /\ detached repo1 c /\
    repos2 !! sanitize_url_for_path hash url = Some repo2 /\ detached repo2 c.
Proof.
  intros (_ & _ & _ & _ & repo1 & c & _ & _ & _ & H1 & Hd)%checkout_commit
    (repo & repos' & obj & name & repo2 & c' & Hr & Ho & Hp & H2 & Hd')%checkout_commit.
  exists repo1, repo2, c. split_and!; [done|done|done|].
  apply repository_kept in Hr. rewrite H1 in Hr.
  assert (detached repo c) as Hdr by (rewrite Hr; by apply fetch_updates_detached).
  destruct (detached_head repo c Hdr) as [Hh Hpc]. unfold resolve_ref in Ho.
  rewrite Hh in Ho. cbn [context res_bind] in Ho. rewrite Hpc in Ho. cbn in Ho. injection Ho as <- <-.
  assert (c' = c) as -> by congruence. done.
Qed.

End Laws.

(** The directories of two URLs differ unless their hashes are equal: a hash in
    hexadecimal has no dash. *)
Lemma sanitize_url_inj (hash : string -> string) u v :
  (forall w, Str.contains_char "-" (hash w) = false) ->
  sanitize_url_for_path hash u = sanitize_url_for_path hash v -> hash u = hash v.
Proof.
  intros Hh. unfold sanitize_url_for_path. generalize (repo_name u), (repo_name v). intros a b E.
  assert (forall p q, Str.contains_char "-" q = false ->
    rsplit_once "-" (p +:+ "-" +:+ q) = Some (p, q)) as Hsplit.
  { intros p q Hq. assert (rsplit_once "-" q = None) as Hn.
    { clear p. induction q as [|d q IH]; [done|]. unfold Str.contains_char in Hq. cbn in Hq |- *.
      apply orb_false_iff in Hq as [Hd Hq]. rewrite (IH Hq). by rewrite Hd. }
    induction p as [|d p IH]; cbn.
    - by rewrite Hn.
    - cbn in IH. by rewrite IH. }
  pose proof (f_equal (rsplit_once "-") E) as E'. rewrite !Hsplit in E' by apply Hh. by injection E'.
Qed.

(** ** Small repositories *)

(** A repository has references and the commit of its detached HEAD; the one
    at the other end has branches, the first of which is its default, and none
    if it cannot be reached. *)
Module ToyGit.

Record Repo := { refs : list (string * nat); commit : nat }.
Notation Remote := (list (string * nat)).

Definition find (repo : Repo) (name : string) : result nat (list string) :=
  match list_find (fun e => e.1 = name) (refs repo) with Some (_, e) => Ok e.2 | None => Err ["not found"] end.
Definition at_commit (c : nat) (repo : Repo) : result unit (list string) * Repo :=
  (Ok tt, {| refs := refs repo; commit := c |}).

#[export] Instance toy_git : Git Repo nat Remote := {
  git_open _ := Ok tt;
  git_clone rem :=
    match rem with
    | [] => Err ["connection reset"]
    | (b, c) :: _ => Ok {| refs := ("refs/heads/" +:+ b, c) :: map (fun e => ("origin/" +:+ e.1, e.2)) rem; commit := c |}
    end;
  find_remote _ := Ok tt;
  git_fetch rem repo :=
    match rem with
    | [] => (Err ["connection reset"], repo)
    | _ => (Ok tt, {| refs := map (fun e => ("refs/heads/" +:+ e.1, e.2)) rem; commit := commit repo |})
    end;
  revparse_single := find;
  repo_head repo := Ok (commit repo);
  peel_commit _ o := Ok o;
  checkout_tree repo _ := (Ok tt, repo);
  set_head_detached repo o := at_commit o repo;
  worktree repo := [File "app.wasm" (Str.of_Z (Z.of_nat (commit repo)))];
}.

#[export] Instance toy_git_laws : GitLaws Repo nat Remote.
Proof.
  unshelve econstructor; [exact (fun repo c => commit repo = c)|..]; cbn.
  - by intros repo c <-.
  - intros repo o _. by exists o.
  - intros [|[b k] rem] repo c Hc; done.
  - done.
  - done.
Defined.

(** The remote moves from commit 1 to 2: the branch follows, the default does
    not, and after the branch it stays where the branch was. *)
Definition cached (r : GitRef) (c : nat) (repos : gmap string Repo) :=
  checkout (Some "cache") (Ok tt) (fun _ => "f0") (fun _ _ => [("main", c)]) "https://x/app.git" r repos.

Example default_is_left_behind :
  let repos1 := (cached DefaultRef 1 ∅).2 in
  (cached DefaultRef 2 repos1).1 = Ok ("cache/mik/git/app-f0", [File "app.wasm" "1"]) /\
  (cached (Branch "main") 2 repos1).1 = Ok ("cache/mik/git/app-f0", [File "app.wasm" "2"]) /\
  (cached DefaultRef 3 (cached (Branch "main") 2 repos1).2).1 = Ok ("cache/mik/git/app-f0", [File "app.wasm" "2"]).
Proof. vm_compute. done. Qed.

End ToyGit.
