(* ===== verification/Packages.v ===== *)
(** Packages: [mik add], [mik remove] and [mik sync], of
    [src/src/commands/add.rs] and [pull.rs], on the manifest of ManifestTypes.v
    and the files of the project. The repositories of dependencies are in
    GitCache.v; registries and the format of the manifest file are
    parameters. *)

From S2P Require Import Retry.
From stdpp Require Import base gmap list strings.
From S2P Require Import Prelude StdPath ModulePath Json ManifestTypes Manifest GitCache.

#[local] Open Scope Z_scope.

(** ** References *)

(** The colon is looked for after the last slash. *)
Definition split_tag (spec : string) : string * option string :=
  match rsplit_once Str.SLASH spec with
  | Some (dir, file) =>
      match rsplit_once Str.COLON file with
      | Some (name, tag) => (dir +:+ "/" +:+ name, Some tag)
      | None => (spec, None)
      end
  | None =>
      match rsplit_once Str.COLON spec with
      | Some (name, tag) => (name, Some tag)
      | None => (spec, None)
      end
  end.

(** A dot before the first slash *)
Definition is_full_ref (spec : string) : bool :=
  match Str.split_once Str.SLASH spec with
  | Some (first, _) => Str.contains_char Str.DOT first
  | None => false
  end.

Definition parse_oci_reference (spec : string) (explicit_tag : option string) : result (string * string) string :=
  let '(ref_without_tag, tag) := split_tag spec in
  let split := if is_full_ref spec
               then match Str.split_once Str.SLASH ref_without_tag with
                    | None => Err "Invalid OCI reference: missing path separator"
                    | Some (registry, path) => Ok (registry, path)
                    end
               else Ok ("ghcr.io", ref_without_tag) in
  let? p := split in
  let '(registry, path) := p in
  let final_tag := default (default "latest" tag) explicit_tag in
  Ok (last_piece Str.SLASH path, registry +:+ "/" +:+ path +:+ ":" +:+ final_tag).

Definition extract_name_from_url (url : string) : option string :=
  let s := trim_end_str ".wasm" (last_piece Str.SLASH url) in
  if Str.is_empty s then None else Some s.

Definition is_http_url (s : string) : bool := (Str.starts_with "http://" s || Str.starts_with "https://" s)%bool.

(** *** Dependencies *)

Definition detail_git (url : string) (tag branch : option string) : Dependency := Detailed {|
  version := None; git := Some url; branch := branch; tag := tag; rev := None; path := None; registry := None |}.
(** A registry and no version *)
Definition detail_registry (reg : string) : Dependency := Detailed {|
  version := None; git := None; branch := None; tag := None; rev := None; path := None; registry := Some reg |}.

Definition parse_and_create_dep (package : string) (git path tag branch : option string)
  : result (string * Dependency) string :=
  match git with
  | Some git_url => Ok (default package (extract_name_from_url git_url), detail_git git_url tag branch)
  | None =>
  match path with
  | Some local_path => Ok (default package (file_name (components local_path)), dep_path local_path)
  | None =>
      if is_http_url package then
        match extract_name_from_url package with
        | None => Err ("Could not extract name from URL: " +:+ package)
        | Some name => Ok (name, detail_registry package)
        end
      else if Str.contains_char Str.SLASH package then
        let? p := parse_oci_reference package tag in
        let '(name, oci_ref) := p in
        Ok (name, detail_registry oci_ref)
      else Err ("Invalid package '" +:+ package +:+ "'. Use one of:" +:+
                BR +:+ "mik add user/repo              # OCI (ghcr.io/user/repo:latest)" +:+
                BR +:+ "mik add user/repo:v1.0         # OCI with tag" +:+
                BR +:+ "mik add ghcr.io/user/repo:tag  # Full OCI reference" +:+
                BR +:+ "mik add https://host/pkg.wasm  # HTTP URL" +:+
                BR +:+ "mik add pkg --path ../pkg      # Local path" +:+
                BR +:+ "mik add pkg --git <url>        # Git repository")
  end end.

(** What [mik add] prints of a dependency. *)
Definition format_dep (dep : Dependency) : string :=
  match dep with
  | Simple v => "version " +:+ v
  | Detailed d =>
      match git d, path d, registry d with
      | Some g, _, _ => "git: " +:+ g
      | None, Some p, _ => "path: " +:+ p
      | None, None, Some reg =>
          reg +:+ " @ " +:+ default (default "latest" (tag d)) (version d)
      | None, None, None => default "latest" (version d)
      end
  end.

Definition git_ref_from_detail (d : DependencyDetail) : GitRef :=
  match branch d with
  | Some b => Branch b
  | None => match tag d with
            | Some t => Tag t
            | None => match rev d with Some r => Rev r | None => DefaultRef end
            end
  end.

Definition is_oci_reference (registry : string) : bool :=
  (negb (Str.starts_with "http://" registry) && negb (Str.starts_with "https://" registry))%bool.

Definition is_local_path_dependency (dep : Dependency) : bool :=
  match dep with Detailed d => is_some (path d) | Simple _ => false end.

(** ** Repositories *)

Definition node_name (n : Node) : string := match n with File f _ => f | Dir d _ => d end.

(** The entry at a relative path *)
Fixpoint lookup_node (path : list string) (tree : list Node) : option Node :=
  match path with
  | [] => None
  | p :: ps =>
      match list_find (fun n => node_name n = p) tree, ps with
      | Some (_, n), [] => Some n
      | Some (_, Dir _ children), _ => lookup_node ps children
      | _, _ => None
      end
  end.

Definition SKIP_DIRS : list string := ["target"; "node_modules"; ".git"; "deps"].

Definition is_wasm_name (file : string) : bool :=
  match extension [Normal file] with
  | Some e => String.eqb (Str.to_ascii_lowercase e) "wasm"
  | None => false
  end.

(** A path below the repository, and what is there *)
Definition Found : Type := list string * Node.

(** [walk_dir] *)
Fixpoint walk_node (dir : list string) (n : Node) : list Found :=
  match n with
  | File f data => if is_wasm_name f then [(dir ++ [f], n)] else []
  | Dir d children => if bool_decide (d ∈ SKIP_DIRS) then [] else concat (map (walk_node (dir ++ [d])) children)
  end.
Definition find_wasm_files_recursive (tree : list Node) : list Found := concat (map (walk_node []) tree).

Definition replace_dash (s : string) : string := Str.map (fun c => if Ascii.eqb c "-" then "_"%char else c) s.

Definition build_paths (name : string) : list (list string) :=
  let name_underscore := replace_dash name in
  [["target"; "wasm32-wasip2"; "release"; name_underscore +:+ ".wasm"];
   ["target"; "wasm32-wasi"; "release"; name_underscore +:+ ".wasm"];
   ["target"; "wasm32-wasip2"; "release"; name +:+ ".wasm"];
   ["target"; "wasm32-wasi"; "release"; name +:+ ".wasm"]].

Definition at_path (tree : list Node) (p : list string) : option Found :=
  match lookup_node p tree with Some n => Some (p, n) | None => None end.

Definition is_preferred (name : string) (f : Found) : bool :=
  (String.eqb (node_name f.2) (name +:+ ".wasm") || String.eqb (node_name f.2) (replace_dash name +:+ ".wasm"))%bool.

(** For a name that is a single path component *)
Definition find_wasm_file (tree : list Node) (name : string) : result Found string :=
  match at_path tree [name +:+ ".wasm"] with
  | Some f => Ok f
  | None =>
  match head (omap (at_path tree) (build_paths name)) with
  | Some f => Ok f
  | None =>
      let wasm_files := find_wasm_files_recursive tree in
      match wasm_files with
      | [] =>
          Err ("No .wasm file found in repository." +:+ BR +:+ "Expected:" +:+
               BR +:+ "- " +:+ name +:+ ".wasm in repository root" +:+
               BR +:+ "- target/wasm32-wasip2/release/" +:+ replace_dash name +:+ ".wasm (built artifact)" +:+
               BR +:+ "Please build the project or ensure the .wasm file is committed.")
      | f :: _ => Ok (default f (head (filter (fun f => is_preferred name f = true) wasm_files)))
      end
  end end.

(** ** HTTP *)

Definition GITHUB_DOMAINS : list string := ["github.com"; "githubusercontent.com"].

Definition is_github_url (url : string) : bool := existsb (fun domain => Str.contains domain url) GITHUB_DOMAINS.

(** [trim]: the white space of ASCII *)
Definition is_space (c : ascii) : bool := let n := Z.of_nat (nat_of_ascii c) in ((9 <=? n) && (n <=? 13) || (n =? 32))%bool.
Fixpoint trim_start (s : string) : string :=
  match s with String c s' => if is_space c then trim_start s' else s | EmptyString => EmptyString end.
Fixpoint trim_end (s : string) : string :=
  match s with
  | EmptyString => EmptyString
  | String c s' => let r := trim_end s' in if (Str.is_empty r && is_space c)%bool then EmptyString else String c r
  end.
Definition trim (s : string) : string := trim_end (trim_start s).

(** [gh auth token] gives its output if it succeeds. *)
Definition get_github_token (gh : option string) (env : option string) : option string :=
  match gh with
  | Some out => let token := trim out in if Str.is_empty token then env else Some token
  | None => env
  end.

Definition request_token (gh env : option string) (url : string) : option string :=
  if is_github_url url then get_github_token gh env else None.

(** A body that is read from the network: what arrives, and the error that
    ends it early. *)
Record Body := {
  received : string;
  broken : option string;
}.

(** ** Projects *)

(** The project directory: the manifest, and the files by their path. [blobs]
    is the cache of OCI blobs, by digest, and [repos] that of repositories. *)
Record World {Repo : Type} := {
  mik_toml : option string;
  files : gmap string string;
  blobs : gmap string string;
  repos : gmap string Repo;
}.
Arguments World : clear implicits.

Definition set_files {Repo} (fs : gmap string string) (w : World Repo) : World Repo :=
  {| mik_toml := mik_toml w; files := fs; blobs := blobs w; repos := repos w |}.

Record Layer := {
  digest : string;
  media_type : string;
}.

(** The layer that is pulled: one that looks like WASM, or the first. *)
Definition wasm_layer (layers : list Layer) : option Layer :=
  match list_find (fun l => Str.contains "wasm" (media_type l) = true \/
                            Str.contains "octet-stream" (media_type l) = true \/
                            media_type l = "") layers with
  | Some (_, l) => Some l
  | None => head layers
  end.

Definition output_path (name : string) : string := "modules/" +:+ name +:+ ".wasm".

Section Project.
Context {Repo Obj Remote : Type} `{HGit : Git Repo Obj Remote} `{HBackon : Backon}.
Notation World := (World Repo).
(** [toml] *)
Variable parse_manifest : string -> result Manifest string.
Variable print_manifest : Manifest -> result string string.
Variable validate : Manifest -> string -> result unit string.
(** File operations of the project that may fail *)
Variable writable : string -> bool.
Variable removable : string -> bool.
Variable modules_readable : bool.
(** [create_dir_all("modules")] *)
Variable modules_created : result unit string.
(** [fs::copy] from a path outside the project *)
Variable local_exists : string -> bool.
Variable local_file : string -> result string string.
(** The registry client, at each attempt: [None] is an image index. *)
Variable valid_reference : string -> bool.
Variable client_pull_manifest : nat -> string -> result (option (list Layer)) (list string).
Variable client_pull_blob : nat -> string -> Layer -> result string (list string).
Variable cache_writable : bool.
(** [create_dir_all] of the directory of an output *)
Variable parent_created : string -> result unit string.
(** The GitHub credentials: [gh auth token] and GITHUB_TOKEN *)
Variable gh_token env_token : option string.
(** The HTTP client at each attempt, given the URL and the token *)
Variable http_call : nat -> string -> option string -> result Body (list string).
(** The cache directory and the repositories at a URL, as in GitCache.v *)
Variable git_cache_dir : option string.
Variable git_cache_created : result unit string.
Variable url_hash : string -> string.
Variable remote : string -> nat -> Remote.

Definition load (w : World) : result Manifest (list string) :=
  load_from (fun _ => match mik_toml w with Some c => Ok c | None => Err "No such file or directory" end)
    parse_manifest validate "mik.toml".

(** Writing or copying to a file, with the context of its error *)
Definition write_file (context : list string) (path data : string) (w : World)
  : result unit (list string) * World :=
  if writable path then (Ok tt, set_files (<[path := data]> (files w)) w)
  else (Err (context ++ ["Permission denied"]), w).

(** [Manifest::save] *)
Definition save (m : Manifest) (w : World) : result unit (list string) * World :=
  match print_manifest m with
  | Err e => (Err ["Failed to serialize manifest"; e], w)
  | Ok content =>
      if writable "mik.toml"
      then (Ok tt, {| mik_toml := Some content; files := files w; blobs := blobs w; repos := repos w |})
      else (Err ["Failed to write mik.toml"; "Permission denied"], w)
  end.

(** A digest without an algorithm is never cached. *)
Definition get_cached_blob (d : string) (w : World) : option string :=
  match Str.split_once Str.COLON d with Some _ => blobs w !! d | None => None end.
Definition cache_blob (d data : string) (w : World) : World :=
  match Str.split_once Str.COLON d with
  | Some _ => if cache_writable
              then {| mik_toml := mik_toml w; files := files w; blobs := <[d := data]> (blobs w); repos := repos w |}
              else w
  | None => w
  end.

Definition pull_manifest (oci_ref : string) : result (option (list Layer)) (list string) :=
  context ("Failed to pull manifest for " +:+ oci_ref)
    (retry_anyhow network (fun n => context "Failed to pull manifest" (client_pull_manifest n oci_ref))).
Definition pull_blob (oci_ref : string) (l : Layer) : result string (list string) :=
  context ("Failed to pull blob from " +:+ oci_ref)
    (retry_anyhow network (fun n => context "Failed to pull blob" (client_pull_blob n oci_ref l))).

Definition pull_oci (oci_ref output : string) (w : World) : result unit (list string) * World :=
  if negb (valid_reference oci_ref) then (Err ["Invalid OCI reference: " +:+ oci_ref], w)
  else match parent_created output with Err e => (Err [e], w) | Ok _ =>
  match pull_manifest oci_ref with
  | Err e => (Err e, w)
  | Ok None => (Err ["Image index not supported, expected single image"], w)
  | Ok (Some layers) =>
      match wasm_layer layers with
      | None => (Err ["No layers found in manifest for " +:+ oci_ref], w)
      | Some l =>
          match get_cached_blob (digest l) w with
          | Some data => write_file ["Failed to copy cached blob to " +:+ output] output data w
          | None =>
              match pull_blob oci_ref l with
              | Err e => (Err e, w)
              | Ok data => write_file ["Failed to create " +:+ output] output data (cache_blob (digest l) data w)
              end
          end
      end
  end end.

Definition download_from_url (url : string) : result Body (list string) :=
  retry_network (fun n =>
    context "HTTP request failed" (http_call n url (request_token gh_token env_token url))).

(** [registry::download]: what was read before an error stays in the file. *)
Definition download (url output : string) (w : World) : result unit (list string) * World :=
  match parent_created output with
  | Err e => (Err [e], w)
  | Ok _ =>
      match download_from_url url with
      | Err e => (Err e, w)
      | Ok body =>
          match write_file ["Failed to create output file"] output (received body) w with
          | (Err e, w) => (Err e, w)
          | (Ok _, w) => match broken body with Some e => (Err [e], w) | None => (Ok tt, w) end
          end
      end
  end.

Definition pull_git_dependency (url : string) (r : GitRef) (name output : string) (w : World)
  : result unit (list string) * World :=
  let '(checked_out, rs) := checkout git_cache_dir git_cache_created url_hash remote url r (repos w) in
  let w := {| mik_toml := mik_toml w; files := files w; blobs := blobs w; repos := rs |} in
  match checked_out with
  | Err e => (Err e, w)
  | Ok (repo_cache_dir, tree) =>
      match find_wasm_file tree name with
      | Err e => (Err [e], w)
      | Ok (p, n) =>
          let context := "Failed to copy " +:+ repo_cache_dir +:+ "/" +:+ Str.join "/" p +:+ " to " +:+ output in
          match n with
          | File _ data => write_file [context] output data w
          | Dir _ _ => (Err [context; "the source path is neither a regular file nor a symlink to a regular file"], w)
          end
      end
  end.

Definition pull_path (path name output : string) (w : World) : result unit (list string) * World :=
  if is_wasm_name (default EmptyString (file_name (components path))) then
    match local_file path with
    | Ok data => write_file [] output data w
    | Err e => (Err [e], w)
    end
  else
    let wasm := path +:+ "/target/wasm32-wasip2/release/" +:+ replace_dash name +:+ ".wasm" in
    if local_exists wasm then
      match local_file wasm with
      | Ok data => write_file [] output data w
      | Err e => (Err [e], w)
      end
    else (Err ["Not found: " +:+ wasm], w).

Definition pull_dependency (name : string) (dep : Dependency) (w : World) : result string (list string) * World :=
  let output := output_path name in
  let '(r, w) :=
    match dep with
    | Simple version =>
        if Str.contains_char Str.SLASH name
        then pull_oci ("ghcr.io/" +:+ name +:+ ":" +:+ version) output w
        else (Err ["Dependency '" +:+ name +:+ "' requires namespace (e.g., 'user/" +:+ name +:+ "')." +:+ NL +:+
                   "Use: " +:+ json_dq name +:+ " = { registry = " +:+
                   json_dq ("ghcr.io/user/" +:+ name +:+ ":latest") +:+ " }"], w)
    | Detailed d =>
        match path d, registry d, git d with
        | Some p, _, _ => pull_path p name output w
        | None, Some reg, _ =>
            if is_oci_reference reg then pull_oci reg output w
            else download reg output w
        | None, None, Some url => pull_git_dependency url (git_ref_from_detail d) name output w
        | None, None, None => (Err ["No source specified for dependency"], w)
        end
    end in
  (match r with Ok _ => Ok output | Err e => Err e end, w).

(** The modules [remove_stale_modules] removes. *)
Definition stale (expected : list string) (path : string) : bool :=
  match Str.strip_prefix "modules/" path with
  | Some f =>
      (negb (Str.contains_char Str.SLASH f) && bool_decide (extension [Normal f] = Some "wasm") &&
       match file_stem [Normal f] with Some stem => negb (bool_decide (stem ∈ expected)) | None => false end &&
       removable path)%bool
  | None => false
  end.

Definition remove_stale_modules (expected : list string) (w : World) : World :=
  if modules_readable then set_files (filter (fun e => stale expected e.1 = false) (files w)) w else w.

Definition expected_modules (m : Manifest) : list string :=
  (dependencies m).*1 ++ (dev_dependencies m).*1.

Definition missing_dependencies (m : Manifest) (w : World) : list (string * Dependency) :=
  filter (fun d => is_local_path_dependency d.2 = false /\ files w !! output_path d.1 = None) (dependencies m).

(** Every error of a download is printed, and the next one is tried. *)
Definition pull_all (deps : list (string * Dependency)) (w : World) : World :=
  fold_left (fun w d => (pull_dependency d.1 d.2 w).2) deps w.

Definition sync (w : World) : result unit (list string) * World :=
  match load w with
  | Err _ => (Ok tt, w)
  | Ok m =>
      let w := remove_stale_modules (expected_modules m) w in
      match missing_dependencies m w with
      | [] => (Ok tt, w)
      | missing => match modules_created with
                   | Err e => (Err [e], w)
                   | Ok _ => (Ok tt, pull_all missing w)
                   end
      end
  end.

Definition insert_dep (dev : bool) (name : string) (dep : Dependency) (m : Manifest) : Manifest :=
  if dev then set_dev_dependencies (map_insert name dep (dev_dependencies m)) m
  else add_dependency name dep m.

(** The loop of [execute] *)
Fixpoint add_all (packages : list string) (git path tag branch : option string) (dev : bool) (m : Manifest)
  : result Manifest string :=
  match packages with
  | [] => Ok m
  | package :: packages =>
      match parse_and_create_dep package git path tag branch with
      | Err e => Err e
      | Ok (name, dep) => add_all packages git path tag branch dev (insert_dep dev name dep m)
      end
  end.

(** [add::execute] *)
Definition add_execute (packages : list string) (git path tag branch : option string) (dev : bool) (w : World)
  : result unit (list string) * World :=
  match packages with
  | [] => (Err ["No packages specified"], w)
  | _ =>
      match load w with
      | Err e => (Err ("No mik.toml found. Run 'mik init' first." :: e), w)
      | Ok m =>
          match add_all packages git path tag branch dev m with
          | Err e => (Err [e], w)
          | Ok m => match save m w with
                    | (Err e, w) => (Err e, w)
                    | (Ok _, w) => sync w
                    end
          end
      end
  end.

Definition remove_dep (dev : bool) (m : Manifest) (name : string) : Manifest :=
  if dev then set_dev_dependencies (filter (fun e => String.eqb e.1 name = false) (dev_dependencies m)) m
  else (remove_dependency name m).2.

(** [add::remove]: packages that are not there are only reported. *)
Definition remove (packages : list string) (dev : bool) (w : World) : result unit (list string) * World :=
  match packages with
  | [] => (Err ["No packages specified"], w)
  | _ => match load w with
         | Err e => (Err ("No mik.toml found." :: e), w)
         | Ok m => save (fold_left (remove_dep dev) packages m) w
         end
  end.

(** ** Lemmas *)

(** The files a download leaves: those there were, or those and its output. *)
Definition adds (output : string) (x : result unit (list string) * World) (w : World) : Prop :=
  mik_toml x.2 = mik_toml w /\
  (files x.2 = files w \/ exists data, files x.2 = <[output := data]> (files w)).

Lemma adds_same output r w w' : files w' = files w -> mik_toml w' = mik_toml w -> adds output (r, w') w.
Proof. intros H1 H2. split; [done|by left]. Qed.

Lemma write_file_adds c output data w w' :
  files w' = files w -> mik_toml w' = mik_toml w -> adds output (write_file c output data w') w.
Proof.
  intros H1 H2. unfold write_file. destruct (writable output); (split; [done|]); [right|by left].
  exists data. cbn. by rewrite H1.
Qed.

#[local] Hint Resolve adds_same write_file_adds : core.

Lemma pull_oci_adds oci_ref output w : adds output (pull_oci oci_ref output w) w.
Proof.
  unfold pull_oci. destruct (valid_reference oci_ref); cbn [negb]; [|auto]. destruct (parent_created output); [|auto].
  destruct (pull_manifest oci_ref) as [[layers|]|]; [|auto..].
  destruct (wasm_layer layers) as [l|]; [|auto]. destruct (get_cached_blob _ _); [auto|].
  destruct (pull_blob _ _) as [data|]; [|auto]. unfold cache_blob.
  destruct (Str.split_once _ _); [|auto]. destruct cache_writable; auto.
Qed.

Lemma download_adds url output w : adds output (download url output w) w.
Proof.
  unfold download. destruct (parent_created output); [|auto]. destruct (download_from_url _) as [b|]; [|auto].
  pose proof (write_file_adds ["Failed to create output file"] output (received b) w w eq_refl eq_refl) as Ha.
  destruct (write_file _ _ _ _) as [[[]|] w']; [destruct (broken b)|]; exact Ha.
Qed.

Lemma pull_dependency_adds n d w :
  let x := pull_dependency n d w in
  mik_toml x.2 = mik_toml w /\
  (files x.2 = files w \/ exists data, files x.2 = <[output_path n := data]> (files w)).
Proof.
  unfold pull_dependency. match goal with |- context [let '(r, w) := ?y in _] =>
    assert (adds (output_path n) y w) as Ha; [|destruct y as [r w']; exact Ha] end.
  destruct d as [v|d].
  - destruct (Str.contains_char _ _); auto using pull_oci_adds.
  - destruct (path d) as [p|]; [|destruct (registry d) as [reg|]; [|destruct (git d) as [url|]]]; [..|auto].
    + unfold pull_path. destruct (is_wasm_name _); [|destruct (local_exists _); [|auto]]; destruct (local_file _); auto.
    + destruct (is_oci_reference reg); [apply pull_oci_adds|apply download_adds].
    + unfold pull_git_dependency. destruct (checkout _ _ _ _ _ _ _) as [[[dir tree]|] rs]; [|auto].
      destruct (find_wasm_file _ _) as [[p [f data|dd ch]]|]; auto.
Qed.

Lemma pull_all_spec deps : forall w,
  mik_toml (pull_all deps w) = mik_toml w /\
  forall k, k ∉ map (fun d => output_path d.1) deps -> files (pull_all deps w) !! k = files w !! k.
Proof.
  induction deps as [|d deps IH]; intros w; [done|]. cbn [pull_all fold_left map].
  destruct (IH (pull_dependency d.1 d.2 w).2) as [Ht Hk]. destruct (pull_dependency_adds d.1 d.2 w) as [Ht' Hf].
  unfold pull_all in *. split; [congruence|]. intros k [Hne Hin]%not_elem_of_cons. rewrite Hk by done.
  destruct Hf as [->|[data ->]]; [done|]. by rewrite lookup_insert_ne.
Qed.

(** The output of a dependency is not stale. *)
Lemma output_not_stale expected n : n ∈ expected -> stale expected (output_path n) = false.
Proof.
  intros Hin. unfold stale, output_path.
  assert (Str.strip_prefix "modules/" ("modules/" +:+ n +:+ ".wasm") = Some (n +:+ ".wasm")) as ->
    by (by apply Str.strip_prefix_Some).
  destruct (bool_decide_reflect (extension [Normal (n +:+ ".wasm")] = Some "wasm")) as [He|_];
    [|by rewrite andb_false_r].
  destruct (file_stem [Normal (n +:+ ".wasm")]) as [stem|] eqn:Es; [|by rewrite andb_false_r].
  destruct (proj1 (wasm_ext_spec [] _ stem) (conj Es He)) as [E _].
  apply Str.app_inj_r in E as <-. rewrite bool_decide_eq_true_2 by done. by rewrite andb_false_r.
Qed.

Lemma remove_stale_spec expected w k :
  files (remove_stale_modules expected w) !! k =
    if (modules_readable && stale expected k)%bool then None else files w !! k.
Proof.
  unfold remove_stale_modules. destruct modules_readable; [|done]. cbn [set_files files andb].
  destruct (stale expected k) eqn:Hs.
  - apply map_lookup_filter_None. right. intros v _. cbn. by rewrite Hs.
  - destruct (files w !! k) as [v|] eqn:E; [by apply map_lookup_filter_Some|].
    apply map_lookup_filter_None. by left.
Qed.

Lemma remove_stale_toml expected w : mik_toml (remove_stale_modules expected w) = mik_toml w.
Proof. unfold remove_stale_modules. by destruct modules_readable. Qed.

Lemma load_toml w w' : mik_toml w' = mik_toml w -> load w' = load w.
Proof. intros E. unfold load. by rewrite E. Qed.

(** [sync] of a project whose manifest loads *)
Lemma sync_loaded m w r w' : load w = Ok m -> sync w = (r, w') ->
  let w1 := remove_stale_modules (expected_modules m) w in
  w' = w1 \/ w' = pull_all (missing_dependencies m w1) w1.
Proof.
  unfold sync. intros ->. cbv zeta. destruct (missing_dependencies _ _) as [|d ds] eqn:E;
    [by intros [= <- <-]; left|]. destruct modules_created; intros [= <- <-]; auto.
Qed.

Lemma sync_toml w : mik_toml (sync w).2 = mik_toml w.
Proof.
  destruct (sync w) as [r w'] eqn:E. destruct (load w) as [m|e] eqn:El.
  - cbn [snd]. destruct (sync_loaded m w r w' El E) as [->| ->]; [apply remove_stale_toml|].
    rewrite (proj1 (pull_all_spec _ _)). apply remove_stale_toml.
  - unfold sync in E. rewrite El in E. by injection E as <- <-.
Qed.

Lemma elem_of_missing m w n d :
  (n, d) ∈ missing_dependencies m w <->
  (n, d) ∈ dependencies m /\ is_local_path_dependency d = false /\ files w !! output_path n = None.
Proof. unfold missing_dependencies. rewrite list_elem_of_filter. cbn. naive_solver. Qed.

Lemma load_valid m w : load w = Ok m -> validate m "mik.toml" = Ok tt.
Proof.
  unfold load, load_from. destruct (read_manifest _ _) as [c|]; cbn [res_bind]; [|done].
  destruct (parse_manifest c) as [m'|]; [|done]. destruct (validate m' "mik.toml") as [[]|] eqn:E; [|done].
  by intros [= <-].
Qed.

Lemma load_saved m t w : mik_toml w = Some t -> parse_manifest t = Ok m ->
  load w = match validate m "mik.toml" with Ok _ => Ok m | Err e => Err [e] end.
Proof. unfold load, load_from, read_manifest. intros -> H. cbn. rewrite H. by destruct (validate m _). Qed.

Lemma created_registry package tag branch n d :
  parse_and_create_dep package None None tag branch = Ok (n, d) -> exists reg, d = detail_registry reg.
Proof.
  unfold parse_and_create_dep. destruct (is_http_url package).
  - destruct (extract_name_from_url package); [|done]. intros [= <- <-]. eauto.
  - destruct (Str.contains_char _ _); [|done]. destruct (parse_oci_reference package tag) as [[a b]|]; cbn [res_bind]; [|done].
    intros [= <- <-]. eauto.
Qed.

(** ** Properties *)



(** *** Downloads are tried once *)

Context `{!BackonLaws}.

(** The message of a context that hides what failed is no transient error. *)
Lemma hidden_is_permanent {A} (c : string) (r : result A (list string)) (e : list string) :
  is_transient_error [c] = false -> context c r = Err e -> is_transient_error e = false.
Proof. intros Hc. destruct r as [v|e']; [done|]. by intros [= <-]. Qed.

Lemma download_from_url_once url :
  download_from_url url = context "HTTP request failed" (http_call 0 url (request_token gh_token env_token url)).
Proof.
  unfold download_from_url, retry_network. rewrite retry_sync_permanent; [done|].
  intros e. by apply hidden_is_permanent.
Qed.

Lemma pull_manifest_once oci_ref :
  pull_manifest oci_ref = context ("Failed to pull manifest for " +:+ oci_ref)
    (context "Failed to pull manifest" (client_pull_manifest 0 oci_ref)).
Proof.
  unfold pull_manifest. rewrite retry_anyhow_permanent; [done|]. intros e. by apply hidden_is_permanent.
Qed.

Lemma pull_blob_once oci_ref l :
  pull_blob oci_ref l = context ("Failed to pull blob from " +:+ oci_ref)
    (context "Failed to pull blob" (client_pull_blob 0 oci_ref l)).
Proof.
  unfold pull_blob. rewrite retry_anyhow_permanent; [done|]. intros e. by apply hidden_is_permanent.
Qed.

End Project.

(** Two networks that agree on the first attempt of everything *)
Section TwoNetworks.
Context {Repo Obj Remote : Type} `{HGit : Git Repo Obj Remote} `{HBackon : Backon} `{!BackonLaws}.
Variable parse_manifest : string -> result Manifest string.
Variable validate : Manifest -> string -> result unit string.
Variable writable removable : string -> bool.
Variable modules_readable : bool.
Variable modules_created : result unit string.
Variable local_exists : string -> bool.
Variable local_file : string -> result string string.
Variable valid_reference : string -> bool.
Variable cache_writable : bool.
Variable parent_created : string -> result unit string.
Variable gh_token env_token : option string.
Variable git_cache_dir : option string.
Variable git_cache_created : result unit string.
Variable url_hash : string -> string.

Record Network := {
  net_manifest : nat -> string -> result (option (list Layer)) (list string);
  net_blob : nat -> string -> Layer -> result string (list string);
  net_http : nat -> string -> option string -> result Body (list string);
  net_git : string -> nat -> Remote;
}.

Definition same_first_attempt (a b : Network) : Prop :=
  (forall r, net_manifest a 0 r = net_manifest b 0 r) /\ (forall r l, net_blob a 0 r l = net_blob b 0 r l) /\
  (forall u t, net_http a 0 u t = net_http b 0 u t) /\ (forall u, net_git a u 0%nat = net_git b u 0%nat).

Definition pull_over (a : Network) : string -> Dependency -> World Repo -> result string (list string) * World Repo :=
  pull_dependency writable local_exists local_file valid_reference (net_manifest a) (net_blob a) cache_writable
    parent_created gh_token env_token (net_http a) git_cache_dir git_cache_created url_hash (net_git a).
Definition sync_over (a : Network) : World Repo -> result unit (list string) * World Repo :=
  sync parse_manifest validate writable removable modules_readable modules_created local_exists local_file
    valid_reference (net_manifest a) (net_blob a) cache_writable parent_created gh_token env_token (net_http a)
    git_cache_dir git_cache_created url_hash (net_git a).

Lemma pull_over_first_attempt a b n d w : same_first_attempt a b -> pull_over a n d w = pull_over b n d w.
Proof.
  intros (Hm & Hb & Hh & Hg). unfold pull_over, pull_dependency.
  assert (forall r o (w : World Repo), pull_oci writable valid_reference (net_manifest a) (net_blob a) cache_writable parent_created r o w =
    pull_oci writable valid_reference (net_manifest b) (net_blob b) cache_writable parent_created r o w) as Hoci.
  { intros r o w1. unfold pull_oci. rewrite !pull_manifest_once, Hm by apply _.
    destruct (negb _); [done|]. destruct (parent_created o); [|done].
    destruct (context _ _) as [[layers|]|]; [|done..]. destruct (wasm_layer layers) as [l|]; [|done].
    destruct (get_cached_blob _ _); [done|]. by rewrite !pull_blob_once, Hb by apply _. }
  assert (forall u o (w : World Repo), download writable parent_created gh_token env_token (net_http a) u o w =
    download writable parent_created gh_token env_token (net_http b) u o w) as Hdl.
  { intros u o w1. unfold download. by rewrite !download_from_url_once, Hh by apply _. }
  destruct d as [v|d]; [by rewrite Hoci|].
  destruct (path d); [done|]. destruct (registry d) as [reg|]; [by rewrite Hoci, Hdl|].
  destruct (git d) as [u|]; [|done]. unfold pull_git_dependency.
  by rewrite (checkout_first_attempt _ _ _ (net_git a) (net_git b) u _ _ (Hg u)).
Qed.

(** C36. No download is ever retried. Whatever later attempts would give, [sync]
    does with the network what the first attempt of each download gives:
    each of the four operations wraps its error in a context, and the
    classification of errors looks at the outermost message only. *)
Theorem downloads_never_retried (a b : Network) (w : World Repo) :
  same_first_attempt a b -> sync_over a w = sync_over b w.
Proof.
  intros Hab. unfold sync_over, sync. destruct (load _ _ w) as [m|]; [|done]. cbv zeta.
  destruct (missing_dependencies _ _) as [|d ds]; [done|]. destruct modules_created; [|done]. f_equal.
  generalize (d :: ds), (remove_stale_modules removable modules_readable (expected_modules m) w).
  intros l. induction l as [|[n x] l IH]; intros w1; [done|]. unfold pull_all in *. cbn [fold_left].
  pose proof (pull_over_first_attempt a b n x w1 Hab) as Hp. unfold pull_over in Hp. cbn [fst snd].
  rewrite Hp. apply IH.
Qed.

End TwoNetworks.

(** ** Witnesses *)

(** A project with one remote dependency, whose old module is stale. The file
    format is a toy: [print] writes the name of the last dependency. *)
Definition toy_project : Manifest :=
  set_dependencies [("auth", dep_registry "ghcr.io/acme/auth" "1.0"); ("local", dep_path "../local.wasm")]
    example_manifest.

Import ToyGit.
#[local] Existing Instance looping_backon.
#[local] Existing Instance looping_backon_laws.

Definition toy_world : World Repo := {|
  mik_toml := Some "shop";
  files := <["modules/old.wasm" := "old"]> (<["modules/keep.txt" := "x"]> ∅);
  blobs := ∅; repos := ∅ |}.

Definition toy_added : Manifest := add_dependency "repo" (detail_registry "ghcr.io/user/repo:latest") toy_project.

Definition toy_parse (t : string) : result Manifest string :=
  if String.eqb t "shop" then Ok toy_project else if String.eqb t "added" then Ok toy_added else Err "syntax".

Definition toy_layers (r : string) : result (option (list Layer)) (list string) :=
  Ok (Some [{| digest := "sha256:1"; media_type := "application/wasm" |}]).

Definition toy_print (m : Manifest) : result string string :=
  if decide (m = toy_project) then Ok "shop" else if decide (m = toy_added) then Ok "added" else Err "no".



(** A registry whose first answer is a connection that is reset, which the
    classification takes for transient, and one that never answers *)
Definition flaky : Network (Remote := list (string * nat)) := {|
  net_manifest n r := if Nat.eqb n 0 then Err ["connection reset by peer"] else toy_layers r;
  net_blob _ _ _ := Ok "code"; net_http _ _ _ := Err []; net_git _ _ := [] |}.
Definition dead : Network (Remote := list (string * nat)) := {|
  net_manifest _ _ := Err ["connection reset by peer"];
  net_blob _ _ _ := Ok "code"; net_http _ _ _ := Err []; net_git _ _ := [] |}.

Definition toy_sync (a : Network) (w : World Repo) : result unit (list string) * World Repo :=
  sync_over toy_parse (fun _ _ => Ok tt) (fun _ => true) (fun _ => true) true (Ok tt) (fun _ => false) (fun _ => Err "")
    (fun _ => true) true (fun _ => Ok tt) None None None (Ok tt) (fun _ => "") a w.

Lemma downloads_never_retried_witness :
  is_transient_error ["connection reset by peer"] = true /\
  toy_sync flaky toy_world = toy_sync dead toy_world /\
  files (toy_sync flaky toy_world).2 !! "modules/auth.wasm" = None.
Proof.
  split; [reflexivity|].
  assert (toy_sync flaky toy_world = toy_sync dead toy_world) as E.
  { unfold toy_sync. apply downloads_never_retried. unfold same_first_attempt. by split_and!. }
  split; [exact E|]. rewrite E. vm_compute. reflexivity.
Defined.
