(* ===== verification/Templates.v ===== *)
(** Templates: the texts that [mik new] writes, of
    [src/src/commands/new/templates.rs].

    A tilde stands for the double quote of the source, which has no tilde. *)

From S2P Require Import Prelude.

Definition unquote (s : string) : string := Str.map (fun c => if Ascii.eqb c "~" then "034"%char else c) s.

Definition RUST_LIB_HEADER : string := unquote "#[allow(warnings)]
mod bindings;

use bindings::exports::mik::core::handler::{self, Guest, Response};
use mik_sdk::prelude::*;

".

Definition RUST_CARGO_TOML : string := unquote "[package]
name = ~{{PROJECT_NAME}}~
version = ~{{VERSION}}~
edition = ~2024~

[lib]
crate-type = [~cdylib~]

[dependencies]
wit-bindgen-rt = ~0.44.0~
mik-sdk = { git = ~https://github.com/dufeutech/mik-sdk~, default-features = false }

[package.metadata.component]
package = ~mik:{{PROJECT_NAME}}~

[package.metadata.component.target]
path = ~wit~
world = ~{{PROJECT_NAME}}~

[package.metadata.component.target.dependencies]
~mik:core~ = { path = ~wit/deps/core~ }
".

Definition RUST_BASIC_LIB_RS : string := unquote "routes! {
    GET ~/~ | ~~ => home,
    GET ~/health~ => health,
}

fn home(_req: &Request) -> Response {
    ok!({
        ~service~: ~{{PROJECT_NAME}}~,
        ~message~: ~Hello from mik!~
    })
}

fn health(_req: &Request) -> Response {
    ok!({ ~status~: ~healthy~ })
}
".

Definition RUST_RESTAPI_LIB_RS : string := unquote "//! {{PROJECT_NAME}} - A REST API built with mik
//!
//! Demonstrates: CRUD, Path params, Query strings, JSON bodies
//! Uses typed inputs in routes for automatic extraction

// ---- Types ----

/// Path parameter for item ID
#[derive(Path)]
struct ItemPath {
    id: String,
}

/// Query parameters for listing items
#[derive(Query)]
struct ListQuery {
    #[field(default = 1)]
    page: u32,
    #[field(default = 10)]
    limit: u32,
}

/// JSON body for creating/updating items
#[derive(Type)]
struct ItemInput {
    name: String,
    description: Option<String>,
}

/// Item response structure
#[derive(Type)]
struct Item {
    id: String,
    name: String,
    description: Option<String>,
}

// ---- Routes with typed inputs ----

routes! {
    GET ~/health~ => health,
    GET ~/items~ => list_items(query: ListQuery),
    GET ~/items/{id}~ => get_item(path: ItemPath),
    POST ~/items~ => create_item(body: ItemInput),
    PUT ~/items/{id}~ => update_item(path: ItemPath, body: ItemInput),
    DELETE ~/items/{id}~ => delete_item(path: ItemPath),
}

// ---- Handlers ----

fn health(_req: &Request) -> Response {
    ok!({ ~status~: ~healthy~ })
}

fn list_items(query: ListQuery, _req: &Request) -> Response {
    let items: Vec<Item> = vec![];

    ok!({
        ~items~: items,
        ~page~: query.page,
        ~limit~: query.limit,
        ~total~: 0
    })
}

fn get_item(path: ItemPath, _req: &Request) -> Response {
    let _ = path.id;
    not_found!(~Item not found~)
}

fn create_item(body: ItemInput, _req: &Request) -> Response {
    let id = random::uuid();

    created!(~/items/{}~, id, Item {
        id,
        name: body.name,
        description: body.description,
    })
}

fn update_item(path: ItemPath, body: ItemInput, _req: &Request) -> Response {
    ok!(Item {
        id: path.id,
        name: body.name,
        description: body.description,
    })
}

fn delete_item(path: ItemPath, _req: &Request) -> Response {
    let _ = path.id;
    no_content!()
}
".

Definition RUST_WORLD_WIT : string := unquote "package mik:{{PROJECT_NAME}}@{{VERSION}};

world {{PROJECT_NAME}} {
    // Export the handler
    export mik:core/handler@0.1.0;
}
".

Definition COMMON_GITIGNORE : string := unquote "*.wasm
".

Definition RUST_GITIGNORE_EXTRA : string := unquote "/target
/modules
Cargo.lock
".

Definition TS_PACKAGE_JSON : string := unquote "{
  ~name~: ~{{PROJECT_NAME}}~,
  ~version~: ~1.0.0~,
  ~type~: ~module~,
  ~scripts~: {
    ~build:bundle~: ~esbuild src/component.ts --bundle --outfile=dist/component.js --format=esm --platform=neutral --external:mik:*~,
    ~build:wasm~: ~npx jco componentize dist/component.js --wit wit --world-name handler -o {{PROJECT_NAME}}.wasm~,
    ~build~: ~npm run build:bundle && npm run build:wasm~,
    ~clean~: ~rm -rf dist {{PROJECT_NAME}}.wasm~
  },
  ~keywords~: [~wasi~, ~wasm~, ~typescript~, ~mik~],
  ~author~: ~{{AUTHOR_NAME}}~,
  ~license~: ~MIT~,
  ~description~: ~mik handler in TypeScript~,
  ~devDependencies~: {
    ~@bytecodealliance/componentize-js~: ~^0.19.3~,
    ~@bytecodealliance/jco~: ~^1.15.4~,
    ~esbuild~: ~^0.27.2~,
    ~typescript~: ~^5.9.3~
  }
}
".

Definition TS_TSCONFIG : string := unquote "{
  ~compilerOptions~: {
    ~target~: ~ES2022~,
    ~module~: ~ES2022~,
    ~moduleResolution~: ~node~,
    ~strict~: true,
    ~esModuleInterop~: true,
    ~skipLibCheck~: true,
    ~forceConsistentCasingInFileNames~: true,
    ~outDir~: ~./dist~,
    ~rootDir~: ~./src~
  },
  ~include~: [~src/**/*~]
}
".

Definition TS_HANDLER_WIT : string := unquote "package mik:handler@0.1.0;

world handler {
    export mik:core/handler@0.1.0;
}
".

Definition TS_COMPONENT : string := unquote "// {{PROJECT_NAME}} - A mik handler in TypeScript
//
// Uses the simple mik:core/handler interface.
// The bridge component handles HTTP protocol details.

import { RequestData, Response, Method } from ~mik:core/handler@0.1.0~;

// Method enum to string
function methodToString(method: Method): string {
  const methods: Record<string, string> = {
    get: ~GET~,
    post: ~POST~,
    put: ~PUT~,
    patch: ~PATCH~,
    delete: ~DELETE~,
    head: ~HEAD~,
    options: ~OPTIONS~,
  };
  return methods[method] ?? ~UNKNOWN~;
}

// Export the handler interface
export const handler = {
  handle(req: RequestData): Response {
    // Build JSON response
    const body = JSON.stringify({
      message: ~Hello from TypeScript!~,
      service: ~{{PROJECT_NAME}}~,
      path: req.path,
      method: methodToString(req.method),
    });

    return {
      status: 200,
      headers: [[~content-type~, ~application/json~]],
      body: new TextEncoder().encode(body),
    };
  },
};
".

Definition TS_README : string := unquote "# {{PROJECT_NAME}}

A mik handler written in TypeScript using the simple `mik:core/handler` interface.

## Prerequisites

- Node.js 18+
- npm

## Build

```bash
mik build
```

Or manually:
```bash
npm install
npm run build
```

## Run

```bash
mik run
```

## Interface

This handler uses the simple `mik:core/handler` interface. The bridge component
handles HTTP protocol details, so your code just processes requests and returns responses.

## Documentation

See: https://dufeutech.github.io/mik/guides/building-components/
".

Definition TS_GITIGNORE_EXTRA : string := unquote "node_modules/
dist/
".

Definition TS_RESTAPI_COMPONENT : string := unquote "// {{PROJECT_NAME}} - A REST API built with mik (TypeScript)
//
// Demonstrates: CRUD operations, routing, JSON handling
// Uses the simple mik:core/handler interface.

import { RequestData, Response, Method } from ~mik:core/handler@0.1.0~;

// ---- Types ----

interface Item {
  id: string;
  name: string;
  description?: string;
}

interface ItemInput {
  name: string;
  description?: string;
}

interface ListQuery {
  page?: number;
  limit?: number;
}

// ---- In-memory storage (for demo) ----
const items: Map<string, Item> = new Map();

// ---- Helpers ----

function methodToString(method: Method): string {
  const methods: Record<string, string> = {
    get: ~GET~,
    post: ~POST~,
    put: ~PUT~,
    patch: ~PATCH~,
    delete: ~DELETE~,
    head: ~HEAD~,
    options: ~OPTIONS~,
  };
  return methods[method] ?? ~UNKNOWN~;
}

function json(status: number, body: unknown): Response {
  return {
    status,
    headers: [[~content-type~, ~application/json~]],
    body: new TextEncoder().encode(JSON.stringify(body)),
  };
}

function parseJson<T>(body: Uint8Array): T | null {
  try {
    return JSON.parse(new TextDecoder().decode(body)) as T;
  } catch {
    return null;
  }
}

function parseQuery(path: string): ListQuery {
  const query: ListQuery = { page: 1, limit: 10 };
  const queryStart = path.indexOf(~?~);
  if (queryStart >= 0) {
    const params = new URLSearchParams(path.slice(queryStart + 1));
    if (params.has(~page~)) query.page = parseInt(params.get(~page~)!, 10) || 1;
    if (params.has(~limit~)) query.limit = parseInt(params.get(~limit~)!, 10) || 10;
  }
  return query;
}

function generateId(): string {
  return Math.random().toString(36).substring(2, 15);
}

// ---- Route matching ----

function matchRoute(method: string, path: string): { handler: string; params: Record<string, string> } | null {
  const cleanPath = path.split(~?~)[0];

  // GET /health
  if (method === ~GET~ && cleanPath === ~/health~) {
    return { handler: ~health~, params: {} };
  }

  // GET /items
  if (method === ~GET~ && cleanPath === ~/items~) {
    return { handler: ~listItems~, params: {} };
  }

  // POST /items
  if (method === ~POST~ && cleanPath === ~/items~) {
    return { handler: ~createItem~, params: {} };
  }

  // GET/PUT/DELETE /items/:id
  const itemMatch = cleanPath.match(/^\/items\/([^/]+)$/);
  if (itemMatch) {
    const id = itemMatch[1];
    if (method === ~GET~) return { handler: ~getItem~, params: { id } };
    if (method === ~PUT~) return { handler: ~updateItem~, params: { id } };
    if (method === ~DELETE~) return { handler: ~deleteItem~, params: { id } };
  }

  return null;
}

// ---- Handlers ----

function health(): Response {
  return json(200, { status: ~healthy~ });
}

function listItems(req: RequestData): Response {
  const query = parseQuery(req.path);
  const allItems = Array.from(items.values());
  const start = ((query.page ?? 1) - 1) * (query.limit ?? 10);
  const pageItems = allItems.slice(start, start + (query.limit ?? 10));

  return json(200, {
    items: pageItems,
    page: query.page,
    limit: query.limit,
    total: allItems.length,
  });
}

function getItem(id: string): Response {
  const item = items.get(id);
  if (!item) {
    return json(404, { error: ~Item not found~ });
  }
  return json(200, item);
}

function createItem(req: RequestData): Response {
  const input = parseJson<ItemInput>(req.body);
  if (!input || !input.name) {
    return json(400, { error: ~Invalid input: name is required~ });
  }

  const id = generateId();
  const item: Item = {
    id,
    name: input.name,
    description: input.description,
  };
  items.set(id, item);

  return {
    status: 201,
    headers: [
      [~content-type~, ~application/json~],
      [~location~, `/items/${id}`],
    ],
    body: new TextEncoder().encode(JSON.stringify(item)),
  };
}

function updateItem(id: string, req: RequestData): Response {
  if (!items.has(id)) {
    return json(404, { error: ~Item not found~ });
  }

  const input = parseJson<ItemInput>(req.body);
  if (!input || !input.name) {
    return json(400, { error: ~Invalid input: name is required~ });
  }

  const item: Item = {
    id,
    name: input.name,
    description: input.description,
  };
  items.set(id, item);

  return json(200, item);
}

function deleteItem(id: string): Response {
  if (!items.has(id)) {
    return json(404, { error: ~Item not found~ });
  }
  items.delete(id);
  return { status: 204, headers: [], body: new Uint8Array() };
}

// ---- Export handler ----

export const handler = {
  handle(req: RequestData): Response {
    const method = methodToString(req.method);
    const route = matchRoute(method, req.path);

    if (!route) {
      return json(404, { error: ~Not found~ });
    }

    switch (route.handler) {
      case ~health~:
        return health();
      case ~listItems~:
        return listItems(req);
      case ~getItem~:
        return getItem(route.params.id);
      case ~createItem~:
        return createItem(req);
      case ~updateItem~:
        return updateItem(route.params.id, req);
      case ~deleteItem~:
        return deleteItem(route.params.id);
      default:
        return json(500, { error: ~Internal error~ });
    }
  },
};
".

Definition TS_RESTAPI_README : string := unquote "# {{PROJECT_NAME}}

A REST API built with mik using TypeScript.

## Prerequisites

- Node.js 18+
- npm

## Build

```bash
mik build
```

Or manually:
```bash
npm install
npm run build
```

## Run

```bash
mik run
```

## API Endpoints

| Method | Path | Description |
|--------|------|-------------|
| GET | /health | Health check |
| GET | /items | List items (supports ?page=&limit=) |
| GET | /items/:id | Get item by ID |
| POST | /items | Create item |
| PUT | /items/:id | Update item |
| DELETE | /items/:id | Delete item |

## Example Usage

```bash
# Health check
curl http://localhost:3000/run/{{PROJECT_NAME}}/health

# Create item
curl -X POST http://localhost:3000/run/{{PROJECT_NAME}}/items \
  -H 'Content-Type: application/json' \
  -d '{~name~: ~Test~, ~description~: ~A test item~}'

# List items
curl http://localhost:3000/run/{{PROJECT_NAME}}/items

# Get item
curl http://localhost:3000/run/{{PROJECT_NAME}}/items/<id>

# Update item
curl -X PUT http://localhost:3000/run/{{PROJECT_NAME}}/items/<id> \
  -H 'Content-Type: application/json' \
  -d '{~name~: ~Updated~, ~description~: ~Updated item~}'

# Delete item
curl -X DELETE http://localhost:3000/run/{{PROJECT_NAME}}/items/<id>
```

## Documentation

See: https://dufeutech.github.io/mik/guides/building-components/
".
