(* ===== verification/New.v ===== *)
(** New: [mik new], of [src/src/commands/new/] (mod.rs, templates.rs,
    interactive.rs): the choice of language and template, the WIT cache, and
    the project that is written. The texts are in Templates.v.

    git, the registry, the TOML printer and the clock are parameters. *)

From S2P Require Import Prelude StdPath HostAllow LbServer Json ManifestTypes Manifest Packages Fs Templates.

#[local] Open Scope Z_scope.
#[local] Open Scope fs_scope.

(** ** Options *)

Definition DEFAULT_VERSION : string := "0.1.0".
Definition WIT_OCI_REF : string := "ghcr.io/dufeutech/mik-sdk-wit".
Definition WIT_CACHE_FILENAME : string := "wit/core.wit".

Inductive Language := Rust | TypeScript.
Inductive Template := Basic | RestApi.

#[export] Instance Language_eq_dec : EqDecision Language.
Proof. solve_decision. Defined.
#[export] Instance Template_eq_dec : EqDecision Template.
Proof. solve_decision. Defined.

Definition is_one_of (s : string) (l : list string) : bool := existsb (String.eqb s) l.

Definition language_from_str (s : string) : result Language string :=
  let l := Str.to_lowercase s in
  if is_one_of l ["rust"; "rs"] then Ok Rust
  else if is_one_of l ["typescript"; "ts"] then Ok TypeScript
  else Err ("unknown language: " +:+ s).

Definition template_from_str (s : string) : result Template string :=
  let l := Str.to_lowercase s in
  if is_one_of l ["basic"] then Ok Basic
  else if is_one_of l ["rest-api"; "restapi"; "rest_api"] then Ok RestApi
  else Err ("unknown template: " +:+ s).

Definition available_templates (lang : Language) : list Template := [Basic; RestApi].

Record NewOptions := {
  name : string;
  lang : Language;
  template : Template;
  yes : bool;
  github_template : option string;
}.

Definition default_options : NewOptions :=
  {| name := EmptyString; lang := Rust; template := Basic; yes := false; github_template := None |}.

(** *** Prompts: what was typed, or [None] at the end of the input *)

Definition prompt_language (default : Language) (input : string) : Language :=
  let l := Str.to_lowercase (trim input) in
  if is_one_of l [EmptyString; "1"; "rust"; "rs"] then Rust
  else if is_one_of l ["2"; "typescript"; "ts"] then TypeScript
  else default.

Definition prompt_template (lang : Language) (default : Template) (input : string) : Template :=
  let templates := available_templates lang in
  match templates with
  | [t] => t
  | _ =>
      let l := Str.to_lowercase (trim input) in
      if is_one_of l [EmptyString; "1"] then hd default templates
      else if (String.eqb l "2" && (1 <? Z.of_nat (length templates)))%bool then nth 1 templates default
      else if String.eqb l "basic" then Basic
      else if is_one_of l ["rest-api"; "restapi"; "rest_api"]
      then if bool_decide (RestApi ∈ templates) then RestApi else Basic
      else default
  end.

Definition prompt_options (default_lang : Language) (default_template : Template) (input1 input2 : string)
  : Language * Template :=
  let lang := prompt_language default_lang input1 in
  (lang, prompt_template lang default_template input2).

(** ** Substitution *)

Inductive Var := PROJECT_NAME | PROJECT_NAME_UNDERSCORE | AUTHOR_NAME | AUTHOR_EMAIL | YEAR | VERSION.

#[export] Instance Var_eq_dec : EqDecision Var.
Proof. solve_decision. Defined.

Definition marker (v : Var) : string :=
  match v with
  | PROJECT_NAME => "{{PROJECT_NAME}}"
  | PROJECT_NAME_UNDERSCORE => "{{PROJECT_NAME_UNDERSCORE}}"
  | AUTHOR_NAME => "{{AUTHOR_NAME}}"
  | AUTHOR_EMAIL => "{{AUTHOR_EMAIL}}"
  | YEAR => "{{YEAR}}"
  | VERSION => "{{VERSION}}"
  end.

Record TemplateContext := {
  project_name : string;
  project_name_underscore : string;
  author_name : option string;
  author_email : option string;
  year : string;
  version : string;
}.

Definition value (ctx : TemplateContext) (v : Var) : string :=
  match v with
  | PROJECT_NAME => project_name ctx
  | PROJECT_NAME_UNDERSCORE => project_name_underscore ctx
  | AUTHOR_NAME => default EmptyString (author_name ctx)
  | AUTHOR_EMAIL => default EmptyString (author_email ctx)
  | YEAR => year ctx
  | VERSION => version ctx
  end.

Definition ORDER : list Var := [PROJECT_NAME; PROJECT_NAME_UNDERSCORE; AUTHOR_NAME; AUTHOR_EMAIL; YEAR; VERSION].

(** One replacement after the other *)
Definition render (ctx : TemplateContext) (content : string) : string :=
  fold_left (fun s v => Str.replace (marker v) (value ctx v) s) ORDER content.

(** ** Generation *)

Definition manifest_for (ctx : TemplateContext) (l : Language) : Manifest := {|
  project := {| ManifestTypes.project_name := project_name ctx; project_version := version ctx;
                description := Some "A WASI HTTP component";
                authors := match author_name ctx with
                           | Some n => [{| ManifestTypes.author_name := n; email := author_email ctx |}]
                           | None => []
                           end;
                language := match l with Rust => None | TypeScript => Some "typescript" end |};
  server := {|
    auto := auto default_server_config; port := 3000; modules := "modules/";
    user_modules := user_modules default_server_config; scripts := scripts default_server_config;
    static := static default_server_config; cache_size := cache_size default_server_config;
    max_cache_mb := max_cache_mb default_server_config; max_body_size_mb := max_body_size_mb default_server_config;
    execution_timeout_secs := execution_timeout_secs default_server_config;
    max_concurrent_requests := max_concurrent_requests default_server_config;
    max_per_module_requests := max_per_module_requests default_server_config;
    shutdown_timeout_secs := shutdown_timeout_secs default_server_config;
    log_max_size_mb := log_max_size_mb default_server_config; log_max_files := log_max_files default_server_config;
    watch_debounce_ms := watch_debounce_ms default_server_config; logging := logging default_server_config;
    http_allowed := http_allowed default_server_config |};
  tracing := tracing default_manifest;
  composition := {| http_handler := true; bridge := bridge default_composition_config |};
  lb := lb default_manifest; dependencies := dependencies default_manifest;
  dev_dependencies := dev_dependencies default_manifest |}.

Section Generate.
Variable cwd : Path.
Variable writable : Path -> bool.
(** [toml::to_string_pretty] *)
Variable to_toml : Manifest -> result string string.

Definition generate_mik_toml (ctx : TemplateContext) (l : Language) : result string (list string) :=
  match to_toml (manifest_for ctx l) with
  | Ok s => Ok s
  | Err e => Err ["failed to serialize mik.toml"; e]
  end.

Definition create_common_dirs (dir : Path) : M unit :=
  context "failed to create src directory" (create_dir_all cwd writable (join dir (components "src"))) ;;
  context "failed to create wit/deps/core directory"
    (create_dir_all cwd writable (join dir (components "wit/deps/core"))).

(** A sequence of [fs::write]s below a directory *)
Fixpoint write_files (dir : Path) (l : list (string * string)) : M unit :=
  match l with
  | [] => ret tt
  | (file, content) :: l =>
      context ("failed to write " +:+ file) (write cwd writable (join dir (components file)) content) ;;
      write_files dir l
  end.

Definition generate_rust_project (dir : Path) (t : Template) (ctx : TemplateContext) (wit_content : string) : M unit :=
  create_common_dirs dir ;;
  context "failed to create modules directory" (create_dir_all cwd writable (join dir (components "modules"))) ;;
  write_files dir [("Cargo.toml", render ctx RUST_CARGO_TOML)] ;;
  do mik_toml <- lift (generate_mik_toml ctx Rust);
  let lib_content := match t with Basic => RUST_BASIC_LIB_RS | RestApi => RUST_RESTAPI_LIB_RS end in
  write_files dir
    [("mik.toml", mik_toml);
     ("src/lib.rs", render ctx (RUST_LIB_HEADER +:+ lib_content));
     ("wit/world.wit", render ctx RUST_WORLD_WIT);
     ("wit/deps/core/core.wit", wit_content);
     (".gitignore", RUST_GITIGNORE_EXTRA +:+ COMMON_GITIGNORE);
     ("modules/.gitkeep", EmptyString)].

Definition generate_typescript_project (dir : Path) (t : Template) (ctx : TemplateContext) (wit_content : string)
  : M unit :=
  create_common_dirs dir ;;
  do mik_toml <- lift (generate_mik_toml ctx TypeScript);
  let component_content := match t with Basic => TS_COMPONENT | RestApi => TS_RESTAPI_COMPONENT end in
  let readme_content := match t with Basic => TS_README | RestApi => TS_RESTAPI_README end in
  write_files dir
    [("mik.toml", mik_toml);
     ("package.json", render ctx TS_PACKAGE_JSON);
     ("tsconfig.json", TS_TSCONFIG);
     ("src/component.ts", render ctx component_content);
     ("wit/handler.wit", TS_HANDLER_WIT);
     ("wit/deps/core/core.wit", wit_content);
     ("README.md", render ctx readme_content);
     (".gitignore", TS_GITIGNORE_EXTRA +:+ COMMON_GITIGNORE)].

Definition generate_project (dir : Path) (l : Language) (t : Template) (ctx : TemplateContext) (wit_content : string)
  : M unit :=
  match l with
  | Rust => generate_rust_project dir t ctx wit_content
  | TypeScript => generate_typescript_project dir t ctx wit_content
  end.

(** ** The WIT package *)

Variable tools_dir : result Path (list string).
Variable pull_oci : string -> Path -> M unit.

Definition get_wit_cache_path : result Path (list string) :=
  let? dir := tools_dir in Ok (join dir (components WIT_CACHE_FILENAME)).

(** [fs::rename] of a file *)
Definition rename (src dst : Path) : M unit :=
  do data <- read cwd src; write cwd writable dst data ;; remove_file cwd writable src.

Definition download_wit : M string :=
  do dir <- lift tools_dir;
  let wit_dir := join dir [Normal "wit"] in
  let temp_path := join wit_dir [Normal "temp.wit"] in
  context "Failed to create WIT cache directory" (create_dir_all cwd writable wit_dir) ;;
  context "Failed to download WIT from registry" (pull_oci WIT_OCI_REF temp_path) ;;
  do content <- context "Failed to read downloaded WIT" (read cwd temp_path);
  do final_path <- lift get_wit_cache_path;
  context "Failed to cache WIT" (fun fs =>
    match rename temp_path final_path fs with
    | (Ok _, fs) => (Ok tt, fs)
    | (Err _, _) => copy cwd writable temp_path final_path fs
    end) ;;
  ret content.

Definition fetch_wit : M string := fun fs =>
  let cached := match get_wit_cache_path with Ok p => if exists_ cwd p fs then Some p else None | Err _ => None end in
  match cached with
  | Some p => context "Failed to read cached WIT" (read cwd p) fs
  | None =>
      (do wit_content <- download_wit;
       match get_wit_cache_path with
       | Ok p =>
           ignore (create_dir_all cwd writable (default [] (parent p))) ;;
           ignore (write cwd writable p wit_content)
       | Err _ => ret tt
       end ;;
       ret wit_content) fs
  end.

(** ** The command *)

(** [git config user.name] and [user.email], [git init], the year *)
Variable git_user : option string * option string.
Variable git_init : Path -> M unit.
Variable this_year : string.
Variable is_interactive : bool.
Variable input1 input2 : string.
(** github.rs *)
Variable create_from_github : Path -> string -> string -> M unit.

Definition choose (o : NewOptions) : Language * Template :=
  if yes o then (lang o, template o)
  else if is_interactive then prompt_options (lang o) (template o) input1 input2
  else (lang o, template o).

Definition context_for (n : string) : TemplateContext := {|
  project_name := n; project_name_underscore := replace_dash n; author_name := git_user.1;
  author_email := git_user.2; year := this_year; version := DEFAULT_VERSION |}.

Definition execute (o : NewOptions) : M unit := fun fs =>
  let project_dir := components (name o) in
  match file_name project_dir with
  | None => (Err ["Invalid project name: " +:+ name o], fs)
  | Some n =>
      if exists_ cwd project_dir fs then (Err ["Directory '" +:+ name o +:+ "' already exists"], fs)
      else
        match github_template o with
        | Some github_ref => create_from_github project_dir n github_ref fs
        | None =>
            let '(l, t) := choose o in
            (do wit_content <- fetch_wit;
             context "Failed to create project directory" (create_dir_all cwd writable project_dir) ;;
             generate_project project_dir l t (context_for n) wit_content ;;
             ignore (git_init project_dir)) fs
        end
  end.
End Generate.

(** ** What a template means *)

(** A template is a text with places for values. *)
Inductive Seg := Text (s : string) | Place (v : Var).

Definition find_var (s : string) : option Var := find (fun v => Str.starts_with (marker v) s) ORDER.

Definition cons_char (c : ascii) (segs : list Seg) : list Seg :=
  match segs with
  | Text t :: segs => Text (String c t) :: segs
  | _ => Text (String c EmptyString) :: segs
  end.

Fixpoint parse_from (skip : nat) (s : string) : list Seg :=
  match s with
  | EmptyString => []
  | String c rest =>
      match skip with
      | S k => parse_from k rest
      | O => match find_var s with
             | Some v => Place v :: parse_from (String.length (marker v) - 1) rest
             | None => cons_char c (parse_from 0 rest)
             end
      end
  end.
Definition segments (content : string) : list Seg := parse_from 0 content.

Definition fill (f : Var -> string) (seg : Seg) : string := match seg with Text s => s | Place v => f v end.
Definition flatten (f : Var -> string) (segs : list Seg) : string := Str.join EmptyString (fill f <$> segs).

(** All places filled at once *)
Definition expand (ctx : TemplateContext) (content : string) : string := flatten (value ctx) (segments content).

Definition BRACE : ascii := "{".
Definition brace_free (s : string) : bool := negb (Str.contains_char BRACE s).
Definition no_braces (s : string) : bool := negb (Str.contains "{{" s).
Definition ends_brace (s : string) : bool := Str.ends_with "{" s.

(** Texts without a double brace, that do not meet another one halfway. *)
Fixpoint clean (segs : list Seg) : bool :=
  match segs with
  | [] => true
  | [Text t] => no_braces t
  | Text t :: segs => (no_braces t && negb (ends_brace t) && clean segs)%bool
  | Place _ :: segs => clean segs
  end.

(** The places that are left are still markers. *)
Definition source (segs : list Seg) : string := flatten marker segs.

Definition fill_one (v : Var) (val : string) (seg : Seg) : Seg :=
  match seg with Place u => if bool_decide (u = v) then Text val else seg | Text _ => seg end.

(** ** Lemmas on substitution *)

Lemma flatten_cons f seg segs : flatten f (seg :: segs) = fill f seg +:+ flatten f segs.
Proof.
  unfold flatten. rewrite fmap_cons. cbn [Str.join]. destruct (fill f <$> segs) eqn:E; [|done].
  cbn. by rewrite Str.app_nil_r.
Qed.

Lemma no_braces_tail c s : no_braces (String c s) = true -> no_braces s = true.
Proof.
  unfold no_braces. rewrite !negb_true_iff. intros H. cbn [Str.contains] in H.
  by apply orb_false_iff in H as [_ H].
Qed.

Lemma ends_brace_tail c d s : ends_brace (String c (String d s)) = ends_brace (String d s).
Proof.
  unfold ends_brace. apply Bool.eq_true_iff_eq. rewrite !Str.ends_with_iff. split; intros [r Hr].
  - destruct r as [|x r]; [done|]. exists r. by injection Hr.
  - exists (String c r). by rewrite Hr.
Qed.

(** A marker is not found within a clean text. *)
Lemma replace_text p by_ t rest :
  no_braces t = true -> ends_brace t = false \/ rest = EmptyString ->
  Str.replace_from (String BRACE (String BRACE p)) by_ 0 (t +:+ rest) =
  t +:+ Str.replace_from (String BRACE (String BRACE p)) by_ 0 rest.
Proof.
  set (pat := String BRACE (String BRACE p)). induction t as [|c t IH]; intros Hn He; [done|].
  assert (Str.starts_with pat (String c (t +:+ rest)) = false) as Hs.
  { apply not_true_is_false. intros [r Hr]%Str.starts_with_iff. injection Hr as -> Hr.
    destruct t as [|d t]; cbn in Hr.
    - destruct He as [He| ->]; [by vm_compute in He|by destruct p].
    - injection Hr as -> _. by vm_compute in Hn. }
  change (String c t +:+ rest) with (String c (t +:+ rest)). cbn [Str.replace_from]. rewrite Hs.
  change (String c t +:+ Str.replace_from pat by_ 0 rest) with (String c (t +:+ Str.replace_from pat by_ 0 rest)).
  f_equal. apply IH; [by apply no_braces_tail in Hn|].
  destruct He as [He|]; [|by right]. destruct t as [|d t]; [by left|left]. by rewrite ends_brace_tail in He.
Qed.

Definition marker_rest (v : Var) : string := match marker v with String _ (String _ p) => p | _ => EmptyString end.

Lemma marker_eq v : marker v = String BRACE (String BRACE (marker_rest v)).
Proof. by destruct v. Qed.

Lemma replace_marker_other u v by_ rest :
  u <> v -> Str.replace_from (marker v) by_ 0 (marker u +:+ rest) = marker u +:+ Str.replace_from (marker v) by_ 0 rest.
Proof.
  intros Hne. assert (Str.starts_with (marker v) (marker u +:+ rest) = false) as Hs by (by destruct u, v).
  rewrite (marker_eq u) in Hs |- *.
  change (String BRACE (String BRACE (marker_rest u)) +:+ rest)
    with (String BRACE (String BRACE (marker_rest u) +:+ rest)) in Hs |- *.
  cbn [Str.replace_from]. rewrite Hs. rewrite (marker_eq v). rewrite replace_text; [done| |left]; by destruct u.
Qed.

Lemma clean_cons_inv seg segs : clean (seg :: segs) = true -> clean segs = true.
Proof.
  destruct seg as [t|v]; cbn [clean]; [|done]. destruct segs; [done|]. intros H.
  by apply andb_true_iff in H as [_ H].
Qed.

Lemma brace_free_clean s : brace_free s = true -> no_braces s = true /\ ends_brace s = false.
Proof.
  unfold brace_free, no_braces, ends_brace. rewrite negb_true_iff. intros H. split.
  - apply negb_true_iff, not_true_is_false. intros (a & b & ->)%Str.contains_iff.
    rewrite !Str.contains_char_app in H. apply orb_false_iff in H as [_ H]. apply orb_false_iff in H as [H _]. done.
  - apply not_true_is_false. intros [r ->]%Str.ends_with_iff. rewrite Str.contains_char_app in H.
    apply orb_false_iff in H as [_ H]. done.
Qed.

(** One replacement fills one kind of place. *)
Lemma replace_source v val segs :
  clean segs = true -> brace_free val = true ->
  Str.replace (marker v) val (source segs) = source (fill_one v val <$> segs) /\
  clean (fill_one v val <$> segs) = true.
Proof.
  intros Hc Hv. destruct (brace_free_clean _ Hv) as [Hvn Hve]. unfold Str.replace, source.
  induction segs as [|seg segs IH]; [done|].
  destruct (IH (clean_cons_inv _ _ Hc)) as [IH1 IH2]. clear IH. rewrite fmap_cons, !flatten_cons.
  destruct seg as [t|u].
  - cbn [fill fill_one]. rewrite (marker_eq v), replace_text, <- (marker_eq v), IH1.
    + split; [done|]. cbn [clean] in Hc |- *. destruct segs as [|seg segs]; [done|].
      rewrite fmap_cons in IH2 |- *. apply andb_true_iff in Hc as [Hc _]. by rewrite Hc, IH2.
    + cbn [clean] in Hc. destruct segs; [done|]. by apply andb_true_iff in Hc as [[? _]%andb_true_iff _].
    + cbn [clean] in Hc. destruct segs; [by right|left].
      apply andb_true_iff in Hc as [[_ Hc]%andb_true_iff _]. by apply negb_true_iff.
  - cbn [fill_one]. case_bool_decide as Huv.
    + subst u. cbn [fill]. rewrite Str.replace_hit by (by destruct v). rewrite IH1. split; [done|].
      cbn [clean]. destruct (fill_one v val <$> segs) as [|seg' segs']; [done|]. by rewrite Hvn, Hve, IH2.
    + cbn [fill]. rewrite replace_marker_other by done. by rewrite IH1.
Qed.

Definition fill_in (f : Var -> string) (vs : list Var) (segs : list Seg) : list Seg :=
  fold_left (fun segs v => fill_one v (f v) <$> segs) vs segs.

Lemma replace_all f vs segs :
  clean segs = true -> (forall v, brace_free (f v) = true) ->
  fold_left (fun s v => Str.replace (marker v) (f v) s) vs (source segs) = source (fill_in f vs segs) /\
  clean (fill_in f vs segs) = true.
Proof.
  intros Hc Hv. revert segs Hc. induction vs as [|v vs IH]; intros segs Hc; [done|]. cbn [fold_left fill_in].
  destruct (replace_source v (f v) segs Hc (Hv v)) as [-> Hc']. by apply IH.
Qed.

Lemma fill_in_order f segs : fill_in f ORDER segs = (fun seg => Text (fill f seg)) <$> segs.
Proof.
  unfold fill_in, ORDER. cbn [fold_left]. rewrite <- !list_fmap_compose. apply list_fmap_ext.
  intros _ [t|v] _; [done|]. by destruct v.
Qed.

Lemma contains_text t rest :
  no_braces t = true -> ends_brace t = false \/ rest = EmptyString ->
  Str.contains "{{" (t +:+ rest) = Str.contains "{{" rest.
Proof.
  induction t as [|c t IH]; intros Hn He; [done|].
  assert (Str.starts_with "{{" (String c (t +:+ rest)) = false) as Hs.
  { apply not_true_is_false. intros [r Hr]%Str.starts_with_iff. injection Hr as -> Hr.
    destruct t as [|d t]; cbn in Hr.
    - destruct He as [He| ->]; [by vm_compute in He|done].
    - injection Hr as -> _. by vm_compute in Hn. }
  change (String c t +:+ rest) with (String c (t +:+ rest)). cbn [Str.contains]. rewrite Hs. apply IH.
  - by apply no_braces_tail in Hn.
  - destruct He as [He|]; [|by right]. destruct t as [|d t]; [by left|left]. by rewrite ends_brace_tail in He.
Qed.

Lemma clean_texts ts : clean (Text <$> ts) = true -> no_braces (source (Text <$> ts)) = true.
Proof.
  induction ts as [|t ts IH]; [done|]. rewrite fmap_cons. intros Hc. unfold source in *. rewrite flatten_cons.
  cbn [fill]. pose proof (IH (clean_cons_inv _ _ Hc)) as Hr. unfold no_braces in Hr |- *.
  cbn [clean] in Hc. destruct ts as [|t2 ts].
  - change (flatten marker (Text <$> [])) with EmptyString. by rewrite Str.app_nil_r.
  - rewrite fmap_cons in Hc |- *. apply andb_true_iff in Hc as [[Hn He]%andb_true_iff _].
    rewrite contains_text; [done|done|left]. by apply negb_true_iff.
Qed.

(** The replacements one after the other do what filling all places does. *)
Lemma render_source ctx segs :
  clean segs = true -> (forall v, brace_free (value ctx v) = true) ->
  render ctx (source segs) = flatten (value ctx) segs /\ no_braces (flatten (value ctx) segs) = true.
Proof.
  intros Hc Hv. unfold render. destruct (replace_all (value ctx) ORDER segs Hc Hv) as [-> Hc'].
  rewrite fill_in_order in Hc' |- *.
  assert ((fun seg => Text (fill (value ctx) seg)) <$> segs = Text <$> (fill (value ctx) <$> segs)) as E
    by (by rewrite <- list_fmap_compose).
  rewrite E in Hc' |- *. pose proof (clean_texts _ Hc') as Hn.
  assert (source (Text <$> (fill (value ctx) <$> segs)) = flatten (value ctx) segs) as Es.
  { unfold source, flatten. by rewrite <- list_fmap_compose, list_fmap_id. }
  by rewrite Es in Hn |- *.
Qed.

(** ** The templates of the program *)

(** The files of a project, with the templates they are made of. *)
Definition project_files (l : Language) (t : Template) : list (string * string) :=
  match l with
  | Rust =>
      [("Cargo.toml", RUST_CARGO_TOML);
       ("src/lib.rs", RUST_LIB_HEADER +:+ match t with Basic => RUST_BASIC_LIB_RS | RestApi => RUST_RESTAPI_LIB_RS end);
       ("wit/world.wit", RUST_WORLD_WIT);
       (".gitignore", RUST_GITIGNORE_EXTRA +:+ COMMON_GITIGNORE);
       ("modules/.gitkeep", EmptyString)]
  | TypeScript =>
      [("package.json", TS_PACKAGE_JSON);
       ("tsconfig.json", TS_TSCONFIG);
       ("src/component.ts", match t with Basic => TS_COMPONENT | RestApi => TS_RESTAPI_COMPONENT end);
       ("wit/handler.wit", TS_HANDLER_WIT);
       ("README.md", match t with Basic => TS_README | RestApi => TS_RESTAPI_README end);
       (".gitignore", TS_GITIGNORE_EXTRA +:+ COMMON_GITIGNORE)]
  end.

Definition well_formed (content : string) : bool :=
  (clean (segments content) && String.eqb (source (segments content)) content)%bool.

Lemma templates_well_formed :
  forallb (fun l => forallb (fun t => forallb (fun f => well_formed f.2) (project_files l t)) [Basic; RestApi])
    [Rust; TypeScript] = true.
Proof. vm_compute. reflexivity. Qed.

Lemma project_file_well_formed l t f : f ∈ project_files l t -> well_formed f.2 = true.
Proof.
  intros Hf. pose proof templates_well_formed as H. rewrite forallb_forall in H.
  assert (In l [Rust; TypeScript]) as Hl by (destruct l; cbn; auto). apply H in Hl. rewrite forallb_forall in Hl.
  assert (In t [Basic; RestApi]) as Ht by (destruct t; cbn; auto). apply Hl in Ht. rewrite forallb_forall in Ht.
  apply Ht. by apply list_elem_of_In.
Qed.

Lemma render_well_formed ctx content :
  well_formed content = true -> (forall v, brace_free (value ctx v) = true) ->
  render ctx content = expand ctx content /\ no_braces (expand ctx content) = true.
Proof.
  intros [Hc Hs%String.eqb_eq]%andb_true_iff Hv. destruct (render_source ctx _ Hc Hv) as [Hr Hn].
  rewrite Hs in Hr. by split.
Qed.

(** ** Lemmas on files *)

#[local] Set Default Proof Using "Type*".

(** A relative path of names stays below the directory it is joined to. *)
Definition relative_names (q : Path) : bool :=
  match q with
  | Normal _ :: _ => forallb (fun c => match c with Normal _ => true | _ => false end) q
  | _ => false
  end.

Lemma relative_names_dot q : relative_names q = true -> filter dot q = q.
Proof.
  destruct q as [|[| | | |n] q]; try done. unfold relative_names. generalize (Normal n :: q). clear.
  induction l as [|c l IH]; [done|]. cbn [forallb]. intros [Hc Hl]%andb_true_iff. destruct c; try done.
  rewrite filter_cons_True by done. by rewrite IH.
Qed.

Lemma key_join cwd dir q :
  dir <> [] -> relative_names q = true -> key cwd (join dir q) = key cwd dir ++ q.
Proof.
  intros Hd Hq. pose proof (relative_names_dot _ Hq) as Hf. destruct q as [|[| | | |n] q]; try done.
  destruct dir as [|c dir]; [done|]. unfold key. unfold join at 2. cbn [is_absolute has_root].
  assert (join cwd ((c :: dir) ++ Normal n :: q) = join cwd (c :: dir) ++ Normal n :: q) as ->.
  { unfold join. destruct c; try done; destruct cwd; try done; cbn; by rewrite <- app_assoc. }
  by rewrite filter_app, Hf.
Qed.

Section Files.
Variable cwd : Path.
Variable writable : Path -> bool.

Definition file_key (dir : Path) (file : string) : Path := key cwd (join dir (components file)).

Lemma file_keys_distinct dir (l : list string) :
  dir <> [] -> forallb (fun f => relative_names (components f)) l = true -> NoDup (components <$> l) ->
  NoDup (file_key dir <$> l).
Proof.
  intros Hd Hr Hn. assert (file_key dir <$> l = (app (key cwd dir)) <$> (components <$> l)) as ->.
  { rewrite <- list_fmap_compose. apply list_fmap_ext. intros i f Hf. unfold file_key, compose.
    rewrite forallb_forall in Hr. apply key_join; [done|]. apply Hr, list_elem_of_In. by eapply list_elem_of_lookup_2. }
  apply NoDup_fmap_2; [|done]. intros p q. apply app_inv_head.
Qed.

Lemma write_files_Ok dir l : forall fs fs',
  NoDup (file_key dir <$> (fst <$> l)) -> write_files cwd writable dir l fs = (Ok tt, fs') ->
  (forall f c, (f, c) ∈ l -> files fs' !! file_key dir f = Some c) /\
  (forall q, q ∉ file_key dir <$> (fst <$> l) -> files fs' !! q = files fs !! q).
Proof.
  induction l as [|[f c] l IH]; intros fs fs' Hn; cbn [write_files].
  - intros [= <-]. split; [by intros f c ?%not_elem_of_nil|done].
  - rewrite !fmap_cons in Hn |- *. apply NoDup_cons in Hn as [Hf Hn].
    intros ([] & fs1 & Hw & H)%bind_Ok. apply context_Ok, write_Ok in Hw as ->.
    apply (IH _ _ Hn) in H as [H1 H2]. split.
    + intros g d [[= -> ->]|Hg]%elem_of_cons; [|by apply H1]. rewrite H2 by done. apply put_lookup.
    + intros q [Hq Hql]%not_elem_of_cons. rewrite H2 by done. cbn. by apply lookup_insert_ne, not_eq_sym.
Qed.

Lemma common_dirs_Ok dir fs fs' : create_common_dirs cwd writable dir fs = (Ok tt, fs') -> files fs' = files fs.
Proof.
  unfold create_common_dirs. intros ([] & fs1 & H1 & H2)%bind_Ok.
  apply context_Ok, create_dir_all_Ok in H1 as [H1 _]. apply context_Ok, create_dir_all_Ok in H2 as [H2 _]. congruence.
Qed.

Lemma render_fixed ctx :
  render ctx (RUST_GITIGNORE_EXTRA +:+ COMMON_GITIGNORE) = RUST_GITIGNORE_EXTRA +:+ COMMON_GITIGNORE /\
  render ctx (TS_GITIGNORE_EXTRA +:+ COMMON_GITIGNORE) = TS_GITIGNORE_EXTRA +:+ COMMON_GITIGNORE /\
  render ctx TS_TSCONFIG = TS_TSCONFIG /\ render ctx TS_HANDLER_WIT = TS_HANDLER_WIT.
Proof. split_and!; vm_compute; reflexivity. Qed.

Ltac listed i := apply (list_elem_of_lookup_2 _ i); reflexivity.
Ltac each_file := unfold project_files; repeat (apply Forall_cons; split); [..|apply Forall_nil; exact I]; cbn [fst snd].

(** What generating a project leaves on disk *)
Definition generated to_toml (dir : Path) (l : Language) (t : Template) (ctx : TemplateContext) (wit : string)
    (fs : Fs) : Prop :=
  exists mik, generate_mik_toml to_toml ctx l = Ok mik /\
    files fs !! file_key dir "mik.toml" = Some mik /\
    files fs !! file_key dir "wit/deps/core/core.wit" = Some wit /\
    Forall (fun ft => files fs !! file_key dir ft.1 = Some (render ctx ft.2)) (project_files l t).

Lemma generate_rust_Ok to_toml dir t ctx wit fs fs' :
  dir <> [] -> generate_rust_project cwd writable to_toml dir t ctx wit fs = (Ok tt, fs') ->
  generated to_toml dir Rust t ctx wit fs'.
Proof.
  intros Hd. unfold generate_rust_project. intros ([] & fs1 & _ & H)%bind_Ok.
  apply bind_Ok in H as ([] & fs2 & _ & H).
  apply bind_Ok in H as ([] & fs3 & H1 & H). apply bind_Ok in H as (mik & fs4 & Hmik & H2).
  injection Hmik as Hmik <-. exists mik. split; [done|].
  pose proof (file_keys_distinct dir ["Cargo.toml"; "mik.toml"; "src/lib.rs"; "wit/world.wit"; "wit/deps/core/core.wit";
    ".gitignore"; "modules/.gitkeep"] Hd eq_refl ltac:(by apply (bool_decide_unpack _); vm_compute)) as Hall.
  rewrite fmap_cons in Hall. apply NoDup_cons in Hall as [Hcargo Hrest].
  apply write_files_Ok in H1 as [H1 _]; [|by apply NoDup_singleton].
  apply write_files_Ok in H2 as [H2 H2f]; [|done].
  destruct (render_fixed ctx) as (Hg & _). split; [apply H2; listed 0%nat|]. split; [apply H2; listed 3%nat|].
  each_file.
  - rewrite H2f by done. apply H1. listed 0%nat.
  - apply H2. destruct t; listed 1%nat.
  - apply H2. listed 2%nat.
  - rewrite Hg. apply H2. listed 4%nat.
  - apply H2. listed 5%nat.
Qed.

Lemma generate_typescript_Ok to_toml dir t ctx wit fs fs' :
  dir <> [] -> generate_typescript_project cwd writable to_toml dir t ctx wit fs = (Ok tt, fs') ->
  generated to_toml dir TypeScript t ctx wit fs'.
Proof.
  intros Hd. unfold generate_typescript_project. intros ([] & fs1 & _ & H)%bind_Ok.
  apply bind_Ok in H as (mik & fs4 & Hmik & H2). injection Hmik as Hmik <-. exists mik. split; [done|].
  pose proof (file_keys_distinct dir ["mik.toml"; "package.json"; "tsconfig.json"; "src/component.ts"; "wit/handler.wit";
    "wit/deps/core/core.wit"; "README.md"; ".gitignore"] Hd eq_refl ltac:(by apply (bool_decide_unpack _); vm_compute)) as Hall.
  apply write_files_Ok in H2 as [H2 _]; [|done].
  destruct (render_fixed ctx) as (_ & Hg & Ht & Hw). split; [apply H2; listed 0%nat|]. split; [apply H2; listed 5%nat|].
  each_file.
  - apply H2. listed 1%nat.
  - rewrite Ht. apply H2. listed 2%nat.
  - apply H2. destruct t; listed 3%nat.
  - rewrite Hw. apply H2. listed 4%nat.
  - apply H2. destruct t; listed 6%nat.
  - rewrite Hg. apply H2. listed 7%nat.
Qed.
End Files.

(** Whether the manifest of a new project is valid depends on its name only. *)
Lemma manifest_for_valid is_dir exists_ is_valid_version parse_url ctx l p :
  is_valid_version (version ctx) = true -> version ctx <> EmptyString ->
  validation_errors exists_ is_dir is_valid_version parse_url (manifest_for ctx l) p = [] <->
  is_valid_name (project_name ctx) = true.
Proof.
  intros Hv Hne. unfold validation_errors.
  cbn [manifest_for project ManifestTypes.project_name project_version server port modules dependencies dev_dependencies
       default_manifest dependency_errors omap list_omap].
  rewrite Hv. assert (Str.is_empty (version ctx) = false) as -> by (by destruct (version ctx)). cbn [negb].
  change (Str.is_empty "modules/") with false. rewrite !app_nil_r.
  destruct (project_name ctx) as [|c n] eqn:E; [done|]. cbn [Str.is_empty].
  destruct (is_valid_name (String c n)); done.
Qed.

(** ** Properties *)


Definition demo_home : Fs := {|
  files := {[ [RootDir; Normal "tools"; Normal "wit"; Normal "core.wit"] := "interface" ]};
  dirs := {[ [RootDir] ]} |}.

Definition demo_new (n : string) : result unit (list string) * Fs :=
  execute [RootDir] (fun _ => true) (fun m => Ok (ManifestTypes.project_name (project m)))
    (Ok [RootDir; Normal "tools"]) (fun _ _ => ret tt) (Some "Ann", None) (fun _ => ret tt) "2026" false
    EmptyString EmptyString (fun _ _ _ => ret tt)
    {| name := n; lang := Rust; template := Basic; yes := true; github_template := None |} demo_home.

Lemma demo_new_ok : is_ok (demo_new "1app").1 = true.
Proof. vm_compute. reflexivity. Qed.

Lemma demo_new_result : demo_new "1app" = (Ok tt, (demo_new "1app").2).
Proof. pose proof demo_new_ok as H. destruct (demo_new "1app") as [[[]|e] fs]; done. Qed.


(** A value with braces is replaced in turn. *)
Example injected_marker :
  render {| project_name := "{{VERSION}}"; project_name_underscore := EmptyString; author_name := None;
            author_email := None; year := EmptyString; version := "0.1.0" |} "name {{PROJECT_NAME}}" = "name 0.1.0".
Proof. vm_compute. reflexivity. Qed.
