(* ===== verification/GithubTemplate.v ===== *)
(** GithubTemplate: projects from GitHub templates, of
    [src/src/commands/new/github.rs]: the reference, the download with its
    fallback, the extraction of the archive, and the substitution in its files.

    HTTP, the ZIP format, the order in which a directory is read and git are
    parameters; file permissions are left out. *)

From S2P Require Import Prelude StdPath HostAllow LbServer Json ManifestTypes Manifest Packages Fs Templates New.

#[local] Open Scope Z_scope.
#[local] Open Scope fs_scope.

(** ** References *)

Definition GITHUB : string := "github:".

Definition parse_github_ref (github_ref : string) : result (string * string * option string) string :=
  let cleaned := default github_ref (Str.strip_prefix GITHUB github_ref) in
  let '(repo_part, branch) := match Str.split_once "#" cleaned with
                              | Some (repo, branch) => (repo, Some branch)
                              | None => (cleaned, None)
                              end in
  match Str.split Str.SLASH repo_part with
  | [owner; repo] =>
      if (Str.is_empty owner || Str.is_empty repo)%bool
      then Err ("Invalid GitHub reference: " +:+ github_ref +:+ NL +:+
                "Expected format: github:user/repo or github:user/repo#branch")
      else Ok (owner, repo, branch)
  | _ => Err ("Invalid GitHub reference: " +:+ github_ref +:+ NL +:+
              "Expected format: github:user/repo or github:user/repo#branch")
  end.

Definition archive_url (owner repo branch : string) : string :=
  "https://github.com/" +:+ owner +:+ "/" +:+ repo +:+ "/archive/refs/heads/" +:+ branch +:+ ".zip".

(** ** Files *)

Definition BINARY_EXTENSIONS : list string :=
  ["wasm"; "png"; "jpg"; "jpeg"; "gif"; "ico"; "pdf"; "zip"; "tar"; "gz"; "exe"; "dll"; "so"; "dylib"; "o"; "a"; "bin"; "dat"].

Definition is_binary_file (p : Path) : bool :=
  match extension p with Some e => is_one_of (Str.to_lowercase e) BINARY_EXTENSIONS | None => false end.

(** The four markers that are replaced in a template of GitHub *)
Definition GITHUB_ORDER : list Var := [PROJECT_NAME; PROJECT_NAME_UNDERSCORE; AUTHOR_NAME; AUTHOR_EMAIL].

(** An entry of an archive: its name, the path made of it, and its bytes *)
Record ZipEntry := {
  z_name : string;
  mangled_name : Path;
  z_data : result string (list string);
}.

Record HttpResponse := {
  status : Z;
  bytes : result string (list string);
}.

Definition is_success (r : HttpResponse) : bool := ((200 <=? status r) && (status r <? 300))%bool.

Section Github.
Variable cwd : Path.
Variable writable : Path -> bool.
Variable http_get : string -> result HttpResponse (list string).
(** [ZipArchive::new] *)
Variable zip_entries : string -> result (list ZipEntry) (list string).
(** The order of [fs::read_dir] *)
Variable order : list string -> list string.
Variable is_utf8 : string -> bool.
Variable pid : Z.
Variable git_user : option string * option string.
Variable git_init : Path -> M unit.

Definition extract_zip (data : string) (dest : Path) : M unit :=
  do entries <- context "Invalid zip archive" (lift (zip_entries data));
  each entries (fun e =>
    let outpath := join dest (mangled_name e) in
    if Str.ends_with "/" (z_name e) then create_dir_all cwd writable outpath
    else
      match parent outpath with Some up => create_dir_all cwd writable up | None => ret tt end ;;
      write cwd writable outpath EmptyString ;;
      do content <- lift (z_data e);
      write cwd writable outpath content).

(** [copy_dir_recursive]: [fuel] levels of directories *)
Fixpoint copy_dir_recursive (fuel : nat) (src dest : Path) : M unit :=
  match fuel with
  | O => ret tt
  | S fuel =>
      create_dir_all cwd writable dest ;;
      do entries <- read_dir cwd order src;
      each entries (fun n fs =>
        let src_path := join src [Normal n] in
        let dest_path := join dest [Normal n] in
        (if is_dir cwd src_path fs then copy_dir_recursive fuel src_path dest_path
         else copy cwd writable src_path dest_path) fs)
  end.

(** No directory is deeper than there are directories. *)
Definition move_contents (src dest : Path) : M unit := fun fs =>
  copy_dir_recursive (S (size (dirs fs))) src dest fs.

Definition extract_zip_response (response : HttpResponse) (target_dir : Path) (repo branch : string) : M unit :=
  do data <- context "Failed to download zip content" (lift (bytes response));
  let temp_dir := join (default [CurDir] (parent target_dir)) [Normal (".mik-template-" +:+ Str.of_Z pid)] in
  (fun fs => (if exists_ cwd temp_dir fs then remove_dir_all cwd temp_dir else ret tt) fs) ;;
  create_dir_all cwd writable temp_dir ;;
  extract_zip data temp_dir ;;
  let inner_dir := join temp_dir (components (repo +:+ "-" +:+ branch)) in
  (fun fs =>
    if exists_ cwd inner_dir fs then move_contents inner_dir target_dir fs
    else
      (do entries <- read_dir cwd order temp_dir;
       match list_find (fun n => is_dir cwd (join temp_dir [Normal n]) fs = true) entries with
       | Some (_, n) => move_contents (join temp_dir [Normal n]) target_dir
       | None => bail "Unexpected zip structure - no inner directory found"
       end) fs) ;;
  ignore (remove_dir_all cwd temp_dir).

Definition download_and_extract (owner repo : string) (branch : option string) (target_dir : Path) : M unit :=
  let branch := default "main" branch in
  let url := archive_url owner repo branch in
  do response <- context "Failed to connect to GitHub" (lift (http_get url));
  let failed := bail ("Failed to download template: HTTP " +:+ Str.of_Z (status response) +:+ NL +:+
                      "URL: " +:+ url +:+ NL +:+ "Make sure the repository exists and is public.") in
  if is_success response then extract_zip_response response target_dir repo branch
  else if String.eqb branch "main" then
    do fallback <- lift (http_get (archive_url owner repo "master"));
    if is_success fallback then extract_zip_response fallback target_dir repo "master" else failed
  else failed.

(** The files below a directory: [fuel] levels *)
Fixpoint walkdir (fuel : nat) (dir : Path) (fs : Fs) : list Path :=
  match fuel with
  | O => []
  | S fuel =>
      match (read_dir cwd order dir fs).1 with
      | Ok entries =>
          concat (map (fun n => let p := join dir [Normal n] in
                                if is_dir cwd p fs then walkdir fuel p fs
                                else if is_file cwd p fs then [p] else []) entries)
      | Err _ => []
      end
  end.

Definition replace_in (ctx : TemplateContext) (content : string) : string :=
  fold_left (fun s v => Str.replace (marker v) (value ctx v) s) GITHUB_ORDER content.

Definition replace_variables (dir : Path) (n : string) : M unit := fun fs =>
  let ctx := context_for git_user EmptyString n in
  each (walkdir (S (size (dirs fs))) dir fs) (fun p fs =>
    if is_binary_file p then (Ok tt, fs)
    else match files fs !! key cwd p with
         | Some content =>
             if is_utf8 content then
               let modified := replace_in ctx content in
               if String.eqb modified content then (Ok tt, fs) else write cwd writable p modified fs
             else (Ok tt, fs)
         | None => (Ok tt, fs)
         end) fs.

Definition create_from_github (dir : Path) (n github_ref : string) : M unit :=
  match parse_github_ref github_ref with
  | Err e => bail e
  | Ok (owner, repo, branch) =>
      download_and_extract owner repo branch dir ;;
      replace_variables dir n ;;
      ignore (git_init dir)
  end.
End Github.

(** ** Lemmas *)

(** The references that are accepted, with or without their prefix. *)
Lemma parse_github_ref_spec owner repo branch :
  owner <> EmptyString -> repo <> EmptyString ->
  Str.contains_char Str.SLASH owner = false -> Str.contains_char Str.SLASH repo = false ->
  Str.contains_char "#" owner = false -> Str.contains_char "#" repo = false ->
  let r := owner +:+ "/" +:+ repo +:+ match branch with Some b => "#" +:+ b | None => EmptyString end in
  parse_github_ref (GITHUB +:+ r) = Ok (owner, repo, branch) /\
  (Str.starts_with GITHUB r = false -> parse_github_ref r = Ok (owner, repo, branch)).
Proof.
  intros Ho Hr Hos Hrs Hoh Hrh r.
  assert (Str.split Str.SLASH (owner +:+ "/" +:+ repo) = [owner; repo]) as Hsplit.
  { pose proof (Str.split_join Str.SLASH [owner; repo] ltac:(done) ltac:(by repeat constructor)) as H. exact H. }
  assert (match Str.split_once "#" r with Some (a, b) => (a, Some b) | None => (r, None) end =
          (owner +:+ "/" +:+ repo, branch)) as Honce.
  { subst r. destruct branch as [b|].
    - assert (Str.split_once "#" (owner +:+ "/" +:+ repo +:+ "#" +:+ b) = Some (owner +:+ "/" +:+ repo, b)) as ->; [|done].
      apply Str.split_once_Some. split; [by rewrite <- !Str.app_assoc|].
      by rewrite !Str.contains_char_app, Hoh, Hrh.
    - rewrite Str.app_nil_r. assert (Str.split_once "#" (owner +:+ "/" +:+ repo) = None) as ->; [|done].
      apply Str.split_once_None. by rewrite !Str.contains_char_app, Hoh, Hrh. }
  assert (forall g, default g (Str.strip_prefix GITHUB g) = r -> parse_github_ref g = Ok (owner, repo, branch)) as Hp.
  { intros g Hg. unfold parse_github_ref. rewrite Hg, Honce. rewrite Hsplit.
    by destruct owner, repo. }
  split.
  - apply Hp. assert (Str.strip_prefix GITHUB (GITHUB +:+ r) = Some r) as -> by (by apply Str.strip_prefix_Some). done.
  - intros Hs. apply Hp. unfold Str.starts_with in Hs. by destruct (Str.strip_prefix GITHUB r).
Qed.

Example explicit_main_falls_back :
  (download_and_extract [RootDir] (fun _ => true)
    (fun url => Ok (if String.eqb url (archive_url "u" "r" "master")
                    then {| status := 200; bytes := Ok "zip" |} else {| status := 404; bytes := Ok EmptyString |}))
    (fun _ => Ok [{| z_name := "r-master/a.txt"; mangled_name := [Normal "r-master"; Normal "a.txt"]; z_data := Ok "A" |}])
    (fun l => l) 7 "u" "r" (Some "main") [Normal "app"]
    {| files := ∅; dirs := {[ [RootDir] ]} |}).2 =
  {| files := {[ [RootDir; Normal "app"; Normal "a.txt"] := "A" ]};
     dirs := {[ [RootDir]; [RootDir; Normal "app"] ]} |}.
Proof. vm_compute. reflexivity. Qed.
