(* ===== verification/StaticCmd.v ===== *)
(** StaticCmd: [mik static], of [src/src/commands/static_cmd.rs]: the static
    files of the dependencies and of the project, collected into one
    directory. *)

From S2P Require Import Prelude StdPath HostAllow LbServer Json ManifestTypes HostConfig Fs.

#[local] Open Scope Z_scope.
#[local] Open Scope fs_scope.

Definition NUL : ascii := "000".

Definition sanitize_project_name (name : string) : result string (list string) :=
  if Str.is_empty name then Err ["Project name cannot be empty"]
  else if (Str.contains_char Str.SLASH name || Str.contains_char "\" name)%bool
  then Err ["Project name '" +:+ name +:+ "' contains path separators"]
  else if (String.eqb name "." || String.eqb name "..")%bool then Err ["Project name cannot be '.' or '..'"]
  else if Str.contains_char NUL name then Err ["Project name contains null bytes"]
  else Ok name.

Definition DEFAULT_OUTPUT_DIR : string := "collected-static".
Definition STATIC_CANDIDATES : list string := ["static"; "dist"; "build"; "public"; "frontend/dist"; "web/dist"].

Section Static.
Variable cwd : Path.
Variable writable : Path -> bool.
Variable order : list string -> list string.

(** Without links, the canonical path of what exists is its key. *)
Definition is_same_path (a b : Path) (fs : Fs) : bool :=
  if (exists_ cwd a fs && exists_ cwd b fs)%bool then bool_decide (key cwd a = key cwd b)
  else String.eqb (to_str a) (to_str b).

Definition find_first_static_dir (base exclude : Path) (fs : Fs) : option Path :=
  find (fun p => is_dir cwd p fs && negb (is_same_path p exclude fs))
    ((fun c => join base (components c)) <$> STATIC_CANDIDATES).

Definition find_local_static (exclude : Path) (fs : Fs) : option Path := find_first_static_dir [CurDir] exclude fs.

Definition find_module_static (name : string) (exclude : Path) (fs : Fs) : option Path :=
  let static_path := join (join [Normal "modules"] (components name)) [Normal "static"] in
  if (is_dir cwd static_path fs && negb (is_same_path static_path exclude fs))%bool then Some static_path else None.

Definition find_dependency_static (name : string) (dep : Dependency) (exclude : Path) (fs : Fs) : option Path :=
  match dep with
  | Simple _ => find_module_static name exclude fs
  | Detailed d =>
      match (match path d with Some p => find_first_static_dir (components p) exclude fs | None => None end) with
      | Some found => Some found
      | None => match registry d with Some _ => find_module_static name exclude fs | None => None end
      end
  end.

(** [fuel] levels of directories *)
Fixpoint copy_dir_recursive (fuel : nat) (src dest exclude : Path) : M unit := fun fs =>
  if negb (is_dir cwd src fs) then (Ok tt, fs)
  else if is_same_path src exclude fs then (Ok tt, fs)
  else
    (create_dir_all cwd writable dest ;;
     do names <- read_dir cwd order src;
     each names (fun n fs =>
       let path := join src [Normal n] in
       let dest_path := join dest [Normal n] in
       if is_same_path path exclude fs then (Ok tt, fs)
       else if is_dir cwd path fs
       then match fuel with
            | O => (Ok tt, fs)
            | S fuel => copy_dir_recursive fuel path dest_path exclude fs
            end
       else copy cwd writable path dest_path fs)) fs.

(** No directory is deeper than there are directories. *)
Definition copy_dir (src dest exclude : Path) : M unit := fun fs =>
  copy_dir_recursive (size (dirs fs)) src dest exclude fs.

(** The loop over the dependencies; the number of folders collected. *)
Fixpoint collect_dependencies (output : Path) (deps : list (string * Dependency)) (collected : Z) : M Z :=
  match deps with
  | [] => ret collected
  | (name, dep) :: deps =>
      do safe_name <- context ("Invalid dependency name: " +:+ name) (lift (sanitize_project_name name));
      (fun fs =>
         match find_dependency_static name dep output fs with
         | Some static_path =>
             (copy_dir static_path (join output (components safe_name)) output ;;
              collect_dependencies output deps (collected + 1)) fs
         | None => collect_dependencies output deps collected fs
         end)
  end.

Definition execute (manifest : result Manifest (list string)) (output_dir : option string) : M Z :=
  do m <- context "No mik.toml found. Run 'mik init' first." (lift manifest);
  let output_path := components (default DEFAULT_OUTPUT_DIR output_dir) in
  create_dir_all cwd writable output_path ;;
  do collected <- collect_dependencies output_path (dependencies m) 0;
  let name := project_name (project m) in
  do safe_project_name <- context ("Invalid project name: " +:+ name) (lift (sanitize_project_name name));
  (fun fs =>
     match find_local_static output_path fs with
     | Some local_static =>
         (copy_dir local_static (join output_path (components safe_project_name)) output_path ;;
          ret (collected + 1)) fs
     | None => (Ok collected, fs)
     end).
End Static.

(** ** Lemmas: the copy of a tree *)

Section Copy.
Variable cwd : Path.
Variable writable : Path -> bool.
Variable order : list string -> list string.
Hypothesis order_permutes : forall l, order l ≡ₚ l.
(** The tree at the start, and the key of the directory that is left out *)
Variable fs0 : Fs.
Hypothesis fs0_ok : tree_ok fs0.
Variable exclude : Path.
Let X := key cwd exclude.
Hypothesis output_in : forall q, q <> [] -> below X q -> q ∈ dirs fs0.

(** What happens stays below the output directory, which is there. *)
Record confined (fs : Fs) : Prop := {
  same_files : forall q, ~ below q X -> files fs !! q = files fs0 !! q;
  same_dirs : forall q, ~ below q X -> q ∈ dirs fs <-> q ∈ dirs fs0;
  output_there : forall q, below X q -> q <> [] -> q ∈ dirs fs;
  dirs_kept : dirs fs0 ⊆ dirs fs;
}.

(** The file [D/rel] is the copy of [K/rel] that is to be made. *)
Definition to_copy (K : Path) (rel : Path) : option string :=
  if decide (below (K ++ rel) X) then None else files fs0 !! (K ++ rel).

Lemma below_prefix q n base : below (q ++ [n]) base -> q ++ [n] <> base -> below q base.
Proof.
  intros [rest E] Hne. destruct rest as [|r rest _] using rev_ind; [by rewrite app_nil_r in E|].
  rewrite app_assoc in E. apply app_inj_2 in E as [-> _]; [|done]. by exists rest.
Qed.

Lemma confined_exists p fs : confined fs -> key cwd p <> [] -> ~ below (key cwd p) X ->
  is_dir cwd p fs = is_dir cwd p fs0.
Proof.
  intros Hc Hne Hb. unfold is_dir. apply bool_decide_ext. exact (same_dirs _ Hc _ Hb).
Qed.

Lemma exclude_exists fs : confined fs -> X <> [] -> exists_ cwd exclude fs = true.
Proof.
  intros Hc Hne. unfold exists_, is_dir. apply orb_true_iff. right. apply bool_decide_eq_true.
  apply (output_there _ Hc); [by exists []; rewrite app_nil_r|done].
Qed.

Lemma confined_put D rel data fs : confined fs -> below (key cwd D) X -> key cwd D = rel ->
  confined (put cwd D data fs).
Proof.
  intros Hc Hb <-. split.
  - intros q Hq. cbn. rewrite lookup_insert_ne; [by apply (same_files _ Hc)|]. by intros <-.
  - intros q Hq. by apply (same_dirs _ Hc).
  - intros q Hq. by apply (output_there _ Hc).
  - exact (dirs_kept _ Hc).
Qed.

Lemma prefixes_spec p q : q ∈ prefixes p <-> q <> [] /\ below p q.
Proof.
  unfold prefixes. rewrite list_elem_of_fmap. split.
  - intros (i & -> & Hi%elem_of_seq). split; [destruct p; cbn in *; [lia|by destruct i; [lia|]]|].
    exists (drop i p). by rewrite take_drop.
  - intros [Hne [rest ->]]. exists (length q). split; [by rewrite take_app_length|].
    apply elem_of_seq. rewrite length_app. destruct q; [done|]. cbn. lia.
Qed.

Lemma below_total a b q : below q a -> below q b -> below a b \/ below b a.
Proof.
  intros [r ->] [s E]. apply app_eq_inv in E as [(k & -> & _)|(k & -> & _)]; [left|right]; by exists k.
Qed.

Lemma confined_create D fs fs' : confined fs -> below (key cwd D) X ->
  create_dir_all cwd writable D fs = (Ok tt, fs') -> confined fs'.
Proof.
  intros Hc Hb H. unfold create_dir_all in H. destruct (existsb _ _); [done|]. destruct (forallb _ _); [|done].
  injection H as <-. split.
  - exact (same_files _ Hc).
  - intros q Hq. cbn. rewrite elem_of_union, elem_of_list_to_set, prefixes_spec. rewrite <- (same_dirs _ Hc q Hq).
    split; [|by right]. intros [[Hne Hd]|?]; [|done].
    destruct (below_total _ _ _ Hb Hd) as [Hx|Hx]; [|done]. by apply (output_there _ Hc).
  - intros q Hx Hne. cbn. apply elem_of_union. right. by apply (output_there _ Hc).
  - pose proof (dirs_kept _ Hc). cbn. set_solver.
Qed.

(** What copying the part [P] of the tree at [K] to [D] does. *)
Record copies (P : Path -> Prop) (K D : Path) (fs fs' : Fs) : Prop := {
  copies_confined : confined fs';
  copies_made : forall rel b, P rel -> to_copy K rel = Some b -> files fs' !! (D ++ rel) = Some b;
  copies_only : forall q, (forall rel, P rel -> q = D ++ rel -> to_copy K rel = None) -> files fs' !! q = files fs !! q;
}.

Lemma copies_nothing (P : Path -> Prop) K D fs : confined fs -> (forall rel, P rel -> to_copy K rel = None) -> copies P K D fs fs.
Proof. intros Hc Hn. split; [done| |done]. intros rel b Hp Hs. rewrite Hn in Hs; done. Qed.

Lemma copies_trans (P1 P2 P : Path -> Prop) K D fs fs1 fs2 :
  copies P1 K D fs fs1 -> copies P2 K D fs1 fs2 -> (forall rel, P1 rel -> P2 rel -> False) ->
  (forall rel, P rel <-> P1 rel \/ P2 rel) -> copies P K D fs fs2.
Proof.
  intros H1 H2 Hd HP. split.
  - exact (copies_confined _ _ _ _ _ H2).
  - intros rel b [Hp|Hp]%HP Hs; [|by apply (copies_made _ _ _ _ _ H2)].
    rewrite (copies_only _ _ _ _ _ H2); [by apply (copies_made _ _ _ _ _ H1)|].
    intros rel' Hp' ->%app_inv_head. exfalso. eauto.
  - intros q Hq. rewrite (copies_only _ _ _ _ _ H2), (copies_only _ _ _ _ _ H1); [done|..];
      intros rel Hp E; apply Hq; auto; apply HP; auto.
Qed.

(** The part of the tree that lies below one name *)
Definition under (n : string) (rel : Path) : Prop := exists r, rel = Normal n :: r.

Lemma to_copy_child K n r : to_copy (K ++ [Normal n]) r = to_copy K (Normal n :: r).
Proof. unfold to_copy. by rewrite <- app_assoc. Qed.

Lemma copies_child n K D fs fs' :
  copies (fun _ => True) (K ++ [Normal n]) (D ++ [Normal n]) fs fs' -> copies (under n) K D fs fs'.
Proof.
  intros H. split.
  - exact (copies_confined _ _ _ _ _ H).
  - intros rel b [r ->] Hs. rewrite <- to_copy_child in Hs. apply (copies_made _ _ _ _ _ H) in Hs; [|done].
    by rewrite <- app_assoc in Hs.
  - intros q Hq. apply (copies_only _ _ _ _ _ H). intros r _ ->. rewrite to_copy_child.
    apply Hq; [by exists r|]. by rewrite <- app_assoc.
Qed.

Lemma same_as_exclude p fs : X <> [] -> confined fs -> exists_ cwd p fs = true ->
  is_same_path cwd p exclude fs = bool_decide (key cwd p = X).
Proof. intros HX Hc Hp. unfold is_same_path. by rewrite Hp, (exclude_exists fs Hc HX). Qed.

Lemma exists_key p fs : exists_ cwd p fs = true <-> key cwd p ∈ dirs fs \/ is_Some (files fs !! key cwd p).
Proof. unfold exists_, is_file, is_dir. rewrite orb_true_iff, !bool_decide_eq_true. tauto. Qed.

(** The entries of a directory are those it had at the start. *)
Definition entry0 (K : Path) (n : string) : Prop :=
  K ++ [Normal n] ∈ dirs fs0 \/ is_Some (files fs0 !! (K ++ [Normal n])).

Lemma entries_at_start src n fs : key cwd src <> [] -> confined fs -> ~ below (key cwd src) X ->
  n ∈ entries cwd src fs -> entry0 (key cwd src) n.
Proof.
  intros Hne Hc Hk Hn. set (K := key cwd src) in *. apply elem_of_fs_entries in Hn as [rest Hn]. fold K in Hn.
  assert (forall k, X = K ++ [Normal n] ++ k -> entry0 K n) as Hup.
  { intros k E. left. apply output_in; [by destruct K|]. exists k. by rewrite E, <- app_assoc. }
  destruct (decide (below (K ++ Normal n :: rest) X)) as [[s Hs]|Hx].
  - destruct (decide (below (K ++ [Normal n]) X)) as [Hb|Hb].
    + apply (Hup []). destruct (decide (K ++ [Normal n] = X)); [done|]. by apply below_prefix in Hb.
    + change (K ++ Normal n :: rest) with (K ++ [Normal n] ++ rest) in Hs. rewrite app_assoc in Hs.
      apply app_eq_inv in Hs as [(k & E & _)|(k & E & _)]; [by destruct Hb; exists k|].
      apply (Hup k). by rewrite E, <- app_assoc.
  - rewrite (same_dirs _ Hc _ Hx), (same_files _ Hc _ Hx) in Hn.
    destruct rest as [|c rest]; [exact Hn|]. left.
    apply (tree_parents _ fs0_ok _ c rest); [by destruct K|]. by rewrite <- app_assoc.
Qed.

Lemma entry0_exists K n p fs : confined fs -> key cwd p = K ++ [Normal n] -> K <> [] -> ~ below K X -> entry0 K n ->
  exists_ cwd p fs = true.
Proof.
  intros Hc Hp Hne Hk He. apply exists_key. rewrite Hp. destruct (decide (below (K ++ [Normal n]) X)) as [Hb|Hb].
  - assert (K ++ [Normal n] = X) as E by (destruct (decide (K ++ [Normal n] = X)); [done|]; by apply below_prefix in Hb).
    left. rewrite E. apply (output_there _ Hc); [by exists []; rewrite app_nil_r|]. rewrite <- E. by destruct K.
  - by rewrite (same_dirs _ Hc _ Hb), (same_files _ Hc _ Hb).
Qed.

(** One entry of a directory *)
Lemma copy_entry src dest n fs fs' (child : M unit) :
  X <> [] -> key cwd src <> [] -> confined fs -> ~ below (key cwd src) X -> below (key cwd dest) X ->
  entry0 (key cwd src) n ->
  (key cwd src ++ [Normal n] ∈ dirs fs0 -> ~ below (key cwd src ++ [Normal n]) X -> child fs = (Ok tt, fs') ->
   copies (fun _ => True) (key cwd src ++ [Normal n]) (key cwd dest ++ [Normal n]) fs fs') ->
  (if is_same_path cwd (join src [Normal n]) exclude fs then (Ok tt, fs)
   else if is_dir cwd (join src [Normal n]) fs then child fs
   else copy cwd writable (join src [Normal n]) (join dest [Normal n]) fs) = (Ok tt, fs') ->
  copies (under n) (key cwd src) (key cwd dest) fs fs'.
Proof.
  intros HX Hne Hc Hk Hd Hn Hchild H.
  rewrite same_as_exclude in H; [|done|done|apply (entry0_exists (key cwd src) n); [done|apply key_child|done..]].
  rewrite key_child in H. set (K := key cwd src) in *. set (D := key cwd dest) in *. case_bool_decide as HPX.
  - injection H as <-. apply copies_nothing; [done|]. intros rel [r ->]. unfold to_copy. rewrite decide_True; [done|].
    rewrite <- HPX. exists r. by rewrite <- app_assoc.
  - assert (~ below (K ++ [Normal n]) X) as Hb by (by intros Hb%below_prefix).
    unfold is_dir in H. rewrite key_child in H. fold K in H. case_bool_decide as Hdir.
    + apply copies_child, Hchild; [by apply (same_dirs _ Hc)|done|done].
    + assert (K ++ [Normal n] ∉ dirs fs0) as Hnd by (by rewrite <- (same_dirs _ Hc _ Hb)).
      apply copy_Ok in H as (b & Hfb & ->). rewrite key_child in Hfb. fold K in Hfb.
      rewrite (same_files _ Hc _ Hb) in Hfb.
      assert (key cwd (join dest [Normal n]) = D ++ [Normal n]) as HD by apply key_child.
      assert (below (D ++ [Normal n]) X) as HDX by (by apply below_app).
      assert (key cwd (join src [Normal n]) <> key cwd (join dest [Normal n])) as Hsd
        by (rewrite HD, key_child; fold K; intros E; by rewrite E in Hb).
      rewrite (copied_ne _ _ _ _ Hsd).
      split.
      * eapply confined_put; [done|by rewrite HD|done].
      * intros rel b' [r ->] Hs. unfold to_copy in Hs. case_decide; [done|]. destruct r as [|c r].
        -- rewrite Hfb in Hs. injection Hs as ->. cbn [app]. rewrite <- HD. apply put_lookup.
        -- exfalso. apply Hnd, (tree_parents _ fs0_ok _ c r); [by destruct K|]. right. rewrite <- app_assoc. by exists b'.
      * intros q Hq. unfold put. cbn [files]. rewrite lookup_insert_ne; [done|]. rewrite HD. intros <-.
        specialize (Hq [Normal n] ltac:(by exists []) eq_refl). unfold to_copy in Hq. rewrite decide_False in Hq by done. congruence.
Qed.

(** A list of entries, each by its own step *)
Lemma copy_entries K D (step : string -> M unit) l : NoDup l ->
  (forall n fs fs', n ∈ l -> confined fs -> step n fs = (Ok tt, fs') -> copies (under n) K D fs fs') ->
  forall fs fs', confined fs -> each l step fs = (Ok tt, fs') ->
  copies (fun rel => exists n, n ∈ l /\ under n rel) K D fs fs'.
Proof.
  intros Hnd Hstep. induction Hnd as [|n l Hn _ IH]; intros fs fs' Hc H.
  - injection H as <-. apply copies_nothing; [done|]. by intros rel (n & Hin%not_elem_of_nil & _).
  - cbn [each] in H. apply bind_Ok in H as ([] & fs1 & H1 & H2).
    apply Hstep in H1; [|by apply elem_of_cons; left|done].
    apply IH in H2; [|intros; eapply Hstep; [by apply elem_of_cons; right|done..]|exact (copies_confined _ _ _ _ _ H1)].
    eapply copies_trans; [exact H1|exact H2|..].
    + intros rel [r ->] (m & Hm & [r' [= -> _]]). done.
    + intros rel. split.
      * intros (m & [->|Hm]%elem_of_cons & Hu); [by left|right; by exists m].
      * intros [Hu|(m & Hm & Hu)]; [exists n|exists m]; (split; [apply elem_of_cons; by auto|done]).
Qed.

Lemma copy_rec fuel : forall src dest fs fs',
  X <> [] -> key cwd src <> [] -> confined fs -> key cwd src ∈ dirs fs0 -> ~ below (key cwd src) X ->
  below (key cwd dest) X -> (forall rel, key cwd src ++ rel ∈ dirs fs0 -> (length rel <= fuel)%nat) ->
  copy_dir_recursive cwd writable order fuel src dest exclude fs = (Ok tt, fs') ->
  copies (fun _ => True) (key cwd src) (key cwd dest) fs fs'.
Proof.
  induction fuel as [fuel IH] using lt_wf_ind. intros src dest fs fs' HX Hne Hc Hdir Hk Hd Hfuel H.
  assert (is_dir cwd src fs = true) as His by (apply bool_decide_eq_true; by apply (same_dirs _ Hc)).
  assert (is_same_path cwd src exclude fs = false) as Hns.
  { rewrite same_as_exclude; [|done|done|unfold exists_; by rewrite His, orb_true_r].
    apply bool_decide_eq_false. intros E. apply Hk. exists []. by rewrite app_nil_r. }
  set (child := fun n => match fuel with
          | O => (fun fs => (Ok tt, fs)) : M unit
          | S fuel => copy_dir_recursive cwd writable order fuel (join src [Normal n]) (join dest [Normal n]) exclude
          end).
  set (step := fun n fs => if is_same_path cwd (join src [Normal n]) exclude fs then (Ok tt, fs)
     else if is_dir cwd (join src [Normal n]) fs then child n fs
     else copy cwd writable (join src [Normal n]) (join dest [Normal n]) fs).
  assert ((bind (create_dir_all cwd writable dest) (fun _ =>
            bind (read_dir cwd order src) (fun names => each names step))) fs = (Ok tt, fs')) as H'
    by (destruct fuel; cbn [copy_dir_recursive] in H; rewrite His, Hns in H; exact H).
  clear H. apply bind_Ok in H' as ([] & fs1 & Hcr & H).
  pose proof (confined_create _ _ _ Hc Hd Hcr) as Hc1. pose proof (create_dir_all_Ok _ _ _ _ _ Hcr) as [Hf1 _].
  apply bind_Ok in H as (names & fs2 & Hr & H). unfold read_dir in Hr.
  destruct (is_dir cwd src fs1); [|done]. injection Hr as <- <-.
  apply (copy_entries (key cwd src) (key cwd dest)) in H; [| |intros n fsa fsb Hn Hca Hs|done].
  - split.
    + exact (copies_confined _ _ _ _ _ H).
    + intros rel b _ Hs. apply (copies_made _ _ _ _ _ H); [|done]. unfold to_copy in Hs. case_decide as Hb; [done|].
      destruct rel as [|c rel]; [rewrite app_nil_r in Hs; by rewrite (tree_apart _ fs0_ok) in Hs|].
      destruct (tree_names _ fs0_ok (key cwd src) c rel Hne ltac:(right; by exists b)) as [n ->].
      exists n. split; [|by exists rel]. rewrite order_permutes. apply elem_of_fs_entries. exists rel. right.
      rewrite (same_files _ Hc1 _ Hb). by exists b.
    + intros q Hq. rewrite (copies_only _ _ _ _ _ H); [by rewrite Hf1|]. intros rel _ E. by apply Hq.
  - rewrite order_permutes. apply NoDup_entries.
  - rewrite order_permutes in Hn. apply entries_at_start in Hn; [|done..].
    eapply (copy_entry src dest n fsa fsb (child n)); [done..| |exact Hs].
    intros Hp Hb Hch. unfold child in Hch. destruct fuel as [|fuel]; [apply Hfuel in Hp; cbn in Hp; lia|].
    pose proof (IH fuel ltac:(lia) (join src [Normal n]) (join dest [Normal n]) fsa fsb HX) as Hi. rewrite !key_child in Hi.
    apply Hi; [by destruct (key cwd src)|done|done|done|by apply below_app| |exact Hch].
    intros rel Hrel. rewrite <- app_assoc in Hrel. apply Hfuel in Hrel. cbn in Hrel. lia.
Qed.

(** *** Several folders *)

Lemma confined_start : confined fs0.
Proof. split; [done|done| |done]. intros q Hb Hq. by apply output_in. Qed.

(** The folders [sources], each under its name, and nothing else *)
Record gathered (sources : list (Path * string)) (fs : Fs) : Prop := {
  gathered_confined : confined fs;
  gathered_made : forall src name rel b, (src, name) ∈ sources -> to_copy (key cwd src) rel = Some b ->
    files fs !! (X ++ Normal name :: rel) = Some b;
  gathered_only : forall q, (forall src name rel, (src, name) ∈ sources -> q = X ++ Normal name :: rel ->
    to_copy (key cwd src) rel = None) -> files fs !! q = files fs0 !! q;
}.

Lemma gathered_nil : gathered [] fs0.
Proof. split; [exact confined_start| |done]. by intros src name rel b Hin%not_elem_of_nil. Qed.

Lemma gathered_snoc sources src name fs fs' : gathered sources fs -> name ∉ sources.*2 ->
  copies (fun _ => True) (key cwd src) (X ++ [Normal name]) fs fs' -> gathered (sources ++ [(src, name)]) fs'.
Proof.
  intros Hg Hn Hc. split.
  - exact (copies_confined _ _ _ _ _ Hc).
  - intros s n rel b [Hin|Hin%list_elem_of_singleton]%elem_of_app Hs.
    + rewrite (copies_only _ _ _ _ _ Hc); [by eapply gathered_made|]. intros rel' _ E. rewrite <- app_assoc in E.
      apply app_inv_head in E as [= -> _]. destruct Hn. apply list_elem_of_fmap. by exists (s, name).
    + injection Hin as -> ->. apply (copies_made _ _ _ _ _ Hc) in Hs; [|done]. by rewrite <- app_assoc in Hs.
  - intros q Hq. rewrite (copies_only _ _ _ _ _ Hc).
    + apply (gathered_only _ _ Hg). intros s n rel Hin. apply Hq, elem_of_app. by left.
    + intros rel _ ->. apply (Hq src name rel); [apply elem_of_app; right; by apply list_elem_of_singleton|].
      by rewrite <- app_assoc.
Qed.

(** The candidates are outside the output directory. *)
Definition apart (p : Path) : Prop := key cwd p <> [] /\ ~ below (key cwd p) X.

Definition candidates (base : Path) : list Path := (fun c => join base (components c)) <$> STATIC_CANDIDATES.
Definition module_candidate (name : string) : Path := join (join [Normal "modules"] (components name)) [Normal "static"].
Definition dependency_candidates (d : string * Dependency) : list Path :=
  module_candidate d.1 :: match d.2 with
                          | Detailed dd => match path dd with Some p => candidates (components p) | None => [] end
                          | Simple _ => []
                          end.

Lemma apart_dir p fs : confined fs -> apart p -> is_dir cwd p fs = is_dir cwd p fs0.
Proof. intros Hc [Hne Hb]. exact (confined_exists p fs Hc Hne Hb). Qed.

Lemma candidate_test p fs : X <> [] -> confined fs -> apart p ->
  (is_dir cwd p fs && negb (is_same_path cwd p exclude fs))%bool = is_dir cwd p fs0.
Proof.
  intros HX Hc Ha. rewrite <- (apart_dir p fs Hc Ha). destruct (is_dir cwd p fs) eqn:E; [|done].
  rewrite same_as_exclude; [|done|done|unfold exists_; by rewrite E, orb_true_r].
  rewrite bool_decide_false; [done|]. intros Hk. destruct Ha as [_ Hb]. apply Hb. exists []. by rewrite app_nil_r.
Qed.

Lemma find_first_stable base fs : X <> [] -> confined fs -> (forall p, p ∈ candidates base -> apart p) ->
  find_first_static_dir cwd base exclude fs = find (fun p => is_dir cwd p fs0) (candidates base).
Proof.
  intros HX Hc Ha. unfold find_first_static_dir. fold (candidates base). induction (candidates base) as [|p l IH]; [done|].
  cbn [find]. rewrite candidate_test; [|done|done|apply Ha, elem_of_cons; by left].
  destruct (is_dir cwd p fs0); [done|]. apply IH. intros q Hq. apply Ha, elem_of_cons. by right.
Qed.

Lemma find_module_stable name fs : X <> [] -> confined fs -> apart (module_candidate name) ->
  find_module_static cwd name exclude fs = if is_dir cwd (module_candidate name) fs0 then Some (module_candidate name) else None.
Proof. intros HX Hc Ha. unfold find_module_static. fold (module_candidate name). by rewrite candidate_test. Qed.

(** The static folder of a dependency at the start *)
Definition static_of (d : string * Dependency) : option Path := find_dependency_static cwd d.1 d.2 exclude fs0.

Lemma find_dependency_stable d fs : X <> [] -> confined fs -> (forall p, p ∈ dependency_candidates d -> apart p) ->
  find_dependency_static cwd d.1 d.2 exclude fs = static_of d.
Proof.
  intros HX Hc Ha. unfold static_of, find_dependency_static. pose proof confined_start as H0.
  assert (apart (module_candidate d.1)) as Hm by (apply Ha, elem_of_cons; by left).
  destruct d as [name [v|dd]]; cbn [fst snd] in *; [by rewrite !find_module_stable|].
  rewrite !find_module_stable by done. destruct (path dd) as [p|] eqn:Ep; [|done].
  assert (forall q, q ∈ candidates (components p) -> apart q) as Hq.
  { intros q Hq. apply Ha. unfold dependency_candidates. cbn. rewrite Ep. apply elem_of_cons. by right. }
  by rewrite !find_first_stable.
Qed.

Lemma copy_dir_copies src dest fs fs' : X <> [] -> key cwd src <> [] -> confined fs -> key cwd src ∈ dirs fs0 ->
  ~ below (key cwd src) X -> below (key cwd dest) X ->
  copy_dir cwd writable order src dest exclude fs = (Ok tt, fs') ->
  copies (fun _ => True) (key cwd src) (key cwd dest) fs fs'.
Proof.
  intros HX Hne Hc Hd Hk Hdest H. eapply copy_rec; [done..| |exact H].
  intros rel Hr%tree_depth; [|done..]. pose proof (subseteq_size _ _ (dirs_kept _ Hc)). lia.
Qed.

Lemma sanitize_plain name n : sanitize_project_name name = Ok n -> n = name /\ plain name.
Proof.
  unfold sanitize_project_name. destruct (Str.is_empty name) eqn:E1; [done|].
  destruct (Str.contains_char Str.SLASH name) eqn:E2; [done|].
  destruct (Str.contains_char "\" name); [done|]. cbn [orb].
  destruct (String.eqb_spec name "."); [done|]. destruct (String.eqb_spec name ".."); [done|]. cbn [orb].
  destruct (Str.contains_char NUL name); [done|]. intros [= <-]. split; [done|]. by split_and!; [destruct name|..].
Qed.

Lemma plain_components n : plain n -> components n = [Normal n].
Proof. intros Hn. exact (components_to_str [n] ltac:(done) ltac:(by constructor)). Qed.

Lemma key_output name : plain name -> key cwd (join exclude (components name)) = X ++ [Normal name].
Proof. intros Hn. rewrite plain_components by done. apply key_child. Qed.

Lemma below_output name : below (X ++ [Normal name]) X.
Proof. by exists [Normal name]. Qed.

(** A folder that was found is copied under its name. *)
Lemma gather_one sources src name fs fs' : X <> [] -> gathered sources fs -> name ∉ sources.*2 -> plain name ->
  apart src -> is_dir cwd src fs0 = true ->
  copy_dir cwd writable order src (join exclude (components name)) exclude fs = (Ok tt, fs') ->
  gathered (sources ++ [(src, name)]) fs'.
Proof.
  intros HX Hg Hn Hp [Hne Hb] Hd H. eapply gathered_snoc; [done..|].
  rewrite <- key_output by done. apply bool_decide_eq_true in Hd.
  eapply copy_dir_copies in H; [exact H|done|done|exact (gathered_confined _ _ Hg)|done|done|].
  rewrite key_output by done. apply below_output.
Qed.

Lemma find_dir base p : find (fun p => is_dir cwd p fs0) (candidates base) = Some p ->
  p ∈ candidates base /\ is_dir cwd p fs0 = true.
Proof. intros H. apply find_some in H as [H1 H2]. split; [by apply list_elem_of_In|done]. Qed.

Lemma static_of_dir d src : X <> [] -> (forall p, p ∈ dependency_candidates d -> apart p) -> static_of d = Some src ->
  apart src /\ is_dir cwd src fs0 = true.
Proof.
  intros HX Ha H. pose proof confined_start as H0. unfold static_of, find_dependency_static in H.
  assert (apart (module_candidate d.1)) as Hm by (apply Ha, elem_of_cons; by left).
  assert (find_module_static cwd d.1 exclude fs0 = Some src -> apart src /\ is_dir cwd src fs0 = true) as Hmod.
  { rewrite find_module_stable by done. destruct (is_dir cwd _ fs0) eqn:E; [|done]. intros [= <-]. done. }
  destruct d as [name [v|dd]]; cbn [fst snd] in *; [by apply Hmod|].
  destruct (path dd) as [p|] eqn:Ep; [|by destruct (registry dd); [apply Hmod|]].
  assert (forall q, q ∈ candidates (components p) -> apart q) as Hq.
  { intros q Hq. apply Ha. unfold dependency_candidates. cbn. rewrite Ep. apply elem_of_cons. by right. }
  rewrite find_first_stable in H by done. destruct (find _ _) as [q|] eqn:Ef; [|by destruct (registry dd); [apply Hmod|]].
  injection H as ->. apply find_dir in Ef as [Ef1 Ef2]. split; [by apply Hq|done].
Qed.

(** The sources among some dependencies *)
Definition sources_of (deps : list (string * Dependency)) : list (Path * string) :=
  omap (fun d => (fun src => (src, d.1)) <$> static_of d) deps.

Lemma sources_of_names deps name : name ∈ (sources_of deps).*2 -> name ∈ deps.*1.
Proof.
  intros Hn. apply list_elem_of_fmap in Hn as ([src n] & -> & Hin). apply list_elem_of_omap in Hin as (d & Hd & E).
  destruct (static_of d); [|done]. injection E as _ <-. apply list_elem_of_fmap. by exists d.
Qed.

Lemma collect_gathers deps : forall done_ collected fs n fs', X <> [] ->
  (forall d p, d ∈ deps -> p ∈ dependency_candidates d -> apart p) ->
  NoDup (done_.*2 ++ deps.*1) -> gathered done_ fs ->
  collect_dependencies cwd writable order exclude deps collected fs = (Ok n, fs') ->
  gathered (done_ ++ sources_of deps) fs' /\ n = collected + Z.of_nat (length (sources_of deps)).
Proof.
  induction deps as [|[name dep] deps IH]; intros done_ collected fs n fs' HX Ha Hnd Hg H.
  { cbn in H. injection H as <- <-. rewrite app_nil_r. split; [done|]. cbn. lia. }
  cbn [collect_dependencies] in H. apply bind_Ok in H as (safe & fs1 & Hs & H). apply context_Ok in Hs.
  injection Hs as Hs <-. apply sanitize_plain in Hs as [-> Hp].
  assert (forall p, p ∈ dependency_candidates (name, dep) -> apart p) as Ha1
    by (intros p Hin; eapply Ha; [apply elem_of_cons; by left|exact Hin]).
  assert (forall d p, d ∈ deps -> p ∈ dependency_candidates d -> apart p) as Ha2
    by (intros d p Hin; apply Ha, elem_of_cons; by right).
  pose proof (find_dependency_stable (name, dep) fs HX (gathered_confined _ _ Hg) Ha1) as Hf. cbn [fst snd] in Hf.
  rewrite Hf in H. clear Hf. cbn [sources_of omap list_omap fst].
  rewrite fmap_cons in Hnd. cbn [fst] in Hnd.
  destruct (static_of (name, dep)) as [src|] eqn:Es; cbn [fmap option_fmap option_map].
  - apply bind_Ok in H as ([] & fs2 & Hc & H). destruct (static_of_dir _ _ HX Ha1 Es) as [Hap Hdir].
    apply NoDup_app in Hnd as (N1 & N2 & N3). apply NoDup_cons in N3 as [N3 N4].
    apply (gather_one done_) in Hc; [|done|done|intros Hin; eapply N2; [done|apply elem_of_cons; by left]|done|done|done].
    apply (IH (done_ ++ [(src, name)])) in H as [H ->]; [|done|done| |done].
    + split; [|cbn [length]; fold (sources_of deps); lia]. by rewrite <- app_assoc in H.
    + rewrite fmap_app. apply NoDup_app. split; [|split; [|done]].
      * apply NoDup_app. split; [done|]. split; [|apply NoDup_singleton].
        intros x Hx ->%list_elem_of_singleton. eapply N2; [done|apply elem_of_cons; by left].
      * intros x [Hx|Hx%list_elem_of_singleton]%elem_of_app; [intros Hin; eapply N2; [done|apply elem_of_cons; by right]|].
        by rewrite Hx.
  - apply (IH done_) in H; [done|done|done| |done]. apply NoDup_app in Hnd as (N1 & N2 & N3). apply NoDup_cons in N3 as [_ N4].
    apply NoDup_app. split; [done|]. split; [|done]. intros x Hx Hin. eapply N2; [done|apply elem_of_cons; by right].
Qed.
End Copy.

(** *** Confinement, whatever the result *)

Section Confined.
Variable cwd : Path.
Variable writable : Path -> bool.
Variable order : list string -> list string.

(** Only files below [base] change. *)
Definition only_below {A} (base : Path) (m : M A) : Prop :=
  forall fs q, ~ below q base -> files (m fs).2 !! q = files fs !! q.

Lemma only_below_state {A} base (m : Fs -> M A) : (forall fs, only_below base (m fs)) -> only_below base (fun fs => m fs fs).
Proof. intros H fs q Hq. by apply H. Qed.

Lemma only_below_bind {A B} base (m : M A) (k : A -> M B) :
  only_below base m -> (forall a, only_below base (k a)) -> only_below base (bind m k).
Proof.
  intros Hm Hk fs q Hq. unfold bind. specialize (Hm fs q Hq). destruct (m fs) as [[a|e] fs1]; [|done].
  rewrite Hk by done. done.
Qed.

Lemma only_below_context {A} base msg (m : M A) : only_below base m -> only_below base (context msg m).
Proof. intros Hm fs q Hq. unfold context. specialize (Hm fs q Hq). by destruct (m fs) as [[a|e] fs1]. Qed.

Lemma only_below_ret {A} base (a : result A (list string)) : only_below base (lift a).
Proof. done. Qed.

Lemma only_below_mkdir base p : only_below base (create_dir_all cwd writable p).
Proof. intros fs q _. unfold create_dir_all. by repeat case_match. Qed.

Lemma only_below_copy base src dst : below (key cwd dst) base -> only_below base (copy cwd writable src dst).
Proof.
  intros Hd fs q Hq. unfold copy, bind, read, ok_or. destruct (files fs !! key cwd src) as [b|]; [|done].
  unfold write. repeat case_match; try done. cbn. rewrite lookup_insert_ne; [done|]. by intros <-.
Qed.

Lemma only_below_each {A} base (l : list A) (f : A -> M unit) : (forall x, only_below base (f x)) -> only_below base (each l f).
Proof. intros Hf. induction l as [|x l IH]; [done|]. cbn. by apply only_below_bind. Qed.

Lemma copy_dir_recursive_below fuel : forall src dest exclude base, below (key cwd dest) base ->
  only_below base (copy_dir_recursive cwd writable order fuel src dest exclude).
Proof.
  induction fuel as [fuel IH] using lt_wf_ind. intros src dest exclude base Hd fs q Hq.
  assert (forall names, only_below base (each names (fun n fs =>
       let path := join src [Normal n] in
       let dest_path := join dest [Normal n] in
       if is_same_path cwd path exclude fs then (Ok tt, fs)
       else if is_dir cwd path fs
       then match fuel with
            | O => (Ok tt, fs)
            | S fuel => copy_dir_recursive cwd writable order fuel path dest_path exclude fs
            end
       else copy cwd writable path dest_path fs))) as Heach.
  { intros names. apply only_below_each. intros n fs1 q1 Hq1. cbv zeta.
    destruct (is_same_path _ _ _ _); [done|]. destruct (is_dir _ _ _).
    - destruct fuel as [|fuel]; [done|]. eapply IH; [lia| |done]. rewrite key_child. by apply below_app.
    - refine (only_below_copy _ _ _ _ fs1 q1 Hq1). rewrite key_child. by apply below_app. }
  assert (only_below base (bind (create_dir_all cwd writable dest) (fun _ => bind (read_dir cwd order src) (fun names =>
    each names (fun n fs =>
       let path := join src [Normal n] in
       let dest_path := join dest [Normal n] in
       if is_same_path cwd path exclude fs then (Ok tt, fs)
       else if is_dir cwd path fs
       then match fuel with
            | O => (Ok tt, fs)
            | S fuel => copy_dir_recursive cwd writable order fuel path dest_path exclude fs
            end
       else copy cwd writable path dest_path fs))))) as Hall.
  { apply only_below_bind; [apply only_below_mkdir|]. intros _. apply only_below_bind; [|exact Heach].
    intros fs1 q1 _. unfold read_dir. by destruct (is_dir _ _ _). }
  destruct fuel; cbn [copy_dir_recursive]; (destruct (is_dir cwd src fs); [|done]); cbn [negb];
    (destruct (is_same_path cwd src exclude fs); [done|]); by apply Hall.
Qed.

Lemma copy_dir_below src dest exclude base : below (key cwd dest) base -> only_below base (copy_dir cwd writable order src dest exclude).
Proof. intros Hd fs q Hq. unfold copy_dir. exact (copy_dir_recursive_below _ _ _ _ base Hd fs q Hq). Qed.

Lemma collect_below output deps : forall collected,
  only_below (key cwd output) (collect_dependencies cwd writable order output deps collected).
Proof.
  induction deps as [|[name dep] deps IH]; intros collected; [done|]. cbn [collect_dependencies].
  intros fs q Hq. unfold bind at 1. unfold context, lift.
  destruct (sanitize_project_name name) as [safe|e] eqn:Es; [|done]. apply sanitize_plain in Es as [-> Hp].
  destruct (find_dependency_static cwd name dep output fs) as [src|]; [|exact (IH _ fs q Hq)].
  refine (only_below_bind _ _ _ _ _ fs q Hq); [|by intros _; apply IH].
  apply copy_dir_below. rewrite plain_components, key_child by done. by exists [Normal name].
Qed.
End Confined.

(** A directory without [..] *)
Definition named (p : Path) : Prop := forall q c rest, q <> [] -> p = q ++ c :: rest -> exists n, c = Normal n.

Lemma named_names p : forallb is_normal (drop 1 p) = true -> named p.
Proof.
  intros H q c rest Hq ->. rewrite forallb_forall in H. destruct q as [|x q]; [done|].
  specialize (H c ltac:(cbn; rewrite drop_0; apply in_app_iff; right; by left)). destruct c; try done. by eexists.
Qed.

Lemma create_tree_ok cwd writable p fs fs' : tree_ok fs -> named (key cwd p) -> key cwd p <> [] ->
  create_dir_all cwd writable p fs = (Ok tt, fs') ->
  tree_ok fs' /\ (forall q, q <> [] -> below (key cwd p) q -> q ∈ dirs fs').
Proof.
  intros Hok Hnm Hne H. unfold create_dir_all in H. destruct (existsb _ _) eqn:Ee; [done|].
  destruct (forallb _ _); [|done]. injection H as <-.
  assert (forall q, q ∈ prefixes (key cwd p) -> files fs !! q = None) as Hnf.
  { intros q Hq. destruct (files fs !! q) as [b|] eqn:Eb; [|done]. exfalso.
    assert (existsb (fun q => bool_decide (is_Some (files fs !! q))) (prefixes (key cwd p)) = true); [|congruence].
    apply existsb_exists. exists q. split; [by apply list_elem_of_In|]. apply bool_decide_eq_true. by rewrite Eb. }
  assert (forall q c rest, q <> [] -> q ++ c :: rest ∈ prefixes (key cwd p) ->
            q ∈ prefixes (key cwd p) /\ exists n, c = Normal n) as Hup.
  { intros q c rest Hq Hin. apply prefixes_spec in Hin as [_ [r Hr]]. rewrite <- app_assoc in Hr. cbn in Hr. split.
    - apply prefixes_spec. split; [done|]. by exists (c :: rest ++ r).
    - by eapply Hnm. }
  split; [split|]; cbn.
  - intros q c rest Hq [[Hin%elem_of_list_to_set|Hin]%elem_of_union|Hin].
    + apply elem_of_union. left. apply elem_of_list_to_set. by eapply Hup.
    + apply elem_of_union. right. apply (tree_parents _ Hok q c rest); auto.
    + apply elem_of_union. right. apply (tree_parents _ Hok q c rest); auto.
  - intros q c rest Hq [[Hin%elem_of_list_to_set|Hin]%elem_of_union|Hin].
    + by eapply Hup.
    + eapply (tree_names _ Hok q c rest); auto.
    + eapply (tree_names _ Hok q c rest); auto.
  - intros q [Hin%elem_of_list_to_set|Hin]%elem_of_union; [by apply Hnf|by apply (tree_apart _ Hok)].
  - intros q Hq Hb. apply elem_of_union. left. apply elem_of_list_to_set, prefixes_spec. done.
Qed.

(** ** Property *)

(** The folders there are to collect, with the names they get *)
Definition found_folders (cwd out : Path) (m : Manifest) (fs : Fs) : list (Path * string) :=
  omap (fun d => (fun src => (src, d.1)) <$> find_dependency_static cwd d.1 d.2 out fs) (dependencies m) ++
  match find_local_static cwd out fs with Some src => [(src, project_name (project m))] | None => [] end.

Definition all_candidates (m : Manifest) : list Path :=
  candidates [CurDir] ++ mjoin (dependency_candidates <$> dependencies m).

Lemma key_absolute cwd p : is_absolute cwd = true -> key cwd p <> [].
Proof.
  intros Ha. unfold key, join. destruct (is_absolute p) eqn:E.
  - by destruct p as [|[] p].
  - by destruct cwd as [|[] cwd].
Qed.

Lemma execute_below cwd writable order m output_dir :
  only_below (key cwd (components (default DEFAULT_OUTPUT_DIR output_dir))) (execute cwd writable order (Ok m) output_dir).
Proof.
  unfold execute. set (out := components (default DEFAULT_OUTPUT_DIR output_dir)).
  apply only_below_bind; [by apply only_below_context|]. intros m'.
  apply only_below_bind; [apply only_below_mkdir|]. intros _.
  apply only_below_bind; [apply collect_below|]. intros collected.
  intros fs q Hq. unfold bind at 1. unfold context, lift.
  destruct (sanitize_project_name _) as [safe|e] eqn:Es; [|done]. apply sanitize_plain in Es as [-> Hp].
  destruct (find_local_static cwd out fs) as [src|]; [|done].
  refine (only_below_bind (key cwd out) _ _ _ _ fs q Hq); [|done]. apply copy_dir_below.
  rewrite plain_components, key_child by done. by exists [Normal (project_name (project m'))].
Qed.

(** The last step: the folder of the project itself *)
Lemma local_gathers cwd writable order (Hord : forall l, order l ≡ₚ l) fs1 (Hok : tree_ok fs1) out m collected fs2 n fs' :
  let X := key cwd out in
  X <> [] -> (forall q, q <> [] -> below X q -> q ∈ dirs fs1) -> (forall p, p ∈ candidates [CurDir] -> apart cwd out p) ->
  project_name (project m) ∉ (dependencies m).*1 -> plain (project_name (project m)) ->
  gathered cwd fs1 out (sources_of cwd fs1 out (dependencies m)) fs2 ->
  match find_local_static cwd out fs2 with
  | Some src => bind (copy_dir cwd writable order src (join out (components (project_name (project m)))) out)
                  (fun _ => ret (collected + 1)) fs2
  | None => (Ok collected, fs2)
  end = (Ok n, fs') ->
  collected = Z.of_nat (length (sources_of cwd fs1 out (dependencies m))) ->
  gathered cwd fs1 out (found_folders cwd out m fs1) fs' /\ n = Z.of_nat (length (found_folders cwd out m fs1)).
Proof.
  intros X HX Hin Hloc Hname Hp Hg H ->. unfold found_folders. unfold find_local_static in *.
  rewrite (find_first_stable cwd fs1 out [CurDir] fs2 HX (gathered_confined _ _ _ _ _ Hg) Hloc) in H.
  rewrite (find_first_stable cwd fs1 out [CurDir] fs1 HX (confined_start _ _ _ Hin) Hloc).
  change (omap _ (dependencies m)) with (sources_of cwd fs1 out (dependencies m)).
  destruct (find _ (candidates [CurDir])) as [src|] eqn:Ef.
  - apply bind_Ok in H as ([] & fs4 & Hc & [= <- <-]). apply find_dir in Ef as [Ef1 Ef2].
    split; [|rewrite length_app; cbn [length]; lia].
    eapply (gather_one cwd writable order Hord fs1 Hok out Hin); [done|exact Hg| |done|by apply Hloc|done|exact Hc].
    by intros ?%sources_of_names.
  - injection H as <- <-. by rewrite app_nil_r.
Qed.

(** C24. Collecting static files. Whatever the result, no file outside the
    output directory changes, and the names of the folders in it cannot lead
    out of it. When the command succeeds, the names are distinct and no
    candidate lies in the output directory, every folder that was found is
    there completely, whatever its depth, file by file, except for what lies
    in the output directory itself; nothing else is written; and the number
    reported is that of the folders. *)
Theorem static_spec (cwd : Path) (writable : Path -> bool) (order : list string -> list string) (m : Manifest)
    (output_dir : option string) (fs fs' : Fs) (r : result Z (list string)) :
  is_absolute cwd = true -> (forall l, order l ≡ₚ l) -> tree_ok fs ->
  execute cwd writable order (Ok m) output_dir fs = (r, fs') ->
  let out := components (default DEFAULT_OUTPUT_DIR output_dir) in
  let X := key cwd out in
  (forall q, ~ below q X -> files fs' !! q = files fs !! q) /\
  (forall n fs1, r = Ok n -> create_dir_all cwd writable out fs = (Ok tt, fs1) -> named X ->
     NoDup ((dependencies m).*1 ++ [project_name (project m)]) ->
     (forall p, p ∈ all_candidates m -> ~ below (key cwd p) X) ->
     let folders := found_folders cwd out m fs1 in
     n = Z.of_nat (length folders) /\
     (forall src name rel b, (src, name) ∈ folders -> files fs !! (key cwd src ++ rel) = Some b ->
        ~ below (key cwd src ++ rel) X -> files fs' !! (X ++ Normal name :: rel) = Some b) /\
     (forall q, (forall src name rel b, (src, name) ∈ folders -> q = X ++ Normal name :: rel ->
                   files fs !! (key cwd src ++ rel) = Some b -> below (key cwd src ++ rel) X) ->
        files fs' !! q = files fs !! q)).
Proof.
  intros Habs Hord Hok H out X. unfold execute in H. fold out in H. split.
  - intros q Hq. pose proof (execute_below cwd writable order m output_dir fs q Hq) as Hb.
    unfold execute in Hb. fold out in Hb. by rewrite H in Hb.
  - intros n fs1 -> Hcr Hnm Hnd Hcand folders.
    assert (X <> []) as HX by (by apply key_absolute).
    destruct (create_tree_ok _ _ _ _ _ Hok Hnm HX Hcr) as [Hok1 Hin1].
    pose proof (create_dir_all_Ok _ _ _ _ _ Hcr) as [Hfiles _].
    apply bind_Ok in H as (m' & fs1' & Hm & H). apply context_Ok in Hm. injection Hm as <- <-.
    apply bind_Ok in H as ([] & fs1'' & Hcr' & H). rewrite Hcr in Hcr'. injection Hcr' as <-.
    apply bind_Ok in H as (collected & fs2 & Hcol & H).
    assert (forall p, p ∈ all_candidates m -> apart cwd out p) as Hap by (intros p Hp; split; [by apply key_absolute|by apply Hcand]).
    apply (collect_gathers cwd writable order Hord fs1 Hok1 out Hin1 _ []) in Hcol as [Hg ->]; [|done| | |].
    2: { intros d p Hd Hp. apply Hap, elem_of_app. right. apply list_elem_of_join. exists (dependency_candidates d).
         split; [done|]. apply list_elem_of_fmap. by exists d. }
    2: { by apply NoDup_app in Hnd as [? _]. }
    2: { by apply gathered_nil. }
    cbn [app] in Hg. apply bind_Ok in H as (safe & fs3 & Hs & H). apply context_Ok in Hs. injection Hs as Hs <-.
    apply sanitize_plain in Hs as [-> Hp].
    assert (gathered cwd fs1 out folders fs' /\ n = Z.of_nat (length folders)) as [Hg' ->].
    { eapply (local_gathers cwd writable order Hord fs1 Hok1 out); [done|done| | |done|exact Hg|exact H|done].
      - intros p Hpl. by apply Hap, elem_of_app; left.
      - intros Hin. apply NoDup_app in Hnd as (_ & N2 & _). apply (N2 _ Hin). by apply list_elem_of_singleton. }
    split; [done|]. split.
    + intros src name rel b Hin Hb Hx. apply (gathered_made _ _ _ _ _ Hg' src); [done|].
      unfold to_copy. rewrite decide_False by done. by rewrite Hfiles.
    + intros q Hq. rewrite (gathered_only _ _ _ _ _ Hg'); [by rewrite Hfiles|].
      intros src name rel Hin ->. unfold to_copy. case_decide as Hx; [done|]. rewrite Hfiles.
      destruct (files fs !! (key cwd src ++ rel)) as [b|] eqn:Eb; [|done]. by destruct Hx; eapply Hq.
Qed.

Definition demo_cwd : Path := [RootDir; Normal "app"].
Definition demo_manifest : Manifest := {|
  project := {| project_name := "app"; project_version := "0.1.0"; description := None; authors := []; language := None |};
  server := default_server_config; tracing := default_tracing_config; composition := default_composition_config; lb := None;
  dependencies := [("lib", dep_path "lib"); ("gone", Simple "1.0")]; dev_dependencies := [] |}.
Definition at_app (p : string) : Path := demo_cwd ++ components p.
Definition demo_tree : Fs := {|
  files := list_to_map [(at_app "lib/dist/a.txt", "A"); (at_app "lib/dist/js/b.js", "B"); (at_app "public/c.css", "C")];
  dirs := list_to_set ([RootDir] :: (at_app <$> [EmptyString; "lib"; "lib/dist"; "lib/dist/js"; "public"])) |}.

Lemma static_spec_witness :
  (execute demo_cwd (fun _ => true) (fun l => l) (Ok demo_manifest) None demo_tree).1 = Ok 2 /\
  files (execute demo_cwd (fun _ => true) (fun l => l) (Ok demo_manifest) None demo_tree).2
    !! at_app "collected-static/lib/js/b.js" = Some "B".
Proof.
  assert ((execute demo_cwd (fun _ => true) (fun l => l) (Ok demo_manifest) None demo_tree).1 = Ok 2) as Hr
    by (vm_compute; reflexivity).
  split; [exact Hr|].
  destruct (execute demo_cwd (fun _ => true) (fun l => l) (Ok demo_manifest) None demo_tree) as [r fs'] eqn:E. cbn in Hr.
  destruct (static_spec demo_cwd (fun _ => true) (fun l => l) demo_manifest None demo_tree fs' r eq_refl
    (fun l => Permutation_refl l) (tree_check_ok demo_tree ltac:(vm_compute; reflexivity)) E) as [_ H].
  destruct (H 2 _ Hr (ok_pair (create_dir_all demo_cwd (fun _ => true) (components DEFAULT_OUTPUT_DIR) demo_tree)
    ltac:(vm_compute; reflexivity))) as (_ & H2 & _).
  - apply named_names. vm_compute. reflexivity.
  - apply (bool_decide_unpack _). vm_compute. reflexivity.
  - apply Forall_forall. apply (bool_decide_unpack _). vm_compute. reflexivity.
  - refine (H2 (join (components "lib") (components "dist")) "lib" (components "js/b.js") "B" _ eq_refl _).
    + apply (list_elem_of_lookup_2 _ 0). vm_compute. reflexivity.
    + apply (bool_decide_unpack _). vm_compute. reflexivity.
Defined.
