(* ===== verification/Caches.v ===== *)
(** Caches: the cache of schemas, of [src/src/cache/schema.rs], and [mik cache]
    over it, the compiled components of AotCache.v and the registry artifacts,
    of [src/src/commands/cache.rs].

    A directory is a finite map from names to entries, or absent. Times are in
    nanoseconds. What a file operation fails on is a parameter; sizes are
    assumed to stay below 2^64 in total. *)

From stdpp Require Import base gmap list strings.
From S2P Require Import Prelude StdPath AotCache.

#[local] Open Scope Z_scope.

(** ** The schema cache *)

Record SchemaStats := { entries : Z; total_bytes : Z }.

Record Entry := {
  e_is_file : bool;
  data : string;
  modified : Z;
}.

Notation SchemaDir := (option (gmap string Entry)) (only parsing).

Section Schema.
(** BLAKE3 in hexadecimal *)
Variable hash : string -> string.
Variable is_utf8 : string -> bool.
(** The errors of [create_dir_all], [write] and [rename], if any; whether a file
    can be removed; and whether the directory can be read, if it is there *)
Variable create_err write_err rename_err read_dir_err : option string.
Variable removable : string -> bool.

Definition compute_key (module_path content : string) : string := hash (module_path +:+ content).

Definition get (module_path content : string) (d : SchemaDir) : option string :=
  match d with
  | None => None
  | Some d =>
      match d !! compute_key module_path content with
      | Some e => if (e_is_file e && is_utf8 (data e))%bool then Some (data e) else None
      | None => None
      end
  end.

Definition put (now : Z) (module_path content : string) (d : SchemaDir) : result unit (list string) * SchemaDir :=
  match create_err with
  | Some e => (Err ["Failed to create schema cache directory"; e], d)
  | None =>
      let key := compute_key module_path content in
      let d := default ∅ d in
      match write_err with
      | Some e => (Err ["Failed to write schema cache temp file"; e], Some d)
      | None =>
          let file := {| e_is_file := true; data := content; modified := now |} in
          let d := <[key +:+ ".tmp" := file]> d in
          match rename_err with
          | Some e => (Err ["Failed to rename schema cache file"; e], Some d)
          | None => (Ok tt, Some (<[key := file]> (delete (key +:+ ".tmp") d)))
          end
      end
  end.

(** What [stats] and [clean] look at: files without an extension *)
Definition is_schema (kf : string * Entry) : bool :=
  match (rsplit_dot kf.1).2 with Some _ => false | None => e_is_file kf.2 end.

Definition listing (d : gmap string Entry) : list (string * Entry) := map_to_list d.
Definition schema_files (d : gmap string Entry) : list (string * Entry) := filter (fun kf => is_schema kf = true) (listing d).
Definition bytes_of (l : list (string * Entry)) : Z := foldr (fun kf n => Str.len (data kf.2) + n) 0 l.

Definition readable (d : SchemaDir) : option (gmap string Entry) :=
  match read_dir_err with Some _ => None | None => d end.

Definition stats (d : SchemaDir) : SchemaStats :=
  match readable d with
  | None => {| entries := 0; total_bytes := 0 |}
  | Some d => {| entries := Z.of_nat (length (schema_files d)); total_bytes := bytes_of (schema_files d) |}
  end.

Definition SECOND : Z := 1000000000.
Definition max_age (max_age_days : Z) : Z := wrap_u64 (wrap_u64 (wrap_u64 (max_age_days * 24) * 60) * 60) * SECOND.

Definition expired (now max_age_days : Z) (e : Entry) : bool := max_age max_age_days <? Z.max 0 (now - modified e).

(** The files that [clean] removes *)
Definition stale_files (now max_age_days : Z) (d : gmap string Entry) : list (string * Entry) :=
  filter (fun kf => expired now max_age_days kf.2 && removable kf.1 = true) (schema_files d).

Definition delete_all (l : list (string * Entry)) (d : gmap string Entry) : gmap string Entry :=
  foldr (fun kf d => delete kf.1 d) d l.

Definition clean (now max_age_days : Z) (d : SchemaDir) : result Z (list string) * SchemaDir :=
  match d, read_dir_err with
  | Some m, None =>
      let gone := stale_files now max_age_days m in
      (Ok (Z.of_nat (length gone)), Some (delete_all gone m))
  | _, e => (Err ["Failed to read schema cache directory"; default "No such file or directory" e], d)
  end.

Definition clear (d : SchemaDir) : result unit (list string) * SchemaDir :=
  match d, read_dir_err with
  | None, _ => (Ok tt, d)
  | Some m, Some e => (Err ["Failed to read schema cache directory"; e], d)
  | Some m, None =>
      (Ok tt, Some (delete_all (filter (fun kf => e_is_file kf.2 && removable kf.1 = true) (listing m)) m))
  end.
End Schema.

(** ** The command *)

(** The registry cache: the files in [blobs/sha256], with their sizes if known *)
Record Blob := { b_is_file : bool; b_size : option Z }.
Record Blobs := { sha256 : option (list Blob) }.

Inductive CacheAction := Info | Clean (max_size_mb : Z) | Clear.

(** What the command prints *)
Inductive Report :=
| Shown (aot : CacheStats) (schema : option SchemaStats) (oci : Z * Z)
| Cleaned (aot_removed schema_removed aot_freed : Z)
| Cleared (aot_removed schema_removed oci_removed freed : Z).

Record Disk := {
  aot : gmap string File;
  schemas : option (gmap string Entry);
  blobs : option Blobs;
}.

Section Command.
(** [AotCache::new] *)
Variable aot_new : result unit (list string).
(** Whether there is a cache directory of the user *)
Variable cache_dir : bool.
Variable removable : string -> bool.
Variable read_dir_err : option string.
Variable remove_dir_ok : bool.
Variable now : Z.

Definition get_oci_cache_stats (d : Disk) : Z * Z :=
  match (if cache_dir then blobs d else None) with
  | Some {| sha256 := Some l |} =>
      let files := filter (fun b => b_is_file b = true) l in
      (Z.of_nat (length files), foldr (fun b n => default 0 (b_size b) + n) 0 files)
  | _ => (0, 0)
  end.

Definition clear_oci_cache (d : Disk) : (Z * Z) * Disk :=
  match (if cache_dir then blobs d else None) with
  | None => ((0, 0), d)
  | Some _ =>
      if remove_dir_ok then (get_oci_cache_stats d, {| aot := aot d; schemas := schemas d; blobs := None |})
      else ((0, 0), d)
  end.

Definition MIB : Z := 1024 * 1024.
(** [max_size_mb * 1024 * 1024] *)
Definition mb (n : Z) : Z := wrap_u64 (wrap_u64 (n * 1024) * 1024).

Definition with_schemas (s : option (gmap string Entry)) (d : Disk) : Disk :=
  {| aot := aot d; schemas := s; blobs := blobs d |}.
Definition with_aot (a : gmap string File) (d : Disk) : Disk :=
  {| aot := a; schemas := schemas d; blobs := blobs d |}.

Definition execute (action : CacheAction) (d : Disk) : result Report (list string) * Disk :=
  match aot_new with
  | Err e => (Err e, d)
  | Ok _ =>
      match action with
      | Info =>
          (Ok (Shown (AotCache.stats config_default (aot d))
                 (if cache_dir then Some (stats read_dir_err (schemas d)) else None) (get_oci_cache_stats d)), d)
      | Clean max_size_mb =>
          let config := {| max_size_bytes := mb max_size_mb; bypass := false |} in
          let '(aot_stats, a) := AotCache.cleanup removable config (aot d) in
          let d := with_aot a d in
          let '(schema_removed, d) :=
            if cache_dir then
              match clean read_dir_err removable now 30 (schemas d) with
              | (Ok n, s) => (n, with_schemas s d)
              | (Err _, s) => (0, with_schemas s d)
              end
            else (0, d) in
          (Ok (Cleaned (entries_removed aot_stats) schema_removed (bytes_freed aot_stats)), d)
      | Clear =>
          let '(aot_stats, a) := AotCache.clear removable config_default (aot d) in
          let d := with_aot a d in
          let '(schema_count, schema_size, d) :=
            if cache_dir then
              let s := stats read_dir_err (schemas d) in
              (entries s, total_bytes s, with_schemas (clear read_dir_err removable (schemas d)).2 d)
            else (0, 0, d) in
          let '(oci_count, oci_size, d) := clear_oci_cache d in
          (Ok (Cleared (entries_removed aot_stats) schema_count oci_count
                 (bytes_freed aot_stats + schema_size + oci_size)), d)
      end
  end.
End Command.

(** ** Lemmas *)

Lemma lookup_delete_all l (d : gmap string Entry) k :
  delete_all l d !! k = if decide (k ∈ l.*1) then None else d !! k.
Proof.
  induction l as [|[n e] l IH]; [done|]. cbn [delete_all foldr fst fmap list_fmap]. fold (delete_all l d).
  destruct (decide (k = n)) as [->|Hne].
  - rewrite lookup_delete_eq, decide_True; [done|]. by left.
  - rewrite lookup_delete_ne by done. rewrite IH.
    destruct (decide (k ∈ l.*1)) as [H|H]; [by rewrite decide_True by (by right)|].
    rewrite decide_False; [done|]. by intros [?|?]%elem_of_cons.
Qed.

(** Removing the files of a map that pass a test *)
Lemma delete_all_filter (P : string * Entry -> bool) (d : gmap string Entry) k :
  delete_all (filter (fun kf => P kf = true) (map_to_list d)) d !! k =
  match d !! k with Some e => if P (k, e) then None else Some e | None => None end.
Proof.
  rewrite lookup_delete_all. destruct (d !! k) as [e|] eqn:Ek; [|by case_decide].
  destruct (P (k, e)) eqn:EP; case_decide as Hin; try done.
  - destruct Hin. apply list_elem_of_fmap. exists (k, e). split; [done|].
    apply list_elem_of_filter. split; [done|]. by apply elem_of_map_to_list.
  - exfalso. apply list_elem_of_fmap in Hin as ([k' e'] & E & Hin). cbn in E. subst k'.
    apply list_elem_of_filter in Hin as [HP Hin]. apply elem_of_map_to_list in Hin. congruence.
Qed.

Lemma filter_twice {A} (P Q : A -> bool) (l : list A) :
  filter (fun x => Q x = true) (filter (fun x => P x = true) l) = filter (fun x => (P x && Q x)%bool = true) l.
Proof.
  induction l as [|x l IH]; [done|]. rewrite !filter_cons. destruct (P x) eqn:EP; cbn [andb].
  - rewrite decide_True by done. rewrite filter_cons, IH. by destruct (Q x).
  - rewrite decide_False by done. rewrite IH. by rewrite decide_False.
Qed.

Definition stale (removable : string -> bool) (now max_age_days : Z) (kf : string * Entry) : bool :=
  (is_schema kf && (expired now max_age_days kf.2 && removable kf.1))%bool.

Lemma stale_files_eq removable now days d :
  stale_files removable now days d = filter (fun kf => stale removable now days kf = true) (map_to_list d).
Proof. unfold stale_files, schema_files, listing. apply (filter_twice is_schema (fun kf => expired now days kf.2 && removable kf.1)%bool). Qed.

Lemma clean_lookup removable now days m k :
  delete_all (stale_files removable now days m) m !! k =
  match m !! k with Some e => if stale removable now days (k, e) then None else Some e | None => None end.
Proof. rewrite stale_files_eq. apply delete_all_filter. Qed.

Lemma mb_small n : 0 <= n < 2 ^ 44 -> mb n = n * MIB.
Proof. intros Hn. unfold mb, wrap_u64, u64_max, MIB. rewrite (Z.mod_small (n * 1024)) by lia. rewrite Z.mod_small by lia. lia. Qed.

(** Any pair of module and content that reads the same is the same entry. *)
Lemma schema_get_put hash is_utf8 now m c d m' c' :
  (forall a b, hash a = hash b -> a = b) -> (forall a b, hash a <> hash b +:+ ".tmp") -> is_utf8 c = true ->
  get hash is_utf8 m' c' (put hash None None None now m c d).2 =
  if String.eqb (m' +:+ c') (m +:+ c) then Some c else get hash is_utf8 m' c' d.
Proof.
  intros Hinj Htmp Hu. unfold put. cbn [snd]. unfold get, compute_key.
  destruct (String.eqb_spec (m' +:+ c') (m +:+ c)) as [->|Hne].
  - rewrite lookup_insert_eq. cbn. by rewrite Hu.
  - rewrite lookup_insert_ne by (intros E%Hinj; congruence).
    rewrite lookup_delete_ne, lookup_insert_ne by (intros E; by apply (Htmp _ _ (eq_sym E))).
    by destruct d.
Qed.

Lemma filter_all {A} (P : A -> bool) (l : list A) : (forall x, P x = true) -> filter (fun x => P x = true) l = l.
Proof. intros HP. induction l as [|x l IH]; [done|]. rewrite filter_cons, IH. by rewrite decide_True. Qed.

Lemma nothing_in {A} (l : list A) : (forall x, x ∉ l) -> l = [].
Proof. intros H. destruct l as [|x l]; [done|]. destruct (H x). by left. Qed.

Lemma clear_all removable d st d' : (forall k, removable k = true) ->
  AotCache.clear removable config_default d = (st, d') ->
  st = {| entries_removed := Z.of_nat (length (artifacts d)); bytes_freed := sum_sizes (artifacts d); current_size_bytes := 0 |} /\
  artifacts d' = [].
Proof.
  intros Hr. unfold AotCache.clear. cbn [config_default bypass].
  rewrite (filter_all (fun e => removable (e_path e))) by done.
  intros [= <- <-]. split; [done|]. fold (delete_entries (artifacts d) d).
  apply nothing_in. intros e He. apply elem_of_artifacts in He as (f & Hf & Ha & Ee).
  rewrite lookup_delete_entries in Hf. case_decide as Hin; [done|]. apply Hin, list_elem_of_fmap. exists e. split; [done|].
  apply elem_of_artifacts. by exists f.
Qed.

Lemma clear_schemas removable d : (forall k, removable k = true) ->
  stats None (clear None removable d).2 = {| entries := 0; total_bytes := 0 |}.
Proof.
  intros Hr. destruct d as [m|]; [|done]. cbn [clear snd stats readable].
  assert (schema_files (delete_all (filter (fun kf => e_is_file kf.2 && removable kf.1 = true) (listing m)) m) = []) as ->; [|done].
  apply nothing_in. intros [k e] He. apply list_elem_of_filter in He as [Hs He]. apply elem_of_map_to_list in He.
  unfold listing in He. rewrite (delete_all_filter (fun kf => e_is_file kf.2 && removable kf.1)%bool) in He.
  destruct (m !! k) as [e'|]; [|done]. cbn in He. rewrite Hr in He. unfold is_schema in Hs. cbn in Hs.
  destruct (e_is_file e') eqn:E; [done|]. injection He as ->. destruct (rsplit_dot k).2; congruence.
Qed.

(** ** Property *)


