(* ===== verification/Strip.v ===== *)
(** Strip: [mik strip], of [src/src/commands/strip.rs]: finding or installing
    wasm-tools, and running it on a component.

    The tools, the download and the archive format are parameters. The system
    is a Unix one: [extract_zip] is for Windows only. *)

From S2P Require Import Prelude StdPath HostAllow LbServer Json ManifestTypes HostConfig Fs.

#[local] Open Scope Z_scope.
#[local] Open Scope fs_scope.

Definition WASM_TOOLS_VERSION : string := "1.225.0".

Record StripOptions := {
  all : bool;
  debug : bool;
  names : bool;
  producers : bool;
  output : option string;
}.

Definition default_options : StripOptions :=
  {| all := true; debug := false; names := false; producers := false; output := None |}.

(** An entry of an archive: its path, what can be read of it, and the error the
    reading ends with. *)
Record TarEntry := {
  te_path : result Path string;
  te_data : string;
  te_error : option string;
}.

Record Report := {
  r_output : string;
  r_input_size : Z;
  r_output_size : Z;
  r_savings : Z;
}.

Section Strip.
Variable cwd : Path.
Variable writable : Path -> bool.
(** [cfg!(target_os)] and [cfg!(target_arch)] *)
Variable target_os target_arch : string.
(** A command: whether it could be started, what it wrote to its standard error
    if it failed, and what it did. *)
Variable run : string -> list string -> Fs -> result (option string) string * Fs.
(** [daemon::paths::get_bin_dir] *)
Variable bin_dir : result Path (list string).
(** A download: what was received, and the error it ends with. *)
Variable http_get : string -> result (string * option string) string.
(** gzip and tar *)
Variable untar : string -> result (list (result TarEntry string)) string.
Variable set_permissions : Path -> option string.
(** The size the system gives for a directory *)
Variable dir_len : Z.

Definition exec (program : string) (args : list string) : M (option string) := fun fs =>
  match run program args fs with
  | (Ok b, fs) => (Ok b, fs)
  | (Err e, fs) => (Err [e], fs)
  end.

Definition one_of {A} (s : string) (l : list (string * A)) : option A :=
  snd <$> find (fun kv => String.eqb s kv.1) l.

Definition get_platform_info : result (string * string) (list string) :=
  let? os := ok_or (one_of target_os [("windows", "windows"); ("macos", "macos"); ("linux", "linux")])
               ["Unsupported operating system"] in
  let? arch := ok_or (one_of target_arch [("x86_64", "x86_64"); ("aarch64", "aarch64")])
                 ["Unsupported architecture"] in
  Ok (os, arch).

(** [File::create] and [io::copy]: what was read is in the file in any case. *)
Definition write_stream (dst : Path) (data : string) (error : option string) : M unit :=
  write cwd writable dst data ;;
  match error with Some e => bail e | None => ret tt end.

Fixpoint extract_entries (entries : list (result TarEntry string)) (dest : Path) : M unit :=
  match entries with
  | [] => ret tt
  | Err e :: _ => bail e
  | Ok entry :: rest =>
      match te_path entry with
      | Err e => bail e
      | Ok path =>
          if bool_decide (file_name path = Some "wasm-tools") then
            let out_path := join dest [Normal "wasm-tools"] in
            write_stream out_path (te_data entry) (te_error entry) ;;
            match set_permissions out_path with Some e => bail e | None => ret tt end
          else extract_entries rest dest
      end
  end.

Definition extract_tar_gz (archive dest : Path) : M unit :=
  do data <- read cwd archive;
  match untar data with
  | Err e => bail e
  | Ok entries => extract_entries entries dest
  end.

Definition download_url (os arch : string) : string :=
  "https://github.com/bytecodealliance/wasm-tools/releases/download/v" +:+ WASM_TOOLS_VERSION +:+ "/wasm-tools-" +:+
  WASM_TOOLS_VERSION +:+ "-" +:+ arch +:+ "-" +:+ os +:+ ".tar.gz".

Definition download_wasm_tools (dir : Path) : M unit :=
  create_dir_all cwd writable dir ;;
  do '(os, arch) <- lift get_platform_info;
  match http_get (download_url os arch) with
  | Err e => bail "Failed to download wasm-tools"
  | Ok (body, error) =>
      let temp_file := join dir [Normal "wasm-tools-download.tar.gz"] in
      write_stream temp_file body error ;;
      extract_tar_gz temp_file dir ;;
      ignore (remove_file cwd writable temp_file)
  end.

(** What [get_wasm_tools] does when there is no wasm-tools in PATH *)
Definition installed_wasm_tools : M Path :=
  do mik_bin <- lift bin_dir;
  let wasm_tools_path := join mik_bin [Normal "wasm-tools"] in
  fun fs =>
    if exists_ cwd wasm_tools_path fs then (Ok wasm_tools_path, fs)
    else (download_wasm_tools mik_bin ;; ret wasm_tools_path) fs.

Definition get_wasm_tools : M Path := fun fs =>
  match run "wasm-tools" ["--version"] fs with
  | (Ok None, fs) => (Ok [Normal "wasm-tools"], fs)
  | (_, fs) => installed_wasm_tools fs
  end.

Definition default_output (input : Path) : Path :=
  join (default [CurDir] (parent input)) [Normal (default "component" (file_stem input) +:+ ".stripped.wasm")].

Definition output_path (input : string) (options : StripOptions) : string :=
  match output options with
  | None => to_str (default_output (components input))
  | Some out => out
  end.

Definition strip_args (input : string) (options : StripOptions) : list string :=
  ["strip"] ++
  (if all options then ["--all"]
   else (if debug options then ["--delete"; ".debug*"] else []) ++
        (if names options then ["--delete"; "name"] else []) ++
        (if producers options then ["--delete"; "producers"] else [])) ++
  [input; "-o"; output_path input options].

(** [fs::metadata(..)?.len()] *)
Definition metadata_len (p : Path) : M Z := fun fs =>
  match files fs !! key cwd p with
  | Some data => (Ok (Str.len data), fs)
  | None => if is_dir cwd p fs then (Ok dir_len, fs) else (Err [ENOENT], fs)
  end.

Definition execute (input : string) (options : StripOptions) : M Report := fun fs =>
  if negb (exists_ cwd (components input) fs) then (Err ["Input file not found: " +:+ input], fs)
  else
    (do wasm_tools <- get_wasm_tools;
     do stderr <- context "Failed to execute wasm-tools strip" (exec (to_str wasm_tools) (strip_args input options));
     match stderr with
     | Some stderr => bail ("wasm-tools strip failed: " +:+ stderr)
     | None =>
         do input_size <- metadata_len (components input);
         do output_size <- metadata_len (components (output_path input options));
         ret {| r_output := output_path input options; r_input_size := input_size; r_output_size := output_size;
                r_savings := sat_sub input_size output_size |}
     end) fs.

(** ** Lemmas *)

(** What an operation leaves alone *)
Definition only {A} (P : Path -> Prop) (m : M A) : Prop :=
  forall fs q, ~ P q -> files (m fs).2 !! q = files fs !! q.

Lemma only_pure {A} P (m : M A) : (forall fs, (m fs).2 = fs) -> only P m.
Proof. intros H fs q _. by rewrite H. Qed.

Lemma only_bind {A B} P (m : M A) (k : A -> M B) : only P m -> (forall a, only P (k a)) -> only P (bind m k).
Proof.
  intros Hm Hk fs q Hq. unfold bind. specialize (Hm fs q Hq). destruct (m fs) as [[a|e] fs1]; [|done].
  by rewrite (Hk a fs1 q Hq).
Qed.

Lemma only_context {A} P msg (m : M A) : only P m -> only P (context msg m).
Proof. intros Hm fs q Hq. unfold context. specialize (Hm fs q Hq). by destruct (m fs) as [[a|e] fs1]. Qed.

Lemma only_write (P : Path -> Prop) p data : P (key cwd p) -> only P (write cwd writable p data).
Proof.
  intros Hp fs q Hq. unfold write. repeat case_match; try done. cbn. apply lookup_insert_ne. intros E. apply Hq. by rewrite <- E.
Qed.

Lemma only_remove (P : Path -> Prop) p : P (key cwd p) -> only P (remove_file cwd writable p).
Proof.
  intros Hp fs q Hq. unfold remove_file. repeat case_match; try done. cbn. apply lookup_delete_ne. intros E. apply Hq. by rewrite <- E.
Qed.

Lemma only_create_dir_all P p : only P (create_dir_all cwd writable p).
Proof. intros fs q Hq. unfold create_dir_all. by repeat case_match. Qed.

Lemma only_read P p : only P (read cwd p).
Proof. by apply only_pure. Qed.

Lemma only_metadata P p : only P (metadata_len p).
Proof. apply only_pure. intros fs. unfold metadata_len. by repeat case_match. Qed.

Lemma rsplit_dot_stem f e : rsplit_dot f <> (None, e).
Proof. unfold rsplit_dot. by repeat case_match. Qed.

Lemma rsplit_dot_None f st : rsplit_dot f = (Some st, None) -> st = f.
Proof. unfold rsplit_dot. repeat case_match; congruence. Qed.

Lemma longer (a b : string) : b <> EmptyString -> a +:+ b <> a.
Proof. intros Hb E. induction a as [|c a IH]; [done|]. apply IH. by injection E. Qed.

Lemma default_output_last p :
  exists n, last (default_output p) = Some (Normal n) /\ n = default "component" (file_stem p) +:+ ".stripped.wasm".
Proof.
  unfold default_output. eexists. split; [|reflexivity]. unfold join. cbn [is_absolute has_root].
  destruct (default [CurDir] (parent p)) as [|c l]; [done|]. apply last_snoc.
Qed.

Lemma canonical_default s n : file_name (components s) = Some n -> canonical (default_output (components s)).
Proof.
  intros Hn. assert (Normal n ∈ components s) as Hin.
  { unfold file_name in Hn. destruct (last (components s)) as [[]|] eqn:E; try done. injection Hn as ->.
    apply last_Some in E as [l ->]. set_solver. }
  apply components_normal in Hin as [(H1 & H2 & H3 & H4) _].
  apply canonical_join.
  - destruct (parent (components s)) as [q|] eqn:E; [|split; [by right; left|done]].
    apply (canonical_pop (components s) true); [apply components_canonical|]. unfold pop. by rewrite E.
  - apply canonical_plain. assert (Str.contains_char Str.SLASH (default "component" (file_stem (components s))) = false) as Hs.
    { unfold file_stem. rewrite Hn. destruct (rsplit_dot n) as [[st|] [ext|]] eqn:Ed; try done; cbn.
      - apply rsplit_dot_Some in Ed as (-> & _). rewrite Str.contains_char_app in H4. by apply orb_false_iff in H4 as [? _].
      - by apply rsplit_dot_None in Ed as ->. }
    generalize dependent (default "component" (file_stem (components s))). intros st Hs.
    split_and!; try (destruct st as [|? [|? [|? ?]]]; done). by rewrite Str.contains_char_app, Hs.
Qed.

Lemma default_output_ne p : file_name (default_output p) <> file_name p.
Proof.
  destruct (default_output_last p) as (n & E & ->). unfold file_name at 1. rewrite E. clear E.
  unfold file_stem. destruct (file_name p) as [f|]; [|done]. intros [= E].
  destruct (rsplit_dot f) as [[st|] [ext|]] eqn:Ed; cbn in E.
  - apply rsplit_dot_Some in Ed as (-> & _ & Hdot & _). apply Str.app_inj_l in E. by injection E as <-.
  - apply rsplit_dot_None in Ed as ->. by apply longer in E.
  - by apply rsplit_dot_stem in Ed.
  - by apply rsplit_dot_stem in Ed.
Qed.

(** The files [mik strip] may write: the output and those of the installation *)
Definition written (input : string) (options : StripOptions) (q : Path) : Prop :=
  q = key cwd (components (output_path input options)) \/
  exists dir n, bin_dir = Ok dir /\ n ∈ ["wasm-tools"; "wasm-tools-download.tar.gz"] /\ q = key cwd (join dir [Normal n]).

Section Only.
Variable input : string.
Variable options : StripOptions.
Hypothesis version_only : forall P, only P (exec "wasm-tools" ["--version"]).
Hypothesis strip_only : forall program,
  only (written input options) (exec program (strip_args input options)).

Lemma in_bin dir n : bin_dir = Ok dir -> n ∈ ["wasm-tools"; "wasm-tools-download.tar.gz"] ->
  written input options (key cwd (join dir [Normal n])).
Proof. intros Hd Hn. right. by exists dir, n. Qed.

Lemma only_stream P dst data error : P (key cwd dst) -> only P (write_stream dst data error).
Proof. intros HP. apply only_bind; [by apply only_write|]. intros _. destruct error; by apply only_pure. Qed.

Lemma only_entries dir entries : bin_dir = Ok dir -> only (written input options) (extract_entries entries dir).
Proof.
  intros Hd. induction entries as [|[e|e] entries IH]; cbn [extract_entries]; [by apply only_pure| |by apply only_pure].
  destruct (te_path e) as [path|]; [|by apply only_pure]. case_bool_decide; [|done].
  apply only_bind; [|intros _; by destruct (set_permissions _); apply only_pure].
  apply only_stream, in_bin; [done|by left].
Qed.

Lemma only_install dir : bin_dir = Ok dir -> only (written input options) (download_wasm_tools dir).
Proof.
  intros Hd. apply only_bind; [apply only_create_dir_all|]. intros _.
  apply only_bind; [by apply only_pure|]. intros [os arch]. destruct (http_get _) as [[body error]|]; [|by apply only_pure].
  assert (written input options (key cwd (join dir [Normal "wasm-tools-download.tar.gz"]))) as Ht
    by (apply in_bin; [done|by right; left]).
  apply only_bind; [by apply only_stream|]. intros _. apply only_bind.
  - apply only_bind; [apply only_read|]. intros data. destruct (untar data); [by apply only_entries|by apply only_pure].
  - intros _ fs q Hq. exact (only_remove _ _ Ht fs q Hq).
Qed.

Lemma only_get : only (written input options) get_wasm_tools.
Proof.
  intros fs q Hq. unfold get_wasm_tools. pose proof (version_only (written input options) fs q Hq) as Hv.
  unfold exec in Hv.
  assert (only (written input options) installed_wasm_tools) as Hi.
  { intros fs2 q2 Hq2. unfold installed_wasm_tools. unfold bind at 1, lift.
    destruct bin_dir as [dir|] eqn:Ed; [|done]. cbv zeta beta. destruct (exists_ _ _ _); [done|].
    refine (only_bind _ _ _ (only_install dir Ed) _ fs2 q2 Hq2). intros _. by apply only_pure. }
  destruct (run _ _ fs) as [[[e|]|e] fs1]; cbn in Hv; [|done|]; rewrite <- Hv; exact (Hi fs1 q Hq).
Qed.

Lemma last_key p n : last p = Some (Normal n) -> last (key cwd p) = Some (Normal n).
Proof.
  intros Hp. destruct (last_Some p (Normal n)) as [H _]. apply H in Hp as [l ->]. clear H.
  assert (exists l', join cwd (l ++ [Normal n]) = l' ++ [Normal n]) as [l' E].
  { unfold join. destruct (is_absolute _); [by exists l|]. destruct cwd as [|c w]; [by exists l|].
    destruct l as [|d l]; [by exists (c :: w)|]. cbn [app].
    destruct d; eexists; by rewrite ?app_comm_cons, ?app_assoc. }
  unfold key. rewrite E, filter_app. change (filter dot [Normal n]) with [Normal n]. by rewrite last_snoc.
Qed.

(** [mik strip] changes no file but the output and those of the installation,
    whatever happens; when the output has its default name and the tools are
    not installed next to the input, the input stays as it is. *)
Lemma strip_safe : only (written input options) (execute input options).
Proof.
  intros fs q Hq. unfold execute. destruct (exists_ _ _ _); [|done]. cbn [negb].
  refine (only_bind _ _ _ only_get _ fs q Hq). intros tools. apply only_bind.
  - apply only_context, strip_only.
  - intros [e|]; [by apply only_pure|]. apply only_bind; [apply only_metadata|]. intros a.
    apply only_bind; [apply only_metadata|]. intros b. by apply only_pure.
Qed.

(** The input is not one of them when the output has its default name. *)
Lemma input_kept n : output options = None -> file_name (components input) = Some n ->
  (forall dir m, bin_dir = Ok dir -> m ∈ ["wasm-tools"; "wasm-tools-download.tar.gz"] ->
     key cwd (components input) <> key cwd (join dir [Normal m])) ->
  ~ written input options (key cwd (components input)).
Proof.
  intros Ho Hn Hdir [E|(dir & m & Hd & Hm & E)]; [|by apply (Hdir dir m Hd Hm)].
  unfold output_path in E. rewrite Ho in E. pose proof (default_output_ne (components input)) as Hne.
  rewrite components_to_str_canonical in E by (by apply canonical_default with n).
  apply (f_equal last) in E. unfold file_name in Hn. destruct (last (components input)) as [[]|] eqn:El; try done.
  injection Hn as ->. rewrite (last_key _ _ El) in E. destruct (default_output_last (components input)) as (m & Hm & _).
  rewrite (last_key _ _ Hm) in E. apply Hne. unfold file_name. rewrite Hm, El. by injection E as <-.
Qed.
End Only.
End Strip.
