(* ===== verification/Run.v ===== *)
(** Run: the command [mik run], of [src/src/commands/run.rs]: how the mode is
    chosen, the worker processes and their ports, the load balancer in front
    of them, and the configuration of a single server.

    Processes, files, globs and addresses are parameters. Printing and the
    set-up of logging are left out; 16-bit sums wrap as in a release build. *)

From stdpp Require Import base list strings.
From S2P Require Import Prelude StdPath LbBackend LbProxy LbServer Json ManifestTypes HostConfig Manifest.

#[local] Open Scope Z_scope.

Definition wrap_u16 (z : Z) : Z := z mod 65536.
Definition is_u16 (z : Z) : Prop := 0 <= z <= 65535.

(** ** Modes *)

Inductive Mode :=
| Single
| MultiWorker (workers : Z)
| WithLb (workers : Z).

Definition auto_workers (available_parallelism : option Z) : Z :=
  let threads := match available_parallelism with Some p => wrap_u16 p | None => 4 end in
  Z.max (threads / 4) 2.

(** [worker_id]: whether MIK_WORKER_ID is set. *)
Definition mode (worker_id : bool) (workers : Z) (available_parallelism : option Z) (use_lb : bool) : Mode :=
  if worker_id then Single
  else
    let workers := if workers =? 0 then auto_workers available_parallelism else workers in
    if ((1 <? workers) && use_lb)%bool then WithLb workers
    else if 1 <? workers then MultiWorker workers
    else Single.

Definition base_port (port_override load_port : option Z) : Z :=
  match port_override with Some p => p | None => default HostConfig.DEFAULT_PORT load_port end.

(** ** Workers *)

Record WorkerCommand := {
  w_args : list string;
  w_id : Z;
  w_local : bool;
}.

Definition worker_command (component_path : option string) (local_only : bool) (port_of : Z -> Z) (i : Z)
  : WorkerCommand := {|
  w_args := ["run"] ++ match component_path with Some path => [path] | None => [] end ++
            ["--port"; Str.of_Z (port_of i)];
  w_id := i;
  w_local := local_only |}.

Definition multi_port (base i : Z) : Z := wrap_u16 (base + i).
Definition lb_port (base i : Z) : Z := wrap_u16 (wrap_u16 (base + 1) + i).

(** [0..workers] *)
Definition ids (workers : Z) : list Z := seqZ 0 workers.

Section Workers.
(** The process started for a worker *)
Variable spawn : WorkerCommand -> result Z string.

(** The children so far; the first failure ends the command, and the handles
    of the others are dropped, which does not stop them. *)
Fixpoint spawn_workers (command : Z -> WorkerCommand) (todo : list Z) : result (list Z) (list string) * list Z :=
  match todo with
  | [] => (Ok [], [])
  | i :: todo =>
      match spawn (command i) with
      | Err e => (Err ["Failed to spawn worker " +:+ Str.of_Z i; e], [])
      | Ok pid =>
          let '(r, started) := spawn_workers command todo in
          (match r with Ok children => Ok (pid :: children) | Err e => Err e end, pid :: started)
      end
  end.

(** What a command leaves: its result, and the processes started and killed. *)
Record Outcome := {
  ended : result unit (list string);
  started : list Z;
  killed : list Z;
}.

(** [current_exe], and waiting for Ctrl+C *)
Variable current_exe : result unit string.
Variable ctrl_c : result unit string.

Definition run_multi_worker (component_path : option string) (workers base : Z) (local_only : bool) : Outcome :=
  match current_exe with
  | Err e => {| ended := Err ["Failed to get current executable"; e]; started := []; killed := [] |}
  | Ok _ =>
      let '(r, started) := spawn_workers (worker_command component_path local_only (multi_port base)) (ids workers) in
      match r with
      | Err e => {| ended := Err e; started := started; killed := [] |}
      | Ok children =>
          match ctrl_c with
          | Err e => {| ended := Err [e]; started := started; killed := [] |}
          | Ok _ => {| ended := Ok tt; started := started; killed := children |}
          end
      end
  end.

Context {Addr : Type}.
(** [SocketAddr::from_str] *)
Variable parse_addr : string -> result Addr string.

Definition bind_addr (local_only : bool) : string := if local_only then "127.0.0.1" else "0.0.0.0".

Definition backend_addrs (workers base : Z) : list string :=
  (fun i => "127.0.0.1:" +:+ Str.of_Z (lb_port base i)) <$> ids workers.

(** The load balancer runs until it fails or Ctrl+C: its error is printed, and
    every child is killed. *)
Definition run_with_lb (component_path : option string) (workers base : Z) (local_only : bool)
    (manifest : option Manifest) : Outcome * option (LoadBalancerConfig Addr) :=
  let lb_manifest_config :=
    match manifest with Some m => default default_lb_config (lb m) | None => default_lb_config end in
  match current_exe with
  | Err e => ({| ended := Err ["Failed to get current executable"; e]; started := []; killed := [] |}, None)
  | Ok _ =>
      let '(r, started) := spawn_workers (worker_command component_path local_only (lb_port base)) (ids workers) in
      match r with
      | Err e => ({| ended := Err e; started := started; killed := [] |}, None)
      | Ok children =>
          match parse_addr (bind_addr local_only +:+ ":" +:+ Str.of_Z base) with
          | Err e => ({| ended := Err ["Invalid LB address"; e]; started := started; killed := [] |}, None)
          | Ok lb_addr =>
              ({| ended := Ok tt; started := started; killed := children |},
               Some (from_manifest lb_manifest_config lb_addr (backend_addrs workers base)))
          end
      end
  end.

(** *** A single server *)

Definition with_modules_path (p : string) (c : HostConfig) : HostConfig := {|
  modules_path := p; user_modules_path := user_modules_path c; cache_size := cache_size c;
  max_cache_bytes := max_cache_bytes c; static_dir := static_dir c; HostConfig.port := HostConfig.port c;
  execution_timeout_secs := execution_timeout_secs c; memory_limit_bytes := memory_limit_bytes c;
  max_concurrent_requests := max_concurrent_requests c; max_body_size_bytes := max_body_size_bytes c;
  max_per_module_requests := max_per_module_requests c; shutdown_timeout_secs := shutdown_timeout_secs c;
  logging_enabled := logging_enabled c; http_allowed := http_allowed c; scripts_dir := scripts_dir c;
  hot_reload := hot_reload c; aot_cache_max_mb := aot_cache_max_mb c; fuel_budget := fuel_budget c |}.
Definition with_port (p : Z) (c : HostConfig) : HostConfig := {|
  modules_path := modules_path c; user_modules_path := user_modules_path c; cache_size := cache_size c;
  max_cache_bytes := max_cache_bytes c; static_dir := static_dir c; HostConfig.port := p;
  execution_timeout_secs := execution_timeout_secs c; memory_limit_bytes := memory_limit_bytes c;
  max_concurrent_requests := max_concurrent_requests c; max_body_size_bytes := max_body_size_bytes c;
  max_per_module_requests := max_per_module_requests c; shutdown_timeout_secs := shutdown_timeout_secs c;
  logging_enabled := logging_enabled c; http_allowed := http_allowed c; scripts_dir := scripts_dir c;
  hot_reload := hot_reload c; aot_cache_max_mb := aot_cache_max_mb c; fuel_budget := fuel_budget c |}.
Definition with_hot_reload (b : bool) (c : HostConfig) : HostConfig := {|
  modules_path := modules_path c; user_modules_path := user_modules_path c; cache_size := cache_size c;
  max_cache_bytes := max_cache_bytes c; static_dir := static_dir c; HostConfig.port := HostConfig.port c;
  execution_timeout_secs := execution_timeout_secs c; memory_limit_bytes := memory_limit_bytes c;
  max_concurrent_requests := max_concurrent_requests c; max_body_size_bytes := max_body_size_bytes c;
  max_per_module_requests := max_per_module_requests c; shutdown_timeout_secs := shutdown_timeout_secs c;
  logging_enabled := logging_enabled c; http_allowed := http_allowed c; scripts_dir := scripts_dir c;
  hot_reload := b; aot_cache_max_mb := aot_cache_max_mb c; fuel_budget := fuel_budget c |}.

Record OpenFile := {
  metadata : result bool string;
  contents : string;
}.

Variable exists_ : string -> bool.
Variable glob : string -> result (list (result string string)) string.
Variable open_file : string -> result OpenFile string.
Variable from_manifest_file : string -> result HostConfig (list string).

(** [into_iter().next()] of a glob *)
Definition first_match (pattern : string) : option string :=
  match glob pattern with Ok (Ok p :: _) => Some p | _ => None end.

Definition resolve_component_path (path : string) : result string string :=
  if exists_ path then Ok path
  else match (if Str.contains_char "*" path then first_match path else None) with
       | Some p => Ok p
       | None => Err ("Component not found: " +:+ path +:+ NL +:+ NL +:+
                      "Build the component first:" +:+ BR +:+ "mik build")
       end.

Definition CANDIDATES : list string :=
  ["target/composed.wasm"; "target/wasm32-wasip2/release/*.wasm"; "target/wasm32-wasip2/debug/*.wasm"].

Definition candidate (pattern : string) : option string :=
  if Str.contains_char "*" pattern then first_match pattern
  else if exists_ pattern then Some pattern else None.

Definition find_default_component : result string string :=
  match head (omap candidate CANDIDATES) with Some p => Ok p | None => Err "No component found" end.

Definition WASM_MAGIC : string := String "000" "asm".

Definition validate_wasm_file (path : string) : result unit (list string) :=
  match open_file path with
  | Err e => Err ["WASM file not found or cannot be opened: " +:+ path +:+ NL +:+ NL +:+
                  "Possible solutions:" +:+ NL +:+ "1. Build the component first: mik build" +:+ NL +:+
                  "2. Check file permissions" +:+ NL +:+ "3. Verify the path is correct"; e]
  | Ok f =>
      match metadata f with
      | Err e => Err ["Cannot read file metadata: " +:+ path +:+ NL +:+
                      "Check file permissions and try rebuilding:" +:+ NL +:+ "mik build"; e]
      | Ok false => Err ["Path is not a file: " +:+ path +:+ NL +:+ "Expected a .wasm component file"]
      | Ok true =>
          if (String.length (contents f) <? 4)%nat then
            Err ["Cannot read file header: " +:+ path +:+ NL +:+ "File may be empty or corrupted." +:+ NL +:+ NL +:+
                 "Rebuild the component:" +:+ NL +:+ "mik build"; "failed to fill whole buffer"]
          else if Str.starts_with WASM_MAGIC (contents f) then Ok tt
          else Err ["File is not a valid WASM module: " +:+ path +:+ NL +:+
                    "File does not start with WASM magic bytes." +:+ NL +:+ NL +:+
                    "Rebuild the component:" +:+ NL +:+ "mik build"]
      end
  end.

Definition load_manifest : result HostConfig (list string) :=
  match from_manifest_file "mik.toml" with Ok c => Ok c | Err e => Err ("Failed to load mik.toml" :: e) end.

(** The configuration of the server; [hot] is MIK_HOT_RELOAD. *)
Definition single_config (component_path : option string) (port_override : option Z) (hot : bool)
  : result HostConfig (list string) :=
  let builder :=
    match component_path with
    | Some (String _ _ as path) =>
        match resolve_component_path path with
        | Err e => Err [e]
        | Ok component =>
            let? _ := validate_wasm_file component in
            if exists_ "mik.toml" then let? c := load_manifest in Ok (with_modules_path component c)
            else Ok (with_modules_path component default_host_config)
        end
    | _ =>
        if exists_ "mik.toml" then load_manifest
        else match find_default_component with
             | Ok component => let? _ := validate_wasm_file component in Ok (with_modules_path component default_host_config)
             | Err _ => Err ["No mik.toml found and no component specified." +:+ NL +:+ NL +:+ "Options:" +:+ NL +:+
                             "1. Create mik.toml with [server].modules directory" +:+ NL +:+
                             "2. Run with explicit path: mik run path/to/component.wasm" +:+ NL +:+
                             "3. Build a component first: mik build"]
             end
    end in
  let? c := builder in
  let c := match port_override with Some p => with_port p c | None => c end in
  Ok (if hot then with_hot_reload true c else c).

(** The address a single server listens on: MIK_LOCAL, then HOST. *)
Definition bind_host (mik_local : bool) (host : option string) : string :=
  if mik_local then "127.0.0.1" else default "0.0.0.0" host.

(** *** The command *)

(** What the command does; a single server is left to HttpServer.v. *)
Inductive Ran :=
| Served (r : result (HostConfig * Addr) (list string))
| Workers (o : Outcome)
| Balanced (o : Outcome) (config : option (LoadBalancerConfig Addr)).

Definition run_single_instance (component_path : option string) (port_override : option Z) (hot mik_local : bool)
    (host : option string) : result (HostConfig * Addr) (list string) :=
  let? c := single_config component_path port_override hot in
  match parse_addr (bind_host mik_local host +:+ ":" +:+ Str.of_Z (HostConfig.port c)) with
  | Err e => Err ["Invalid address"; e]
  | Ok addr => Ok (c, addr)
  end.

Definition execute (component_path : option string) (workers : Z) (port_override : option Z) (local_only use_lb : bool)
    (worker_id hot mik_local : bool) (host : option string) (threads load_port : option Z) (manifest : option Manifest)
  : Ran :=
  match mode worker_id workers threads use_lb with
  | Single => Served (run_single_instance component_path port_override hot (local_only || mik_local) host)
  | MultiWorker n => Workers (run_multi_worker component_path n (base_port port_override load_port) local_only)
  | WithLb n =>
      let '(o, c) := run_with_lb component_path n (base_port port_override load_port) local_only manifest in
      Balanced o c
  end.

(** ** Lemmas *)

Lemma spawn_all command todo : forall r started,
  spawn_workers command todo = (r, started) ->
  match r with
  | Ok children => children = started /\ Forall2 (fun i pid => spawn (command i) = Ok pid) todo started
  | Err _ => exists before i after, todo = before ++ i :: after /\
               Forall2 (fun i pid => spawn (command i) = Ok pid) before started /\ is_ok (spawn (command i)) = false
  end.
Proof.
  induction todo as [|i todo IH]; intros r started; cbn; [intros [= <- <-]; done|].
  destruct (spawn (command i)) as [pid|e] eqn:Es.
  - destruct (spawn_workers command todo) as [r' started'] eqn:E. specialize (IH _ _ eq_refl).
    destruct r' as [children|e]; intros [= <- <-].
    + destruct IH as [-> IH]. split; [done|]. by constructor.
    + destruct IH as (before & j & after & -> & Hb & Hj). exists (i :: before), j, after.
      split; [done|]. split; [by constructor|done].
  - intros [= <- <-]. exists [], i, todo. split; [done|]. split; [constructor|by rewrite Es].
Qed.

Lemma lb_port_eq base i : lb_port base i = (base + 1 + i) mod 65536.
Proof. unfold lb_port, wrap_u16. by rewrite Z.add_mod_idemp_l. Qed.

Lemma elem_of_ids workers i : i ∈ ids workers <-> 0 <= i < workers.
Proof. unfold ids. rewrite elem_of_seqZ. lia. Qed.

(** The ports are distinct even if they wrap around. *)
Lemma ports_distinct base workers :
  is_u16 base -> workers <= 65535 -> NoDup (base :: (lb_port base <$> ids workers)).
Proof.
  intros Hb Hw. unfold is_u16 in Hb. constructor.
  - intros (i & E & Hi%elem_of_ids)%list_elem_of_fmap. rewrite lb_port_eq in E.
    rewrite Z.mod_eq in E by lia. nia.
  - apply NoDup_fmap_2_strong; [|apply NoDup_seqZ]. intros i j Hi%elem_of_ids Hj%elem_of_ids E.
    rewrite !lb_port_eq, !Z.mod_eq in E by lia. nia.
Qed.

(** ** Properties *)

End Workers.

(** ** Witness *)

Definition toy_spawn (c : WorkerCommand) : result Z string := Ok (100 + w_id c).

