(* ===== verification/Cluster.v ===== *)
(** Cluster: the cluster library of [src/src/runtime/cluster/]: workers that are
    tasks over runtimes of their own, or processes; the pool that distributes
    requests over the former, and the table of children of the latter.

    A runtime is given by its state and the handler of Api.v. Runtimes are
    shared ([Arc]), so workers and pools hold their number in a common store.
    The program itself does not use this library. *)

From stdpp Require Import base list strings numbers.
From S2P Require Import Prelude Run.

#[local] Open Scope Z_scope.

(** ** Workers *)

(** A socket address: the loopback address and a port *)
Record SocketAddr := { ip : string; sock_port : Z }.
Definition local_addr (p : Z) : SocketAddr := {| ip := "127.0.0.1"; sock_port := p |}.

Inductive WorkerHandle :=
| Process (pid port : Z) (addr : SocketAddr)
| Task (runtime : nat) (handle : option nat) (port : Z).

Definition port (w : WorkerHandle) : Z := match w with Process _ p _ | Task _ _ p => p end.
Definition addr (w : WorkerHandle) : option SocketAddr :=
  match w with Process _ _ a => Some a | Task _ _ p => Some (local_addr p) end.
Definition is_process (w : WorkerHandle) : bool := match w with Process _ _ _ => true | Task _ _ _ => false end.
Definition is_task (w : WorkerHandle) : bool := match w with Task _ _ _ => true | Process _ _ _ => false end.
Definition runtime (w : WorkerHandle) : option nat := match w with Task r _ _ => Some r | Process _ _ _ => None end.

Record Cluster := {
  workers : list WorkerHandle;
  base_port : Z;
}.

Definition new (ws : list WorkerHandle) (p : Z) : Cluster := {| workers := ws; base_port := p |}.
Definition worker_count (c : Cluster) : nat := length (workers c).
Definition worker_addrs (c : Cluster) : list SocketAddr := omap addr (workers c).
Definition runtimes (c : Cluster) : list nat := omap runtime (workers c).

Definition worker_port (base : Z) (i : nat) : Z := wrap_u16 (base + Z.of_nat i mod 65536).

(** ** Tasks *)

Section Tasks.
Context {S Req Ans Health E : Type}.
(** [Runtime::handle_request] and [Runtime::health] *)
Variable handle : Req -> S -> result Ans E * S.
Variable health_of : S -> Health.

Record Runtime := {
  shared : S;
  is_shutting_down : bool;
}.

(** The runtimes there are, and for each monitoring task the runtime it
    watches *)
Record World := {
  store : list Runtime;
  monitors : list nat;
}.

Definition fresh (s : S) : Runtime := {| shared := s; is_shutting_down := false |}.
Definition request_shutdown (r : Runtime) : Runtime := {| shared := shared r; is_shutting_down := true |}.

Definition shutdown_worker (w : WorkerHandle) (x : World) : World :=
  match w with
  | Process _ _ _ => x
  | Task r _ _ => {| store := alter request_shutdown r (store x); monitors := monitors x |}
  end.

Definition shutdown (c : Cluster) (x : World) : World := fold_left (fun x w => shutdown_worker w x) (workers c) x.

Definition health (c : Cluster) (x : World) : list Health :=
  omap (fun r => health_of ∘ shared <$> store x !! r) (runtimes c).

(** The loop of [spawn_workers] and of [spawn_workers_headless]: [factory] is
    called once for each worker. Whatever was created before a failure is
    dropped; the monitoring tasks of these runtimes run on. *)
Fixpoint spawn_workers (served : bool) (factory : nat -> result S E) (base : Z) (todo : list nat) (x : World)
  : result (list WorkerHandle) E * World :=
  match todo with
  | [] => (Ok [], x)
  | i :: todo =>
      match factory i with
      | Err e => (Err e, x)
      | Ok s =>
          let id := length (store x) in
          let w := Task id (if served then Some (length (monitors x)) else None) (worker_port base i) in
          let x := {| store := store x ++ [fresh s];
                      monitors := if served then monitors x ++ [id] else monitors x |} in
          match spawn_workers served factory base todo x with
          | (Ok ws, x) => (Ok (w :: ws), x)
          | (Err e, x) => (Err e, x)
          end
      end
  end.

Record ClusterBuilder := {
  b_worker_count : nat;
  b_base_port : Z;
  manifest_path : option string;
  runtime_factory : option (nat -> result S E);
}.

Definition builder (num_cpus : nat) : ClusterBuilder :=
  {| b_worker_count := num_cpus; b_base_port := 3001; manifest_path := None; runtime_factory := None |}.
Definition with_workers (n : nat) (b : ClusterBuilder) : ClusterBuilder :=
  {| b_worker_count := n; b_base_port := b_base_port b; manifest_path := manifest_path b;
     runtime_factory := runtime_factory b |}.
Definition with_base_port (p : Z) (b : ClusterBuilder) : ClusterBuilder :=
  {| b_worker_count := b_worker_count b; b_base_port := p; manifest_path := manifest_path b;
     runtime_factory := runtime_factory b |}.
Definition with_manifest_file (m : string) (b : ClusterBuilder) : ClusterBuilder :=
  {| b_worker_count := b_worker_count b; b_base_port := b_base_port b; manifest_path := Some m;
     runtime_factory := runtime_factory b |}.
Definition with_runtime_factory (f : nat -> result S E) (b : ClusterBuilder) : ClusterBuilder :=
  {| b_worker_count := b_worker_count b; b_base_port := b_base_port b; manifest_path := manifest_path b;
     runtime_factory := Some f |}.

Inductive BuildError := Missing (message : string) | Factory (e : E).

Definition spawn_with (served : bool) (missing : string) (b : ClusterBuilder) (x : World)
  : result Cluster BuildError * World :=
  match runtime_factory b with
  | None => (Err (Missing missing), x)
  | Some factory =>
      match spawn_workers served factory (b_base_port b) (seq 0 (b_worker_count b)) x with
      | (Ok ws, x) => (Ok (new ws (b_base_port b)), x)
      | (Err e, x) => (Err (Factory e), x)
      end
  end.
Definition spawn_tasks : ClusterBuilder -> World -> result Cluster BuildError * World :=
  spawn_with true "runtime_factory is required for spawn_tasks".
Definition spawn_tasks_headless : ClusterBuilder -> World -> result Cluster BuildError * World :=
  spawn_with false "runtime_factory is required for spawn_tasks_headless".

(** *** The end of the tasks *)

Definition POLL_MS : Z := 100.

(** A monitoring task polls the flag of its runtime, which is set at [set_at]
    if ever; when it ends, if [fuel] polls are enough. *)
Fixpoint monitor (fuel : nat) (set_at : option Z) (t : Z) : option Z :=
  if match set_at with Some T => T <=? t | None => false end then Some t
  else match fuel with O => None | Datatypes.S fuel => monitor fuel set_at (t + POLL_MS) end.

(** [Cluster::wait]: when it returns. The tasks of the workers are awaited one
    after the other, processes are not. *)
Fixpoint wait (fuel : nat) (set_at : nat -> option Z) (started : nat -> Z) (now : Z) (ws : list WorkerHandle)
  : option Z :=
  match ws with
  | [] => Some now
  | Task r (Some h) _ :: ws =>
      match monitor fuel (set_at r) (started h) with
      | Some e => wait fuel set_at started (Z.max now e) ws
      | None => None
      end
  | _ :: ws => wait fuel set_at started now ws
  end.

(** *** The pool *)

Record RuntimePool := {
  pool : list nat;
  next_index : Z;
}.

Definition from_workers (ws : list WorkerHandle) : RuntimePool := {| pool := omap runtime ws; next_index := 0 |}.

Definition USIZE : Z := 2 ^ 64.

(** [fetch_add] wraps around. *)
Definition next (p : RuntimePool) : option nat * RuntimePool :=
  match pool p with
  | [] => (None, p)
  | _ => (pool p !! Z.to_nat (next_index p mod Z.of_nat (length (pool p))),
          {| pool := pool p; next_index := (next_index p + 1) mod USIZE |})
  end.

Definition handle_request (req : Req) (p : RuntimePool) (x : World) : option (result Ans E) * RuntimePool * World :=
  match next p with
  | (Some r, p) =>
      match store x !! r with
      | Some rt =>
          let '(a, s) := handle req (shared rt) in
          (Some a, p, {| store := <[r := {| shared := s; is_shutting_down := is_shutting_down rt |}]> (store x);
                         monitors := monitors x |})
      | None => (None, p, x)
      end
  | (None, p) => (None, p, x)
  end.

(** A sequence of requests, in the order of their [fetch_add] *)
Fixpoint handle_all (reqs : list Req) (p : RuntimePool) (x : World)
  : list (option (result Ans E)) * RuntimePool * World :=
  match reqs with
  | [] => ([], p, x)
  | req :: reqs =>
      let '(a, p, x) := handle_request req p x in
      let '(answers, p, x) := handle_all reqs p x in
      (a :: answers, p, x)
  end.
End Tasks.

(** ** Processes *)

(** The command a worker is started with; both variables of its environment
    say which worker it is. *)
Record WorkerProcess := {
  p_args : list string;
  mik_worker_port : Z;
}.

Definition worker_process (port : Z) (manifest : string) : WorkerProcess := {|
  p_args := ["run"; "--port"; Str.of_Z port; "--manifest"; manifest];
  mik_worker_port := port |}.

(** The children, in the order they were started ([CHILD_PROCESSES]), those
    that still run, who holds the lock of the table, and the children the
    waiting thread has yet to wait for. *)
Record Table := {
  children : list Z;
  running : list Z;
  waiting : option (list Z);
}.

Section Processes.
(** [current_exe], and the process started for a command *)
Variable current_exe : result unit string.
Variable spawn : WorkerProcess -> result Z string.

Definition store_child_process (pid : Z) (t : Table) : Table :=
  {| children := children t ++ [pid]; running := running t ++ [pid]; waiting := waiting t |}.

Definition spawn_worker (p : Z) (manifest : string) (t : Table) : result WorkerHandle (list string) * Table :=
  match current_exe with
  | Err e => (Err ["Failed to get current executable path"; e], t)
  | Ok _ =>
      match spawn (worker_process p manifest) with
      | Err e => (Err ["Failed to spawn worker process on port " +:+ Str.of_Z p; e], t)
      | Ok pid => (Ok (Process pid p (local_addr p)), store_child_process pid t)
      end
  end.

Fixpoint spawn_processes_loop (base : Z) (manifest : string) (todo : list nat) (t : Table)
  : result (list WorkerHandle) (list string) * Table :=
  match todo with
  | [] => (Ok [], t)
  | i :: todo =>
      let p := worker_port base i in
      match spawn_worker p manifest t with
      | (Err e, t) => (Err (("Failed to spawn worker " +:+ Str.of_Z (Z.of_nat i) +:+ " on port " +:+ Str.of_Z p) :: e), t)
      | (Ok w, t) =>
          match spawn_processes_loop base manifest todo t with
          | (Ok ws, t) => (Ok (w :: ws), t)
          | (Err e, t) => (Err e, t)
          end
      end
  end.

Definition spawn_processes {S E} (b : ClusterBuilder (S := S) (E := E)) (t : Table)
  : result Cluster (list string) * Table :=
  match manifest_path b with
  | None => (Err ["manifest_file is required for spawn_processes"], t)
  | Some manifest =>
      match spawn_processes_loop (b_base_port b) manifest (seq 0 (b_worker_count b)) t with
      | (Ok ws, t) => (Ok (new ws (b_base_port b)), t)
      | (Err e, t) => (Err e, t)
      end
  end.
End Processes.

Definition is_worker_running (pid : Z) (t : Table) : bool := existsb (Z.eqb pid) (children t).

(** [kill_all_workers]: the table is drained, and [kill] tells which of the
    children could be killed. *)
Definition kill_all_workers (kill : Z -> bool) (t : Table) : Table :=
  {| children := []; running := filter (fun p => (p ∈ children t /\ kill p = true) -> False) (running t);
     waiting := waiting t |}.

(** What can happen to the table: a child exits; the lock is taken by
    [wait_all_workers], which waits for one child after the other and clears
    the table; or, while nobody holds the lock, the children are killed or sent
    SIGTERM, which makes those of them exit that obey it. *)
Inductive Label :=
| Exit (pid : Z)
| WaitBegin
| WaitOne (pid : Z)
| WaitEnd
| KillAll (kill : Z -> bool)
| ShutdownAll.

Definition with_running (l : list Z) (t : Table) : Table :=
  {| children := children t; running := l; waiting := waiting t |}.
Definition with_waiting (w : option (list Z)) (t : Table) : Table :=
  {| children := children t; running := running t; waiting := w |}.

Inductive tstep : Table -> Label -> Table -> Prop :=
| t_exit t pid : pid ∈ running t ->
    tstep t (Exit pid) (with_running (filter (fun p => p <> pid) (running t)) t)
| t_wait_begin t : waiting t = None -> tstep t WaitBegin (with_waiting (Some (children t)) t)
| t_wait_one t pid rest : waiting t = Some (pid :: rest) -> pid ∉ running t ->
    tstep t (WaitOne pid) (with_waiting (Some rest) t)
| t_wait_end t : waiting t = Some [] ->
    tstep t WaitEnd {| children := []; running := running t; waiting := None |}
| t_kill t kill : waiting t = None -> tstep t (KillAll kill) (kill_all_workers kill t)
| t_shutdown t : waiting t = None -> tstep t ShutdownAll t.

Inductive truns : Table -> list Label -> Table -> Prop :=
| truns_nil t : truns t [] t
| truns_cons t l t' ls t'' : tstep t l t' -> truns t' ls t'' -> truns t (l :: ls) t''.

(** ** What the pool amounts to *)

Section PoolSpec.
Context {S Req Ans E : Type}.
Variable handle : Req -> S -> result Ans E * S.

(** One runtime alone *)
Fixpoint run_alone (reqs : list Req) (s : S) : list (result Ans E) * S :=
  match reqs with
  | [] => ([], s)
  | req :: reqs => let '(a, s) := handle req s in let '(answers, s) := run_alone reqs s in (a :: answers, s)
  end.

(** The share of runtime [k] of [n], counting from [c] *)
Fixpoint share {A} (n k c : Z) (l : list A) : list A :=
  match l with
  | [] => []
  | a :: l => if c mod n =? k then a :: share n k (c + 1) l else share n k (c + 1) l
  end.

(** ** Lemmas *)

Lemma div_step n k c : 0 <= k < n -> (c + 1 + n - 1 - k) / n = (c + n - 1 - k) / n + (if c mod n =? k then 1 else 0).
Proof.
  intros Hk. pose proof (Z.div_mod c n ltac:(lia)) as Hd. pose proof (Z.mod_pos_bound c n ltac:(lia)) as Hm.
  set (q := c / n) in *. set (r := c mod n) in *.
  destruct (Z.eqb_spec r k) as [->|Hne].
  - assert ((c + n - 1 - k) / n = q) as -> by (symmetry; apply (Z.div_unique _ _ _ (n - 1)); nia).
    symmetry. apply (Z.div_unique _ _ _ 0); nia.
  - destruct (Z.lt_ge_cases r k) as [Hlt|Hge].
    + assert ((c + n - 1 - k) / n = q) as -> by (symmetry; apply (Z.div_unique _ _ _ (n - 1 - k + r)); nia).
      symmetry. apply (Z.div_unique _ _ _ (n - k + r)); nia.
    + assert ((c + n - 1 - k) / n = q + 1) as -> by (symmetry; apply (Z.div_unique _ _ _ (r - 1 - k)); nia).
      symmetry. apply (Z.div_unique _ _ _ (r - k)); nia.
Qed.

Lemma length_share {A} n k c (l : list A) : 0 <= k < n ->
  Z.of_nat (length (share n k c l)) = (c + Z.of_nat (length l) + n - 1 - k) / n - (c + n - 1 - k) / n.
Proof.
  intros Hk. revert c. induction l as [|a l IH]; intros c; cbn [share length].
  - rewrite Z.add_0_r. lia.
  - pose proof (div_step n k c Hk) as Hs. specialize (IH (c + 1)).
    replace (c + Z.of_nat (Datatypes.S (length l)) + n - 1 - k) with (c + 1 + Z.of_nat (length l) + n - 1 - k) by lia.
    destruct (c mod n =? k); cbn [length]; lia.
Qed.

Definition in_store (ids : list nat) (x : World (S := S)) : Prop :=
  Forall (fun r => is_Some (store x !! r)) ids.

(** One request of the pool goes to one runtime. *)
Lemma handle_request_pool ids c x req : ids <> [] -> in_store ids x -> 0 <= c ->
  exists r rt, ids !! Z.to_nat (c mod Z.of_nat (length ids)) = Some r /\ store x !! r = Some rt /\
    handle_request handle req {| pool := ids; next_index := c |} x =
    (Some (handle req (shared rt)).1, {| pool := ids; next_index := (c + 1) mod USIZE |},
     {| store := <[r := {| shared := (handle req (shared rt)).2; is_shutting_down := is_shutting_down rt |}]> (store x);
        monitors := monitors x |}).
Proof.
  intros Hne Hin Hc. assert (0 < Z.of_nat (length ids)) as Hl by (destruct ids; [done|]; cbn; lia).
  pose proof (Z.mod_pos_bound c (Z.of_nat (length ids)) Hl) as Hm.
  destruct (lookup_lt_is_Some_2 ids (Z.to_nat (c mod Z.of_nat (length ids)))) as [r Hr]; [lia|].
  unfold in_store in Hin. rewrite Forall_forall in Hin.
  destruct (Hin r) as [rt Hrt]; [by eapply list_elem_of_lookup_2|].
  exists r, rt. split; [done|]. split; [done|]. unfold handle_request, next. cbn [pool next_index].
  destruct ids as [|i ids]; [done|]. rewrite Hr, Hrt. by destruct (handle req (shared rt)).
Qed.

Lemma in_store_insert ids r rt (x : World (S := S)) ms : in_store ids x ->
  in_store ids {| store := <[r := rt]> (store x); monitors := ms |}.
Proof.
  unfold in_store. intros H. eapply Forall_impl; [exact H|]. cbn. intros i [v Hv].
  destruct (decide (i = r)) as [->|Hne].
  - rewrite list_lookup_insert_eq; [done|]. by eapply lookup_lt_Some.
  - by rewrite list_lookup_insert_ne.
Qed.

(** The pool is as many runtimes as it has, each on its own share. *)
Lemma handle_all_shares ids reqs : forall c x answers p y,
  ids <> [] -> NoDup ids -> in_store ids x -> 0 <= c -> c + Z.of_nat (length reqs) < USIZE ->
  handle_all handle reqs {| pool := ids; next_index := c |} x = (answers, p, y) ->
  forall k r rt, ids !! Z.to_nat k = Some r -> 0 <= k -> store x !! r = Some rt ->
    let n := Z.of_nat (length ids) in
    store y !! r = Some {| shared := (run_alone (share n k c reqs) (shared rt)).2;
                           is_shutting_down := is_shutting_down rt |} /\
    share n k c answers = Some <$> (run_alone (share n k c reqs) (shared rt)).1.
Proof.
  induction reqs as [|req reqs IH]; intros c x answers p y Hne Hnd Hin Hc Hb H k r rt Hk Hk0 Hrt n.
  { cbn in H. injection H as <- _ <-. cbn. by destruct rt. }
  destruct (handle_request_pool ids c x req Hne Hin Hc) as (r' & rt' & Hr' & Hrt' & Heq).
  cbn [handle_all] in H. rewrite Heq in H. clear Heq.
  cbn [length] in Hb. rewrite Z.mod_small in H by lia.
  destruct (handle_all handle reqs _ _) as [[as_ p'] y'] eqn:Eh. injection H as <- <- <-.
  assert (0 < n) as Hn by (subst n; destruct ids; [done|]; cbn; lia).
  pose proof (Z.mod_pos_bound c n Hn) as Hm. pose proof (lookup_lt_Some _ _ _ Hk) as Hlt.
  cbn [share]. fold n in Hr'. destruct (Z.eqb_spec (c mod n) k) as [E'|Hck].
  - rewrite E' in Hr'. rewrite Hr' in Hk. injection Hk as ->. rewrite Hrt in Hrt'. injection Hrt' as ->.
    eapply (IH (c + 1) _ _ _ _ Hne Hnd (in_store_insert _ _ _ _ _ Hin) ltac:(lia) ltac:(lia)) in Eh;
      [|exact Hr'|done|apply list_lookup_insert_eq; by eapply lookup_lt_Some].
    cbn zeta in Eh. fold n in Eh. cbn [run_alone shared is_shutting_down] in *.
    destruct (handle req (shared rt')) as [a s]. cbn [fst snd] in *.
    destruct (run_alone _ s) as [bs s']. cbn in *. destruct Eh as [E1 E2]. split; [exact E1|]. by rewrite E2.
  - assert (r <> r') as Hrr.
    { intros ->. pose proof (NoDup_lookup _ _ _ _ Hnd Hr' Hk). lia. }
    eapply (IH (c + 1) _ _ _ _ Hne Hnd (in_store_insert _ _ _ _ _ Hin) ltac:(lia) ltac:(lia)) in Eh;
      [|exact Hk|done|cbn [store]; rewrite list_lookup_insert_ne by done; exact Hrt].
    exact Eh.
Qed.
End PoolSpec.

Section SpawnSpec.
Context {S E : Type}.

(** Each worker has a runtime of its own, and the ports follow each other. *)
Lemma spawn_workers_Ok served (factory : nat -> result S E) base todo : forall x ws x',
  spawn_workers served factory base todo x = (Ok ws, x') ->
  omap runtime ws = seq (length (store x)) (length todo) /\
  port <$> ws = worker_port base <$> todo /\
  exists ss, Forall2 (fun i s => factory i = Ok s) todo ss /\ store x' = store x ++ (fresh <$> ss).
Proof.
  induction todo as [|i todo IH]; intros x ws x' H; cbn in H.
  { injection H as <- <-. split; [done|]. split; [done|]. exists []. split; [constructor|]. by rewrite app_nil_r. }
  destruct (factory i) as [s|e] eqn:Ef; [|done].
  destruct (spawn_workers _ _ _ _ _) as [[ws'|] x''] eqn:Es; [|done]. injection H as <- <-.
  destruct (IH _ _ _ Es) as (H1 & H2 & ss & H3 & H4). cbn [store] in *.
  rewrite length_app in H1. cbn [length] in H1. split; [|split].
  - cbn. rewrite H1. f_equal. f_equal. lia.
  - cbn. by rewrite H2.
  - exists (s :: ss). split; [by constructor|]. rewrite H4. cbn. by rewrite <- app_assoc.
Qed.
End SpawnSpec.

Lemma worker_port_small base n i : 0 <= base -> base + n <= 65536 -> (0 <= Z.of_nat i < n) ->
  worker_port base i = base + Z.of_nat i.
Proof. intros. unfold worker_port, wrap_u16. rewrite (Z.mod_small (Z.of_nat i)) by lia. by rewrite Z.mod_small by lia. Qed.

(** *** The end of the tasks *)

Lemma monitor_never fuel t : monitor fuel None t = None.
Proof. revert t. induction fuel as [|fuel IH]; intros t; cbn; [done|apply IH]. Qed.

Lemma monitor_ends T t : exists fuel e, monitor fuel (Some T) t = Some e /\ t <= e <= Z.max t (T + POLL_MS).
Proof.
  remember (Z.to_nat (T - t)) as m eqn:Em. revert t Em.
  induction m as [m IH] using lt_wf_ind. intros t Em. unfold POLL_MS in *.
  destruct (Z.leb_spec T t) as [Hle|Hgt].
  - exists 0%nat, t. cbn. rewrite (proj2 (Z.leb_le T t) Hle). split; [done|lia].
  - destruct (IH (Z.to_nat (T - (t + 100))) ltac:(lia) (t + 100) eq_refl) as (fuel & e & H1 & H2).
    exists (Datatypes.S fuel), e. cbn. rewrite (proj2 (Z.leb_gt T t) Hgt). split; [exact H1|lia].
Qed.

Lemma monitor_more fuel fuel' set_at t e : (fuel <= fuel')%nat ->
  monitor fuel set_at t = Some e -> monitor fuel' set_at t = Some e.
Proof.
  destruct set_at as [T|]; [|rewrite monitor_never; discriminate].
  revert fuel' t. induction fuel as [|fuel IH]; intros fuel' t Hf H; cbn in H.
  - destruct (T <=? t) eqn:Et; [|done]. destruct fuel'; cbn; by rewrite Et.
  - destruct fuel' as [|fuel']; [lia|]. cbn. destruct (T <=? t); [done|]. apply IH; [lia|done].
Qed.

Lemma wait_more fuel fuel' set_at started now ws e : (fuel <= fuel')%nat ->
  wait fuel set_at started now ws = Some e -> wait fuel' set_at started now ws = Some e.
Proof.
  intros Hf. revert now. induction ws as [|[pid p a|r [h|] p] ws IH]; intros now; cbn; try done; try apply IH.
  destruct (monitor fuel (set_at r) (started h)) as [e'|] eqn:Em; [|done].
  rewrite (monitor_more _ _ _ _ _ Hf Em). apply IH.
Qed.

(** Once the runtimes of all tasks are told to shut down, [wait] returns within
    a polling interval. *)
Lemma wait_ends T set_at started ws :
  (forall r h p, Task r (Some h) p ∈ ws -> set_at r = Some T /\ started h <= T + POLL_MS) ->
  forall now, exists fuel e, wait fuel set_at started now ws = Some e /\ e <= Z.max now (T + POLL_MS).
Proof.
  induction ws as [|w ws IH]; intros Hw now.
  { exists 0%nat, now. split; [done|]. lia. }
  assert (forall r h p, Task r (Some h) p ∈ ws -> set_at r = Some T /\ started h <= T + POLL_MS) as Hws.
  { intros r h p Hin. by apply (Hw r h p), elem_of_cons; right. }
  destruct w as [pid p a|r [h|] p]; [exact (IH Hws now)| |exact (IH Hws now)].
  destruct (Hw r h p) as [Hset Hst]; [by apply elem_of_cons; left|].
  destruct (monitor_ends T (started h)) as (f1 & e1 & M1 & M2).
  destruct (IH Hws (Z.max now e1)) as (f2 & e2 & W1 & W2).
  exists (Nat.max f1 f2), e2. cbn [wait]. rewrite Hset, (monitor_more f1 _ _ _ e1) by (lia || done).
  split; [|lia]. by apply (wait_more f2); [lia|].
Qed.

(** It never returns while the runtime of a task is not told to. *)
Lemma wait_blocks fuel set_at started now ws r h p :
  Task r (Some h) p ∈ ws -> set_at r = None -> wait fuel set_at started now ws = None.
Proof.
  intros Hin Hr. revert now. induction ws as [|w ws IH]; intros now; [by apply not_elem_of_nil in Hin|].
  apply elem_of_cons in Hin as [<-|Hin].
  - cbn. by rewrite Hr, monitor_never.
  - destruct w as [pid q a|r' [h'|] q]; cbn; try by apply IH.
    destruct (monitor fuel (set_at r') (started h')); [by apply IH|done].
Qed.

(** *** The table of children *)

(** While a thread waits for a child that does not exit, the children cannot
    be told to: the lock is held. *)
Lemma waiting_holds_lock t ls t' pid l : truns t ls t' -> waiting t = Some l -> pid ∈ l -> pid ∈ running t ->
  Exit pid ∉ ls -> (exists l', waiting t' = Some l' /\ pid ∈ l') /\ ShutdownAll ∉ ls /\ forall kill, KillAll kill ∉ ls.
Proof.
  intros Hr. revert l. induction Hr as [t|t lb t' ls t'' Hstep Hr IH]; intros l Hw Hp Hrun Hex.
  { split; [by exists l|]. split; [|intros]; apply not_elem_of_nil. }
  apply not_elem_of_cons in Hex as [Hex1 Hex2].
  assert (exists l', waiting t' = Some l' /\ pid ∈ l' /\ pid ∈ running t' /\ lb <> ShutdownAll /\
            forall kill, lb <> KillAll kill) as (l' & W & P & R & N1 & N2).
  { destruct Hstep as [t q Hq|t Hn|t q rest Hq Hnr|t Hn|t kill Hn|t Hn]; try congruence.
    - exists l. split; [done|]. split; [done|]. split; [|done]. cbn. apply list_elem_of_filter. split; [|done].
      intros ->. by apply Hex1.
    - rewrite Hw in Hq. injection Hq as ->. apply elem_of_cons in Hp as [->|Hp]; [done|].
      exists rest. done.
    - rewrite Hw in Hn. injection Hn as ->. by apply not_elem_of_nil in Hp. }
  destruct (IH _ W P R Hex2) as (I1 & I2 & I3). split; [done|]. split.
  - apply not_elem_of_cons. by split.
  - intros kill. apply not_elem_of_cons. split; [|by apply I3]. intros Hk. by apply (N2 kill).
Qed.

(** A child counts as running until the table is cleared. *)
Lemma exited_counts_as_running t pid t' :
  pid ∈ children t -> tstep t (Exit pid) t' -> is_worker_running pid t' = true.
Proof.
  intros Hin Hs. inversion Hs; subst. unfold is_worker_running. cbn. apply existsb_exists.
  exists pid. split; [by apply list_elem_of_In|]. apply Z.eqb_refl.
Qed.

(** *** Shutdown *)

Lemma shutdown_worker_lookup {S} w (x : World (S := S)) r rt : store x !! r = Some rt ->
  store (shutdown_worker w x) !! r =
  Some (if decide (runtime w = Some r) then request_shutdown rt else rt).
Proof.
  intros Hr. destruct w as [pid p a|r' h p]; cbn [shutdown_worker runtime]; [by rewrite decide_False|].
  cbn [store]. destruct (decide (Some r' = Some r)) as [[= ->]|Hne].
  - by rewrite list_lookup_alter_eq, Hr.
  - rewrite list_lookup_alter_ne; [done|]. by intros ->.
Qed.

Lemma shutdown_flags {S} ws : forall (x : World (S := S)) r rt, store x !! r = Some rt ->
  r ∈ omap runtime ws \/ is_shutting_down rt = true ->
  exists rt', store (fold_left (fun x w => shutdown_worker w x) ws x) !! r = Some rt' /\ is_shutting_down rt' = true.
Proof.
  induction ws as [|w ws IH]; intros x r rt Hr Hin; cbn.
  { destruct Hin as [Hin|Hs]; [by apply not_elem_of_nil in Hin|by exists rt]. }
  eapply IH; [by apply shutdown_worker_lookup|]. case_decide as Hd; [by right|].
  destruct Hin as [Hin|Hs]; [|by right]. cbn in Hin. destruct (runtime w) as [r'|]; [|by left].
  apply elem_of_cons in Hin as [->|Hin]; [done|by left].
Qed.

Lemma worker_ports served {S E} (factory : nat -> result S E) base n x ws x' :
  0 <= base -> base + Z.of_nat n <= 65536 ->
  spawn_workers served factory base (seq 0 n) x = (Ok ws, x') -> port <$> ws = seqZ base (Z.of_nat n).
Proof.
  intros Hb Hn H. apply spawn_workers_Ok in H as (_ & -> & _). unfold seqZ. rewrite Nat2Z.id.
  apply list_fmap_ext. intros j i Hi. apply lookup_seq in Hi as [Hi Hj]. subst i.
  rewrite (worker_port_small base (Z.of_nat n)) by lia. lia.
Qed.

(** ** Property *)

(** C27. A cluster of tasks. Its workers have runtimes of their own and
    consecutive ports. The pool over them, whatever the order in which requests
    reach it, is as good as that many separate runtimes: each answers exactly
    the requests of its share, in their order, as it would alone, and the
    shares differ by at most one request. After [shutdown] the flag of every
    runtime is set, and from then on [wait] returns within one polling
    interval; as long as the flag of one monitored runtime is not set it never
    returns. *)
Theorem cluster_spec {S Req Ans E : Type} (handle : Req -> S -> result Ans E * S) (served : bool) (missing : string)
    (b : ClusterBuilder (S := S) (E := E)) (factory : nat -> result S E) (x x' y : World (S := S)) (c : Cluster)
    (reqs : list Req) (answers : list (option (result Ans E))) (p : RuntimePool) :
  runtime_factory b = Some factory -> (0 < b_worker_count b)%nat ->
  0 <= b_base_port b -> b_base_port b + Z.of_nat (b_worker_count b) <= 65536 ->
  spawn_with served missing b x = (Ok c, x') -> Z.of_nat (length reqs) < USIZE ->
  handle_all handle reqs (from_workers (workers c)) x' = (answers, p, y) ->
  let n := Z.of_nat (b_worker_count b) in
  port <$> workers c = seqZ (b_base_port b) n /\
  (forall i, (i < b_worker_count b)%nat -> exists s, factory i = Ok s /\
     let mine := share n (Z.of_nat i) 0 reqs in
     store y !! (length (store x) + i)%nat =
       Some {| shared := (run_alone handle mine s).2; is_shutting_down := false |} /\
     share n (Z.of_nat i) 0 answers = Some <$> (run_alone handle mine s).1 /\
     Z.of_nat (length mine) = (Z.of_nat (length reqs) + n - 1 - Z.of_nat i) / n) /\
  (forall r, r ∈ runtimes c -> exists rt, store (shutdown c y) !! r = Some rt /\ is_shutting_down rt = true) /\
  forall T set_at started now,
    (forall r, r ∈ runtimes c -> set_at r = Some T) -> (forall h, started h <= T + POLL_MS) ->
    exists fuel e, wait fuel set_at started now (workers c) = Some e /\ e <= Z.max now (T + POLL_MS).
Proof.
  intros Hf Hn Hb Hbn Hs Hlen Hall n. unfold spawn_with in Hs. rewrite Hf in Hs.
  destruct (spawn_workers served factory _ _ x) as [[ws|] x1] eqn:Es; [|done]. injection Hs as <- <-.
  cbn [workers new] in *. pose proof (worker_ports served factory _ _ _ _ _ Hb Hbn Es) as Hports.
  apply spawn_workers_Ok in Es as (Hrt & _ & ss & Hss & Hst).
  rewrite length_seq in Hrt. unfold from_workers in Hall. rewrite Hrt in Hall.
  pose proof (Forall2_length _ _ _ Hss) as Hls. rewrite length_seq in Hls.
  assert (forall i, (i < b_worker_count b)%nat -> exists s, factory i = Ok s /\
            store x1 !! (length (store x) + i)%nat = Some (fresh s)) as Hi.
  { intros i Hi. destruct (lookup_lt_is_Some_2 ss i) as [s Hsi]; [lia|].
    exists s. destruct (Forall2_lookup_r _ _ _ _ _ Hss Hsi) as (j & Hj & Hfj). apply lookup_seq in Hj as [-> _].
    split; [done|]. rewrite Hst, lookup_app_r by lia. replace (_ + i - _)%nat with i by lia.
    by rewrite list_lookup_fmap, Hsi. }
  assert (in_store (seq (length (store x)) (b_worker_count b)) x1) as Hin.
  { apply Forall_forall. intros r Hr%elem_of_seq. destruct (Hi (r - length (store x))%nat ltac:(lia)) as (s & _ & Hl).
    replace (length (store x) + (r - length (store x)))%nat with r in Hl by lia. by rewrite Hl. }
  assert (seq (length (store x)) (b_worker_count b) <> []) as Hne by (destruct (b_worker_count b); [lia|done]).
  pose proof (handle_all_shares handle _ reqs 0 x1 answers p y Hne (NoDup_seq _ _) Hin
    ltac:(lia) ltac:(lia) Hall) as Hsh. rewrite length_seq in Hsh. fold n in Hsh.
  assert (forall i, (i < b_worker_count b)%nat -> seq (length (store x)) (b_worker_count b) !! Z.to_nat (Z.of_nat i) =
            Some (length (store x) + i)%nat) as Hseq by (intros i ?; rewrite Nat2Z.id; apply lookup_seq; lia).
  split; [exact Hports|]. split; [|split].
  - intros i Hlt. destruct (Hi i Hlt) as (s & Hfs & Hx1). exists s. split; [done|]. cbv zeta.
    destruct (Hsh _ _ _ (Hseq i Hlt) ltac:(lia) Hx1) as [S1 S2]. split; [exact S1|]. split; [exact S2|].
    rewrite (length_share n) by lia. rewrite (Z.div_small (0 + n - 1 - _)) by lia. rewrite Z.sub_0_r. f_equal.
  - unfold runtimes, shutdown. unfold new; cbn [workers]. intros r Hr. rewrite Hrt in Hr. pose proof Hr as Hr'.
    apply elem_of_seq in Hr'. destruct (Hi (r - length (store x))%nat ltac:(lia)) as (s & _ & Hx1).
    destruct (Hsh _ _ _ (Hseq (r - length (store x))%nat ltac:(lia)) ltac:(lia) Hx1) as [S1 _].
    replace (length (store x) + (r - length (store x)))%nat with r in S1 by lia.
    eapply shutdown_flags; [exact S1|]. left. by rewrite Hrt.
  - intros T set_at started now Hset Hst'. apply wait_ends. intros r h q Hin'. split; [|done]. apply Hset.
    unfold runtimes. cbn [workers]. apply list_elem_of_omap. by exists (Task r (Some h) q).
Qed.

(** Three workers count the letters they are sent. *)
Definition letters_builder : ClusterBuilder (S := Z) (E := string) :=
  with_runtime_factory (fun i => Ok (100 * Z.of_nat i)) (with_workers 3 (builder 8)).
Definition letters (w : string) (s : Z) : result Z string * Z := (Ok (Str.len w), s + Str.len w).

Lemma cluster_spec_witness :
  (forall c x', spawn_tasks letters_builder {| store := []; monitors := [] |} = (Ok c, x') ->
     port <$> workers c = [3001; 3002; 3003]) /\
  exists y, handle_all letters ["a"; "bb"; "ccc"; "dddd"] {| pool := [0; 1; 2]%nat; next_index := 0 |}
      {| store := [fresh 0; fresh 100; fresh 200]; monitors := [0; 1; 2]%nat |} =
    ([Some (Ok 1); Some (Ok 2); Some (Ok 3); Some (Ok 4)], {| pool := [0; 1; 2]%nat; next_index := 4 |}, y) /\
    store y !! 0%nat = Some (fresh 5).
Proof.
  assert (forall c x' answers p y, spawn_tasks letters_builder {| store := []; monitors := [] |} = (Ok c, x') ->
    handle_all letters ["a"; "bb"; "ccc"; "dddd"] (from_workers (workers c)) x' = (answers, p, y) ->
    port <$> workers c = [3001; 3002; 3003] /\ store y !! 0%nat = Some (fresh 5)) as H.
  { intros c x' answers p y H1 H2.
    destruct (cluster_spec letters true "runtime_factory is required for spawn_tasks" letters_builder
      (fun i => Ok (100 * Z.of_nat i)) {| store := []; monitors := [] |} x' y c ["a"; "bb"; "ccc"; "dddd"] answers p
      eq_refl ltac:(cbn; lia) ltac:(done) ltac:(done) H1 ltac:(done) H2) as (Hp & Hi & _).
    split; [rewrite Hp; reflexivity|]. destruct (Hi 0%nat ltac:(cbn; lia)) as (s & Hs & Hy & _).
    injection Hs as <-. rewrite (Hy : store y !! 0%nat = _). reflexivity. }
  split.
  - intros c x' Hs. destruct (handle_all letters ["a"; "bb"; "ccc"; "dddd"] (from_workers (workers c)) x') as [[a p] y] eqn:E.
    by destruct (H _ _ _ _ _ Hs E).
  - eexists. split; [vm_compute; reflexivity|]. reflexivity.
Defined.
