(* ===== verification/Main.v ===== *)
(** Main: the command line, of [src/src/main.rs]: the options that are
    declared, how a command line is read, and the call it becomes; and which of
    the program's own command lines the program accepts.

    clap is a parameter: it finds the arguments of a command line according to
    the declarations. What its derive macro makes of the declarations (defaults
    and types) is written out. *)

From stdpp Require Import pretty.
From S2P Require Import Prelude HostConfig Run Logs Instances Cluster New Caches Strip Cli.

#[local] Open Scope Z_scope.

(** ** Declarations *)

Inductive Takes := Switch | Val.

Record Arg := {
  long : string;
  short : option ascii;
  takes : Takes;
}.

Inductive Positional := Nothing | Optional | Required | Many.

Record Sub := {
  positional : Positional;
  args : list Arg;
}.

Definition arg (long : string) (takes : Takes) : Arg := {| long := long; short := None; takes := takes |}.
Definition short_arg (long : string) (short : ascii) (takes : Takes) : Arg :=
  {| long := long; short := Some short; takes := takes |}.

(** The options of the program itself, valid everywhere *)
Definition global_args : list Arg := [arg "version-verbose" Switch; short_arg "verbose" "v" Switch].

(** The subcommands, their words on the command line, and their arguments *)
Inductive Name :=
| n_dev | n_stop | n_daemon | n_ps | n_stats | n_logs | n_inspect | n_prune
| n_cache_info | n_cache_clean | n_cache_clear | n_completions | n_new | n_add | n_remove | n_build
| n_run | n_sync | n_static | n_strip.

Definition all_names : list Name := [
  n_dev; n_stop; n_daemon; n_ps; n_stats; n_logs; n_inspect; n_prune;
  n_cache_info; n_cache_clean; n_cache_clear; n_completions; n_new; n_add; n_remove; n_build;
  n_run; n_sync; n_static; n_strip].

Definition words (n : Name) : list string :=
  match n with
  | n_dev => ["dev"]
  | n_stop => ["stop"]
  | n_daemon => ["daemon"]
  | n_ps => ["ps"]
  | n_stats => ["stats"]
  | n_logs => ["logs"]
  | n_inspect => ["inspect"]
  | n_prune => ["prune"]
  | n_cache_info => ["cache"; "info"]
  | n_cache_clean => ["cache"; "clean"]
  | n_cache_clear => ["cache"; "clear"]
  | n_completions => ["completions"]
  | n_new => ["new"]
  | n_add => ["add"]
  | n_remove => ["remove"]
  | n_build => ["build"]
  | n_run => ["run"]
  | n_sync => ["sync"]
  | n_static => ["static"]
  | n_strip => ["strip"]
  end.

Definition sub (p : Positional) (l : list Arg) : Sub := {| positional := p; args := l |}.

Definition SPEC (n : Name) : Sub :=
  match n with
  | n_dev => sub Nothing [short_arg "port" "p" Val; arg "no-services" Switch]
  | n_stop => sub Optional []
  | n_daemon => sub Nothing [short_arg "port" "p" Val]
  | n_ps => sub Nothing [arg "json" Switch]
  | n_stats => sub Nothing []
  | n_logs => sub Optional [short_arg "follow" "f" Switch; short_arg "lines" "n" Val]
  | n_inspect => sub Required []
  | n_prune => sub Nothing []
  | n_cache_info => sub Nothing []
  | n_cache_clean => sub Nothing [arg "max-size-mb" Val]
  | n_cache_clear => sub Nothing []
  | n_completions => sub Required []
  | n_new => sub Required [short_arg "lang" "l" Val; short_arg "template" "t" Val; short_arg "yes" "y" Switch]
  | n_add => sub Many
      [arg "git" Val; arg "path" Val; arg "tag" Val; arg "branch" Val; short_arg "dev" "D" Switch]
  | n_remove => sub Many [short_arg "dev" "D" Switch]
  | n_build => sub Nothing
      [short_arg "release" "r" Switch; short_arg "compose" "c" Switch; short_arg "lang" "l" Val;
       arg "no-schema" Switch]
  | n_run => sub Optional
      [short_arg "detach" "d" Switch; short_arg "name" "n" Val; short_arg "workers" "w" Val;
       short_arg "port" "p" Val; short_arg "local" "l" Switch; arg "lb" Switch]
  | n_sync => sub Nothing []
  | n_static => sub Nothing [short_arg "output" "o" Val]
  | n_strip => sub Required [short_arg "output" "o" Val; arg "debug-only" Switch]
  end.

Definition declared (sub : Sub) (l : string) : option Takes :=
  takes <$> find (fun a => String.eqb l (long a)) (args sub ++ global_args).

(** ** Commands *)

Inductive Commands :=
| Dev (port : Z) (no_services : bool)
| Stop (name : string)
| Daemon (port : option Z)
| Ps (json : bool)
| Stats
| Logs (name : string) (follow : bool) (lines : Z)
| Inspect (name : string)
| Prune
| Cache (action : CacheAction)
| Completions (shell : string)
| New (name : string) (lang template : option string) (yes : bool)
| Add (packages : list string) (git path tag branch : option string) (dev : bool)
| Remove (packages : list string) (dev : bool)
| Build (release compose : bool) (lang : option string) (no_schema : bool)
| Run (component : option string) (detach : bool) (name : string) (workers : Z) (port : option Z) (local lb : bool)
| Sync
| Static (output : option string)
| Strip (input : string) (output : option string) (debug_only : bool).

Record Cli := {
  command : option Commands;
  version_verbose : bool;
  verbose : bool;
}.

(** What clap finds on a command line *)
Record Matches := {
  subcommand : option Name;
  switches : list string;
  values : list (string * string);
  positionals : list string;
}.

Section Derive.
(** clap's value parsers for numbers and for the shells *)
Variable u16_of u64_of : string -> option Z.
Variable is_shell : string -> bool.

Definition has (l : string) (m : Matches) : bool := existsb (String.eqb l) (switches m).
Definition value (l : string) (m : Matches) : option string :=
  snd <$> find (fun kv => String.eqb l kv.1) (values m).
Definition first (m : Matches) : option string := head (positionals m).

(** A typed value: absent, or as it reads. *)
Definition typed (parse : string -> option Z) (l : string) (m : Matches) : option (option Z) :=
  match value l m with
  | None => Some None
  | Some s => Some <$> parse s
  end.
Definition number (parse : string -> option Z) (l : string) (d : Z) (m : Matches) : option Z :=
  default d <$> typed parse l m.
Definition one_of_values (allowed : list string) (l : string) (m : Matches) : option (option string) :=
  match value l m with
  | None => Some None
  | Some s => if is_one_of s allowed then Some (Some s) else None
  end.

Definition commands (n : Name) (m : Matches) : option Commands :=
  match n with
  | n_dev => port ← number u16_of "port" 3000 m; Some (Dev port (has "no-services" m))
  | n_stop => Some (Stop (default "default" (first m)))
  | n_daemon => port ← typed u16_of "port" m; Some (Daemon port)
  | n_ps => Some (Ps (has "json" m))
  | n_stats => Some Stats
  | n_logs => lines ← number u64_of "lines" 50 m; Some (Logs (default "default" (first m)) (has "follow" m) lines)
  | n_inspect => Inspect <$> first m
  | n_prune => Some Prune
  | n_cache_info => Some (Cache Info)
  | n_cache_clean => mb ← number u64_of "max-size-mb" 1024 m; Some (Cache (Clean mb))
  | n_cache_clear => Some (Cache Clear)
  | n_completions => shell ← first m; if is_shell shell then Some (Completions shell) else None
  | n_new => name ← first m; Some (New name (value "lang" m) (value "template" m) (has "yes" m))
  | n_add => Some (Add (positionals m) (value "git" m) (value "path" m) (value "tag" m) (value "branch" m) (has "dev" m))
  | n_remove => Some (Remove (positionals m) (has "dev" m))
  | n_build =>
      lang ← one_of_values ["rust"; "rs"; "typescript"; "ts"] "lang" m;
      Some (Build (has "release" m) (has "compose" m) lang (has "no-schema" m))
  | n_run =>
      workers ← number u16_of "workers" 1 m;
      port ← typed u16_of "port" m;
      Some (Run (first m) (has "detach" m) (default "default" (value "name" m)) workers port (has "local" m) (has "lb" m))
  | n_sync => Some Sync
  | n_static => Some (Static (value "output" m))
  | n_strip => input ← first m; Some (Strip input (value "output" m) (has "debug-only" m))
  end.

Definition from_arg_matches (m : Matches) : option Cli :=
  let globals c := {| command := c; version_verbose := has "version-verbose" m; verbose := has "verbose" m |} in
  match subcommand m with
  | None => Some (globals None)
  | Some n => globals ∘ Some <$> commands n m
  end.
End Derive.

(** ** Calls *)

(** The function of [commands] that is called, with its arguments *)
Inductive Call :=
| dev_execute (port : Z) (no_services : bool)
| daemon_stop (name : string)
| daemon_start (port : option Z)
| daemon_ps (json : bool)
| daemon_stats
| daemon_logs (name : string) (follow : bool) (lines : Z)
| daemon_inspect (name : string)
| daemon_prune
| cache_execute (action : CacheAction)
| print_completions (shell : string)
| new_execute (options : NewOptions)
| add_execute (packages : list string) (git path tag branch : option string) (dev : bool)
| add_remove (packages : list string) (dev : bool)
| build_execute (release compose : bool) (lang : option string) (no_schema : bool)
| daemon_run_detached (name : string) (port : Z)
| run_execute (component : option string) (workers : Z) (port : option Z) (local lb : bool)
| pull_sync
| static_execute (output : option string)
| strip_execute (input : string) (options : StripOptions).

Definition github_template_of (l : Language) (template : option string) : option string :=
  match template with
  | Some t => if (Str.starts_with "github:" t || Str.contains_char Str.SLASH t)%bool then Some t else None
  | None => Some match l with
                 | Rust => "dufeutech/mik-handler-template"
                 | TypeScript => "dufeutech/mik-handler-template-ts"
                 end
  end.

(** [and_then(.. .ok()).unwrap_or_default()] *)
Definition or_default {A} (d : A) (parse : string -> result A string) (s : option string) : A :=
  match s with
  | Some s => match parse s with Ok a => a | Err _ => d end
  | None => d
  end.

Definition new_options (n : string) (lang template : option string) (yes : bool) : NewOptions :=
  let l := or_default Rust language_from_str lang in
  let github_template := github_template_of l template in
  {| New.name := n; New.lang := l;
     New.template := match github_template with None => or_default Basic template_from_str template | Some _ => Basic end;
     New.yes := yes; New.github_template := github_template |}.

Definition dispatch (c : Commands) : Call :=
  match c with
  | Dev port no_services => dev_execute port no_services
  | Stop name => daemon_stop name
  | Daemon port => daemon_start port
  | Ps json => daemon_ps json
  | Stats => daemon_stats
  | Logs name follow lines => daemon_logs name follow lines
  | Inspect name => daemon_inspect name
  | Prune => daemon_prune
  | Cache action => cache_execute action
  | Completions shell => print_completions shell
  | New name lang template yes => new_execute (new_options name lang template yes)
  | Add packages git path tag branch dev => add_execute packages git path tag branch dev
  | Remove packages dev => add_remove packages dev
  | Build release compose lang no_schema => build_execute release compose lang no_schema
  | Run component detach name workers port local lb =>
      if detach then daemon_run_detached name (default 3000 port) else run_execute component workers port local lb
  | Sync => pull_sync
  | Static output => static_execute output
  | Strip input output debug_only =>
      strip_execute input {| Strip.all := negb debug_only; Strip.debug := debug_only; Strip.names := false;
                             Strip.producers := false; Strip.output := output |}
  end.

(** The program, up to the call: it ends in clap, prints its version, lacks a
    subcommand (exit code 1), or calls, with RUST_LOG set to debug or not. *)
Inductive Exit :=
| Refused
| PrintedVersion
| MissingSubcommand
| Calls (set_rust_log : bool) (c : Call).

Section Main.
Variable clap : list string -> result Matches string.
Variable u16_of u64_of : string -> option Z.
Variable is_shell : string -> bool.

(** [Cli::parse] *)
Definition parse (argv : list string) : option Cli :=
  match clap argv with
  | Ok m => from_arg_matches u16_of u64_of is_shell m
  | Err _ => None
  end.

Definition main (rust_log : bool) (argv : list string) : Exit :=
  match parse argv with
  | None => Refused
  | Some cli =>
      if version_verbose cli then PrintedVersion
      else match command cli with
           | None => MissingSubcommand
           | Some c => Calls (verbose cli && negb rust_log)%bool (dispatch c)
           end
  end.
End Main.

(** The command line the daemon is started with ([startup.rs]) *)
Definition daemon_args : list string := ["daemon"; "--port"; Str.of_Z DAEMON_PORT].

(** ** Well-formed command lines *)

Inductive Tok :=
| Pos (s : string)
| Flag (l : string)
| With (l v : string).

Definition render (t : Tok) : list string :=
  match t with
  | Pos s => [s]
  | Flag l => ["--" +:+ l]
  | With l v => ["--" +:+ l; v]
  end.

Definition is_dashed (s : string) : bool := Str.starts_with "-" s.

Definition tok_ok (sub : Sub) (t : Tok) : bool :=
  match t with
  | Pos s => negb (is_dashed s)
  | Flag l => match declared sub l with Some Switch => true | _ => false end
  | With l v => match declared sub l with Some Val => negb (is_dashed v) | _ => false end
  end.

Definition tok_long (t : Tok) : option string :=
  match t with Pos _ => None | Flag l => Some l | With l _ => Some l end.

Definition arity (p : Positional) (n : nat) : bool :=
  match p, n with
  | Nothing, O => true
  | Optional, (O | 1)%nat => true
  | Required, 1%nat => true
  | Many, S _ => true
  | _, _ => false
  end.

Definition collect (n : Name) (toks : list Tok) : Matches := {|
  subcommand := Some n;
  switches := omap (fun t => match t with Flag l => Some l | _ => None end) toks;
  values := omap (fun t => match t with With l v => Some (l, v) | _ => None end) toks;
  positionals := omap (fun t => match t with Pos s => Some s | _ => None end) toks |}.

Definition well_formed (sub : Sub) (toks : list Tok) : bool :=
  (forallb (tok_ok sub) toks && bool_decide (NoDup (omap tok_long toks)) &&
   arity (positional sub) (length (omap (fun t => match t with Pos s => Some s | _ => None end) toks)))%bool.

(** What the program relies on: a command line that keeps to the declarations
    is read as it is meant; an option that is not declared is an error,
    whatever stands around it ([--help] ends the program as well); a port is
    read as it is printed. *)
Class ClapLaws (clap : list string -> result Matches string) (u16_of : string -> option Z) : Prop := {
  clap_accepts n toks : well_formed (SPEC n) toks = true ->
    clap (words n ++ mjoin (render <$> toks)) = Ok (collect n toks);
  clap_refuses n before l after : declared (SPEC n) l = None ->
    l <> EmptyString -> Str.contains_char "=" l = false -> "--" ∉ before ->
    is_ok (clap (words n ++ before ++ ["--" +:+ l] ++ after)) = false;
  u16_of_Z z : is_u16 z -> u16_of (Str.of_Z z) = Some z;
}.

(** ** Lemmas *)

(** clap refuses a program in which two options of a command share a name or a
    letter (with [-h] and [--help]). *)
Definition distinct_args (sub : Sub) : bool :=
  let l := args sub ++ global_args ++ [short_arg "help" "h" Switch] in
  (bool_decide (NoDup (long <$> l)) && bool_decide (NoDup (omap short l)))%bool.

Lemma args_distinct n : distinct_args (SPEC n) = true.
Proof. destruct n; vm_compute; reflexivity. Qed.

Lemma pretty_pos_plain p s : pretty_N (N.pos p) <> String "-" s.
Proof. unfold pretty_N. rewrite decide_False by done. by apply (pretty_N_go_ne_dash _ EmptyString s). Qed.

Lemma of_Z_not_escape z : Str.of_Z z <> "--".
Proof.
  destruct z as [|p|p]; [done|apply (pretty_pos_plain p "-")|].
  change (String "-" (pretty_N (N.pos p)) <> "--"). intros [= E]. by apply pretty_pos_plain in E.
Qed.

Lemma of_Z_plain z : is_u16 z -> is_dashed (Str.of_Z z) = false.
Proof.
  unfold is_u16. destruct z as [|p|p]; [done| |lia]. intros _.
  change (Str.of_Z (Z.pos p)) with (pretty_N (N.pos p)).
  unfold is_dashed, Str.starts_with. destruct (pretty_N _) as [|c s] eqn:E; [done|]. cbn.
  destruct (Ascii.eqb_spec "-" c) as [<-|]; [|done]. by apply pretty_pos_plain in E.
Qed.

(** Without a template, [mik new] never asks and never uses what is embedded. *)
Lemma new_default_github n lang yes : New.github_template (new_options n lang None yes) <> None.
Proof. done. Qed.

Lemma single_config_port exists_ glob open_file from_manifest path p hot c :
  single_config exists_ glob open_file from_manifest path (Some p) hot = Ok c -> HostConfig.port c = p.
Proof.
  unfold single_config. cbv zeta.
  match goal with |- res_bind ?b _ = _ -> _ => destruct b as [b'|] end; [|done]. cbn. intros [= <-]. by destruct hot.
Qed.

Section Spawned.
Context (clap : list string -> result Matches string) (u16_of u64_of : string -> option Z) (is_shell : string -> bool).
Context `{ClapLaws clap u16_of}.

Lemma main_refused rust_log n before l after : declared (SPEC n) l = None ->
  l <> EmptyString -> Str.contains_char "=" l = false -> "--" ∉ before ->
  main clap u16_of u64_of is_shell rust_log (words n ++ before ++ ["--" +:+ l] ++ after) = Refused.
Proof.
  intros Hd Hl He Hb. unfold main, parse. pose proof (clap_refuses n before l after Hd Hl He Hb) as Hc.
  by destruct (clap _).
Qed.

Lemma main_accepted n toks argv : well_formed (SPEC n) toks = true -> argv = words n ++ mjoin (render <$> toks) ->
  parse clap u16_of u64_of is_shell argv = from_arg_matches u16_of u64_of is_shell (collect n toks).
Proof. intros Hw ->. unfold parse. by rewrite (clap_accepts n toks Hw). Qed.

Lemma worker_accepted rust_log path local port_of i :
  (forall p, path = Some p -> is_dashed p = false) -> is_u16 (port_of i) ->
  main clap u16_of u64_of is_shell rust_log (w_args (worker_command path local port_of i)) =
  Calls false (run_execute path 1 (Some (port_of i)) false false).
Proof.
  intros Hp Hi. unfold main.
  set (toks := match path with Some p => [Pos p] | None => [] end ++ [With "port" (Str.of_Z (port_of i))]).
  rewrite (main_accepted n_run toks); [| |by destruct path].
  - assert (from_arg_matches u16_of u64_of is_shell (collect n_run toks) =
      Some {| command := Some (Run path false "default" 1 (Some (port_of i)) false false);
              version_verbose := false; verbose := false |}) as ->; [|done].
    pose proof (u16_of_Z _ Hi) as E. revert E. unfold toks. generalize (Str.of_Z (port_of i)). intros v E.
    destruct path as [p|]; lazy; by rewrite E.
  - unfold well_formed, toks. rewrite forallb_app. cbn [forallb tok_ok]. rewrite of_Z_plain by done.
    destruct path as [p|]; cbn [forallb tok_ok]; [rewrite (Hp p) by done|]; by vm_compute.
Qed.

Lemma daemon_accepted rust_log :
  main clap u16_of u64_of is_shell rust_log daemon_args = Calls false (daemon_start (Some DAEMON_PORT)).
Proof.
  assert (is_u16 DAEMON_PORT) as Hu by (unfold DAEMON_PORT, is_u16; lia).
  unfold main. rewrite (main_accepted n_daemon [With "port" (Str.of_Z DAEMON_PORT)]); [|by vm_compute|done].
  assert (from_arg_matches u16_of u64_of is_shell (collect n_daemon [With "port" (Str.of_Z DAEMON_PORT)]) =
    Some {| command := Some (Daemon (Some DAEMON_PORT)); version_verbose := false; verbose := false |}) as ->; [|done].
  pose proof (u16_of_Z _ Hu) as E. revert E. generalize (Str.of_Z DAEMON_PORT). intros v E. lazy. by rewrite E.
Qed.

(** C22. The command lines the program starts itself with. The workers of
    [mik run --workers] and the daemon are read as they are meant: a worker
    serves the component it is given, alone and on the port it is given. The
    command line of an instance ([mik dev], [mik run --detach], the daemon) and
    that of a worker of the cluster library use options that are not declared:
    the program refuses them, whatever the configuration, so that no such
    process ever serves. *)
Theorem spawned_commands (rust_log : bool) :
  let main := main clap u16_of u64_of is_shell rust_log in
  (forall path local port_of i, (forall p, path = Some p -> is_dashed p = false) -> is_u16 (port_of i) ->
     main (w_args (worker_command path local port_of i)) =
       Calls false (run_execute path 1 (Some (port_of i)) false false) /\
     forall spawn exe ctrl_c Addr parse_addr exists_ glob open_file from_manifest hot mik_local host threads load m c a,
       @Run.execute spawn exe ctrl_c Addr parse_addr exists_ glob open_file from_manifest
         path 1 (Some (port_of i)) false false true hot mik_local host threads load m = Served (Ok (c, a)) ->
       HostConfig.port c = port_of i) /\
  main daemon_args = Calls false (daemon_start (Some DAEMON_PORT)) /\
  (forall config, main (Logs.args (server_command config)) = Refused) /\
  (forall port manifest, main (p_args (worker_process port manifest)) = Refused).
Proof.
  intros main.
  assert (forall z, "--" ∉ ["--port"; Str.of_Z z]) as Hb.
  { intros z [E|[E|E%elem_of_nil]%elem_of_cons]%elem_of_cons; try done. by apply (of_Z_not_escape z). }
  split; [|split; [apply daemon_accepted|split]].
  - intros path local port_of i Hp Hi. split; [by apply worker_accepted|].
    intros *. unfold Run.execute, run_single_instance. cbn [Run.mode]. intros [= E].
    destruct (single_config _ _ _ _ _ _ _) as [c'|] eqn:Ec; [|done]. apply single_config_port in Ec.
    cbn in E. destruct (parse_addr _) as [addr|]; [|done]. by injection E as <- <-.
  - intros config. exact (main_refused rust_log n_run ["--port"; Str.of_Z (sc_port config)] "config" [_]
      eq_refl ltac:(done) eq_refl (Hb _)).
  - intros port manifest. exact (main_refused rust_log n_run ["--port"; Str.of_Z port] "manifest" [_]
      eq_refl ltac:(done) eq_refl (Hb _)).
Qed.
End Spawned.

(** ** A parser that keeps to the laws *)

Fixpoint toy_scan (sub : Sub) (argv : list string) : option (list Tok) :=
  match argv with
  | [] => Some []
  | a :: rest =>
      match Str.strip_prefix "--" a with
      | Some l =>
          match declared sub l, rest with
          | Some Switch, _ => cons (Flag l) <$> toy_scan sub rest
          | Some Val, v :: rest' => if is_dashed v then None else cons (With l v) <$> toy_scan sub rest'
          | _, _ => None
          end
      | None => if is_dashed a then None else cons (Pos a) <$> toy_scan sub rest
      end
  end.

Definition toy_clap (argv : list string) : result Matches string :=
  match find (fun n => bool_decide (take (length (words n)) argv = words n)) all_names with
  | Some n =>
      match toy_scan (SPEC n) (drop (length (words n)) argv) with
      | Some toks => Ok (collect n toks)
      | None => Err "unexpected argument"
      end
  | None => Err "unrecognized subcommand"
  end.

Definition toy_u16 (s : string) : option Z := find (fun z => String.eqb s (Str.of_Z z)) (seqZ 0 65536).

Lemma not_dashed s : is_dashed s = false -> Str.strip_prefix "--" s = None.
Proof.
  unfold is_dashed, Str.starts_with. destruct s as [|c s]; [done|]. cbn. by destruct (Ascii.eqb _ c).
Qed.

Lemma toy_scan_render sub toks : forallb (tok_ok sub) toks = true ->
  toy_scan sub (mjoin (render <$> toks)) = Some toks.
Proof.
  induction toks as [|t toks IH]; [done|]. cbn [forallb]. intros [Ht IHt]%andb_true_iff. specialize (IH IHt).
  change (mjoin (render <$> t :: toks)) with (render t ++ mjoin (render <$> toks)).
  destruct t as [s|l|l v]; cbn [tok_ok] in Ht; cbn [render app toy_scan].
  - apply negb_true_iff in Ht. by rewrite (not_dashed _ Ht), Ht, IH.
  - change (Str.strip_prefix "--" ("--" +:+ l)) with (Some l). cbn. destruct (declared sub l) as [[]|]; try done. by rewrite IH.
  - change (Str.strip_prefix "--" ("--" +:+ l)) with (Some l). cbn. destruct (declared sub l) as [[]|]; try done.
    apply negb_true_iff in Ht. by rewrite Ht, IH.
Qed.

Lemma toy_scan_refuses sub l after : declared sub l = None ->
  forall before, toy_scan sub (before ++ ("--" +:+ l) :: after) = None.
Proof.
  intros Hd before. induction before as [[|a before] IH] using (induction_ltof1 _ (@length string)).
  - cbn [app toy_scan]. change (Str.strip_prefix "--" ("--" +:+ l)) with (Some l). cbv beta iota. by rewrite Hd.
  - assert (forall b, (length b <= length before)%nat -> toy_scan sub (b ++ ("--" +:+ l) :: after) = None) as IHb
      by (intros b Hb; apply IH; unfold ltof; cbn; lia).
    cbn [app toy_scan]. destruct (Str.strip_prefix "--" a) as [l'|].
    + destruct (declared sub l') as [[]|]; [by rewrite IHb| |by destruct before].
      destruct before as [|v before]; cbn [app]; [done|].
      destruct (is_dashed v); [done|]. rewrite IHb; [done|cbn; lia].
    + destruct (is_dashed a); [done|]. by rewrite IHb.
Qed.

Lemma toy_words n rest :
  find (fun n' => bool_decide (take (length (words n')) (words n ++ rest) = words n')) all_names = Some n.
Proof. by destruct n, rest. Qed.

#[local] Instance toy_clap_laws : ClapLaws toy_clap toy_u16.
Proof.
  split.
  - intros n toks Hw. unfold toy_clap. rewrite toy_words, drop_app_length.
    apply andb_true_iff in Hw as [[Hw _]%andb_true_iff _]. by rewrite toy_scan_render.
  - intros n before l after Hd _ _ _. unfold toy_clap. rewrite toy_words, drop_app_length. cbn [app].
    by rewrite toy_scan_refuses.
  - intros z Hz. unfold toy_u16. destruct (find _ _) as [z'|] eqn:E.
    + apply find_some in E as [_ E%String.eqb_eq]. unfold Str.of_Z in E. by apply (inj pretty) in E as ->.
    + assert (In z (seqZ 0 65536)) as Hin by (apply list_elem_of_In, elem_of_seqZ; unfold is_u16 in Hz; lia).
      pose proof (find_none _ _ E z Hin) as Hn. cbn in Hn. by rewrite String.eqb_refl in Hn.
Qed.

Lemma spawned_commands_witness :
  main toy_clap toy_u16 (fun _ => None) (fun _ => true) false ["run"; "app.wasm"; "--port"; "8081"] =
    Calls false (run_execute (Some "app.wasm") 1 (Some 8081) false false) /\
  main toy_clap toy_u16 (fun _ => None) (fun _ => true) false ["run"; "--port"; "8081"; "--manifest"; "mik.toml"] = Refused.
Proof.
  destruct (spawned_commands toy_clap toy_u16 (fun _ => None) (fun _ => true) false) as (Hw & _ & _ & Hr).
  destruct (Hw (Some "app.wasm") false (multi_port 8081) 0) as [Ha _];
    [by intros p [= <-]|split; vm_compute; discriminate|].
  split; [exact Ha|exact (Hr 8081 "mik.toml")].
Defined.
